(* ===== verification/_CoqProject ===== *)
-Q . S2P
Prelude.v
Resumption.v
CString.v
CFloat.v
SlotTable.v
ShmProcess.v
SpinLock.v
PerfOptimizer.v
PerfTests.v
CacheExp.v
PolicyManager.v
PolicyProps.v
PolicyTests.v
CollectorShm.v
ShmTenant.v
TenantProps.v
ShmTests.v
TenantSpec.v
TenantTools.v
TenantBooks.v
JsonC.v
TenantDaemon.v
TenantClient.v
TenantRequests.v
TenantCli.v
Intercept.v
Config.v
Core.v
CollectorServer.v
CollectorService.v
CollectorClient.v
LocalPolicy.v
HookBase.v
HooksTenant.v
HooksTenantProps.v
TenantQuota.v
Startup.v
Lifecycle.v
HookSteps.v
HookOverlap.v
LostUpdates.v
QuotaRace.v
Isolation.v
Attack.v
HotUpdate.v
Churn.v
Microbench.v
Abuse.v
ResourceTests.v
HookTests.v
MeasureLatency.v
Hooks.v
HooksProps.v
HooksLimits.v
