(* ===== verification/Prelude.v ===== *)
(** * Verification of rdma_intercept_ldpreload

    The repository is a shared library that is preloaded into programs using
    RDMA.  It replaces the entry points of libibverbs ([ibv_create_qp],
    [ibv_reg_mr], ...), counts the resources each process and each tenant
    holds, and refuses a creation that would exceed a limit.  The limits and
    the counts live in POSIX shared memory objects written by all processes, or
    are asked for over a socket from a collector daemon.  This development
    translates the C code under [src/src] and [src/include] into executable
    Rocq functions over explicit states and proves what the parts promise to
    each other.

    ** The parts of the program and where they are modelled

    - [Prelude] (this file): C integers at their width, record update, the
      effect monad [M] with its rules [wp] (total correctness) and [leads]
      (partial correctness), list lemmas.
    - [CString], [CFloat]: the part of [string.h], [ctype.h], [stdlib.h],
      [sscanf] and [fgets] the program rests on; [float] and [double].
    - [SlotTable]: the scan "the slot of a pid, else a free slot" that both
      shared memories use, over any record with a key, and the finite map it
      stands for.
    - [ShmProcess] ([shm/shared_memory.c]): [data] is [shared_memory_data_t];
      [state] is the calling process's descriptor and pointer, the contents of
      the object, and the operating system's answers.  [SpinLock] takes the same
      calls one memory access at a time, by any number of threads.
    - [ShmTenant] ([shm/shared_memory_tenant.c]): [data] is
      [tenant_shm_data_t] with its spin lock; every [tenant_...] call.
      [TenantProps] states its invariant and runs every call, [TenantSpec] is
      the abstract store (a map from tenant ids to tenants, a map from pids to
      tenant ids) with the simulation, [TenantBooks] the exactness of the
      counters and the calls that break it.
    - [PerfOptimizer] ([performance_optimizer.c]): the read cache and the write
      batch in front of the process table, for every implementation of the
      interface [ProcTable]; [ShmProcess] has the instance.
    - [PolicyManager], [PolicyProps] ([dynamic_policy_manager.c]): the limits per
      resource, the file they are saved to, their publication in the process
      shared memory, the adjusting thread.
    - [CollectorShm] ([collector_server_shm.c]): the service that copies the
      kernel's figures into the process shared memory.
    - [JsonC] (the JSON library as a class with laws; what was printed parses back
      up to the depth json-c accepts), [TenantDaemon]
      ([tenant_manager_daemon.c]), [TenantClient] ([tenant_manager_client.c]),
      [TenantRequests] (the two composed over one connection per command), and
      [TenantCli] ([tenant_manager.c], the tool that works on the shared memory
      without the daemon).
    - [Intercept] ([logger.c] and the declarations of [rdma_intercept.h]),
      [Config] ([config.c]), [Core] ([intercept_core.c]): the library's own
      state, its configuration, log and start-up.
    - [CollectorServer] ([collector_server.c]) and [CollectorClient]
      ([collector_client.c]): the textual protocol, request by request; the
      client is proved against an arbitrary answering function and then
      composed with the server.  [CollectorService] is the program around the
      requests: socket, loop, thread, signals, start-up and cleanup.
    - [LocalPolicy] ([dynamic_policy.c]): the local QP limit that follows the
      server's count.
    - [HookBase]: what both hook files share: the driver (the record
      [externals], with [counts_qps] for a driver that keeps count), the symbols
      found by [dlsym], the mutex-protected local counters.  [HooksTenant]
      ([rdma_hooks_tenant.c], the file CMake links into the library), with
      [HooksTenantProps] and [TenantQuota]; [Hooks] ([rdma_hooks.c], the
      per-process version the tenant version replaced), with [HooksProps] and
      [HooksLimits].
    - [Startup]: the first hook call of a process, which initialises the library
      and binds the process; [Lifecycle]: worlds in which processes start, call
      and end, over one tenant shared object.
    - [Resumption]: computations cut into indivisible actions.  [HookSteps] has
      every tenant hook in this form, one action per critical section, and runs
      any number of processes and administrators in any order; [HookOverlap] is
      what survives the overlapping, [LostUpdates] and [QuotaRace] what does not.
    - Clients of the library, each the whole program run on the models of what it
      calls.  [Microbench]: both programs of experiment 1; [Isolation]: experiments 2, 8 and 9, processes of a tenant that
      create what they can; [Attack] and [Abuse]: the two
      attackers of [exp_mr_dereg]; [HotUpdate]
      and [Churn]: experiments 5 and 3 and [test_intercept.c]; [CacheExp]:
      experiment 4 on the optimiser; [MeasureLatency]: the program of experiment 5
      that works through the daemon; [TenantTools]: the tools of the experiments
      on the tenant memory; [PolicyTests], [PerfTests], [ShmTests], [HookTests],
      [ResourceTests]: seven of the programs of [src/tests].

    How they meet: the hooks call [Config] and [Core] for the configuration
    ([init_if_needed]), the log of [Intercept], the collector client and one of
    the two shared memories; the policy manager, the optimiser and [CollectorShm]
    write the process shared memory, the daemon and the tool the tenant one.  The
    state of a caller is a record with a field per component it calls, and a call
    runs on its field with [zoom].

    ** How C becomes Rocq

    - An integer is a [Z] reduced with [u8], [u32], [u64], [i32] or [i64] after
      each operation that C performs at that width.
    - A function is an element of [M S A := S → result S A].  [Ret] returns,
      [Hang] never returns (a lock that nobody will release), [Crash] is
      undefined behaviour (null pointer, index outside an array, closed file,
      joining a thread twice).  A theorem that a call returns therefore also
      says that it neither hangs nor crashes.
    - A spin lock or mutex is a field of the state; locking a held lock is
      [Hang].  A history is a list of calls, each run to its end: calls of
      different processes alternate in any order, but do not overlap inside a
      critical section.  Two files lift this: [SpinLock] interleaves single
      memory accesses, and [HookSteps] interleaves the critical sections of the
      tenant hooks; both prove that without interruption their steps are the
      calls the other files are about.
    - A C array is a list of the array's length; reading outside is [Crash].
    - Recursion follows an array, a string, the lines of a file, the keys of a
      kernel map, or the list of events a loop waits for.  Only the loop of [Abuse]
      has fuel, the number of its turns: more than there are readings of the clock
      before the time is over is always enough.
      [fgets_from] counts the bytes left in the buffer of [fgets].
    - What the source calls but does not contain (libibverbs, [dlsym], the
      JSON library, the operating system, the eBPF monitor and the kernel's
      maps) is a parameter or a field of the state that holds its answers.  What
      a theorem needs of it is a named hypothesis or a law of a class, and a
      concrete instance meets it.

    ** What is proved

    - Quotas: with a driver that counts its QPs, no history of tenant hook
      calls lets an active tenant hold more QPs than its quota, and no history
      of per-process hook calls lets a process exceed its limit, its slot in
      the shared memory lying between what it holds and that limit
      ([TenantQuota], [HooksLimits]); every hook returns and leaves every
      mutex free.  The memory quota is another matter: the length of a region
      is judged by itself, whatever was granted before ([TenantQuota]).
    - Overlapping hook calls: in any order of the critical sections of any
      number of processes and administrators every call comes to an end and the
      tenant memory stays in order; the quota holds at every moment when no two
      processes share a tenant ([HookOverlap]).  When two do, the test and the
      counting come apart ([QuotaRace]) and counts get lost, so that a tenant
      whose recorded count stays at two can hold as many QPs as the limits per process
      and the global one allow ([LostUpdates]).
    - Start-up and end: the first hook call of a process reaches the state the
      theorems about the hooks begin with; a process for which the library is not
      turned on, or whose log cannot be opened, is let through although it is bound
      to its tenant ([Startup]).  [ibv_create_qp_ex], which the headers of libibverbs
      may define inline, need not be found by [dlsym].  The quota also holds while processes start and
      end, but what a process holds when it ends stays counted: a tenant can lose
      its whole quota for good, and once the table of pids is full newcomers are
      not metered at all ([Lifecycle]).
    - Shared memory: the tenant calls refine a pair of maps; the counters of
      the header equal the numbers of live tenants and mappings; the process
      table refines a map with at most 1024 keys, and interleaved calls have the
      effect of calls run one after the other ([SpinLock]).
    - In front of the process table: while nobody prefetches or switches it off, a
      cached read is what the cache was last told (switched off and on again it is
      stale), batched writes reach the table ([PerfOptimizer]); the limits in the
      memory are the policy's, the policy's file reads back what was saved, but for
      the memory limit, which is read as 32 bits of megabytes ([PolicyProps]); a synchronisation leaves the kernel's figures in the
      table ([CollectorShm]).
    - Tenant management: a command typed at the client has, through JSON, the
      socket and the daemon, the effect of the call on the store; the daemon
      carries out every request except a command that is JSON null, which crashes
      it, and goes on unless the client has left before its answer, in which case
      SIGPIPE kills it; a malformed command changes nothing ([TenantRequests]).  What the tool does with its
      arguments, and to the global limits ([TenantCli]).
    - Configuration: what a file says is what the library uses (a round trip
      through a printer of configurations), and the loaded configuration is
      always valid.
    - Collector: counts stay within limits whatever is requested; the client's
      verdict is the server's; the server reports what the kernel reports; the
      whole program answers its connections in order and leaves nothing behind,
      and any one client can stop it ([CollectorService]).
    - Clients: what a process gets under its tenant's quota does not depend on
      the other tenants, and the experiments report it ([Isolation]); a quota of
      one batch is all an attacker needs to register and deregister a whole batch
      in every turn of its loop ([Attack]), and another keeps doing so with whatever the quota leaves it
      ([Abuse]); a raised quota takes effect at the next attempt ([HotUpdate]);
      a program that destroys each QP before the next is never refused while its
      tenant has room for one and the limit of the process is two or more, whatever
      else is done to the quota ([Churn]); the tools do what the abstract store says
      ([TenantTools]).  A quota asked for through JSON, socket and daemon is the one
      the hooks of the asking process then consult ([MeasureLatency]).  The tests
      of the policy manager and of the shared memory
      pass, the latter under every fair schedule of its ten children; one test of
      the optimiser fails ([PerfTests]); the test of the interception passes and
      leaks its QPs ([HookTests]); the test that expects a refusal crashes when
      there is none ([ResourceTests]).  The statistics of the cache experiment
      are those of the sorted sample, its hits and misses add up, and its
      adaptive mode measures a fixed time to live ([CacheExp]).  The first
      micro-benchmark measures a thousand of everything under a quota of one; the
      second needs ten QPs, measures as many more as there is room for, leaks
      them where it stops early, and writes the sorted latencies as its raw data
      ([Microbench]).
    - Behaviours a reader would not expect, each a theorem about the same
      definitions: the adjusting thread blocks itself, a flush after batching
      was switched off restores old values, usage of a suspended tenant is not
      counted, memory quotas bound a single registration, a destroyed QP still
      counts in the record of its process, rebinding leaves the counts wrong, a
      length near 2^64 passes the server's memory check, and so on.

    ** Left out

    - Messages: a log message is kept with its level, in English and abridged;
      traces on the standard streams leave no state and are omitted, except
      where they are what a program is for (the answers [TenantClient] prints).
    - A connection is one message each way, of which a send may fail or meet a
      closed socket: partial reads and writes are not modelled.  Rounds of the collector's thread fall between its requests, not
      inside them.
    - The adjusting and flushing threads are rounds between calls; a second
      thread started by a second initialisation is not modelled.
    - [getopt_long], [ctime] and the layout of the tool's tables are arguments
      or omitted.
    - [src/ebpf] is named by the build but is not in the repository.  Nothing else
      the hooks call maps the process shared memory, so that the theorems about the
      tenant hooks hold with the memory mapped and without it; without it no limit
      per process is enforced ([HookTests]).
    - Of the clients, the layout of their reports, and the times they measure where
      nothing is computed from them.  Under [src/experiments], [src/tests] and
      [src/paper_results] there are besides them scripts, plots, a monitor that parses
      the output of [ib_write_bw] and a test of the collector's socket; the
      directories of backups hold copies. *)

From Corelib Require Export ssreflect.
From stdpp Require Export base tactics list gmap strings.
From Stdlib Require Export ZArith Lia.

#[global] Open Scope general_if_scope.
#[global] Open Scope Z_scope.

(** ** Fixed-width C integers *)

(** Every C integer is a [Z]; an operation that the source performs at width
    [w] is followed by the conversion to that width. *)
Definition u8 (z : Z) : Z := z mod 2 ^ 8.
Definition u32 (z : Z) : Z := z mod 2 ^ 32.
Definition u64 (z : Z) : Z := z mod 2 ^ 64.
(** Conversion to [int]: two's complement, as gcc and clang define it. *)
Definition i32 (z : Z) : Z := (z + 2 ^ 31) mod 2 ^ 32 - 2 ^ 31.
Definition i64 (z : Z) : Z := (z + 2 ^ 63) mod 2 ^ 64 - 2 ^ 63.

Definition UINT32_MAX : Z := 2 ^ 32 - 1.
Definition UINT64_MAX : Z := 2 ^ 64 - 1.

Definition is_u32 (z : Z) : Prop := 0 ≤ z < 2 ^ 32.
Definition is_u64 (z : Z) : Prop := 0 ≤ z < 2 ^ 64.
Definition is_i32 (z : Z) : Prop := - 2 ^ 31 ≤ z < 2 ^ 31.

(** [lia] with the width conversions unfolded and [mod] turned into equations. *)
Ltac width_lia :=
  unfold is_u32, is_u64, is_i32, u8, u32, u64, i32, i64, UINT32_MAX, UINT64_MAX in *;
  Z.div_mod_to_equations; lia.

Lemma u32_small z : is_u32 z → u32 z = z.
Proof. width_lia. Qed.
Lemma u64_small z : is_u64 z → u64 z = z.
Proof. width_lia. Qed.
Lemma i32_small z : is_i32 z → i32 z = z.
Proof. width_lia. Qed.
Lemma u32_range z : is_u32 (u32 z).
Proof. width_lia. Qed.
Lemma u64_range z : is_u64 (u64 z).
Proof. width_lia. Qed.
Lemma i32_range z : is_i32 (i32 z).
Proof. width_lia. Qed.
Lemma u32_i32 z : u32 (i32 z) = u32 z.
Proof. width_lia. Qed.

Create HintDb cint discriminated.
Create Rewrite HintDb cint_rw.
#[export] Hint Resolve u32_range u64_range i32_range : cint.
#[export] Hint Rewrite u32_i32 : cint_rw.
#[export] Hint Rewrite u32_small u64_small i32_small using width_lia : cint_rw.

(** ** Record update

    [r <| f := v |>] is [r] with field [f] replaced by [v], written for a C
    assignment [r.f = v].  A record type opts in by giving its expansion into
    its own fields ([Expand]); the update of a field is computed from it. *)
Class Expand (R : Type) := expand : R → R.
Class Update {R T : Type} (proj : R → T) := update : (T → T) → R → R.
Arguments update {R T} proj {_} _ _ : simpl nomatch.

Ltac derive_update :=
  lazymatch goal with
  | |- @Update ?R ?T ?p =>
      let inst := constr:(_ : Expand R) in
      let inst := eval hnf in inst in
      let u := constr:(fun (g : T → T) (r : R) =>
        ltac:(let e := eval cbv beta in (inst r) in
              let h := eval pattern (p r) in e in
              lazymatch h with ?k _ => let b := eval cbv beta in (k (g (p r))) in exact b end)) in
      exact u
  end.
#[export] Hint Extern 1 (Update _) => derive_update : typeclass_instances.

Declare Scope record_scope.
#[global] Open Scope record_scope.
Notation "r <| f := v |>" := (update f (λ _, v) r)
  (at level 1, left associativity, f at next level, v at level 200, format "r  <| f  :=  v |>") : record_scope.
Notation "r <| f ::= g |>" := (update f g r)
  (at level 1, left associativity, f at next level, g at level 200, format "r  <| f  ::=  g |>") : record_scope.

(** ** Effects

    A C function is a computation over the state [S] its component keeps.
    [Ret a s]: it returns [a] in state [s].  [Hang]: it never returns (it spins
    on a lock or blocks on a mutex that nobody else is going to release).
    [Crash]: undefined behaviour (a null pointer, an index outside an array, a
    closed file, a thread joined twice). *)
Inductive result (S A : Type) : Type :=
| Ret (a : A) (s : S)
| Hang
| Crash.
Arguments Ret {S A} a s.
Arguments Hang {S A}.
Arguments Crash {S A}.

Definition M (S A : Type) : Type := S → result S A.

#[export] Instance M_ret {S} : MRet (M S) := λ A a s, Ret a s.
#[export] Instance M_bind {S} : MBind (M S) := λ A B k m s,
  match m s with
  | Ret a s' => k a s'
  | Hang => Hang
  | Crash => Crash
  end.

Definition get {S} : M S S := λ s, Ret s s.
Definition gets {S A} (f : S → A) : M S A := λ s, Ret (f s) s.
Definition modify {S} (f : S → S) : M S unit := λ s, Ret tt (f s).
Definition hang {S A} : M S A := λ _, Hang.
Definition crash {S A} : M S A := λ _, Crash.

(** Run a computation of a sub-component on the field [p] of the state. *)
Definition zoom {R S A} (p : R → S) `{!Update p} (m : M S A) : M R A := λ r,
  match m (p r) with
  | Ret a s => Ret a (r <| p := s |>)
  | Hang => Hang
  | Crash => Crash
  end.

(** The value and the state a computation returns. *)
Definition returns {S A} (r : result S A) : Prop := ∃ a s, r = Ret a s.
Definition value {S A} (r : result S A) : option A :=
  match r with Ret a _ => Some a | _ => None end.
Definition after {S A} (s0 : S) (r : result S A) : S :=
  match r with Ret _ s => s | _ => s0 end.

Section Effects.
Context {S A B C : Type}.
Implicit Types (m : M S A) (k : A → M S B) (s : S).

Lemma bind_Ret m k s a s' : m s = Ret a s' → (m ≫= k) s = k a s'.
Proof. intros H. by rw /mbind /M_bind H. Qed.

Lemma bind_inv m k s b s' :
  (m ≫= k) s = Ret b s' → ∃ a t, m s = Ret a t ∧ k a t = Ret b s'.
Proof. rw /mbind /M_bind. destruct (m s); naive_solver. Qed.

Lemma bind_assoc m k (h : B → M S C) s :
  ((m ≫= k) ≫= h) s = (m ≫= λ a, k a ≫= h) s.
Proof. rw /mbind /M_bind. by destruct (m s). Qed.

Lemma ret_Ret (a : A) s : (mret a : M S A) s = Ret a s.
Proof. done. Qed.
End Effects.

Lemma bind_same {S A B} (m m' : M S A) (k k' : A → M S B) s :
  (∀ u, m u = m' u) → (∀ b u, k b u = k' b u) → (m ≫= k) s = (m' ≫= k') s.
Proof. intros Hm Hk. unfold mbind, M_bind. rw Hm. destruct (m' s); [apply Hk|done..]. Qed.

(** Total correctness: from [s], the computation returns, with a value and a state
    that satisfy [Q]. *)
Definition wp {S A} (m : M S A) (Q : A → S → Prop) (s : S) : Prop :=
  ∃ a s', m s = Ret a s' ∧ Q a s'.

Section Wp.
Context {S A B : Type}.
Implicit Types (m : M S A) (k : A → M S B) (s : S).

Lemma wp_bind m k (Q : B → S → Prop) s :
  wp m (λ a s', wp (k a) Q s') s → wp (m ≫= k) Q s.
Proof.
  intros (a & s' & Hm & b & s'' & Hk & HQ). exists b, s''. split; [|done].
  by rw (bind_Ret _ _ _ _ _ Hm).
Qed.

Lemma wp_ret (a : A) (Q : A → S → Prop) s : Q a s → wp (mret a) Q s.
Proof. intros HQ. by exists a, s. Qed.

Lemma wp_get (k : S → M S B) (Q : B → S → Prop) s : wp (k s) Q s → wp (get ≫= k) Q s.
Proof. intros HQ. exact HQ. Qed.

Lemma wp_modify f (Q : unit → S → Prop) s : Q tt (f s) → wp (modify f) Q s.
Proof. intros HQ. by exists tt, (f s). Qed.

Lemma wp_mono m (Q R : A → S → Prop) s : (∀ a s', Q a s' → R a s') → wp m Q s → wp m R s.
Proof. intros Himp (a & s' & Hm & HQ). exists a, s'. auto. Qed.

Lemma wp_eq m a s s' (Q : A → S → Prop) : m s = Ret a s' → Q a s' → wp m Q s.
Proof. intros Hm HQ. by exists a, s'. Qed.

Lemma wp_and m (Q R : A → S → Prop) s : wp m Q s → wp m R s → wp m (λ a s', Q a s' ∧ R a s') s.
Proof.
  intros (a & s' & Hm & HQ) (a' & s'' & Hm' & HR). rw Hm in Hm'. injection Hm' as <- <-.
  by exists a, s'.
Qed.

Lemma wp_if (b : bool) m m' (Q : A → S → Prop) s :
  (b = true → wp m Q s) → (b = false → wp m' Q s) → wp (if b then m else m') Q s.
Proof. destruct b; auto. Qed.
End Wp.

(** Partial correctness: from a state in [P], a computation that returns ends in [Q]. *)
Definition leads {S A} (P Q : S → Prop) (m : M S A) : Prop :=
  ∀ s a s', P s → m s = Ret a s' → Q s'.

Section Leads.
Context {S A B : Type}.
Implicit Types (P Q R : S → Prop) (m : M S A) (k : A → M S B).

Lemma leads_bind P Q R m k : leads P Q m → (∀ a, leads Q R (k a)) → leads P R (m ≫= k).
Proof. intros Hm Hk s b s' HP (a & t & Ht & Hk')%bind_inv. eapply Hk; eauto. Qed.

Lemma leads_ret P (a : A) : leads P P (mret a).
Proof. intros s b s' HP. by intros [= <- <-]. Qed.

Lemma leads_get P Q (k : S → M S B) : (∀ t, leads P Q (k t)) → leads P Q (get ≫= k).
Proof. intros Hk s b s' HP Hs. eapply (Hk s); eauto. Qed.

Lemma leads_modify P Q (f : S → S) : (∀ s, P s → Q (f s)) → leads P Q (modify f).
Proof. intros Hf s b s' HP. intros [= <- <-]. auto. Qed.

Lemma leads_hang P Q : leads P Q (hang : M S A).
Proof. by intros s a s'. Qed.

Lemma leads_crash P Q : leads P Q (crash : M S A).
Proof. by intros s a s'. Qed.

Lemma leads_if P Q (b : bool) m m' : leads P Q m → leads P Q m' → leads P Q (if b then m else m').
Proof. by destruct b. Qed.

Lemma leads_weaken P P' Q m : (∀ s, P s → P' s) → leads P' Q m → leads P Q m.
Proof. intros H Hm s a s' HP. apply Hm; auto. Qed.

Lemma leads_pure P Q m : (∀ s a s', m s = Ret a s' → s' = s) → (∀ s, P s → Q s) → leads P Q m.
Proof. intros Hm HPQ s a s' HP Hs. rw (Hm _ _ _ Hs). auto. Qed.
End Leads.

(** Run the monadic plumbing of the goal. *)
Ltac run := unfold mbind, M_bind, mret, M_ret, get, gets, modify, zoom; cbn beta iota zeta.

(** ** Lists used as C arrays *)

Section Arrays.
Context {A : Type}.
Implicit Types (f : A → bool) (l : list A) (i j : nat) (x y : A).

(** Index of the first element that satisfies [f]: a C search loop with
    [break]. *)
Fixpoint find_index f l : option nat :=
  match l with
  | [] => None
  | x :: l' => if f x then Some 0%nat else S <$> find_index f l'
  end.

(** How many elements satisfy [f]. *)
Fixpoint countb f l : Z :=
  match l with
  | [] => 0
  | x :: l' => Z.b2z (f x) + countb f l'
  end.

Lemma find_index_Some f l i :
  find_index f l = Some i →
  ∃ x, l !! i = Some x ∧ f x = true ∧ ∀ j y, (j < i)%nat → l !! j = Some y → f y = false.
Proof.
  revert i. induction l as [|x l IH]; intros i; cbn; [done|].
  destruct (f x) eqn:Hx.
  - intros [= <-]. exists x. split_and!; [done..|lia].
  - intros (i' & Hi' & ->)%fmap_Some_1. destruct (IH i') as (y & ? & ? & Hlt); [done|].
    exists y. split_and!; [done..|].
    intros [|j] z ? Hz; cbn in Hz; [congruence|]. apply (Hlt j z); [lia|done].
Qed.

Lemma find_index_None f l : find_index f l = None ↔ ∀ i x, l !! i = Some x → f x = false.
Proof.
  induction l as [|x l IH]; cbn; [naive_solver|]. destruct (f x) eqn:Hx; split.
  - done.
  - intros H. specialize (H 0%nat x eq_refl). congruence.
  - intros Hl%fmap_None [|i] y; cbn; [by intros [= <-]|]. apply IH, Hl.
  - intros H. apply fmap_None, IH. intros i y Hy. by apply (H (S i) y).
Qed.

Lemma find_index_intro f l i x :
  l !! i = Some x → f x = true →
  (∀ j y, (j < i)%nat → l !! j = Some y → f y = false) → find_index f l = Some i.
Proof.
  revert i. induction l as [|z l IH]; intros [|i]; cbn; try done.
  - intros [= ->] -> _. done.
  - intros Hi Hx Hlt. assert (f z = false) as -> by (apply (Hlt 0%nat z); [lia|done]).
    rw (IH i) //. intros j y ? Hj. apply (Hlt (S j) y); [lia|done].
Qed.

Lemma find_index_is_Some f l i x :
  l !! i = Some x → f x = true → is_Some (find_index f l).
Proof.
  intros Hi Hx. destruct (find_index f l) eqn:E; [done|].
  rw find_index_None in E. by rw (E i x) in Hx.
Qed.

Lemma find_index_unique f l i x :
  l !! i = Some x → f x = true →
  (∀ j y, l !! j = Some y → f y = true → j = i) → find_index f l = Some i.
Proof.
  intros Hi Hx Hu. destruct (find_index_is_Some f l i x) as [k Hk]; [done..|].
  destruct (find_index_Some _ _ _ Hk) as (y & Hy & Hfy & _). by rw Hk (Hu k y).
Qed.

Lemma countb_bounds f l : 0 ≤ countb f l ≤ Z.of_nat (length l).
Proof. induction l as [|x l IH]; cbn [countb length]; [lia|]. destruct (f x); cbn; lia. Qed.

Lemma countb_insert f l i x y :
  l !! i = Some x → countb f (<[i:=y]> l) = countb f l - Z.b2z (f x) + Z.b2z (f y).
Proof.
  revert i. induction l as [|z l IH]; intros [|i]; cbn; try done.
  - intros [= ->]. lia.
  - intros Hi. rw (IH i) //. lia.
Qed.

Lemma countb_pos f l i x : l !! i = Some x → f x = true → 0 < countb f l.
Proof.
  revert i. induction l as [|z l IH]; intros [|i]; cbn; try done.
  - intros [= ->] ->. cbn. pose proof (countb_bounds f l). lia.
  - intros Hi Hx. pose proof (IH i Hi Hx). destruct (f z); cbn; lia.
Qed.

Lemma countb_zero f l : countb f l = 0 ↔ ∀ i x, l !! i = Some x → f x = false.
Proof.
  split.
  - intros H i x Hi. destruct (f x) eqn:E; [|done].
    pose proof (countb_pos f l i x Hi E). lia.
  - induction l as [|z l IH]; intros H; cbn; [done|].
    rw (H 0%nat z eq_refl). rw IH; [|done]. intros i x Hi. by apply (H (S i) x).
Qed.

Lemma countb_full f l :
  countb f l = Z.of_nat (length l) ↔ ∀ i x, l !! i = Some x → f x = true.
Proof.
  induction l as [|z l IH]; cbn [countb length]; [naive_solver|].
  pose proof (countb_bounds f l). split.
  - intros E [|i] x; cbn.
    + intros [= ->]. destruct (f x); cbn in *; [done|lia].
    + apply IH. destruct (f z); cbn in *; lia.
  - intros H'. rw (H' 0%nat z eq_refl). cbn [Z.b2z].
    rw (proj2 IH); [|lia]. intros i x Hi. by apply (H' (S i) x).
Qed.

Lemma countb_ext f g l :
  (∀ i x, l !! i = Some x → f x = g x) → countb f l = countb g l.
Proof.
  induction l as [|z l IH]; intros H; cbn; [done|].
  rw (H 0%nat z eq_refl) IH; [|done]. intros i x Hi. by apply (H (S i) x).
Qed.

Lemma countb_replicate f n x : f x = false → countb f (replicate n x) = 0.
Proof. intros Hx. apply countb_zero. intros i y [-> _]%lookup_replicate. done. Qed.
End Arrays.

Lemma countb_map {A B} (f : B → bool) (g : A → B) (l : list A) :
  countb f (g <$> l) = countb (λ x, f (g x)) l.
Proof. induction l as [|x l IH]; cbn; [done|]. by rw IH. Qed.

Lemma fmap_const_replicate {A B} (b : B) (l : list A) :
  (λ _, b) <$> l = replicate (length l) b.
Proof. induction l as [|x l IH]; cbn; [done|]. by f_equal. Qed.
