(* ===== verification/Resumption.v ===== *)
(** * Computations one action at a time

    A computation of [M S A] runs to its end without interruption.  [steps S A]
    is a computation cut into actions: between two of them somebody else may
    change the state.  [run] puts the actions back together; [alone] is the
    execution of some of them. *)

From S2P Require Import Prelude.

(** ** The monad *)

Inductive steps (S A : Type) : Type :=
| Done (a : A)
| Act (B : Type) (m : M S B) (k : B → steps S A).
Arguments Done {S A} a.
Arguments Act {S A B} m k.

#[export] Instance steps_ret {S} : MRet (steps S) := λ A, Done.
#[export] Instance steps_bind {S} : MBind (steps S) := λ A B k,
  fix bind p := match p with Done a => k a | Act m h => Act m (λ b, bind (h b)) end.

(** One indivisible action. *)
Definition act {S A} (m : M S A) : steps S A := Act m Done.

Fixpoint run {S A} (p : steps S A) : M S A :=
  match p with
  | Done a => mret a
  | Act m k => b ← m; run (k b)
  end.

(** What the next action can leave to be done. *)
Definition next {S A} (p q : steps S A) : Prop :=
  match p with
  | Done _ => False
  | Act m k => ∃ b, q = k b
  end.

Definition is_done {S A} (p : steps S A) : bool := match p with Done _ => true | _ => false end.

Section Steps.
Context {S A B : Type}.
Implicit Types (p q : steps S A) (s : S).

Lemma run_bind p (k : A → steps S B) s : run (p ≫= k) s = (run p ≫= λ a, run (k a)) s.
Proof.
  revert s. induction p as [a|C m h IH]; intros s; [done|].
  change (run (Act m h ≫= k) s) with ((m ≫= λ b, run (h b ≫= k)) s). cbn [run].
  rw bind_assoc. unfold mbind, M_bind. destruct (m s) as [b s'| |]; [|done..]. apply IH.
Qed.

(** A computation that returns is finite in every way it can go. *)
Lemma next_wf p : Acc (λ q p, next p q) p.
Proof. induction p as [a|C m h IH]; constructor; intros q; cbn; [done|]. intros (b & ->). apply IH. Qed.

(** Uninterrupted execution, up to some point. *)
Inductive alone : steps S A * S → steps S A * S → Prop :=
| alone_act C (m : M S C) k s c s' : m s = Ret c s' → alone (Act m k, s) (k c, s').

Lemma run_alone p s a s' : run p s = Ret a s' → rtc alone (p, s) (Done a, s').
Proof.
  revert s. induction p as [b|C m h IH]; intros s; cbn [run].
  - intros [= -> ->]. done.
  - intros (c & t & Hm & Hr)%bind_inv. eapply rtc_l; [by constructor|]. by apply IH.
Qed.

Lemma alone_run p s q s' : rtc alone (p, s) (q, s') → run p s = run q s'.
Proof.
  remember (p, s) as x eqn:Hx. remember (q, s') as y eqn:Hy. intros Hst. revert p s Hx.
  induction Hst as [x|x y z Hst _ IH]; intros p s ->; [by injection Hy as -> ->|].
  destruct y as [p1 s1]. rw -(IH Hy p1 s1 eq_refl).
  inversion Hst as [C m k ? c ? Hm]; subst. exact (bind_Ret m (λ b, run (k b)) _ _ _ Hm).
Qed.
End Steps.

Lemma alone_bind_step {S A B} (k : A → steps S B) (x y : steps S A * S) :
  alone x y → alone (fst x ≫= k, snd x) (fst y ≫= k, snd y).
Proof.
  intros H. inversion H as [C m h s c s' Hm]; subst.
  exact (alone_act C m (λ c, h c ≫= k) _ _ _ Hm).
Qed.

Lemma alone_bind {S A B} (p q : steps S A) (k : A → steps S B) s s' :
  rtc alone (p, s) (q, s') → rtc alone (p ≫= k, s) (q ≫= k, s').
Proof. apply (rtc_congruence (λ x, (fst x ≫= k, snd x)) alone), alone_bind_step. Qed.

Lemma alone_bind_tc {S A B} (p q : steps S A) (k : A → steps S B) s s' :
  tc alone (p, s) (q, s') → tc alone (p ≫= k, s) (q ≫= k, s').
Proof. apply (tc_congruence (λ x, (fst x ≫= k, snd x)) alone), alone_bind_step. Qed.

(** A part that returns, and then the rest. *)
Lemma alone_seq {S A B} (p : steps S A) (k : A → steps S B) a s s' :
  run p s = Ret a s' → rtc alone (p ≫= k, s) (k a, s').
Proof. intros Hp. by apply (alone_bind p (Done a) k), run_alone. Qed.
