(* ===== verification/CString.v ===== *)
(** * C strings and numbers

    The functions of <ctype.h>, <string.h>, <strings.h> and <stdlib.h> the
    program parses its configuration, environment and messages with.  A C string
    is a [string] (its bytes up to the terminating NUL); [long] has 64 bits. *)

From S2P Require Import Prelude.
From Stdlib Require Export Ascii.
From stdpp Require Export pretty.

#[global] Open Scope string_scope.
#[global] Open Scope list_scope.
#[global] Open Scope Z_scope.

(** [isspace] in the C locale. *)
Definition is_space (c : ascii) : bool :=
  let n := nat_of_ascii c in ((9 <=? n)%nat && (n <=? 13)%nat) || (n =? 32)%nat.

Definition to_lower (c : ascii) : ascii :=
  let n := nat_of_ascii c in
  if (65 <=? n)%nat && (n <=? 90)%nat then ascii_of_nat (n + 32) else c.

Fixpoint lower (s : string) : string :=
  match s with
  | EmptyString => EmptyString
  | String c s' => String (to_lower c) (lower s')
  end.

(** [strcasecmp (a, b) == 0]. *)
Definition strcase_eq (a b : string) : bool := String.eqb (lower a) (lower b).

(** [while (p ( *s)) s++]. *)
Fixpoint skip (p : ascii → bool) (s : string) : string :=
  match s with
  | String c s' => if p c then skip p s' else s
  | EmptyString => s
  end.

(** The string without the longest suffix of bytes that satisfy [p]. *)
Fixpoint rskip (p : ascii → bool) (s : string) : string :=
  match s with
  | EmptyString => EmptyString
  | String c s' =>
      match rskip p s' with
      | EmptyString => if p c then EmptyString else String c EmptyString
      | t => String c t
      end
  end.

(** The prefix before the first byte that satisfies [p], and the rest. *)
Fixpoint break_at (p : ascii → bool) (s : string) : string * string :=
  match s with
  | EmptyString => (EmptyString, EmptyString)
  | String c s' =>
      if p c then (EmptyString, s) else let '(a, b) := break_at p s' in (String c a, b)
  end.

Definition ascii_eqb (a b : ascii) : bool := Ascii.eqb a b.

(** ** Numbers *)

Definition digit (c : ascii) : option Z :=
  let n := nat_of_ascii c in
  if (48 <=? n)%nat && (n <=? 57)%nat then Some (Z.of_nat n - 48) else None.

(** The value of the digits at the front of [s]. *)
Fixpoint digits (acc : Z) (s : string) : Z :=
  match s with
  | String c s' => match digit c with Some d => digits (acc * 10 + d) s' | None => acc end
  | EmptyString => acc
  end.

Definition sign (s : string) : bool * string :=
  match s with
  | String "-"%char s' => (true, s')
  | String "+"%char s' => (false, s')
  | _ => (false, s)
  end.

Definition LONG_MAX : Z := 2 ^ 63 - 1.
Definition LONG_MIN : Z := - 2 ^ 63.

(** [strtol (s, NULL, 10)]: out-of-range values are clamped. *)
Definition strtol (s : string) : Z :=
  let '(neg, t) := sign (skip is_space s) in
  let v := if neg then - digits 0 t else digits 0 t in
  Z.max LONG_MIN (Z.min LONG_MAX v).

(** [strtoull (s, NULL, 10)]: a minus sign negates modulo 2^64. *)
Definition strtoull (s : string) : Z :=
  let '(neg, t) := sign (skip is_space s) in
  let v := digits 0 t in
  if UINT64_MAX <? v then UINT64_MAX else if neg then u64 (- v) else v.

(** glibc: [atoi] is [(int) strtol], [atoll] is [strtoll], also 64 bits wide. *)
Definition atoi (s : string) : Z := i32 (strtol s).
Definition atoll (s : string) : Z := strtol s.

(** The decimal numeral [printf] writes for [z] ("%d", "%u", "%zu"). *)
Definition print_dec (z : Z) : string := pretty z.

(** [strstr (s, pat) != NULL], and the text after the first occurrence. *)
Fixpoint strip_prefix (pat s : string) : option string :=
  match pat, s with
  | EmptyString, _ => Some s
  | String a p, String b t => if Ascii.eqb a b then strip_prefix p t else None
  | String _ _, EmptyString => None
  end.

Fixpoint strstr (pat s : string) : option string :=
  match strip_prefix pat s with
  | Some _ => Some s
  | None => match s with String _ s' => strstr pat s' | EmptyString => None end
  end.

(** ** Decimal numerals read back *)

Definition starts_digit (s : string) : bool :=
  match s with String c _ => bool_decide (is_Some (digit c)) | EmptyString => false end.

Lemma digit_char d : (d < 10)%N → digit (pretty_N_char d) = Some (Z.of_N d).
Proof.
  intros H. assert (d = 0 ∨ d = 1 ∨ d = 2 ∨ d = 3 ∨ d = 4 ∨ d = 5 ∨ d = 6 ∨ d = 7 ∨ d = 8 ∨ d = 9)%N
    as Hd by lia.
  by repeat (destruct Hd as [->|Hd]; [done|]); subst.
Qed.

Lemma digits_stop acc s : starts_digit s = false → digits acc s = acc.
Proof. destruct s as [|c s]; cbn; [done|]. destruct (digit c); [by rw bool_decide_eq_false; intros []|done]. Qed.

(** Reading the numeral of [n] in front of [s] leaves [n] in the accumulator. *)
Lemma digits_go (n : N) s : digits 0 (pretty_N_go n s) = digits (Z.of_N n) s.
Proof.
  revert s. induction (N.lt_wf_0 n) as [n _ IH]; intros s.
  destruct (decide (n = 0)%N) as [->|Hn]; [done|].
  rw pretty_N_go_step; [lia|]. rw IH; [apply N.div_lt; lia|]. cbn [digits].
  rw digit_char; [apply N.mod_lt; lia|]. f_equal.
  rw N2Z.inj_div N2Z.inj_mod. pose proof (Z.div_mod (Z.of_N n) 10). lia.
Qed.

Lemma starts_digit_go (n : N) s : (0 < n)%N → starts_digit (pretty_N_go n s) = true.
Proof.
  revert s. induction (N.lt_wf_0 n) as [n _ IH]; intros s Hn.
  rw pretty_N_go_step; [done|]. destruct (decide (n / 10 = 0)%N) as [E|E].
  - rw E pretty_N_go_0. cbn. rw digit_char; [apply N.mod_lt; lia|by apply bool_decide_eq_true].
  - apply IH; [apply N.div_lt; lia|by apply N.neq_0_lt_0].
Qed.

Lemma pretty_go_app (n : N) s t : pretty_N_go n s +:+ t = pretty_N_go n (s +:+ t).
Proof.
  revert s. induction (N.lt_wf_0 n) as [n _ IH]; intros s.
  destruct (decide (n = 0)%N) as [->|Hn]; [done|].
  rw !(pretty_N_go_step n); [lia..|]. rw IH; [apply N.div_lt; lia|done].
Qed.

(** A numeral followed by anything but a digit. *)
Lemma print_dec_digits z t :
  0 ≤ z → starts_digit t = false →
  digits 0 (print_dec z +:+ t) = z ∧ starts_digit (print_dec z +:+ t) = true.
Proof.
  intros Hz Ht. unfold print_dec, pretty, pretty_Z. destruct z as [|p|p]; [|cbn|lia].
  - split; [exact (digits_stop 0 t Ht)|done].
  - change (pretty p) with (pretty_N_go (Npos p) ""). rw pretty_go_app digits_go.
    by rw digits_stop // starts_digit_go.
Qed.

Lemma starts_digit_plain s :
  starts_digit s = true → skip is_space s = s ∧ sign s = (false, s).
Proof.
  destruct s as [|c s]; cbn; [done|]. rw bool_decide_eq_true.
  destruct c as [[] [] [] [] [] [] [] []]; vm_compute; by intros [].
Qed.

Lemma strtol_print z t :
  0 ≤ z ≤ LONG_MAX → starts_digit t = false → strtol (print_dec z +:+ t) = z.
Proof.
  intros Hz Ht. destruct (print_dec_digits z t) as [Hd Hs]; [lia|done|].
  destruct (starts_digit_plain _ Hs) as [Hsk Hsg]. unfold strtol. rw Hsk Hsg Hd.
  unfold LONG_MAX, LONG_MIN in *. lia.
Qed.

Lemma strtoull_print z t :
  is_u64 z → starts_digit t = false → strtoull (print_dec z +:+ t) = z.
Proof.
  intros Hz Ht. destruct (print_dec_digits z t) as [Hd Hs]; [apply Hz|done|].
  destruct (starts_digit_plain _ Hs) as [Hsk Hsg]. unfold strtoull. rw Hsk Hsg Hd.
  unfold is_u64, UINT64_MAX in *. destruct (Z.ltb_spec (2 ^ 64 - 1) z); lia.
Qed.

(** ** Strings without certain bytes *)

Lemma append_cons c s t : String c s +:+ t = String c (s +:+ t).
Proof. done. Qed.

Fixpoint all_chars (p : ascii → bool) (s : string) : bool :=
  match s with String c s' => p c && all_chars p s' | EmptyString => true end.

Definition free_of (p : ascii → bool) (s : string) : bool := all_chars (λ c, negb (p c)) s.

Lemma all_chars_app p a b : all_chars p (a +:+ b) = all_chars p a && all_chars p b.
Proof.
  induction a as [|c a IH]; [done|].
  change (String c a +:+ b) with (String c (a +:+ b)). cbn [all_chars]. by rw IH andb_assoc.
Qed.

Lemma all_chars_impl p q s :
  (∀ c, p c = true → q c = true) → all_chars p s = true → all_chars q s = true.
Proof.
  intros H. induction s as [|c s IH]; cbn; [done|].
  intros [Hc Hs]%andb_prop. by rw (H c Hc) IH.
Qed.

Lemma skip_free p s : free_of p s = true → skip p s = s.
Proof. destruct s as [|c s]; cbn; [done|]. by destruct (p c). Qed.

Lemma rskip_free p s : free_of p s = true → rskip p s = s.
Proof.
  induction s as [|c s IH]; cbn; [done|]. intros [Hc Hs]%andb_prop. rw (IH Hs).
  destruct s; [|done]. by destruct (p c).
Qed.

Lemma rskip_app p a b : rskip p b ≠ EmptyString → rskip p (a +:+ b) = a +:+ rskip p b.
Proof.
  intros Hb. induction a as [|c a IH]; [done|].
  change (String c a +:+ b) with (String c (a +:+ b)). cbn [rskip]. rw IH.
  destruct a; cbn; [|done]. by destruct (rskip p b).
Qed.

Lemma break_at_app p a c b :
  free_of p a = true → p c = true → break_at p (a +:+ String c b) = (a, String c b).
Proof.
  intros Ha Hc. induction a as [|x a IH].
  { change ("" +:+ String c b) with (String c b). cbn [break_at]. by rw Hc. }
  change (String x a +:+ String c b) with (String x (a +:+ String c b)). cbn [break_at].
  cbn in Ha. apply andb_prop in Ha as [Hx Ha]. destruct (p x); [done|]. by rw (IH Ha).
Qed.

Lemma break_at_free p a : free_of p a = true → break_at p a = (a, EmptyString).
Proof.
  induction a as [|x a IH]; cbn; [done|]. intros [Hx Ha]%andb_prop.
  destruct (p x); [done|]. by rw (IH Ha).
Qed.

Definition is_digit (c : ascii) : bool := bool_decide (is_Some (digit c)).

Lemma all_digits_go (n : N) s :
  all_chars is_digit s = true → all_chars is_digit (pretty_N_go n s) = true.
Proof.
  revert s. induction (N.lt_wf_0 n) as [n _ IH]; intros s Hs.
  destruct (decide (n = 0)%N) as [->|Hn]; [done|].
  rw pretty_N_go_step; [lia|]. apply IH; [apply N.div_lt; lia|].
  cbn [all_chars]. rw Hs andb_true_r. unfold is_digit. rw digit_char; [apply N.mod_lt; lia|].
  by apply bool_decide_eq_true.
Qed.

Lemma all_digits_print z : 0 ≤ z → all_chars is_digit (print_dec z) = true.
Proof.
  intros Hz. unfold print_dec. destruct z as [|p|p]; [done| |lia].
  change (pretty (Z.pos p)) with (pretty_N_go (Npos p) ""). by apply all_digits_go.
Qed.

Lemma print_dec_free z (p : ascii → bool) :
  0 ≤ z → (∀ c, is_digit c = true → p c = false) → free_of p (print_dec z) = true.
Proof.
  intros Hz Hp. unfold free_of. eapply all_chars_impl, all_digits_print, Hz.
  intros c Hc. by rw Hp.
Qed.

Lemma length_app_string a b : String.length (a +:+ b) = (String.length a + String.length b)%nat.
Proof.
  induction a as [|c a IH]; [done|].
  change (String c a +:+ b) with (String c (a +:+ b)). cbn [String.length]. by rw IH.
Qed.

Lemma app_empty_r (s : string) : s +:+ "" = s.
Proof.
  induction s as [|c s IH]; [done|].
  change (String c s +:+ "") with (String c (s +:+ "")). by rw IH.
Qed.

(** A number below 10^k has at most k digits. *)
Lemma length_go (k : nat) (n : N) s :
  (n < 10 ^ N.of_nat k)%N → (String.length (pretty_N_go n s) ≤ k + String.length s)%nat.
Proof.
  revert n s. induction k as [|k IH]; intros n s Hn.
  - assert (n = 0%N) as -> by (cbn in Hn; lia). done.
  - destruct (decide (n = 0)%N) as [->|H0]; [rw pretty_N_go_0; lia|].
    rw pretty_N_go_step; [lia|]. etrans; [apply IH|cbn; lia].
    apply N.Div0.div_lt_upper_bound. rw Nat2N.inj_succ N.pow_succ_r' in Hn. lia.
Qed.

Lemma length_print (k : nat) z :
  0 ≤ z < 10 ^ Z.of_nat k → (0 < k)%nat → (String.length (print_dec z) ≤ k)%nat.
Proof.
  intros Hz Hk. unfold print_dec. destruct z as [|p|p]; [cbn; lia| |lia].
  change (pretty (Z.pos p)) with (pretty_N_go (Npos p) "").
  pose proof (length_go k (Npos p) "") as H. cbn [String.length] in H. rw Nat.add_0_r in H.
  apply H. apply N2Z.inj_lt. rw N2Z.inj_pow nat_N_Z. apply Hz.
Qed.

Lemma string_app_assoc (a b c : string) : a +:+ (b +:+ c) = (a +:+ b) +:+ c.
Proof. induction a as [|x a IH]; [done|]. by rw !append_cons IH. Qed.

(** ** Searching *)

Lemma strip_prefix_app p s : strip_prefix p (p +:+ s) = Some s.
Proof.
  induction p as [|c p IH]; [done|]. rw append_cons. cbn [strip_prefix]. by rw Ascii.eqb_refl.
Qed.

Lemma strstr_here p s : strstr p (p +:+ s) = Some (p +:+ s).
Proof.
  pose proof (strip_prefix_app p s) as H. unfold strstr.
  destruct (p +:+ s); by rw H.
Qed.

(** A text without the first byte of the pattern cannot hide it. *)
Lemma strstr_skip c p a b :
  free_of (λ x, Ascii.eqb c x) a = true → strstr (String c p) (a +:+ b) = strstr (String c p) b.
Proof.
  intros Ha. induction a as [|x a IH]; [done|]. rw append_cons.
  cbn in Ha. apply andb_prop in Ha as [Hx Ha].
  cbn [strstr strip_prefix]. destruct (Ascii.eqb c x); [done|]. by apply IH.
Qed.

Lemma substring_all n s : (String.length s ≤ n)%nat → String.substring 0 n s = s.
Proof.
  revert n. induction s as [|c s IH]; intros [|n] Hn; cbn in *; try done; try lia.
  f_equal. apply IH. lia.
Qed.

Lemma free_of_app p a b : free_of p (a +:+ b) = free_of p a && free_of p b.
Proof. apply all_chars_app. Qed.

(** ** Reading lines *)

Definition is_newline (c : ascii) : bool := (nat_of_ascii c =? 10)%nat.
Definition newline : string := String (ascii_of_nat 10) EmptyString.

Section Fgets.
Context (size : nat).

(** The buffers that successive [fgets (line, size, fp)] fill: [room] bytes still
    fit into the current one; the result is what it still gets, and the later
    buffers. *)
Fixpoint fgets_from (room : nat) (s : string) : string * list string :=
  match s with
  | EmptyString => (EmptyString, [])
  | String c s' =>
      let next s' := match s' with
                     | EmptyString => []
                     | _ => let '(cur, rest) := fgets_from (size - 1) s' in cur :: rest
                     end in
      match room with
      | O =>
          if is_newline c then (EmptyString, String c EmptyString :: next s')
          else let '(cur, rest) := fgets_from (size - 2) s' in (EmptyString, String c cur :: rest)
      | S room' =>
          if is_newline c then (String c EmptyString, next s')
          else let '(cur, rest) := fgets_from room' s' in (String c cur, rest)
      end
  end.

Definition fgets_lines (s : string) : list string :=
  match s with
  | EmptyString => []
  | _ => let '(cur, rest) := fgets_from (size - 1) s in cur :: rest
  end.

Lemma fgets_from_line room l t :
  (String.length l < room)%nat → free_of is_newline l = true →
  fgets_from room (l +:+ newline +:+ t) = (l +:+ newline, fgets_lines t).
Proof.
  revert room. induction l as [|c l IH]; intros [|room] Hl Hf; cbn in Hl; try lia.
  - change ("" +:+ newline +:+ t) with (String (ascii_of_nat 10) t). cbn. done.
  - rw !append_cons. cbn [fgets_from]. cbn in Hf. apply andb_prop in Hf as [Hc Hf].
    destruct (is_newline c); [done|]. rw IH; [lia|done|done].
Qed.

Lemma fgets_line l t :
  (String.length l < size - 1)%nat → free_of is_newline l = true →
  fgets_lines (l +:+ newline +:+ t) = (l +:+ newline) :: fgets_lines t.
Proof.
  intros Hl Hf. assert (∃ c u, l +:+ newline +:+ t = String c u) as (c & u & E).
  { destruct l as [|c l]; [by eexists _, _|]. rw append_cons. by eexists _, _. }
  pose proof (fgets_from_line (size - 1) l t Hl Hf) as H. unfold fgets_lines at 1.
  rw E in H. by rw E H.
Qed.
End Fgets.

(** ** [sscanf] *)

(** At most [n] bytes from the front that do not satisfy [p], and the rest. *)
Fixpoint span_upto (p : ascii → bool) (n : nat) (s : string) : string * string :=
  match n, s with
  | S n', String c s' =>
      if p c then (EmptyString, s)
      else let '(a, b) := span_upto p n' s' in (String c a, b)
  | _, _ => (EmptyString, s)
  end.

(** ["%63s"] for [width] 63: [None] when the conversion fails. *)
Definition scan_token (width : nat) (s : string) : option (string * string) :=
  match span_upto is_space width (skip is_space s) with
  | (EmptyString, _) => None
  | r => Some r
  end.

(** ["%u"]: glibc converts with [strtoul] and stores the low 32 bits. *)
Definition scan_uint (s : string) : option (Z * string) :=
  let '(_, d) := sign (skip is_space s) in
  if starts_digit d then Some (u32 (strtoull s), skip is_digit d) else None.

(** A plain character of the format. *)
Definition scan_char (c : ascii) (s : string) : option string :=
  match s with
  | String x s' => if Ascii.eqb c x then Some s' else None
  | EmptyString => None
  end.

Lemma span_upto_app p n a c b :
  free_of p a = true → p c = true → (String.length a ≤ n)%nat →
  span_upto p n (a +:+ String c b) = (a, String c b).
Proof.
  revert n. induction a as [|x a IH]; intros n Ha Hc Hn.
  - change ("" +:+ String c b) with (String c b). destruct n; cbn; [done|]. by rw Hc.
  - rw append_cons. destruct n as [|n]; cbn in Hn; [lia|]. cbn [span_upto].
    cbn in Ha. apply andb_prop in Ha as [Hx Ha]. destruct (p x); [done|]. rw IH; [done..|lia|done].
Qed.

Lemma scan_token_app n a c b :
  a ≠ EmptyString → free_of is_space a = true → is_space c = true → (String.length a ≤ n)%nat →
  scan_token n (a +:+ String c b) = Some (a, String c b).
Proof.
  intros Hne Ha Hc Hn. unfold scan_token. destruct a as [|x a]; [done|].
  assert (Hs : skip is_space (String x a +:+ String c b) = String x a +:+ String c b).
  { rw append_cons. cbn [skip]. cbn in Ha. by destruct (is_space x). }
  by rw Hs span_upto_app.
Qed.

(** Reading back a numeral that something else than a digit follows. *)
Lemma scan_uint_wide z t :
  is_u64 z → starts_digit t = false → scan_uint (print_dec z +:+ t) = Some (u32 z, t).
Proof.
  intros Hz Ht. destruct (print_dec_digits z t) as [_ Hs]; [apply Hz|done|].
  destruct (starts_digit_plain _ Hs) as [Hsk Hsg]. unfold scan_uint.
  rw Hsk Hsg Hs strtoull_print //. do 2 f_equal.
  assert (Hd : all_chars is_digit (print_dec z) = true) by (apply all_digits_print, Hz).
  clear Hs Hsk Hsg. induction (print_dec z) as [|c s IH].
  - change ("" +:+ t) with t. destruct t as [|c t]; [done|]. cbn in Ht |- *.
    unfold is_digit. by destruct (bool_decide _).
  - rw append_cons. cbn [skip]. cbn in Hd. apply andb_prop in Hd as [-> Hd]. by apply IH.
Qed.

Lemma scan_uint_print z t :
  is_u32 z → starts_digit t = false → scan_uint (print_dec z +:+ t) = Some (z, t).
Proof. intros Hz Ht. rw scan_uint_wide //; [width_lia|]. by rw u32_small. Qed.
