(* ===== verification/CFloat.v ===== *)
(** * C floating point

    [float] and [double] as the binary32 and binary64 formats of the standard
    library's [SpecFloat], rounding to nearest even. *)

From S2P Require Import Prelude.
From Stdlib Require Export Floats.SpecFloat.

(** [(float) n] and [(double) n] of an integer. *)
Definition float_of (n : Z) : spec_float := binary_normalize 24 128 n 0 false.
Definition double_of (n : Z) : spec_float := binary_normalize 53 1024 n 0 false.

(** [(float) a / b] of two integers. *)
Definition float_ratio (a b : Z) : spec_float := SFdiv 24 128 (float_of a) (float_of b).

(** [x < y], false when one of them is not a number. *)
Definition below (x y : spec_float) : bool :=
  match SFcompare x y with Some Lt => true | _ => false end.

(** The promotion of a [float] to [double] in a comparison with a [double]. *)
Definition to_double (x : spec_float) : spec_float :=
  match x with
  | S754_finite s m e => binary_normalize 53 1024 (if s then Zneg m else Zpos m) e s
  | _ => x
  end.
