(* ===== verification/SlotTable.v ===== *)
(** * Slot tables

    Both shared-memory objects keep maps from pids in arrays of slots, where a
    slot with key 0 is free: [process_pids]/[process_stats] in
    [shm/shared_memory.c], [pid_mappings] in [shm/shared_memory_tenant.c].
    This file relates such an array to the finite map it stands for, and states
    the contract of a bounded pid table ([ProcTable]) as an interface. *)

From S2P Require Import Prelude.

Section SlotTable.
Context {A V : Type} (key : A → Z) (val : A → V).
Implicit Types (l : list A) (k : Z) (x y : A) (i j : nat).

(** The first slot that holds a key decides its value; key 0 is no key. *)
Definition slots_map l : gmap Z V :=
  foldr (λ x m, if key x =? 0 then m else <[key x := val x]> m) ∅ l.

(** A pid occupies at most one slot. *)
Definition keys_unique l : Prop :=
  ∀ i j x y, l !! i = Some x → l !! j = Some y → key x ≠ 0 → key x = key y → i = j.

Definition slots_used l : Z := countb (λ x, negb (key x =? 0)) l.

Lemma keys_unique_cons x l : keys_unique (x :: l) → keys_unique l.
Proof.
  intros H i j y z Hi Hj Hy Hyz.
  specialize (H (S i) (S j) y z Hi Hj Hy Hyz). lia.
Qed.

Lemma keys_unique_replicate n x : key x = 0 → keys_unique (replicate n x).
Proof. intros Hx i j y z [-> _]%lookup_replicate _ Hy. done. Qed.

Lemma slots_map_Some l k v :
  keys_unique l →
  slots_map l !! k = Some v ↔ k ≠ 0 ∧ ∃ i x, l !! i = Some x ∧ key x = k ∧ val x = v.
Proof.
  induction l as [|x l IH]; intros Hu; cbn.
  - rw lookup_empty. naive_solver.
  - specialize (IH (keys_unique_cons _ _ Hu)).
    destruct (Z.eqb_spec (key x) 0) as [Hx|Hx].
    + rw IH. split.
      * intros (? & i & y & ?). split; [done|]. by exists (S i), y.
      * intros (? & [|i] & y & ? & ? & ?); cbn in *; [congruence|]. naive_solver.
    + destruct (decide (key x = k)) as [<-|Hne].
      * rw lookup_insert_eq. split.
        -- intros [= <-]. split; [done|]. by exists 0%nat, x.
        -- intros (_ & i & y & Hi & Hy & <-).
           pose proof (Hu i 0%nat y x Hi eq_refl ltac:(congruence) ltac:(congruence)) as ->.
           cbn in Hi. congruence.
      * rw lookup_insert_ne //. rw IH. split.
        -- intros (? & i & y & ?). split; [done|]. by exists (S i), y.
        -- intros (? & [|i] & y & ? & ? & ?); cbn in *; [congruence|]. naive_solver.
Qed.

Lemma slots_map_None l k :
  keys_unique l → k ≠ 0 →
  slots_map l !! k = None ↔ find_index (λ x, key x =? k) l = None.
Proof.
  intros Hu Hk. rw find_index_None. split.
  - intros HN i x Hi. apply Z.eqb_neq. intros Hx.
    assert (slots_map l !! k = Some (val x)) by (apply slots_map_Some; eauto 8). congruence.
  - intros H. destruct (slots_map l !! k) as [v|] eqn:E; [|done].
    apply slots_map_Some in E as (_ & i & x & Hi & Hx & _); [|done].
    specialize (H i x Hi). apply Z.eqb_neq in H. done.
Qed.

Lemma slots_map_lookup l k :
  keys_unique l → k ≠ 0 →
  slots_map l !! k = find_index (λ x, key x =? k) l ≫= λ i, val <$> l !! i.
Proof.
  intros Hu Hk. destruct (find_index _ l) as [i|] eqn:E; cbn.
  - destruct (find_index_Some _ _ _ E) as (x & Hi & Hx%Z.eqb_eq & _).
    rw Hi. cbn. apply slots_map_Some; eauto 8.
  - by rw slots_map_None.
Qed.

Lemma keys_unique_insert l i x :
  keys_unique l →
  (key x ≠ 0 → ∀ j y, j ≠ i → l !! j = Some y → key y ≠ key x) →
  keys_unique (<[i:=x]> l).
Proof.
  intros Hu Hx j j' y y' Hj Hj' Hy Hyy.
  apply list_lookup_insert_Some in Hj as [(-> & -> & _)|[Hij Hj]];
    apply list_lookup_insert_Some in Hj' as [(-> & -> & _)|[Hij' Hj']]; try done.
  - edestruct Hx; eauto.
  - exfalso. eapply (Hx ltac:(congruence) j y); eauto.
  - by apply (Hu j j' y y').
Qed.

(** Storing key [key x] into a slot that holds it, or into a free slot when no
    slot holds it, inserts it into the map. *)
Lemma slots_map_insert l i x y :
  keys_unique l → l !! i = Some y → key x ≠ 0 →
  key y = key x ∨ key y = 0 ∧ find_index (λ z, key z =? key x) l = None →
  slots_map (<[i:=x]> l) = <[key x := val x]> (slots_map l) ∧ keys_unique (<[i:=x]> l).
Proof.
  intros Hu Hi Hx Hcase.
  assert (Hother : ∀ j z, j ≠ i → l !! j = Some z → key z ≠ key x).
  { intros j z Hji Hj Hz. destruct Hcase as [Hy|[Hy Hn]].
    - apply Hji. apply (Hu j i z y); congruence.
    - rw find_index_None in Hn. specialize (Hn j z Hj). lia. }
  assert (Hu' : keys_unique (<[i:=x]> l)) by (apply keys_unique_insert; auto).
  split; [|done]. apply map_eq. intros k. apply option_eq. intros v.
  rw slots_map_Some //. rw lookup_insert_Some slots_map_Some //.
  pose proof (lookup_lt_Some _ _ _ Hi).
  split.
  - intros (Hk & j & z & [(-> & -> & _)|[Hij Hj]]%list_lookup_insert_Some & Hz & Hv).
    + left. done.
    + right. split; [|eauto 8]. rw -Hz. apply not_eq_sym. eauto.
  - intros [[<- <-]|(Hk & Hk0 & j & z & Hj & Hz & Hv)].
    + split; [done|]. exists i, x. split; [|done]. by apply list_lookup_insert_eq.
    + split; [done|]. exists j, z. split; [|done].
      rw list_lookup_insert_ne //. intros ->. simplify_eq. destruct Hcase as [?|[? ?]]; congruence.
Qed.

(** Clearing the slot that holds a key deletes it from the map. *)
Lemma slots_map_clear l i x y :
  keys_unique l → l !! i = Some y → key y ≠ 0 → key x = 0 →
  slots_map (<[i:=x]> l) = delete (key y) (slots_map l) ∧ keys_unique (<[i:=x]> l).
Proof.
  intros Hu Hi Hy Hx.
  assert (Hu' : keys_unique (<[i:=x]> l)) by (apply keys_unique_insert; [done|intros Hx'; done]).
  split; [|done]. apply map_eq. intros k. apply option_eq. intros v.
  rw slots_map_Some //. rw lookup_delete_Some slots_map_Some //.
  split.
  - intros (Hk & j & z & [(-> & -> & _)|[Hij Hj]]%list_lookup_insert_Some & Hz & Hv);
      [congruence|].
    split; [|eauto 8]. intros Hyk. apply Hij. apply (Hu i j y z); congruence.
  - intros (Hk & Hk0 & j & z & Hj & Hz & Hv). split; [done|]. exists j, z. split; [|done].
    rw list_lookup_insert_ne //. intros ->. congruence.
Qed.

(** Overwriting a free slot by a free slot changes nothing. *)
Lemma slots_map_noop l i x y :
  keys_unique l → l !! i = Some y → key y = 0 → key x = 0 →
  slots_map (<[i:=x]> l) = slots_map l ∧ keys_unique (<[i:=x]> l).
Proof.
  intros Hu Hi Hy Hx.
  assert (Hu' : keys_unique (<[i:=x]> l)) by (apply keys_unique_insert; [done|intros Hx'; done]).
  split; [|done]. apply map_eq. intros k. apply option_eq. intros v.
  rw !slots_map_Some //. split.
  - intros (Hk & j & z & [(-> & -> & _)|[Hij Hj]]%list_lookup_insert_Some & Hz & Hv);
      [congruence|]. eauto 8.
  - intros (Hk & j & z & Hj & Hz & Hv). split; [done|]. exists j, z. split; [|done].
    rw list_lookup_insert_ne //. intros ->. congruence.
Qed.

Lemma slots_map_size l : keys_unique l → Z.of_nat (size (slots_map l)) = slots_used l.
Proof.
  induction l as [|x l IH]; intros Hu; cbn; [done|].
  specialize (IH (keys_unique_cons _ _ Hu)). unfold slots_used in *.
  cbn [slots_map foldr countb]. fold (slots_map l).
  destruct (Z.eqb_spec (key x) 0) as [Hx|Hx]; cbn [negb Z.b2z]; [lia|].
  rw map_size_insert_None; [|lia].
  apply slots_map_None; [exact (keys_unique_cons _ _ Hu)|done|].
  apply find_index_None. intros i y Hi. apply Z.eqb_neq. intros Hy.
  pose proof (Hu (S i) 0%nat y x Hi eq_refl). lia.
Qed.

(** The table is full exactly when no slot is free. *)
Lemma slots_map_full l :
  keys_unique l →
  size (slots_map l) = length l ↔ find_index (λ x, key x =? 0) l = None.
Proof.
  intros Hu. pose proof (slots_map_size l Hu) as Hs. unfold slots_used in Hs.
  pose proof (countb_full (λ x, negb (key x =? 0)) l) as Hf.
  rw find_index_None. split.
  - intros E. assert (Hc : countb (λ x, negb (key x =? 0)) l = Z.of_nat (length l)) by lia.
    intros i x Hi. apply (proj1 Hf Hc) in Hi. by destruct (key x =? 0).
  - intros H. apply Nat2Z.inj. rw Hs. apply Hf. intros i x Hi. by rw (H i x Hi).
Qed.

Lemma slots_map_bound l : keys_unique l → (size (slots_map l) ≤ length l)%nat.
Proof.
  intros Hu. pose proof (slots_map_size l Hu) as Hs. unfold slots_used in Hs.
  pose proof (countb_bounds (λ x, negb (key x =? 0)) l). lia.
Qed.

Lemma slots_map_replicate n x : key x = 0 → slots_map (replicate n x) = ∅.
Proof. intros Hx. induction n as [|n IH]; cbn; [done|]. by rw Hx. Qed.
End SlotTable.

(** ** The contract of a bounded pid table

    [pt_table s] is the map the state [s] stands for, [pt_ok] the states from
    which the calls return.  An update takes a record ([None]: a null pointer).
    An update of a known pid, or of a new pid while there is room, is an
    insertion; a new pid that finds no room is refused and changes nothing.  A
    query answers with the record of the pid, or with [pt_zero]. *)
Class ProcTable (S V : Type) := {
  pt_ok : S → Prop;
  pt_table : S → gmap Z V;
  pt_capacity : nat;
  pt_zero : V;
  pt_update : Z → option V → M S Z;
  pt_get : Z → M S (option V);
  pt_update_ok s pid v :
    pt_ok s → 0 < pid →
    is_Some (pt_table s !! pid) ∨ (size (pt_table s) < pt_capacity)%nat →
    ∃ s', pt_update pid (Some v) s = Ret 0 s' ∧ pt_ok s' ∧ pt_table s' = <[pid := v]> (pt_table s);
  pt_update_full s pid v :
    pt_ok s → 0 < pid → pt_table s !! pid = None → size (pt_table s) = pt_capacity →
    ∃ s', pt_update pid (Some v) s = Ret (-1) s' ∧ pt_ok s' ∧ pt_table s' = pt_table s;
  pt_update_bad s pid v :
    pt_ok s → pid ≤ 0 ∨ v = None → pt_update pid v s = Ret (-1) s;
  pt_get_ok s pid :
    pt_ok s → pt_get pid s =
      Ret (if pid <=? 0 then None else Some (default pt_zero (pt_table s !! pid))) s;
  pt_capacity_ok s : pt_ok s → (size (pt_table s) ≤ pt_capacity)%nat;
}.

Section ProcTable.
Context {S V : Type} `{!ProcTable S V}.

(** An update returns, whatever the pid and the room. *)
Lemma pt_update_returns s pid v :
  pt_ok s → ∃ r s', pt_update pid v s = Ret r s' ∧ pt_ok s'.
Proof.
  intros Hs. destruct v as [v|]; [|exists (-1), s; split; [apply pt_update_bad; auto|done]].
  destruct (Z.leb_spec pid 0); [exists (-1), s; split; [apply pt_update_bad; auto|done]|].
  pose proof (pt_capacity_ok s Hs).
  destruct (decide (is_Some (pt_table s !! pid) ∨ (size (pt_table s) < pt_capacity)%nat)) as [Hr|Hr].
  - destruct (pt_update_ok s pid v) as (s' & ? & ? & _); auto. by exists 0, s'.
  - destruct (pt_update_full s pid v) as (s' & ? & ? & _); auto; [|lia|by exists (-1), s'].
    destruct (pt_table s !! pid) eqn:E; [|done]. destruct Hr. by left.
Qed.
End ProcTable.
