(* ===== verification/ShmProcess.v ===== *)
(** * Process-level shared memory ([src/shm/shared_memory.h], [src/shm/shared_memory.c])

    One POSIX shared-memory object holds the usage of every intercepted process
    in two parallel arrays of [MAX_PROCESSES] slots ([process_pids],
    [process_stats]), the global usage the collector writes, and the global
    limits.  This file models every function of [shared_memory.c] over the
    object's contents, the caller's [shm_fd] and [shm_data_ptr], and the answers
    of the operating system, and shows that the slot arrays implement a finite
    map from pid to usage ([refines]), through the interface [ProcTable] that
    the clients of the table are verified against. *)

From S2P Require Import Prelude SlotTable.

Module Shm.

Definition MAX_PROCESSES : Z := 1024.

(** ** Data ([shared_memory.h]) *)

Record resource_usage_t := mk_usage {
  qp_count : Z;       (* int *)
  mr_count : Z;       (* int *)
  memory_used : Z;    (* uint64_t *)
}.
#[export] Instance expand_usage : Expand resource_usage_t := λ r,
  mk_usage (qp_count r) (mr_count r) (memory_used r).
#[export] Instance usage_eq_dec : EqDecision resource_usage_t.
Proof. solve_decision. Defined.

Definition usage_zero : resource_usage_t := mk_usage 0 0 0.
#[export] Instance usage_inhabited : Inhabited resource_usage_t := populate usage_zero.

Record shared_memory_data_t := mk_data {
  global_stats : resource_usage_t;
  process_stats : list resource_usage_t;
  process_pids : list Z;
  max_global_qp : Z;
  max_global_mr : Z;
  max_global_memory : Z;
  lock : Z;                 (* volatile int shm_lock *)
  version : Z;
  last_update_time : Z;
}.
#[export] Instance expand_data : Expand shared_memory_data_t := λ r,
  mk_data (global_stats r) (process_stats r) (process_pids r) (max_global_qp r)
    (max_global_mr r) (max_global_memory r) (lock r) (version r) (last_update_time r).

(** The contents of a freshly created object: [ftruncate] fills it with zeros. *)
Definition data_zero : shared_memory_data_t :=
  mk_data usage_zero (replicate (Z.to_nat MAX_PROCESSES) usage_zero)
    (replicate (Z.to_nat MAX_PROCESSES) 0) 0 0 0 0 0 0.

(** What the operating system answers to the calls of this component. *)
Record os_answers := mk_os {
  os_shm_open : Z;       (* a descriptor, or -1 *)
  os_ftruncate : Z;      (* 0, or -1 *)
  os_mmap : bool;        (* false: MAP_FAILED *)
  os_shm_unlink : Z;     (* 0, or -1 *)
}.

(** The state a process sees: its own [shm_fd] and [shm_data_ptr], the contents
    of the object named [SHM_NAME] (all zeros when there is none, since
    [shm_open] with [O_CREAT] and [ftruncate] cannot tell the two apart), and
    the successive readings of the monotonic clock as (seconds, nanoseconds). *)
Record state := mk_state {
  shm_fd : Z;
  shm_data_ptr : bool;
  shm : shared_memory_data_t;
  os : os_answers;
  clock : nat → Z * Z;
}.
#[export] Instance expand_state : Expand state := λ r,
  mk_state (shm_fd r) (shm_data_ptr r) (shm r) (os r) (clock r).

(** ** Operations ([shared_memory.c]) *)

Definition get_current_time_ns : M state Z := λ s,
  let '(tv_sec, tv_nsec) := clock s 0%nat in
  Ret (u64 (u64 (tv_sec * 1000000000) + tv_nsec)) (s <| clock := λ n, clock s (S n) |>).

(** Assignments to the fields of [*shm_data_ptr]. *)
Definition store (f : shared_memory_data_t → shared_memory_data_t) : M state unit :=
  modify (λ s, s <| shm ::= f |>).

Definition touch (now : Z) (d : shared_memory_data_t) : shared_memory_data_t :=
  d <| version ::= λ v, u64 (v + 1) |> <| last_update_time := now |>.

(** A compare-and-exchange loop on [shm_lock]: with no other thread in the
    picture it succeeds at once or spins forever (the interleaving of several
    threads is the subject of [SpinLock.v]). *)
Definition shm_lock : M state unit :=
  s ← get;
  if lock (shm s) =? 0 then store (λ d, d <| lock := 1 |>) else hang.

Definition shm_unlock : M state unit := store (λ d, d <| lock := 0 |>).

Definition init_data (d : shared_memory_data_t) (now : Z) : shared_memory_data_t :=
  d <| global_stats := usage_zero |>
    <| process_stats ::= fmap (λ _, usage_zero) |>
    <| process_pids ::= fmap (λ _, 0) |>
    <| max_global_qp := 1000 |>
    <| max_global_mr := 1000 |>
    <| max_global_memory := 1024 * 1024 * 1024 |>
    <| lock := 0 |>
    <| version := 1 |>
    <| last_update_time := now |>.

Definition shm_init : M state Z :=
  s ← get;
  modify (λ s, s <| shm_fd := os_shm_open (os s) |>);;
  if os_shm_open (os s) =? -1 then mret (-1) else
  if os_ftruncate (os s) =? -1 then
    modify (λ s, s <| shm_fd := -1 |>);; mret (-1)
  else if negb (os_mmap (os s)) then
    modify (λ s, s <| shm_fd := -1 |> <| shm_data_ptr := false |>);; mret (-1)
  else
    modify (λ s, s <| shm_data_ptr := true |>);;
    let g := global_stats (shm s) in
    if (qp_count g =? 0) && (mr_count g =? 0) && (memory_used g =? 0) then
      now ← get_current_time_ns;
      store (λ d, init_data d now);;
      mret 0
    else mret 0.

Definition shm_destroy : M state Z :=
  s ← get;
  modify (λ s, s <| shm_data_ptr := false |> <| shm_fd := -1 |>);;
  if os_shm_unlink (os s) =? -1 then mret (-1)
  else
    (* the name is gone: the next [shm_open] creates a fresh object *)
    modify (λ s, s <| shm := data_zero |>);; mret 0.

Definition shm_get_ptr : M state bool := gets shm_data_ptr.

(** An output pointer is the contents of the variable it points to ([None]: the
    null pointer); the function returns the contents after the call. *)
Definition shm_get_global_resources (usage : option resource_usage_t) :
    M state (Z * option resource_usage_t) :=
  s ← get;
  match usage with
  | None => mret (-1, usage)
  | Some _ =>
      if negb (shm_data_ptr s) then mret (-1, usage)
      else mret (0, Some (global_stats (shm s)))
  end.

Definition shm_get_process_resources (pid : Z) (usage : option resource_usage_t) :
    M state (Z * option resource_usage_t) :=
  s ← get;
  match usage with
  | None => mret (-1, usage)
  | Some _ =>
      if negb (shm_data_ptr s) || (pid <=? 0) then mret (-1, usage)
      else
        match find_index (λ p, p =? pid) (process_pids (shm s)) with
        | Some i =>
            match process_stats (shm s) !! i with
            | Some u => mret (0, Some u)
            | None => crash
            end
        | None => mret (0, Some usage_zero)
        end
  end.

Definition shm_update_global_resources (usage : option resource_usage_t) : M state Z :=
  s ← get;
  match usage with
  | None => mret (-1)
  | Some u =>
      if negb (shm_data_ptr s) then mret (-1) else
      shm_lock;;
      store (λ d, d <| global_stats := u |>);;
      now ← get_current_time_ns;
      store (touch now);;
      shm_unlock;;
      mret 0
  end.

(** The slot search of [shm_update_process_resources]: [slot] is the first empty
    slot seen so far, or -1. *)
Fixpoint slot_scan (pid : Z) (pids : list Z) (i slot : Z) : Z :=
  match pids with
  | [] => slot
  | p :: pids' =>
      if p =? pid then i
      else if (p =? 0) && (slot =? -1) then slot_scan pid pids' (i + 1) i
      else slot_scan pid pids' (i + 1) slot
  end.

Definition shm_update_process_resources (pid : Z) (usage : option resource_usage_t) :
    M state Z :=
  s ← get;
  match usage with
  | None => mret (-1)
  | Some u =>
      if negb (shm_data_ptr s) || (pid <=? 0) then mret (-1) else
      shm_lock;;
      let slot := slot_scan pid (process_pids (shm s)) 0 (-1) in
      if slot =? -1 then shm_unlock;; mret (-1) else
      let k := Z.to_nat slot in
      (if default 0 (process_pids (shm s) !! k) =? 0
       then store (λ d, d <| process_pids ::= <[k := pid]> |>)
       else mret ());;
      store (λ d, d <| process_stats ::= <[k := u]> |>);;
      now ← get_current_time_ns;
      store (touch now);;
      shm_unlock;;
      mret 0
  end.

Definition shm_set_global_limits (max_qp max_mr max_memory : Z) : M state Z :=
  s ← get;
  if negb (shm_data_ptr s) then mret (-1) else
  shm_lock;;
  store (λ d, d <| max_global_qp := max_qp |> <| max_global_mr := max_mr |>
                <| max_global_memory := max_memory |>);;
  shm_unlock;;
  mret 0.

(** ** Well-formed contents *)

(** The process table as one array of (pid, usage) slots. *)
Definition entries (d : shared_memory_data_t) : list (Z * resource_usage_t) :=
  zip (process_pids d) (process_stats d).

(** The map from pid to usage the object stands for. *)
Definition table (d : shared_memory_data_t) : gmap Z resource_usage_t :=
  slots_map fst snd (entries d).

Record data_ok (d : shared_memory_data_t) : Prop := {
  ok_pids : length (process_pids d) = Z.to_nat MAX_PROCESSES;
  ok_stats : length (process_stats d) = Z.to_nat MAX_PROCESSES;
  ok_unique : keys_unique fst (entries d);
}.

(** The object is mapped and nobody holds its lock. *)
Record ready (s : state) : Prop := {
  ready_ptr : shm_data_ptr s = true;
  ready_lock : lock (shm s) = 0;
  ready_data : data_ok (shm s);
}.

#[local] Arguments Z.to_nat : simpl never.

Lemma fst_entries d : data_ok d → (entries d).*1 = process_pids d.
Proof. intros []. apply fst_zip. lia. Qed.

Lemma length_entries d : data_ok d → length (entries d) = Z.to_nat MAX_PROCESSES.
Proof. intros []. unfold entries. rw length_zip_with. lia. Qed.

Lemma entries_lookup d i p u :
  entries d !! i = Some (p, u) ↔ process_pids d !! i = Some p ∧ process_stats d !! i = Some u.
Proof. unfold entries. rw lookup_zip_with_Some. naive_solver. Qed.

Lemma entries_pid d i p :
  data_ok d → process_pids d !! i = Some p → ∃ u, entries d !! i = Some (p, u).
Proof.
  intros Hd Hi. pose proof (lookup_lt_Some _ _ _ Hi).
  destruct (lookup_lt_is_Some_2 (process_stats d) i) as [u Hu].
  { rw (ok_stats d Hd) -(ok_pids d Hd) //. }
  exists u. by apply entries_lookup.
Qed.

Lemma find_index_entries d (f : Z → bool) :
  data_ok d → find_index f (process_pids d) = find_index (λ x, f x.1) (entries d).
Proof.
  intros Hd. rw -(fst_entries d Hd). generalize (entries d) as l.
  induction l as [|x l IH]; cbn; [done|]. by rw IH.
Qed.

(** Blank slot arrays stand for the empty map. *)
Lemma blank_ok d :
  process_pids d = replicate (Z.to_nat MAX_PROCESSES) 0 →
  process_stats d = replicate (Z.to_nat MAX_PROCESSES) usage_zero →
  data_ok d ∧ table d = ∅.
Proof.
  intros Hp Hs. unfold table.
  assert (He : entries d = replicate (Z.to_nat MAX_PROCESSES) (0, usage_zero)).
  { unfold entries. by rw Hp Hs zip_with_replicate. }
  rw He. split; [|by apply slots_map_replicate].
  split; [by rw Hp length_replicate|by rw Hs length_replicate|].
  rw He. by apply keys_unique_replicate.
Qed.

Lemma data_zero_ok : data_ok data_zero.
Proof. by apply blank_ok. Qed.

Lemma table_data_zero : table data_zero = ∅.
Proof. by apply blank_ok. Qed.

(** The search loop finds the slot of the pid, else the first free slot. *)
Lemma slot_scan_spec pid pids i slot :
  pid ≠ 0 → 0 ≤ i →
  slot_scan pid pids i slot =
    match find_index (λ p, p =? pid) pids with
    | Some k => i + Z.of_nat k
    | None =>
        if slot =? -1
        then match find_index (λ p, p =? 0) pids with
             | Some k => i + Z.of_nat k
             | None => -1
             end
        else slot
    end.
Proof.
  intros Hpid. revert i slot. induction pids as [|p pids IH]; intros i slot Hi.
  - cbn. by destruct (Z.eqb_spec slot (-1)) as [->|].
  - cbn. destruct (Z.eqb_spec p pid) as [->|Hp]; [lia|].
    destruct (Z.eqb_spec p 0) as [->|Hp0]; destruct (Z.eqb_spec slot (-1)) as [->|Hs]; cbn;
      (rw IH; [lia|]); destruct (find_index (λ p, p =? pid) pids) as [k|]; cbn; try lia.
    + destruct (Z.eqb_spec i (-1)); lia.
    + by destruct (Z.eqb_spec slot (-1)).
    + destruct (find_index (λ p, p =? 0) pids) as [k|]; cbn; lia.
    + by destruct (Z.eqb_spec slot (-1)).
Qed.

(** What an update of the process table leaves alone. *)
Record same_globals (d d' : shared_memory_data_t) : Prop := {
  same_stats : global_stats d' = global_stats d;
  same_qp : max_global_qp d' = max_global_qp d;
  same_mr : max_global_mr d' = max_global_mr d;
  same_memory : max_global_memory d' = max_global_memory d;
}.

Lemma relock d : lock d = 0 → d <| lock := 1 |> <| lock := 0 |> = d.
Proof. destruct d. cbn. by intros ->. Qed.

Lemma update_hit s pid u k :
  ready s → 0 < pid → slot_scan pid (process_pids (shm s)) 0 (-1) = Z.of_nat k →
  process_pids (shm s) !! k = Some pid ∨ process_pids (shm s) !! k = Some 0 →
  ∃ s', shm_update_process_resources pid (Some u) s = Ret 0 s' ∧
    shm_data_ptr s' = true ∧ lock (shm s') = 0 ∧
    process_pids (shm s') = <[k:=pid]> (process_pids (shm s)) ∧
    process_stats (shm s') = <[k:=u]> (process_stats (shm s)) ∧
    version (shm s') = u64 (version (shm s) + 1) ∧
    same_globals (shm s) (shm s').
Proof.
  intros [Hp Hl Hd] Hpid Hscan Hk.
  assert (Hneg : (Z.of_nat k =? -1) = false) by lia.
  assert (Hpid' : (pid <=? 0) = false) by lia.
  unfold shm_update_process_resources, shm_lock, shm_unlock, store, get_current_time_ns.
  run. rw Hp Hpid'. cbn. rw Hl. cbn. rw Hscan Hneg Nat2Z.id. cbn.
  destruct Hk as [Hk|Hk]; rw Hk; cbn.
  - rw (proj2 (Z.eqb_neq pid 0)); [lia|]. cbn. destruct (clock s 0%nat) as [sec nsec].
    cbn. eexists. split_and!; [done..| |done|done|done].
    by rw list_insert_id.
  - destruct (clock s 0%nat) as [sec nsec]. cbn. eexists. by split_and!.
Qed.

Lemma update_miss s pid u :
  ready s → 0 < pid → slot_scan pid (process_pids (shm s)) 0 (-1) = -1 →
  ∃ s', shm_update_process_resources pid (Some u) s = Ret (-1) s' ∧
    shm_data_ptr s' = true ∧ shm s' = shm s.
Proof.
  intros [Hp Hl Hd] Hpid Hscan.
  assert (Hpid' : (pid <=? 0) = false) by lia.
  unfold shm_update_process_resources, shm_lock, shm_unlock, store.
  run. rw Hp Hpid'. cbn. rw Hl. cbn. rw Hscan. cbn. eexists. split_and!; [done|done|].
  by apply relock.
Qed.

Lemma data_ok_put d d' k pid u y :
  data_ok d → 0 < pid →
  process_pids d' = <[k:=pid]> (process_pids d) →
  process_stats d' = <[k:=u]> (process_stats d) →
  process_pids d !! k = Some y →
  y = pid ∨ y = 0 ∧ find_index (λ p, p =? pid) (process_pids d) = None →
  data_ok d' ∧ table d' = <[pid := u]> (table d).
Proof.
  intros Hd Hpid Hp Hs Hk Hy.
  destruct (entries_pid d k y Hd Hk) as [v Hv].
  assert (He : entries d' = <[k := (pid, u)]> (entries d)).
  { unfold entries. rw Hp Hs. by rw insert_zip_with. }
  destruct (slots_map_insert fst snd (entries d) k (pid, u) (y, v)) as [Ht Hu]; cbn.
  - apply Hd.
  - done.
  - lia.
  - destruct Hy as [->|[-> Hy]]; [by left|right]. split; [done|].
    by rw -(find_index_entries d (λ p, p =? pid) Hd).
  - split.
    + split; [rw Hp length_insert; apply Hd|rw Hs length_insert; apply Hd|by rw He].
    + unfold table. by rw He Ht.
Qed.

(** ** The process table refines a bounded finite map *)

Lemma table_None d pid :
  data_ok d → pid ≠ 0 →
  table d !! pid = None ↔ find_index (λ p, p =? pid) (process_pids d) = None.
Proof.
  intros Hd Hp. unfold table. rw slots_map_None; [apply Hd|done|].
  by rw (find_index_entries d (λ p, p =? pid) Hd).
Qed.

Lemma table_size d :
  data_ok d → Z.of_nat (size (table d)) = countb (λ p, negb (p =? 0)) (process_pids d).
Proof.
  intros Hd. unfold table. rw slots_map_size; [apply Hd|]. unfold slots_used.
  rw -(fst_entries d Hd). by rw countb_map.
Qed.

Lemma table_full d :
  data_ok d → Z.of_nat (size (table d)) = MAX_PROCESSES ↔
    find_index (λ p, p =? 0) (process_pids d) = None.
Proof.
  intros Hd. rw table_size // find_index_None.
  pose proof (countb_full (λ p, negb (p =? 0)) (process_pids d)) as Hf.
  rw (ok_pids d Hd) Z2Nat.id // in Hf. rw Hf.
  split; intros H i x Hi; specialize (H i x Hi); by destruct (x =? 0).
Qed.

Lemma table_bound d : data_ok d → Z.of_nat (size (table d)) ≤ MAX_PROCESSES.
Proof.
  intros Hd. rw table_size //.
  pose proof (countb_bounds (λ p, negb (p =? 0)) (process_pids d)) as Hb.
  rw (ok_pids d Hd) Z2Nat.id // in Hb. lia.
Qed.

Lemma update_insert s pid u :
  ready s → 0 < pid →
  is_Some (table (shm s) !! pid) ∨ Z.of_nat (size (table (shm s))) < MAX_PROCESSES →
  ∃ s', shm_update_process_resources pid (Some u) s = Ret 0 s' ∧ ready s' ∧
    table (shm s') = <[pid := u]> (table (shm s)) ∧
    version (shm s') = u64 (version (shm s) + 1) ∧ same_globals (shm s) (shm s').
Proof.
  intros Hr Hpid Hroom. pose proof (ready_data s Hr) as Hd.
  pose proof (slot_scan_spec pid (process_pids (shm s)) 0 (-1) ltac:(lia) ltac:(lia)) as Hscan.
  destruct (find_index (λ p, p =? pid) (process_pids (shm s))) as [k|] eqn:Hf; cbn in Hscan.
  - destruct (find_index_Some _ _ _ Hf) as (p & Hk & Hpe%Z.eqb_eq & _). subst p.
    destruct (update_hit s pid u k) as (s' & Hrun & Hp' & Hl' & Hpp & Hss & Hv & Hg); auto.
    destruct (data_ok_put (shm s) (shm s') k pid u pid) as [Hok Ht]; auto.
    exists s'. by split_and!.
  - destruct (find_index (λ p, p =? 0) (process_pids (shm s))) as [k|] eqn:Hf0; cbn in Hscan.
    + destruct (find_index_Some _ _ _ Hf0) as (p & Hk & Hpe%Z.eqb_eq & _). subst p.
      destruct (update_hit s pid u k) as (s' & Hrun & Hp' & Hl' & Hpp & Hss & Hv & Hg); auto.
      destruct (data_ok_put (shm s) (shm s') k pid u 0) as [Hok Ht]; auto.
      exists s'. by split_and!.
    + exfalso. apply (table_full _ Hd) in Hf0.
      apply (table_None _ pid Hd ltac:(lia)) in Hf.
      destruct Hroom as [[v Hv]|]; [congruence|lia].
Qed.

Lemma update_refused s pid u :
  ready s → 0 < pid → table (shm s) !! pid = None →
  Z.of_nat (size (table (shm s))) = MAX_PROCESSES →
  ∃ s', shm_update_process_resources pid (Some u) s = Ret (-1) s' ∧ ready s' ∧ shm s' = shm s.
Proof.
  intros Hr Hpid Hnone Hfull. pose proof (ready_data s Hr) as Hd.
  apply (table_None _ pid Hd ltac:(lia)) in Hnone. apply (table_full _ Hd) in Hfull.
  destruct (update_miss s pid u) as (s' & Hrun & Hp' & Hs'); auto.
  { rw slot_scan_spec; [lia..|]. by rw Hnone Hfull. }
  exists s'. split_and!; [done| |done]. destruct Hr. by split; rw ?Hs'.
Qed.

Lemma update_bad s pid u :
  ready s → pid ≤ 0 → shm_update_process_resources pid (Some u) s = Ret (-1) s.
Proof.
  intros [Hp _ _] Hpid. unfold shm_update_process_resources. run.
  rw Hp. cbn. by rw (proj2 (Z.leb_le pid 0) Hpid).
Qed.

Lemma get_process_run s pid u :
  shm_data_ptr s = true → data_ok (shm s) → 0 < pid →
  shm_get_process_resources pid (Some u) s =
    Ret (0, Some (default usage_zero (table (shm s) !! pid))) s.
Proof.
  intros Hp Hd Hpid. unfold shm_get_process_resources. run.
  rw Hp. rw (proj2 (Z.leb_gt pid 0)) //. cbn.
  unfold table. rw slots_map_lookup; [apply Hd|lia|].
  rw -(find_index_entries _ (λ p, p =? pid) Hd).
  destruct (find_index (λ p, p =? pid) (process_pids (shm s))) as [i|] eqn:Hf; cbn; [|done].
  destruct (find_index_Some _ _ _ Hf) as (p & Hi & _).
  destruct (entries_pid _ _ _ Hd Hi) as [v Hv]. rw Hv. cbn.
  apply entries_lookup in Hv as [_ Hv]. by rw Hv.
Qed.

#[export] Program Instance process_table : ProcTable state resource_usage_t := {
  pt_ok := ready;
  pt_table s := table (shm s);
  pt_capacity := Z.to_nat MAX_PROCESSES;
  pt_zero := usage_zero;
  pt_update := shm_update_process_resources;
  pt_get pid :=
    r ← shm_get_process_resources pid (Some usage_zero);
    mret (if fst r =? 0 then snd r else None);
}.
Next Obligation.
  intros s pid u Hr Hpid Hroom. destruct (update_insert s pid u) as (s' & ? & ? & ? & _); auto.
  - destruct Hroom as [|Hlt]; [by left|right]. unfold MAX_PROCESSES in *. lia.
  - by exists s'.
Qed.
Next Obligation.
  intros s pid u Hr Hpid Hnone Hfull.
  destruct (update_refused s pid u) as (s' & ? & ? & Hs'); auto.
  - rw Hfull. by rw Z2Nat.id.
  - exists s'. by rw Hs'.
Qed.
Next Obligation. intros s pid [u|] Hr [Hpid|]; [by apply update_bad|done..]. Qed.
Next Obligation.
  intros s pid [Hp Hl Hd]. destruct (Z.leb_spec pid 0) as [Hpid|Hpid].
  - unfold shm_get_process_resources. run. rw Hp. cbn. by rw (proj2 (Z.leb_le pid 0) Hpid).
  - by rw (bind_Ret _ _ _ _ _ (get_process_run s pid usage_zero Hp Hd Hpid)).
Qed.
Next Obligation.
  intros s [_ _ Hd]. pose proof (table_bound _ Hd). unfold MAX_PROCESSES in *. lia.
Qed.

Lemma set_global_limits_run s qp mr mem :
  ready s →
  ∃ s', shm_set_global_limits qp mr mem s = Ret 0 s' ∧ ready s' ∧
    table (shm s') = table (shm s) ∧ global_stats (shm s') = global_stats (shm s) ∧
    max_global_qp (shm s') = qp ∧ max_global_mr (shm s') = mr ∧
    max_global_memory (shm s') = mem.
Proof.
  intros [Hp Hl Hd]. unfold shm_set_global_limits, shm_lock, shm_unlock, store. run.
  rw Hp. cbn. rw Hl. cbn. eexists. split; [done|]. cbn. split_and!; [|done..].
  split; [done..|]. destruct Hd. by split.
Qed.

Lemma update_global_run s u :
  ready s →
  ∃ s', shm_update_global_resources (Some u) s = Ret 0 s' ∧ ready s' ∧
    table (shm s') = table (shm s) ∧ global_stats (shm s') = u.
Proof.
  intros [Hp Hl Hd]. unfold shm_update_global_resources, shm_lock, shm_unlock, store,
    get_current_time_ns. run.
  rw Hp. cbn. rw Hl. cbn. destruct (clock s 0%nat). cbn. eexists. split; [done|].
  cbn. split_and!; [|done..]. split; [done..|]. destruct Hd. by split.
Qed.

(** [shm_init] in an environment that lets it: the object is usable afterwards,
    whatever it held (provided nobody holds its lock). *)
Lemma shm_init_ready s :
  0 ≤ os_shm_open (os s) → os_ftruncate (os s) = 0 → os_mmap (os s) = true →
  data_ok (shm s) → lock (shm s) = 0 →
  ∃ s', shm_init s = Ret 0 s' ∧ ready s'.
Proof.
  intros Ho Hf Hm Hd Hl. unfold shm_init, get_current_time_ns, store. run.
  rw Hf Hm. rw (proj2 (Z.eqb_neq _ (-1))); [lia|]. cbn.
  destruct ((_ =? 0) && _ && _); [|eexists; split; [done|by split]].
  cbn. destruct (clock s 0%nat) as [sec nsec]. cbn. eexists. split; [done|].
  split; [done..|]. apply blank_ok; cbn.
  - by rw fmap_const_replicate (ok_pids _ Hd).
  - by rw fmap_const_replicate (ok_stats _ Hd).
Qed.

(** ** The calls of the interface, and sequences of them *)

Inductive call :=
| UpdateProcess (pid : Z) (u : option resource_usage_t)
| UpdateGlobal (u : option resource_usage_t)
| SetLimits (qp mr mem : Z)
| GetProcess (pid : Z) (u : option resource_usage_t)
| GetGlobal (u : option resource_usage_t).

Definition run_call (c : call) : M state Z :=
  match c with
  | UpdateProcess pid u => shm_update_process_resources pid u
  | UpdateGlobal u => shm_update_global_resources u
  | SetLimits qp mr mem => shm_set_global_limits qp mr mem
  | GetProcess pid u => r ← shm_get_process_resources pid u; mret r.1
  | GetGlobal u => r ← shm_get_global_resources u; mret r.1
  end.

Inductive step : state → state → Prop :=
| step_call c r s s' : run_call c s = Ret r s' → step s s'.

(** From a ready state every call returns, and the new state is ready and still
    holds every pid it held. *)
Lemma shm_call_ready c s :
  ready s → ∃ r s', run_call c s = Ret r s' ∧ ready s' ∧
    dom (table (shm s)) ⊆ dom (table (shm s')).
Proof.
  intros Hr. pose proof (ready_ptr s Hr) as Hp. pose proof (ready_data s Hr) as Hd.
  destruct c as [pid [u|]|[u|]|qp mr mem|pid [u|]|[u|]]; cbn [run_call].
  - destruct (Z.leb_spec pid 0) as [Hpid|Hpid].
    + exists (-1), s. split_and!; [by apply update_bad|done|done].
    + destruct (decide (is_Some (table (shm s) !! pid) ∨
        Z.of_nat (size (table (shm s))) < MAX_PROCESSES)) as [Hroom|Hroom].
      * destruct (update_insert s pid u) as (s' & Hs' & Hr' & Ht & _); auto.
        exists 0, s'. split_and!; [done..|]. rw Ht dom_insert_L. set_solver.
      * pose proof (table_bound _ Hd).
        destruct (update_refused s pid u) as (s' & Hs' & Hr' & Ht); auto; try lia.
        { destruct (table (shm s) !! pid) eqn:E; [|done]. destruct Hroom. by left. }
        exists (-1), s'. split_and!; [done..|]. by rw Ht.
  - by exists (-1), s.
  - destruct (update_global_run s u Hr) as (s' & Hs' & Hr' & Ht & _).
    exists 0, s'. by rw Ht.
  - by exists (-1), s.
  - destruct (set_global_limits_run s qp mr mem Hr) as (s' & Hs' & Hr' & Ht & _).
    exists 0, s'. by rw Ht.
  - destruct (Z.leb_spec pid 0) as [Hpid|Hpid].
    + exists (-1), s. split_and!; [|done|done]. unfold shm_get_process_resources. run.
      rw Hp. cbn. by rw (proj2 (Z.leb_le pid 0) Hpid).
    + exists 0, s. split_and!; [|done|done]. run. by rw get_process_run.
  - exists (-1), s. by split_and!.
  - exists 0, s. split_and!; [|done|done]. run. unfold shm_get_global_resources. run. by rw Hp.
  - exists (-1), s. by split_and!.
Qed.

Lemma shm_steps_ready s s' :
  rtc step s s' → ready s → ready s' ∧ dom (table (shm s)) ⊆ dom (table (shm s')).
Proof.
  induction 1 as [s|s t s' Hst _ IH]; intros Hr; [done|].
  destruct Hst as [c r s t Hrun].
  destruct (shm_call_ready c s Hr) as (r' & t' & Hrun' & Hr' & Hd).
  rw Hrun in Hrun'. injection Hrun' as <- <-. destruct (IH Hr'). set_solver.
Qed.

(** ** Properties *)

(** C9: the two slot arrays implement a finite map bounded by [MAX_PROCESSES]:
    recording the usage of a process inserts it into the map (whatever slot it
    lands in), bumps the version and leaves the global figures alone, and a
    later query returns what was recorded for that pid and the old entry for
    every other one. *)
Theorem update_process_refines_map s pid u :
  ready s → 0 < pid →
  is_Some (table (shm s) !! pid) ∨ Z.of_nat (size (table (shm s))) < MAX_PROCESSES →
  ∃ s', shm_update_process_resources pid (Some u) s = Ret 0 s' ∧ ready s' ∧
    table (shm s') = <[pid := u]> (table (shm s)) ∧
    version (shm s') = u64 (version (shm s) + 1) ∧ same_globals (shm s) (shm s') ∧
    ∀ q v, 0 < q → shm_get_process_resources q (Some v) s' =
      Ret (0, Some (if decide (q = pid) then u
                    else default usage_zero (table (shm s) !! q))) s'.
Proof.
  intros Hr Hpid Hroom. destruct (update_insert s pid u) as (s' & ? & Hr' & Ht & ? & ?); auto.
  exists s'. split_and!; [done..|]. intros q v Hq.
  rw get_process_run; [apply Hr'..|done|]. rw Ht lookup_insert.
  repeat case_decide; by subst.
Qed.

(** A mapped, freshly created object. *)
Definition fresh (clk : nat → Z * Z) : state :=
  mk_state 3 true data_zero (mk_os 3 0 true 0) clk.

Lemma shm_fresh_ready clk : ready (fresh clk).
Proof. split; [done..|]. apply data_zero_ok. Qed.

Lemma update_process_refines_map_witness :
  let s := fresh (λ n, (Z.of_nat n, 5)) in
  0 < 42 ∧ ∃ s', shm_update_process_resources 42 (Some (mk_usage 2 1 4096)) s = Ret 0 s' ∧
    shm_get_process_resources 42 (Some usage_zero) s' = Ret (0, Some (mk_usage 2 1 4096)) s'.
Proof.
  intros s. split; [lia|].
  destruct (update_process_refines_map s 42 (mk_usage 2 1 4096)) as (s' & H & _ & _ & _ & _ & Hg).
  - apply shm_fresh_ready.
  - lia.
  - right. change (shm s) with data_zero. rw table_data_zero. reflexivity.
  - exists s'. split; [exact H|]. rw (Hg 42 usage_zero); [lia|]. reflexivity.
Defined.

(** No slot is ever given back: once [MAX_PROCESSES] different pids have been
    recorded, a process with a new pid is refused (-1) after any further
    sequence of calls of the interface, however many of the recorded processes
    have exited. *)
Theorem full_table_refuses_new_pid s s' pid u :
  ready s → Z.of_nat (size (table (shm s))) = MAX_PROCESSES →
  table (shm s) !! pid = None → 0 < pid → rtc step s s' →
  ∃ s'', shm_update_process_resources pid (Some u) s' = Ret (-1) s'' ∧ shm s'' = shm s'.
Proof.
  intros Hr Hfull Hnone Hpid Hsteps. destruct (shm_steps_ready s s' Hsteps Hr) as [Hr' Hdom].
  pose proof (table_bound _ (ready_data _ Hr')) as Hb.
  assert (Heq : dom (table (shm s)) = dom (table (shm s'))).
  { apply (set_subseteq_size_eq _ _ Hdom). rw !size_dom. lia. }
  destruct (update_refused s' pid u) as (s'' & ? & _ & ?); [done|done| | |by exists s''].
  - apply not_elem_of_dom. rw -Heq. by apply not_elem_of_dom.
  - rw -size_dom -Heq size_dom. done.
Qed.

(** An object whose slots hold the pids 1, 2, ..., [MAX_PROCESSES]. *)
Definition full_data : shared_memory_data_t :=
  data_zero <| process_pids := seqZ 1 MAX_PROCESSES |>.

Lemma full_data_ok : data_ok full_data.
Proof.
  split; [cbn; by rw length_seqZ|apply data_zero_ok|].
  intros i j [p u] [q v] Hi Hj _ Hpq. cbn in Hpq. subst q.
  apply entries_lookup in Hi as [[-> _]%lookup_seqZ _].
  apply entries_lookup in Hj as [[Hj _]%lookup_seqZ _]. lia.
Qed.

Lemma full_data_table pid :
  Z.of_nat (size (table full_data)) = MAX_PROCESSES ∧
  (MAX_PROCESSES < pid → table full_data !! pid = None).
Proof.
  split.
  - apply (table_full _ full_data_ok), find_index_None.
    intros i x [-> _]%lookup_seqZ. apply Z.eqb_neq. lia.
  - intros Hp. apply table_None; [apply full_data_ok|unfold MAX_PROCESSES in *; lia|].
    apply find_index_None. intros i x [-> ?]%lookup_seqZ. apply Z.eqb_neq.
    unfold MAX_PROCESSES in *. lia.
Qed.

Lemma full_table_refuses_new_pid_witness :
  let s := mk_state 3 true full_data (mk_os 3 0 true 0) (λ _, (0, 0)) in
  ∃ s', shm_update_process_resources 5000 (Some usage_zero) s = Ret (-1) s' ∧ shm s' = shm s.
Proof.
  intros s. destruct (full_data_table 5000) as [Hsize Hnone].
  refine (full_table_refuses_new_pid s s 5000 usage_zero _ Hsize (Hnone _) _ (rtc_refl _ _)).
  - split; [reflexivity|reflexivity|apply full_data_ok].
  - unfold MAX_PROCESSES. lia.
  - lia.
Defined.

(** [shm_init] takes an object whose global figures are all zero for a newly
    created one.  The hooks only ever write the per-process slots, so when a
    second process initialises (its environment lets the system calls succeed),
    every usage recorded so far is wiped, the configured limits are replaced by
    the defaults, and a lock somebody holds is released. *)
Theorem shm_init_wipes_live_table s :
  0 ≤ os_shm_open (os s) → os_ftruncate (os s) = 0 → os_mmap (os s) = true →
  global_stats (shm s) = usage_zero → data_ok (shm s) →
  ∃ s', shm_init s = Ret 0 s' ∧ ready s' ∧ table (shm s') = ∅ ∧
    max_global_qp (shm s') = 1000 ∧ max_global_mr (shm s') = 1000 ∧
    max_global_memory (shm s') = 1073741824 ∧ version (shm s') = 1.
Proof.
  intros Ho Hf Hm Hg Hd. unfold shm_init, get_current_time_ns, store. run.
  rw Hf Hm Hg. rw (proj2 (Z.eqb_neq _ (-1))); [lia|]. cbn.
  destruct (clock s 0%nat) as [sec nsec]. cbn. eexists. split; [done|].
  match goal with |- ready ?s' ∧ _ => destruct (blank_ok (shm s')) as [Hok Ht] end.
  - cbn. by rw fmap_const_replicate (ok_pids _ Hd).
  - cbn. by rw fmap_const_replicate (ok_stats _ Hd).
  - by split_and!.
Qed.

Lemma shm_init_wipes_live_table_witness :
  let s := mk_state (-1) false full_data (mk_os 3 0 true 0) (λ _, (5, 6)) in
  Z.of_nat (size (table (shm s))) = MAX_PROCESSES ∧
  ∃ s', shm_init s = Ret 0 s' ∧ table (shm s') = ∅.
Proof.
  intros s. split; [apply (full_data_table 1)|].
  destruct (shm_init_wipes_live_table s) as (s' & Hrun & _ & Ht & _);
    [cbn; lia|reflexivity|reflexivity|reflexivity|apply full_data_ok|].
  exists s'. exact (conj Hrun Ht).
Defined.

End Shm.
