(* ===== verification/SpinLock.v ===== *)
(** * Threads and processes that share the process table

    Elsewhere a call of [shared_memory.c] is one indivisible function.  Here the
    calls of several threads (of one or of several processes) run one memory
    access at a time, in any order, with the compare-and-exchange loop of
    [shm_lock] as the only protection.  The interleaved execution refines the one
    in which every call is indivisible, which justifies the other files; the
    readers, which take no lock, may see a mixture of two records, and a process
    that dies inside a call blocks every other one. *)

From S2P Require Import Prelude SlotTable ShmProcess.

Module SpinLock.
Import Shm.

(** ** One memory access at a time *)

(** The next access of a thread inside a critical section. *)
Inductive pc :=
| Scan (pid : Z) (u : resource_usage_t) (i : nat) (slot : Z)   (* reads process_pids[i] *)
| Test (pid : Z) (u : resource_usage_t) (k : nat)              (* reads process_pids[slot] *)
| Claim (pid : Z) (u : resource_usage_t) (k : nat)             (* writes process_pids[slot] *)
| StatQp (u : resource_usage_t) (k : nat)                      (* the fields of process_stats[slot] *)
| StatMr (u : resource_usage_t) (k : nat)
| StatMem (u : resource_usage_t) (k : nat)
| GlobQp (u : resource_usage_t)                                (* the fields of global_stats *)
| GlobMr (u : resource_usage_t)
| GlobMem (u : resource_usage_t)
| LimQp (qp mr mem : Z)                                        (* the global limits *)
| LimMr (mr mem : Z)
| LimMem (mem : Z)
| VersionLoad                                                  (* version++ *)
| VersionStore (v : Z)
| ClockRead                                                    (* get_current_time_ns() *)
| StampStore (now : Z).

Definition write (f : shared_memory_data_t → shared_memory_data_t) (s : state) : state :=
  s <| shm ::= f |>.

(** Execute the access; what is left is another access, or the unlocking and then
    the return of a value. *)
Definition exec (p : pc) (s : state) : state * (pc + Z) :=
  match p with
  | Scan pid u i slot =>
      match process_pids (shm s) !! i with
      | Some p =>
          if p =? pid then (s, inl (Test pid u i))
          else if (p =? 0) && (slot =? -1) then (s, inl (Scan pid u (S i) (Z.of_nat i)))
          else (s, inl (Scan pid u (S i) slot))
      | None =>
          if slot =? -1 then (s, inr (-1)) else (s, inl (Test pid u (Z.to_nat slot)))
      end
  | Test pid u k =>
      (s, inl (if default 0 (process_pids (shm s) !! k) =? 0 then Claim pid u k else StatQp u k))
  | Claim pid u k => (write (λ d, d <| process_pids ::= <[k := pid]> |>) s, inl (StatQp u k))
  | StatQp u k =>
      (write (λ d, d <| process_stats ::= alter (λ x, x <| qp_count := qp_count u |>) k |>) s,
       inl (StatMr u k))
  | StatMr u k =>
      (write (λ d, d <| process_stats ::= alter (λ x, x <| mr_count := mr_count u |>) k |>) s,
       inl (StatMem u k))
  | StatMem u k =>
      (write (λ d, d <| process_stats ::= alter (λ x, x <| memory_used := memory_used u |>) k |>) s,
       inl VersionLoad)
  | GlobQp u => (write (λ d, d <| global_stats ::= λ x, x <| qp_count := qp_count u |> |>) s,
                 inl (GlobMr u))
  | GlobMr u => (write (λ d, d <| global_stats ::= λ x, x <| mr_count := mr_count u |> |>) s,
                 inl (GlobMem u))
  | GlobMem u => (write (λ d, d <| global_stats ::= λ x, x <| memory_used := memory_used u |> |>) s,
                  inl VersionLoad)
  | LimQp qp mr mem => (write (λ d, d <| max_global_qp := qp |>) s, inl (LimMr mr mem))
  | LimMr mr mem => (write (λ d, d <| max_global_mr := mr |>) s, inl (LimMem mem))
  | LimMem mem => (write (λ d, d <| max_global_memory := mem |>) s, inr 0)
  | VersionLoad => (s, inl (VersionStore (version (shm s))))
  | VersionStore v => (write (λ d, d <| version := u64 (v + 1) |>) s, inl ClockRead)
  | ClockRead =>
      let '(tv_sec, tv_nsec) := clock s 0%nat in
      (s <| clock := λ n, clock s (S n) |>,
       inl (StampStore (u64 (u64 (tv_sec * 1000000000) + tv_nsec))))
  | StampStore now => (write (λ d, d <| last_update_time := now |>) s, inr 0)
  end.

(** The next access of a reader, which takes no lock, with what it has copied. *)
Inductive rpc :=
| Find (pid : Z) (i : nat)
| ReadQp (k : nat)
| ReadMr (k : nat) (qp : Z)
| ReadMem (k : nat) (qp mr : Z)
| ReadGlobQp
| ReadGlobMr (qp : Z)
| ReadGlobMem (qp mr : Z).

Definition stat (s : state) (k : nat) : resource_usage_t :=
  default usage_zero (process_stats (shm s) !! k).

Definition rexec (p : rpc) (s : state) : rpc + resource_usage_t :=
  match p with
  | Find pid i =>
      match process_pids (shm s) !! i with
      | Some p => if p =? pid then inl (ReadQp i) else inl (Find pid (S i))
      | None => inr usage_zero
      end
  | ReadQp k => inl (ReadMr k (qp_count (stat s k)))
  | ReadMr k qp => inl (ReadMem k qp (mr_count (stat s k)))
  | ReadMem k qp mr => inr (mk_usage qp mr (memory_used (stat s k)))
  | ReadGlobQp => inl (ReadGlobMr (qp_count (global_stats (shm s))))
  | ReadGlobMr qp => inl (ReadGlobMem qp (mr_count (global_stats (shm s))))
  | ReadGlobMem qp mr => inr (mk_usage qp mr (memory_used (global_stats (shm s))))
  end.

(** How a call begins, for a caller that has mapped the object: it returns at
    once, waits for the lock, or reads. *)
Inductive entry :=
| Returns (r : Z)
| Locks (p : pc)
| Reads (p : rpc).

Definition enter (c : call) : entry :=
  match c with
  | UpdateProcess _ None => Returns (-1)
  | UpdateProcess pid (Some u) => if pid <=? 0 then Returns (-1) else Locks (Scan pid u 0 (-1))
  | UpdateGlobal None => Returns (-1)
  | UpdateGlobal (Some u) => Locks (GlobQp u)
  | SetLimits qp mr mem => Locks (LimQp qp mr mem)
  | GetProcess _ None => Returns (-1)
  | GetProcess pid (Some _) => if pid <=? 0 then Returns (-1) else Reads (Find pid 0)
  | GetGlobal None => Returns (-1)
  | GetGlobal (Some _) => Reads ReadGlobQp
  end.

(** ** Threads *)

Inductive position :=
| Outside
| Waiting (p : pc)     (* in the compare-and-exchange loop *)
| Inside (p : pc)
| Leaving (r : Z)      (* about to store 0 into the lock *)
| Reading (p : rpc).

Record thread := mk_thread {
  todo : list call;              (* the calls to make; the first one is under way *)
  pos : position;
  results : list Z;              (* what the finished calls returned *)
  seen : list resource_usage_t;  (* what the readers copied *)
}.

Definition finish (r : Z) (us : list resource_usage_t) (t : thread) : thread :=
  mk_thread (tail (todo t)) Outside (results t ++ [r]) (seen t ++ us).
Definition move (p : position) (t : thread) : thread := mk_thread (todo t) p (results t) (seen t).

Definition set_lock (v : Z) : state → state := write (λ d, d <| lock := v |>).

Inductive tstep : state → thread → state → thread → Prop :=
| t_return s t c cs r :
    pos t = Outside → todo t = c :: cs → enter c = Returns r → tstep s t s (finish r [] t)
| t_wait s t c cs p :
    pos t = Outside → todo t = c :: cs → enter c = Locks p → tstep s t s (move (Waiting p) t)
| t_read s t c cs p :
    pos t = Outside → todo t = c :: cs → enter c = Reads p → tstep s t s (move (Reading p) t)
| t_spin s t p : pos t = Waiting p → lock (shm s) ≠ 0 → tstep s t s t
| t_lock s t p :
    pos t = Waiting p → lock (shm s) = 0 → tstep s t (set_lock 1 s) (move (Inside p) t)
| t_access s t p s' p' :
    pos t = Inside p → exec p s = (s', inl p') → tstep s t s' (move (Inside p') t)
| t_last s t p s' r :
    pos t = Inside p → exec p s = (s', inr r) → tstep s t s' (move (Leaving r) t)
| t_unlock s t r : pos t = Leaving r → tstep s t (set_lock 0 s) (finish r [] t)
| t_copy s t p p' : pos t = Reading p → rexec p s = inl p' → tstep s t s (move (Reading p') t)
| t_copied s t p u : pos t = Reading p → rexec p s = inr u → tstep s t s (finish 0 [u] t).

Record system := mk_system { mem : state; threads : list thread }.

(** Any thread makes the next access. *)
Inductive cstep : system → system → Prop :=
| cstep_thread w i t s' t' :
    threads w !! i = Some t → tstep (mem w) t s' t' →
    cstep w (mk_system s' (<[i := t']> (threads w))).

Definition start_thread (cs : list call) : thread := mk_thread cs Outside [] [].
Definition start (s : state) (css : list (list call)) : system := mk_system s (start_thread <$> css).

(** ** Indivisible calls *)

(** A caller that has calls to make and results so far. *)
Definition job : Type := list call * list Z.
Definition job_of (t : thread) : job := (todo t, results t).

Inductive astep : state * list job → state * list job → Prop :=
| astep_call s js i c cs rs r s' :
    js !! i = Some (c :: cs, rs) → run_call c s = Ret r s' →
    astep (s, js) (s', <[i := (cs, rs ++ [r])]> js).

(** ** A critical section run without interruption *)

Inductive runs : pc → state → Z → state → Prop :=
| runs_last p s s' r : exec p s = (s', inr r) → runs p s r s'
| runs_more p s s' p' r sf : exec p s = (s', inl p') → runs p' s' r sf → runs p s r sf.

Lemma exec_lock p s : lock (shm (fst (exec p s))) = lock (shm s).
Proof.
  destruct p; cbn; try done; repeat case_match; done.
Qed.

Lemma runs_lock p s r sf : runs p s r sf → lock (shm sf) = lock (shm s).
Proof.
  induction 1 as [p s s' r He|p s s' p' r sf He _ IH]; pose proof (exec_lock p s) as Hl;
    rw He in Hl; [done|]. by rw IH.
Qed.

(** One access, then the rest. *)
Ltac access := eapply runs_more; [reflexivity|]; cbn -[alter].
Ltac last_access := apply runs_last; reflexivity.

Lemma scan_runs pid u s i slot r sf pre pids :
  process_pids (shm s) = pre ++ pids → length pre = i →
  (if slot_scan pid pids (Z.of_nat i) slot =? -1 then r = -1 ∧ sf = s
   else runs (Test pid u (Z.to_nat (slot_scan pid pids (Z.of_nat i) slot))) s r sf) →
  runs (Scan pid u i slot) s r sf.
Proof.
  revert i slot pre. induction pids as [|p pids IH]; intros i slot pre Hp Hi.
  - rw app_nil_r in Hp. cbn [slot_scan].
    assert (Hn : process_pids (shm s) !! i = None) by (apply lookup_ge_None; rw Hp; lia).
    destruct (slot =? -1) eqn:Hs.
    + intros [-> ->]. apply runs_last. cbn. by rw Hn Hs.
    + intros H. eapply runs_more; [|exact H]. cbn. by rw Hn Hs.
  - assert (Hn : process_pids (shm s) !! i = Some p).
    { rw Hp lookup_app_r; [lia|]. by rw Hi Nat.sub_diag. }
    assert (Hp' : process_pids (shm s) = (pre ++ [p]) ++ pids) by (by rw Hp -app_assoc).
    assert (Hl : length (pre ++ [p]) = S i) by (rw length_app Hi; cbn; lia).
    assert (Hz : (Z.of_nat i + 1) = Z.of_nat (S i)) by lia.
    cbn [slot_scan]. destruct (p =? pid) eqn:Hpid.
    + assert ((Z.of_nat i =? -1) = false) as -> by lia. rw Nat2Z.id. intros H.
      eapply runs_more; [|exact H]. cbn. by rw Hn Hpid.
    + rw Hz. destruct ((p =? 0) && (slot =? -1)) eqn:H0; intros H.
      * eapply runs_more; [|exact (IH _ _ _ Hp' Hl H)]. cbn. by rw Hn Hpid H0.
      * eapply runs_more; [|exact (IH _ _ _ Hp' Hl H)]. cbn. by rw Hn Hpid H0.
Qed.

Lemma alter_stats k u (l : list resource_usage_t) :
  alter (λ x, x <| memory_used := memory_used u |>) k
    (alter (λ x, x <| mr_count := mr_count u |>) k
      (alter (λ x, x <| qp_count := qp_count u |>) k l)) = <[k := u]> l.
Proof.
  revert k. induction l as [|x l IH]; intros [|k]; cbn; try done.
  - by destruct u.
  - f_equal. apply IH.
Qed.

(** The state when the lock has been taken, and when it has been given back. *)
Lemma free_then_held s : lock (shm s) = 0 → set_lock 0 (set_lock 1 s) = s.
Proof. destruct s as [? ? [] ? ?]. cbn. by intros ->. Qed.

(** The end of an update: the version and the time. *)
Definition stamped (s : state) : state :=
  let '(tv_sec, tv_nsec) := clock s 0%nat in
  write (touch (u64 (u64 (tv_sec * 1000000000) + tv_nsec))) (s <| clock := λ n, clock s (S n) |>).

Lemma version_runs s : runs VersionLoad s 0 (stamped s).
Proof.
  unfold stamped. destruct (clock s 0%nat) as [sec nsec] eqn:Hck.
  access. access. eapply runs_more; [cbn; rw Hck; reflexivity|]. last_access.
Qed.

Definition put_stat (u : resource_usage_t) (k : nat) : state → state :=
  write (λ d, d <| process_stats ::= <[k := u]> |>).

Lemma stat_runs u k s : runs (StatQp u k) s 0 (stamped (put_stat u k s)).
Proof.
  access. access. access.
  match goal with |- runs _ ?t _ _ => replace (put_stat u k s) with t end; [apply version_runs|].
  destruct s as [fd ptr [g l pids qp mr m lk v now] o ck].
  refine (f_equal (λ l', mk_state fd ptr (mk_data g l' pids qp mr m lk v now) o ck) _).
  apply (alter_stats k u l).
Qed.

Definition put_pid (pid : Z) (k : nat) (s : state) : state :=
  if default 0 (process_pids (shm s) !! k) =? 0
  then write (λ d, d <| process_pids ::= <[k := pid]> |>) s else s.

Lemma test_runs pid u k s : runs (Test pid u k) s 0 (stamped (put_stat u k (put_pid pid k s))).
Proof.
  access. unfold put_pid. destruct (_ =? 0); [access|]; apply stat_runs.
Qed.

Lemma update_runs pid u s :
  runs (Scan pid u 0 (-1)) s
    (if slot_scan pid (process_pids (shm s)) 0 (-1) =? -1 then -1 else 0)
    (let slot := slot_scan pid (process_pids (shm s)) 0 (-1) in
     if slot =? -1 then s
     else stamped (put_stat u (Z.to_nat slot) (put_pid pid (Z.to_nat slot) s))).
Proof.
  eapply (scan_runs _ _ _ _ _ _ _ []); [done..|]. cbv zeta. change (Z.of_nat 0) with 0.
  destruct (_ =? -1); [done|apply test_runs].
Qed.

Lemma global_runs u s : runs (GlobQp u) s 0 (stamped (write (λ d, d <| global_stats := u |>) s)).
Proof.
  access. access. access.
  match goal with |- runs _ ?t _ (stamped ?t') => replace t' with t end; [apply version_runs|].
  destruct s as [? ? [] ? ?], u. done.
Qed.

(** Accesses one by one do what the indivisible function does. *)
Lemma locks_runs c p s :
  enter c = Locks p → ready s →
  ∃ r sf, runs p (set_lock 1 s) r sf ∧ run_call c s = Ret r (set_lock 0 sf).
Proof.
  intros He [Hp Hl _].
  destruct c as [pid [u|]|[u|]|qp mr m|pid [u|]|[u|]]; cbn in He;
    try (destruct (pid <=? 0) eqn:Hpid); try discriminate He; injection He as <-.
  - eexists _, _. split; [apply update_runs|].
    cbn [run_call]. unfold shm_update_process_resources, shm_lock, shm_unlock, store,
      get_current_time_ns, stamped, put_pid. run. rw Hp Hpid. cbn. rw Hl. cbn.
    destruct (slot_scan _ _ _ _ =? -1); cbn; [done|].
    destruct (default 0 _ =? 0); cbn; by destruct (clock s 0%nat).
  - eexists _, _. split; [apply global_runs|].
    cbn [run_call]. unfold shm_update_global_resources, shm_lock, shm_unlock, store,
      get_current_time_ns, stamped. run. rw Hp. cbn. rw Hl. cbn. by destruct (clock s 0%nat).
  - eexists _, _. split; [access; access; last_access|].
    cbn [run_call]. unfold shm_set_global_limits, shm_lock, shm_unlock, store. run.
    rw Hp. cbn. by rw Hl.
Qed.

(** Calls that take no lock change nothing. *)
Lemma returns_run c r s : enter c = Returns r → ready s → run_call c s = Ret r s.
Proof.
  intros He [Hp _ _].
  destruct c as [pid [u|]|[u|]|qp mr m|pid [u|]|[u|]]; cbn in He;
    try (destruct (pid <=? 0) eqn:Hpid); try discriminate He; injection He as <-; try done.
  - cbn. unfold shm_update_process_resources. run. by rw Hp Hpid.
  - cbn. unfold shm_get_process_resources. run. by rw Hp Hpid.
Qed.

Lemma reads_run c p s : enter c = Reads p → ready s → run_call c s = Ret 0 s.
Proof.
  intros He [Hp _ Hd].
  destruct c as [pid [u|]|[u|]|qp mr m|pid [u|]|[u|]]; cbn in He;
    try (destruct (pid <=? 0) eqn:Hpid); try discriminate He.
  - cbn [run_call]. by rw (bind_Ret _ _ _ _ _ (get_process_run s pid u Hp Hd ltac:(lia))).
  - cbn. unfold shm_get_global_resources. run. by rw Hp.
Qed.

(** ** The simulation *)

Definition holds (t : thread) : Prop :=
  match pos t with Inside _ | Leaving _ => True | _ => False end.

(** What is left of the critical section of [t] ends in [sf] and returns [r]. *)
Definition rest (t : thread) (s : state) (r : Z) (sf : state) : Prop :=
  match pos t with
  | Inside p => runs p s r sf
  | Leaving r' => r' = r ∧ s = sf
  | _ => False
  end.

(** A thread that waits or reads does so for the call it has to make. *)
Definition settled (t : thread) : Prop :=
  match pos t with
  | Waiting p => ∃ c cs, todo t = c :: cs ∧ enter c = Locks p
  | Reading _ => ∃ c cs p, todo t = c :: cs ∧ enter c = Reads p
  | _ => True
  end.

(** Thread [i] is inside the call [c]; when it is finished the memory is what the
    indivisible [c] makes of [a]. *)
Record held (a m : state) (ts : list thread) (i : nat) (t : thread) : Prop := {
  held_at : ts !! i = Some t;
  held_lock : lock (shm m) = 1;
  held_only j t' : ts !! j = Some t' → holds t' → j = i;
  held_rest : ∃ c cs r sf, todo t = c :: cs ∧ rest t m r sf ∧ run_call c a = Ret r (set_lock 0 sf);
}.

Record sim (a : state) (w : system) : Prop := {
  sim_ready : ready a;
  sim_settled i t : threads w !! i = Some t → settled t;
  sim_held : (mem w = a ∧ ∀ i t, threads w !! i = Some t → ¬ holds t) ∨
    ∃ i t, held a (mem w) (threads w) i t;
}.

Lemma settled_insert (ts : list thread) i t' :
  (∀ j t, ts !! j = Some t → settled t) → settled t' →
  ∀ j t, <[i := t']> ts !! j = Some t → settled t.
Proof. intros Hs Ht j t [[_ [<- _]]|[_ Hj]]%list_lookup_insert_Some; [done|by eapply Hs]. Qed.

(** A thread outside the critical section moves without touching the memory. *)
Lemma sim_outside a m ts i t t' :
  sim a (mk_system m ts) → ts !! i = Some t → ¬ holds t → ¬ holds t' → settled t' →
  sim a (mk_system m (<[i := t']> ts)).
Proof.
  intros [Hr Hs Hh] Hi Hn Hn' Ht. cbn in *. split; [done|by apply settled_insert|]. cbn.
  destruct Hh as [[-> Hf]|(k & tk & [Hk Hl Ho Hre])].
  - left. split; [done|]. intros j u [[_ [<- _]]|[_ Hj]]%list_lookup_insert_Some; [done|by eapply Hf].
  - right. assert (Hne : i ≠ k).
    { intros ->. rw Hk in Hi. injection Hi as ->. destruct Hre as (c & cs & r & sf & _ & Hre & _).
      unfold rest, holds in *. by destruct (pos t). }
    exists k, tk. split; [by rw list_lookup_insert_ne|done| |done].
    intros j u [[_ [<- _]]|[_ Hj]]%list_lookup_insert_Some; [done|by apply Ho].
Qed.

(** The thread inside is the one that holds the lock. *)
Lemma sim_inside a m ts i t :
  sim a (mk_system m ts) → ts !! i = Some t → holds t → held a m ts i t.
Proof.
  intros [_ _ [[_ Hf]|(k & tk & Hk)]] Hi Ht; cbn in *; [by destruct (Hf i t)|].
  assert (i = k) as -> by (by eapply held_only). pose proof (held_at _ _ _ _ _ Hk) as Hk'.
  rw Hi in Hk'. by injection Hk' as <-.
Qed.

(** It makes an access and stays inside. *)
Lemma sim_access a m ts i t m' t' :
  sim a (mk_system m ts) → ts !! i = Some t → holds t → lock (shm m') = lock (shm m) →
  todo t' = todo t → holds t' → (∀ r sf, rest t m r sf → rest t' m' r sf) →
  sim a (mk_system m' (<[i := t']> ts)).
Proof.
  intros Hsim Hi Ht Hlk Htodo Ht' Hrest.
  destruct (sim_inside _ _ _ _ _ Hsim Hi Ht) as [_ Hl Ho (c & cs & r & sf & Hc & Hre & Hrun)].
  destruct Hsim as [Hr Hs _]. cbn in *. split; [done| |].
  - cbn. apply settled_insert; [done|]. unfold settled, holds in *. by destruct (pos t').
  - right. exists i, t'. cbn. split.
    + apply list_lookup_insert_eq. by eapply lookup_lt_Some.
    + congruence.
    + intros j u [[-> _]|[_ Hj]]%list_lookup_insert_Some; [done|by eapply Ho].
    + exists c, cs, r, sf. rw Htodo. by eauto.
Qed.

Lemma job_insert (ts : list thread) i t' : job_of <$> <[i := t']> ts = <[i := job_of t']> (job_of <$> ts).
Proof. apply list_fmap_insert. Qed.

Lemma job_same (ts : list thread) i t t' :
  ts !! i = Some t → job_of t' = job_of t → job_of <$> <[i := t']> ts = job_of <$> ts.
Proof. intros Hi Hj. rw job_insert Hj. apply list_insert_id. by rw list_lookup_fmap Hi. Qed.

Lemma finish_step a a' ts i t c cs r us :
  ts !! i = Some t → todo t = c :: cs → run_call c a = Ret r a' →
  astep (a, job_of <$> ts) (a', job_of <$> <[i := finish r us t]> ts).
Proof.
  intros Hi Hc Hrun. rw job_insert. unfold job_of at 2. cbn. rw Hc. cbn.
  eapply astep_call; [|done]. by rw list_lookup_fmap Hi /= /job_of Hc.
Qed.

Lemma call_ready c s r s' : ready s → run_call c s = Ret r s' → ready s'.
Proof.
  intros Hr Hrun. destruct (shm_call_ready c s Hr) as (r' & t & Hrun' & Ht & _). congruence.
Qed.

(** The position of a thread, known from [pos t = _], decides a goal about it. *)
Ltac outside :=
  unfold holds, settled in *; cbn;
  match goal with H : pos _ = _ |- _ => rewrite -> ?H in * end; (tauto || eauto).

(** Each access is matched by no indivisible call or by one. *)
Lemma sim_step a w w' :
  sim a w → cstep w w' →
  ∃ a', rtc astep (a, job_of <$> threads w) (a', job_of <$> threads w') ∧ sim a' w'.
Proof.
  intros Hsim Hst. destruct Hst as [[m ts] i t m' t' Hi Ht]. cbn in *.
  pose proof (sim_ready _ _ Hsim) as Hr.
  destruct Ht as [m t c cs r Hpos Hc He|m t c cs p Hpos Hc He|m t c cs p Hpos Hc He|m t p Hpos Hl
    |m t p Hpos Hl|m t p m' p' Hpos He|m t p m' r Hpos He|m t r Hpos|m t p p' Hpos He|m t p u Hpos He].
  - exists a. split; [apply rtc_once; eapply finish_step; eauto using returns_run|].
    eapply sim_outside; eauto; outside.
  - exists a. split; [by rw (job_same ts i t)|].
    eapply sim_outside; eauto; outside.
  - exists a. split; [by rw (job_same ts i t)|].
    eapply sim_outside; eauto; outside.
  - exists a. rw list_insert_id //.
  - exists a. split; [by rw (job_same ts i t)|].
    pose proof (sim_settled _ _ Hsim i t Hi) as Hse. unfold settled in Hse. rw Hpos in Hse.
    destruct Hse as (c & cs & Hc & He). destruct Hsim as [_ Hs [[Hm Hf]|(k & tk & Hk)]]; cbn in *.
    + subst m. destruct (locks_runs c p a He Hr) as (r & sf & Hruns & Hcall). split; [done| |].
      * by apply settled_insert.
      * right. exists i, (move (Inside p) t). split; [|done| |].
        -- apply list_lookup_insert_eq. by eapply lookup_lt_Some.
        -- intros j u [[-> _]|[_ Hj]]%list_lookup_insert_Some; [done|]. by intros ?%(Hf j u Hj).
        -- by exists c, cs, r, sf.
    + pose proof (held_lock _ _ _ _ _ Hk). lia.
  - exists a. split; [by rw (job_same ts i t)|].
    pose proof (exec_lock p m) as Hlk. rw He in Hlk. eapply sim_access; eauto.
    + unfold holds. by rw Hpos.
    + done.
    + unfold rest. rw Hpos. cbn. intros r sf Hre. inversion Hre; congruence.
  - exists a. split; [by rw (job_same ts i t)|].
    pose proof (exec_lock p m) as Hlk. rw He in Hlk. eapply sim_access; eauto.
    + unfold holds. by rw Hpos.
    + done.
    + unfold rest. rw Hpos. cbn. intros r' sf Hre. inversion Hre; split; congruence.
  - destruct (sim_inside a m ts i t Hsim Hi) as [_ Hl Ho (c & cs & r' & sf & Hc & Hre & Hrun)].
    { unfold holds. by rw Hpos. }
    unfold rest in Hre. rw Hpos in Hre. destruct Hre as [-> ->].
    exists (set_lock 0 sf). split; [apply rtc_once; by eapply finish_step|].
    destruct Hsim as [_ Hs _]. split; [by eapply call_ready| |].
    + by apply settled_insert.
    + left. split; [done|]. intros j u [[_ [<- _]]|[Hne Hj]]%list_lookup_insert_Some Hu; [done|].
      by destruct Hne; symmetry; eapply Ho.
  - exists a. split; [by rw (job_same ts i t)|]. pose proof (sim_settled _ _ Hsim i t Hi) as Hse.
    eapply sim_outside; eauto; outside.
  - pose proof (sim_settled _ _ Hsim i t Hi) as Hse. unfold settled in Hse. rw Hpos in Hse.
    destruct Hse as (c & cs & q & Hc & Hq).
    exists a. split; [apply rtc_once; eapply finish_step; eauto using reads_run|].
    eapply sim_outside; eauto; outside.
Qed.

Lemma sim_steps a w w' :
  sim a w → rtc cstep w w' →
  ∃ a', rtc astep (a, job_of <$> threads w) (a', job_of <$> threads w') ∧ sim a' w'.
Proof.
  intros Hsim Hst. revert a Hsim. induction Hst as [w|w w1 w2 H1 _ IH]; intros a Hsim.
  - by exists a.
  - destruct (sim_step a w w1 Hsim H1) as (a1 & Ha1 & Hs1).
    destruct (IH a1 Hs1) as (a2 & Ha2 & Hs2). exists a2. split; [by etrans|done].
Qed.

Lemma start_sim s css : ready s → sim s (start s css).
Proof.
  intros Hr. split; [done| |left; split; [done|]]; cbn; intros i t;
    rw list_lookup_fmap; intros (cs & _ & ->)%fmap_Some_1; [done|]. by intros [].
Qed.

Lemma start_jobs s css : job_of <$> threads (start s css) = (λ cs, (cs, [])) <$> css.
Proof. unfold start. cbn. by rw -list_fmap_compose. Qed.

(** ** Every thread can finish *)

Definition turn (x y : state * thread) : Prop := tstep (fst x) (snd x) (fst y) (snd y).

Lemma turns_system m t m' t' ts i :
  rtc turn (m, t) (m', t') → ts !! i = Some t →
  rtc cstep (mk_system m ts) (mk_system m' (<[i := t']> ts)).
Proof.
  remember (m, t) as x eqn:Hx. remember (m', t') as y eqn:Hy. intros Hst.
  revert m t ts Hx. induction Hst as [x|x [m1 t1] z Ht Hst IH]; intros m t ts -> Hi.
  - injection Hy as -> ->. by rw list_insert_id.
  - eapply rtc_l; [by apply (cstep_thread (mk_system m ts) i t m1 t1)|]. cbn.
    rw -(list_insert_insert_eq ts i t' t1). apply (IH Hy m1 t1); [done|].
    apply list_lookup_insert_eq. by eapply lookup_lt_Some.
Qed.

Lemma inside_turns p m r sf t :
  runs p m r sf → pos t = Inside p → rtc turn (m, t) (set_lock 0 sf, finish r [] t).
Proof.
  intros Hre. revert t. induction Hre as [p s s' r He|p s s' p' r sf He _ IH]; intros t Hp.
  - eapply (rtc_l _ _ (_, _)); [by apply (t_last s t p s' r)|]. apply rtc_once.
    by apply (t_unlock s' (move (Leaving r) t) r).
  - eapply (rtc_l _ _ (_, _)); [by apply (t_access s t p s' p')|]. by apply (IH (move (Inside p') t)).
Qed.

Lemma copy_turn m t p p' z :
  pos t = Reading p → rexec p m = inl p' →
  rtc turn (m, move (Reading p') t) z → rtc turn (m, t) z.
Proof. intros Hp He. apply rtc_l. by apply (t_copy m t p p'). Qed.

Lemma copied_turn m t p u v :
  pos t = Reading p → rexec p m = inr u → v = finish 0 [u] t → rtc turn (m, t) (m, v).
Proof. intros Hp He ->. apply rtc_once. by apply (t_copied m t p u). Qed.

Ltac copy := eapply copy_turn; [first [eassumption|reflexivity]|reflexivity|].
Ltac copied := eapply copied_turn; [first [eassumption|reflexivity]|reflexivity|];
  unfold finish; reflexivity.

Lemma stat_turns m t k : pos t = Reading (ReadQp k) → ∃ us, rtc turn (m, t) (m, finish 0 us t).
Proof. intros Hp. eexists. copy. copy. copied. Qed.

Lemma find_turns m pid t n :
  ∀ i, pos t = Reading (Find pid i) → (length (process_pids (shm m)) - i < n)%nat →
  ∃ us, rtc turn (m, t) (m, finish 0 us t).
Proof.
  revert t. induction n as [|n IH]; intros t i Hp Hn; [lia|].
  destruct (process_pids (shm m) !! i) as [q|] eqn:Hi.
  - pose proof (lookup_lt_Some _ _ _ Hi). destruct (q =? pid) eqn:Hq.
    + destruct (stat_turns m (move (Reading (ReadQp i)) t) i eq_refl) as [us Hus]. exists us.
      apply (copy_turn m t _ (ReadQp i) _ Hp); [cbn; by rw Hi Hq|exact Hus].
    + destruct (IH (move (Reading (Find pid (S i))) t) (S i) eq_refl ltac:(lia)) as [us Hus].
      exists us. eapply (rtc_l _ _ (_, _)); [|exact Hus].
      apply (t_copy m t _ (Find pid (S i)) Hp). cbn. by rw Hi Hq.
  - eexists. apply (copied_turn m t _ usage_zero _ Hp); [cbn; by rw Hi|done].
Qed.

Lemma reading_turns m t p : pos t = Reading p → ∃ us, rtc turn (m, t) (m, finish 0 us t).
Proof.
  intros Hp. destruct p as [pid i|k|k q|k q n| |q|q n]; 
    [exact (find_turns m pid t _ i Hp (Nat.lt_succ_diag_r _))|..]; eexists;
    solve [copied|copy; copied|copy; copy; copied].
Qed.

(** With the lock free, a thread that has a call to make can make it. *)
Lemma idle_turns m t c cs :
  ready m → ¬ holds t → settled t → todo t = c :: cs →
  ∃ m' r us, rtc turn (m, t) (m', finish r us t).
Proof.
  intros Hr Hh Hs Hc.
  assert (Hwait : ∀ u p, pos u = Waiting p → enter c = Locks p → todo u = c :: cs →
    ∃ m' r us, rtc turn (m, u) (m', finish r us u)).
  { intros u p Hp He Hu. destruct (locks_runs c p m He Hr) as (r & sf & Hre & _).
    exists (set_lock 0 sf), r, [].
    eapply (rtc_l _ _ (_, _)); [apply (t_lock m u p Hp (ready_lock _ Hr))|].
    by apply (inside_turns p (set_lock 1 m) r sf (move (Inside p) u)). }
  destruct (pos t) as [|p|p|r|p] eqn:Hp; unfold holds, settled in *; rw Hp in Hh Hs; try tauto.
  - destruct (enter c) as [r|p|p] eqn:He.
    + exists m, r, []. apply rtc_once. by eapply (t_return m t).
    + destruct (Hwait (move (Waiting p) t) p eq_refl eq_refl Hc) as (m' & r & us & Hst).
      exists m', r, us. eapply (rtc_l _ _ (_, _)); [by eapply (t_wait m t)|exact Hst].
    + destruct (reading_turns m (move (Reading p) t) p eq_refl) as [us Hst].
      exists m, 0, us. eapply (rtc_l _ _ (_, _)); [by eapply (t_read m t)|exact Hst].
  - destruct Hs as (c' & cs' & Hc' & He). rw Hc in Hc'. injection Hc' as <- <-. by eapply Hwait.
  - destruct (reading_turns m t p Hp) as [us Hst]. by exists m, 0, us.
Qed.

(** The calls that are left. *)
Fixpoint left (ts : list thread) : nat :=
  match ts with [] => 0%nat | t :: ts' => (length (todo t) + left ts')%nat end.

Lemma left_finish ts i t c cs r us :
  ts !! i = Some t → todo t = c :: cs → (left (<[i := finish r us t]> ts) < left ts)%nat.
Proof.
  revert i. induction ts as [|u ts IH]; intros [|i]; cbn; try done.
  - intros [= ->] Hc. rw Hc. cbn. lia.
  - intros Hi Hc. by apply Nat.add_lt_mono_l, IH.
Qed.

Lemma left_zero ts : left ts = 0%nat → Forall (λ t, todo t = []) ts.
Proof.
  induction ts as [|t ts IH]; cbn; intros H; constructor; [|apply IH; lia].
  destruct (todo t); cbn in *; [done|lia].
Qed.

Lemma left_some ts :
  left ts = 0%nat ∨ ∃ i t c cs, ts !! i = Some t ∧ todo t = c :: cs.
Proof.
  induction ts as [|t ts IH]; [by left|]. destruct (todo t) as [|c cs] eqn:Hc.
  - destruct IH as [H|(i & u & c & cs & Hi & Hu)]; [left; cbn; by rw Hc H|].
    right. by exists (S i), u, c, cs.
  - right. by exists 0%nat, t, c, cs.
Qed.

(** Some thread can finish its call. *)
Lemma sim_finish_one a w :
  sim a w → left (threads w) ≠ 0%nat →
  ∃ w', rtc cstep w w' ∧ (left (threads w') < left (threads w))%nat.
Proof.
  intros Hsim Hleft. destruct w as [m ts]. cbn in *.
  destruct Hsim as [Hr Hs [[Hm Hf]|(i & t & [Hi _ _ (c & cs & r & sf & Hc & Hre & _)])]]; cbn in *.
  - destruct (left_some ts) as [|(i & t & c & cs & Hi & Hc)]; [done|]. subst m.
    destruct (idle_turns a t c cs Hr (Hf i t Hi) (Hs i t Hi) Hc) as (m' & r & us & Hst).
    exists (mk_system m' (<[i := finish r us t]> ts)).
    split; [by eapply turns_system|by eapply left_finish].
  - exists (mk_system (set_lock 0 sf) (<[i := finish r [] t]> ts)).
    split; [|by eapply left_finish]. eapply turns_system; [|done]. unfold rest in Hre.
    destruct (pos t) as [| |p|r'|] eqn:Hp; try done; [by eapply inside_turns|].
    destruct Hre as [-> ->]. apply rtc_once. by apply (t_unlock sf t r).
Qed.

Lemma sim_finish a w :
  sim a w → ∃ w', rtc cstep w w' ∧ left (threads w') = 0%nat.
Proof.
  remember (left (threads w)) as n eqn:Hn. revert a w Hn.
  induction (lt_wf n) as [n _ IH]. intros a w -> Hsim.
  destruct (decide (left (threads w) = 0%nat)) as [H0|H0]; [by exists w|].
  destruct (sim_finish_one a w Hsim H0) as (w1 & Hst1 & Hlt).
  destruct (sim_steps a w w1 Hsim Hst1) as (a1 & _ & Hsim1).
  destruct (IH _ Hlt a1 w1 eq_refl Hsim1) as (w2 & Hst2 & H2). exists w2. split; [by etrans|done].
Qed.

(** ** Interleavings by schedule

    The next access of a thread, and of the threads a schedule names. *)
Definition tnext (s : state) (t : thread) : option (state * thread) :=
  match pos t with
  | Outside =>
      match todo t with
      | [] => None
      | c :: _ =>
          Some (s, match enter c with
                   | Returns r => finish r [] t
                   | Locks p => move (Waiting p) t
                   | Reads p => move (Reading p) t
                   end)
      end
  | Waiting p => Some (if lock (shm s) =? 0 then (set_lock 1 s, move (Inside p) t) else (s, t))
  | Inside p =>
      let '(s', k) := exec p s in
      Some (s', match k with inl p' => move (Inside p') t | inr r => move (Leaving r) t end)
  | Leaving r => Some (set_lock 0 s, finish r [] t)
  | Reading p =>
      Some (s, match rexec p s with inl p' => move (Reading p') t | inr u => finish 0 [u] t end)
  end.

Lemma tnext_sound s t s' t' : tnext s t = Some (s', t') → tstep s t s' t'.
Proof.
  unfold tnext. destruct (pos t) as [|p|p|r|p] eqn:Hp.
  - destruct (todo t) as [|c cs] eqn:Hc; [done|]. intros [= <- <-].
    destruct (enter c) eqn:He; by econstructor.
  - destruct (Z.eqb_spec (lock (shm s)) 0); intros [= <- <-]; by econstructor.
  - destruct (exec p s) as [s1 [p'|r]] eqn:He; intros [= <- <-]; by econstructor.
  - intros [= <- <-]. by econstructor.
  - intros [= <- <-]. destruct (rexec p s) eqn:He; by econstructor.
Qed.

Fixpoint schedule (order : list nat) (w : system) : option system :=
  match order with
  | [] => Some w
  | i :: order' =>
      match threads w !! i with
      | Some t =>
          match tnext (mem w) t with
          | Some (s', t') => schedule order' (mk_system s' (<[i := t']> (threads w)))
          | None => None
          end
      | None => None
      end
  end.

Lemma schedule_sound order w w' : schedule order w = Some w' → rtc cstep w w'.
Proof.
  revert w. induction order as [|i order IH]; intros w; cbn; [by intros [= ->]|].
  destruct (threads w !! i) as [t|] eqn:Hi; [|done].
  destruct (tnext (mem w) t) as [[s' t']|] eqn:Ht; [|done]. intros Hs.
  eapply rtc_l; [|by apply IH]. eapply cstep_thread; [done|by apply tnext_sound].
Qed.

(** ** Properties *)

(** C13: interleaving the memory accesses of any number of threads, each making any
    calls of the interface, refines running the calls one after the other: at most
    one thread is inside a critical section; there is an order of whole calls, each
    thread's in its own order, that returns what the threads were returned; and
    when no thread is inside, the memory is what that order of calls leaves. *)
Theorem interleaving_refines_calls s0 css w :
  ready s0 → rtc cstep (start s0 css) w →
  (∀ i j t u, threads w !! i = Some t → threads w !! j = Some u → holds t → holds u → i = j) ∧
  ∃ a, rtc astep (s0, (λ cs, (cs, [])) <$> css) (a, job_of <$> threads w) ∧ ready a ∧
    ((∀ i t, threads w !! i = Some t → ¬ holds t) → mem w = a).
Proof.
  intros Hr Hst. destruct (sim_steps s0 _ w (start_sim s0 css Hr) Hst) as (a & Ha & Hsim).
  rw start_jobs in Ha. split.
  - intros i j t u Hi Hj Ht Hu. destruct w as [m ts].
    by eapply (held_only _ _ _ _ _ (sim_inside a m ts j u Hsim Hj Hu)).
  - exists a. split_and!; [done|by destruct Hsim|]. intros Hn.
    destruct (sim_held _ _ Hsim) as [[Hm _]|(i & t & [Hi _ _ (c & cs & r & sf & _ & Hre & _)])]; [done|].
    destruct (Hn i t Hi). unfold rest, holds in *. by destruct (pos t).
Qed.

(** Calls made and calls left. *)
Definition accounted (css : list (list call)) (js : list job) : Prop :=
  Forall2 (λ cs j, (length (fst j) + length (snd j))%nat = length cs) css js.

Lemma astep_accounted css x y : astep x y → accounted css (snd x) → accounted css (snd y).
Proof.
  intros [s js i c cs rs r s' Hi _]; cbn. intros Ha.
  destruct (Forall2_lookup_r _ _ _ _ _ Ha Hi) as (cs' & Hcs & Hlen). cbn in Hlen.
  rw -(list_insert_id css i cs' Hcs). apply Forall2_insert; [done|]. cbn.
  rw length_app. cbn. lia.
Qed.

Lemma asteps_accounted css x y : rtc astep x y → accounted css (snd x) → accounted css (snd y).
Proof. induction 1; eauto using astep_accounted. Qed.

(** C14: however the accesses interleave, no thread is ever stuck for good: from
    every reachable state all threads can finish all their calls, each of which
    returns one result. *)
Theorem interleaving_can_finish s0 css w :
  ready s0 → rtc cstep (start s0 css) w →
  ∃ w', rtc cstep w w' ∧ (∀ i t, threads w' !! i = Some t → todo t = []) ∧
    Forall2 (λ cs t, length (results t) = length cs) css (threads w').
Proof.
  intros Hr Hst. destruct (sim_steps s0 _ w (start_sim s0 css Hr) Hst) as (a & _ & Hsim).
  destruct (sim_finish a w Hsim) as (w' & Hst' & Hl). exists w'. split; [done|].
  apply left_zero in Hl. split; [by rw -Forall_lookup|].
  destruct (sim_steps s0 _ w' (start_sim s0 css Hr) ltac:(by etrans)) as (a' & Ha & _).
  apply (asteps_accounted css) in Ha; cbn [snd] in *.
  - apply Forall2_fmap_r in Ha. revert Ha Hl. generalize (threads w'). clear.
    induction css as [|cs css IH]; intros ts Ha Hl; inversion Ha as [|? t ? ts' Hlen]; subst;
      constructor; inversion Hl as [|? ? Ht]; subst; [|by apply IH].
    unfold job_of in Hlen. cbn in Hlen. by rw Ht in Hlen.
  - rw start_jobs. unfold accounted. apply Forall2_fmap_r. clear.
    induction css as [|cs css IH]; constructor; [cbn; lia|done].
Qed.

(** A thread dies (its process is killed) wherever it is. *)
Definition kill (i : nat) (w : system) : system := mk_system (mem w) (delete i (threads w)).

(** Nobody is inside and the lock is taken. *)
Definition orphaned (w : system) : Prop :=
  lock (shm (mem w)) ≠ 0 ∧ ∀ i t, threads w !! i = Some t → ¬ holds t ∧ settled t.

Lemma orphaned_step w w' :
  orphaned w → cstep w w' → orphaned w' ∧ mem w' = mem w ∧
  ∀ j t t' c cs p, threads w !! j = Some t → threads w' !! j = Some t' →
    todo t = c :: cs → enter c = Locks p → todo t' = todo t ∧ results t' = results t.
Proof.
  intros [Hl Hn] Hst. destruct Hst as [[m ts] i t m' t' Hi Ht]. cbn in *.
  destruct (Hn i t Hi) as [Hh Hs].
  assert (m' = m ∧ ¬ holds t' ∧ settled t' ∧ ∀ c cs p, todo t = c :: cs → enter c = Locks p →
    todo t' = todo t ∧ results t' = results t) as (-> & Hh' & Hs' & Hsame).
  { unfold holds, settled in *.
    destruct Ht as [m t c cs r Hpos Hc He|m t c cs p Hpos Hc He|m t c cs p Hpos Hc He|m t p Hpos Hl'
      |m t p Hpos Hl'|m t p m' p' Hpos He|m t p m' r Hpos He|m t r Hpos|m t p p' Hpos He
      |m t p u Hpos He]; cbn; rewrite -> Hpos in *; try tauto;
      split_and!; eauto; try (intros c' cs' p' Hc' He'; rewrite -> Hc in *; congruence);
      destruct Hs as (c & cs & q & Hc & Hq); intros c' cs' p'' Hc' He'; rewrite -> Hc in *; congruence. }
  split_and!; [split; [done|]|done|].
  - intros j u [[_ [<- _]]|[_ Hj]]%list_lookup_insert_Some; [done|by eapply Hn].
  - intros j u u' c cs p Hj Hj' Hc He.
    apply list_lookup_insert_Some in Hj' as [(-> & <- & _)|[_ Hj']]; [|by simplify_eq].
    rw Hi in Hj. injection Hj as <-. by eapply Hsame.
Qed.

(** A process killed inside a critical section takes the lock with it: from then
    on the memory never changes, and no thread that has an update or a change of
    limits to make ever returns from it, whatever the others do. *)
Theorem orphaned_lock_blocks s0 css w i t w' :
  ready s0 → rtc cstep (start s0 css) w → threads w !! i = Some t → holds t →
  rtc cstep (kill i w) w' →
  mem w' = mem w ∧
  ∀ j u u' c cs p, threads (kill i w) !! j = Some u → threads w' !! j = Some u' →
    todo u = c :: cs → enter c = Locks p → todo u' = todo u ∧ results u' = results u.
Proof.
  intros Hr Hst Hi Ht Hrest.
  destruct (sim_steps s0 _ w (start_sim s0 css Hr) Hst) as (a & _ & Hsim). destruct w as [m ts].
  destruct (sim_inside a m ts i t Hsim Hi Ht) as [_ Hl Ho _].
  assert (orphaned (kill i (mk_system m ts))) as Hor.
  { split; [cbn in *; lia|]. cbn. intros j u Hj.
    destruct (decide (j < i)%nat) as [Hlt|Hge].
    - rw list_lookup_delete_lt // in Hj. split; [|by eapply (sim_settled _ _ Hsim)].
      intros Hu. specialize (Ho j u Hj Hu). lia.
    - rw list_lookup_delete_ge in Hj; [lia|]. split; [|by eapply (sim_settled _ _ Hsim)].
      intros Hu. specialize (Ho (S j) u Hj Hu). lia. }
  change (mem (mk_system m ts)) with (mem (kill i (mk_system m ts))).
  clear -Hor Hrest. induction Hrest as [w|w w1 w2 H1 _ IH].
  - split; [done|]. intros. by simplify_eq.
  - destruct (orphaned_step w w1 Hor H1) as (Hor1 & Hm1 & Hs1).
    destruct (IH Hor1) as [Hm2 Hs2]. split; [congruence|].
    intros j u u2 c cs p Hj Hj2 Hc He.
    assert (is_Some (threads w1 !! j)) as [u1 Hj1].
    { destruct H1. apply lookup_lt_is_Some. cbn. rw length_insert. by eapply lookup_lt_Some. }
    destruct (Hs1 j u u1 c cs p Hj Hj1 Hc He) as [Ht1 Hr1]. rw -Ht1 -Hr1.
    apply (Hs2 j u1 u2 c cs p); congruence.
Qed.

(** The searches of a pid that has a slot. *)
Lemma scan_hit s pid u k n :
  process_pids (shm s) !! k = Some pid →
  (∀ j q, (j < k)%nat → process_pids (shm s) !! j = Some q → (q =? pid) = false) →
  ∀ t i slot, (i + n = k)%nat → pos t = Inside (Scan pid u i slot) →
  rtc turn (s, t) (s, move (Inside (Test pid u k)) t).
Proof.
  intros Hk Hlt. induction n as [|n IH]; intros t i slot Hn Hp.
  - assert (i = k) as -> by lia. apply rtc_once. apply (t_access _ _ _ _ _ Hp). cbn.
    by rw Hk Z.eqb_refl.
  - destruct (lookup_lt_is_Some_2 (process_pids (shm s)) i) as [q Hi].
    { apply lookup_lt_Some in Hk. lia. }
    pose proof (Hlt i q ltac:(lia) Hi) as Hq.
    set (slot' := if (q =? 0) && (slot =? -1) then Z.of_nat i else slot).
    apply (rtc_l _ _ (s, move (Inside (Scan pid u (S i) slot')) t)).
    + apply (t_access _ _ _ _ _ Hp). cbn. rw Hi Hq. unfold slot'. by destruct (_ && _).
    + apply (IH (move _ t) (S i) slot'); [lia|done].
Qed.

Lemma find_hit s pid k n :
  process_pids (shm s) !! k = Some pid →
  (∀ j q, (j < k)%nat → process_pids (shm s) !! j = Some q → (q =? pid) = false) →
  ∀ t i, (i + n = k)%nat → pos t = Reading (Find pid i) →
  rtc turn (s, t) (s, move (Reading (ReadQp k)) t).
Proof.
  intros Hk Hlt. induction n as [|n IH]; intros t i Hn Hp.
  - assert (i = k) as -> by lia. apply rtc_once. apply (t_copy _ _ _ _ Hp). cbn.
    by rw Hk Z.eqb_refl.
  - destruct (lookup_lt_is_Some_2 (process_pids (shm s)) i) as [q Hi].
    { apply lookup_lt_Some in Hk. lia. }
    apply (rtc_l _ _ (s, move (Reading (Find pid (S i))) t)).
    + apply (t_copy _ _ _ _ Hp). cbn. by rw Hi (Hlt i q ltac:(lia) Hi).
    + apply (IH (move _ t) (S i)); [lia|done].
Qed.

(** The writer has replaced the first field. *)
Lemma writer_begins s pid u k cs :
  lock (shm s) = 0 → 0 < pid → process_pids (shm s) !! k = Some pid →
  (∀ j q, (j < k)%nat → process_pids (shm s) !! j = Some q → (q =? pid) = false) →
  rtc turn (s, start_thread (UpdateProcess pid (Some u) :: cs))
    (fst (exec (StatQp u k) (set_lock 1 s)),
     move (Inside (StatMr u k)) (start_thread (UpdateProcess pid (Some u) :: cs))).
Proof.
  intros Hl Hpid Hk Hlt. set (t := start_thread _).
  apply (rtc_l _ _ (s, move (Waiting (Scan pid u 0 (-1))) t)).
  { eapply (t_wait s t); [done..|]. cbn. by rw (proj2 (Z.leb_gt pid 0)). }
  apply (rtc_l _ _ (set_lock 1 s, move (Inside (Scan pid u 0 (-1))) t)).
  { exact (t_lock s (move (Waiting _) t) _ eq_refl Hl). }
  etrans.
  { exact (scan_hit (set_lock 1 s) pid u k k Hk Hlt (move (Inside _) t) 0 (-1) eq_refl eq_refl). }
  apply (rtc_l _ _ (set_lock 1 s, move (Inside (StatQp u k)) t)); [|apply rtc_once].
  - apply (t_access _ (move (Inside (Test pid u k)) t) (Test pid u k)); [done|]. cbn.
    rw Hk. cbn. by destruct (Z.eqb_spec pid 0); [lia|].
  - by apply (t_access _ (move (Inside (StatQp u k)) t) (StatQp u k)).
Qed.

Lemma reader_copies s pid k v cs :
  0 < pid → process_pids (shm s) !! k = Some pid →
  (∀ j q, (j < k)%nat → process_pids (shm s) !! j = Some q → (q =? pid) = false) →
  rtc turn (s, start_thread (GetProcess pid (Some v) :: cs))
    (s, finish 0 [stat s k] (start_thread (GetProcess pid (Some v) :: cs))).
Proof.
  intros Hpid Hk Hlt. set (t := start_thread _).
  apply (rtc_l _ _ (s, move (Reading (Find pid 0)) t)).
  { eapply (t_read s t); [done..|]. cbn. by rw (proj2 (Z.leb_gt pid 0)). }
  etrans; [exact (find_hit s pid k k Hk Hlt (move (Reading _) t) 0 eq_refl eq_refl)|].
  copy. copy. eapply copied_turn; [done..|]. unfold finish. cbn. by destruct (stat s k).
Qed.

(** The copy a reader makes is not protected: while one thread replaces the
    record [u1] of a process by [u2], another one that asks for it can be handed the
    QP count of the new record with the MR count and the memory of the old one. *)
Theorem reader_sees_mixture s0 pid u1 u2 :
  ready s0 → 0 < pid → table (shm s0) !! pid = Some u1 →
  ∃ w t, rtc cstep (start s0 [[UpdateProcess pid (Some u2)]; [GetProcess pid (Some usage_zero)]]) w ∧
    threads w !! 1%nat = Some t ∧ results t = [0] ∧
    seen t = [mk_usage (qp_count u2) (mr_count u1) (memory_used u1)].
Proof.
  intros Hr Hpid Ht. destruct Hr as [_ Hl Hd]. unfold table in Ht.
  rw slots_map_lookup in Ht; [apply Hd|lia|]. rw -(find_index_entries _ (λ p, p =? pid) Hd) in Ht.
  destruct (find_index _ _) as [k|] eqn:Hf; [|done]. cbn in Ht.
  destruct (find_index_Some _ _ _ Hf) as (q & Hk & Hq%Z.eqb_eq & Hlt). subst q.
  apply fmap_Some_1 in Ht as ([p u] & He & ->). apply entries_lookup in He as [_ Hst].
  set (css := [_; _]). set (w0 := start s0 css).
  set (s1 := fst (exec (StatQp u2 k) (set_lock 1 s0))).
  assert (Hlt' : ∀ j q, (j < k)%nat → process_pids (shm s0) !! j = Some q → (q =? pid) = false)
    by eauto.
  pose proof (writer_begins s0 pid u2 k [] Hl Hpid Hk Hlt') as Hw.
  pose proof (reader_copies s1 pid k usage_zero [] Hpid Hk Hlt') as Hrd.
  eexists _, _. split_and!.
  - etrans; [exact (turns_system _ _ _ _ (threads w0) 0 Hw eq_refl)|].
    refine (turns_system _ _ _ _ _ 1 Hrd _). done.
  - done.
  - done.
  - cbn. unfold stat. cbn. by rw list_lookup_alter_eq Hst.
Qed.

(** ** Examples *)

Definition u_one : resource_usage_t := mk_usage 1 1 4096.
Definition u_two : resource_usage_t := mk_usage 2 5 8192.

(** Process 7 has a record; a writer and a changer of limits. *)
Definition one_process : state :=
  (fresh (λ n, (Z.of_nat n, 5))) <| shm := data_zero <| process_pids ::= <[0%nat := 7]> |>
    <| process_stats ::= <[0%nat := u_one]> |> |>.

Lemma one_process_ready : ready one_process ∧ table (shm one_process) = {[7 := u_one]}.
Proof.
  destruct (data_ok_put data_zero (shm one_process) 0 7 u_one 0 data_zero_ok) as [Hd Ht];
    [done..|by right|]. split; [by split|]. by rw Ht table_data_zero.
Qed.

Definition two_callers : list (list call) :=
  [[UpdateProcess 7 (Some u_two)]; [SetLimits 10 20 30; GetGlobal (Some usage_zero)]].

(** The writer is inside when the other thread starts to wait. *)
Definition middle : list nat := [0; 0; 1; 0; 0; 1; 0; 1]%nat.

Definition middle_state : option system := schedule middle (start one_process two_callers).

Lemma middle_reached : ∃ w, middle_state = Some w ∧ rtc cstep (start one_process two_callers) w ∧
  (∃ t, threads w !! 0%nat = Some t ∧ pos t = Inside (StatMr u_two 0)) ∧
  ∃ t, threads w !! 1%nat = Some t ∧ pos t = Waiting (LimQp 10 20 30) ∧
    todo t = [SetLimits 10 20 30; GetGlobal (Some usage_zero)].
Proof.
  destruct middle_state as [w|] eqn:Hw; [|by vm_compute in Hw]. exists w.
  split_and!; [done|by eapply schedule_sound| |]; vm_compute in Hw; injection Hw as <-;
    by eexists.
Qed.

Lemma interleaving_refines_calls_witness :
  ∃ w a, rtc cstep (start one_process two_callers) w ∧
    rtc astep (one_process, (λ cs, (cs, [])) <$> two_callers) (a, job_of <$> threads w) ∧
    shm_fd (mem w) = 3.
Proof.
  destruct middle_reached as (w & Hw & Hst & _).
  destruct (interleaving_refines_calls one_process two_callers w (proj1 one_process_ready) Hst)
    as (_ & a & Ha & _).
  exists w, a. split_and!; [exact Hst|exact Ha|]. vm_compute in Hw. injection Hw as <-. reflexivity.
Defined.

Lemma interleaving_can_finish_witness :
  ∃ w w', rtc cstep (start one_process two_callers) w ∧ rtc cstep w w' ∧
    Forall2 (λ cs t, length (results t) = length cs) two_callers (threads w').
Proof.
  destruct middle_reached as (w & _ & Hst & _).
  destruct (interleaving_can_finish one_process two_callers w (proj1 one_process_ready) Hst)
    as (w' & Hst' & _ & Hf).
  exists w, w'. exact (conj Hst (conj Hst' Hf)).
Defined.

Lemma orphaned_lock_blocks_witness :
  ∃ w, rtc cstep (start one_process two_callers) w ∧
    ∀ w' u', rtc cstep (kill 0 w) w' → threads w' !! 0%nat = Some u' →
      mem w' = mem w ∧ todo u' = [SetLimits 10 20 30; GetGlobal (Some usage_zero)].
Proof.
  destruct middle_reached as (w & _ & Hst & (t & Ht & Hpos) & u & Hu & _ & Htodo).
  exists w. split; [exact Hst|]. intros w' u' Hst' Hu'.
  assert (Hh : holds t) by (unfold holds; rewrite Hpos; exact I).
  destruct (orphaned_lock_blocks one_process two_callers w 0 t w' (proj1 one_process_ready)
    Hst Ht Hh Hst') as [Hm Hs].
  split; [exact Hm|]. assert (Hk : threads (kill 0 w) !! 0%nat = Some u).
  { cbn. rewrite list_lookup_delete_ge; [lia|exact Hu]. }
  destruct (Hs 0%nat u u' (SetLimits 10 20 30) [GetGlobal (Some usage_zero)] (LimQp 10 20 30)
    Hk Hu' Htodo eq_refl) as [Ht' _]. congruence.
Defined.

Lemma reader_sees_mixture_witness :
  ∃ w t, rtc cstep (start one_process
      [[UpdateProcess 7 (Some u_two)]; [GetProcess 7 (Some usage_zero)]]) w ∧
    threads w !! 1%nat = Some t ∧ seen t = [mk_usage 2 1 4096].
Proof.
  destruct one_process_ready as [Hr Ht].
  assert (H7 : table (shm one_process) !! 7 = Some u_one).
  { rewrite Ht. reflexivity. }
  destruct (reader_sees_mixture one_process 7 u_one u_two Hr eq_refl H7)
    as (w & t & Hst & Hl & _ & Hs).
  exists w, t. exact (conj Hst (conj Hl Hs)).
Defined.

End SpinLock.
