(* ===== verification/PerfOptimizer.v ===== *)
(** * The performance optimiser ([src/performance_optimizer.c])

    A cache of usages with a time to live and a buffer of pending updates, in
    front of the process table.  The table is used through its interface
    ([ProcTable]): the theorems hold for every implementation, in particular for
    the shared memory of [ShmProcess]. *)

From S2P Require Import Prelude CFloat SlotTable ShmProcess.

Module PerfOptimizer.
#[local] Existing Instances Shm.expand_usage Shm.usage_inhabited Shm.process_table.

Definition CACHE_BUCKET_COUNT : Z := 256.

(** ** Data ([performance_optimizer.h]) *)

Record cache_entry_t := mk_entry {
  pid : Z;
  usage : Shm.resource_usage_t;
  last_update : Z;    (* uint64_t, milliseconds *)
  valid : Z;
  lock : Z;
}.
#[export] Instance expand_entry : Expand cache_entry_t := λ r,
  mk_entry (pid r) (usage r) (last_update r) (valid r) (lock r).

Record resource_cache_t := mk_cache {
  entries : list cache_entry_t;
  hit_count : Z;
  miss_count : Z;
  eviction_count : Z;
  ttl_ms : Z;         (* uint32_t *)
}.
#[export] Instance expand_cache : Expand resource_cache_t := λ r,
  mk_cache (entries r) (hit_count r) (miss_count r) (eviction_count r) (ttl_ms r).

Record batch_buffer_t := mk_buffer {
  pending_updates : list Shm.resource_usage_t;
  pids : list Z;
  count : Z;
  last_flush : Z;
  flush_interval_ms : Z;
}.
#[export] Instance expand_buffer : Expand batch_buffer_t := λ r,
  mk_buffer (pending_updates r) (pids r) (count r) (last_flush r) (flush_interval_ms r).

Record perf_optimizer_stats_t := mk_stats {
  total_operations : Z;
  intercepted_operations : Z;
  allowed_operations : Z;
  denied_operations : Z;
  total_latency_ns : Z;
  min_latency_ns : Z;
  max_latency_ns : Z;
  avg_latency_ns : spec_float;
  cache_hits : Z;
  cache_misses : Z;
  cache_hit_rate : spec_float;
  batch_flushes : Z;
  batched_updates : Z;
  start_time : Z;
}.
#[export] Instance expand_stats : Expand perf_optimizer_stats_t := λ r,
  mk_stats (total_operations r) (intercepted_operations r) (allowed_operations r)
    (denied_operations r) (total_latency_ns r) (min_latency_ns r) (max_latency_ns r)
    (avg_latency_ns r) (cache_hits r) (cache_misses r) (cache_hit_rate r) (batch_flushes r)
    (batched_updates r) (start_time r).

Definition entry_zero : cache_entry_t := mk_entry 0 Shm.usage_zero 0 0 0.
Definition cache_zero : resource_cache_t :=
  mk_cache (replicate (Z.to_nat CACHE_BUCKET_COUNT) entry_zero) 0 0 0 0.
Definition buffer_zero : batch_buffer_t :=
  mk_buffer (replicate (Z.to_nat CACHE_BUCKET_COUNT) Shm.usage_zero)
    (replicate (Z.to_nat CACHE_BUCKET_COUNT) 0) 0 0 0.
Definition stats_zero : perf_optimizer_stats_t :=
  mk_stats 0 0 0 0 0 0 0 (S754_zero false) 0 0 (S754_zero false) 0 0 0.

Section Optimizer.
Context {S : Type} `{!ProcTable S Shm.resource_usage_t}.

(** The statics of the file, the process table behind them, the counter of the
    flush thread, and the readings of the three clocks: [gettimeofday] as
    (seconds, microseconds), [CLOCK_MONOTONIC] as (seconds, nanoseconds) and
    [time (NULL)]. *)
Record optimizer := mk_optimizer {
  g_cache : resource_cache_t;
  g_batch_buffer : batch_buffer_t;
  g_stats : perf_optimizer_stats_t;
  g_stats_mutex : bool;
  g_batch_mutex : bool;
  g_running : Z;
  g_cache_enabled : Z;
  g_batching_enabled : Z;
  adaptive_counter : Z;
  shm : S;
  time_of_day : nat → Z * Z;
  monotonic : nat → Z * Z;
  wall : nat → Z;
  thread_starts : bool;      (* pthread_create succeeds *)
}.
#[export] Instance expand_optimizer : Expand optimizer := λ r,
  mk_optimizer (g_cache r) (g_batch_buffer r) (g_stats r) (g_stats_mutex r) (g_batch_mutex r)
    (g_running r) (g_cache_enabled r) (g_batching_enabled r) (adaptive_counter r) (shm r)
    (time_of_day r) (monotonic r) (wall r) (thread_starts r).

(** ** Clocks and locks *)

Definition get_current_time_ms : M optimizer Z := λ s,
  let '(tv_sec, tv_usec) := time_of_day s 0%nat in
  Ret (u64 (u64 (tv_sec * 1000) + tv_usec ÷ 1000))
      (s <| time_of_day := λ n, time_of_day s (Datatypes.S n) |>).

Definition get_current_time_ns : M optimizer Z := λ s,
  let '(tv_sec, tv_nsec) := monotonic s 0%nat in
  Ret (u64 (u64 (tv_sec * 1000000000) + tv_nsec))
      (s <| monotonic := λ n, monotonic s (Datatypes.S n) |>).

Definition time : M optimizer Z := λ s,
  Ret (wall s 0%nat) (s <| wall := λ n, wall s (Datatypes.S n) |>).

(** [uint32_t] multiplication by Knuth's constant. *)
Definition hash_pid (n : Z) : nat := Z.to_nat (u32 (u32 n * 2654435761) mod CACHE_BUCKET_COUNT).

(** [&g_cache.entries[i]], read and written. *)
Definition entry (i : nat) : M optimizer cache_entry_t :=
  s ← get;
  match entries (g_cache s) !! i with Some e => mret e | None => crash end.
Definition set_entry (i : nat) (f : cache_entry_t → cache_entry_t) : M optimizer unit :=
  modify (λ s, s <| g_cache ::= λ c, c <| entries ::= alter f i |> |>).

Definition spin_lock (i : nat) : M optimizer unit :=
  e ← entry i;
  if lock e =? 0 then set_entry i (λ e, e <| lock := 1 |>) else hang.
Definition spin_unlock (i : nat) : M optimizer unit := set_entry i (λ e, e <| lock := 0 |>).

Definition lock_stats : M optimizer unit :=
  s ← get; if g_stats_mutex s then hang else modify (λ s, s <| g_stats_mutex := true |>).
Definition unlock_stats : M optimizer unit := modify (λ s, s <| g_stats_mutex := false |>).
Definition lock_batch : M optimizer unit :=
  s ← get; if g_batch_mutex s then hang else modify (λ s, s <| g_batch_mutex := true |>).
Definition unlock_batch : M optimizer unit := modify (λ s, s <| g_batch_mutex := false |>).

(** Assignments to [g_stats] under its mutex. *)
Definition count_stats (f : perf_optimizer_stats_t → perf_optimizer_stats_t) : M optimizer unit :=
  lock_stats;; modify (λ s, s <| g_stats ::= f |>);; unlock_stats.

Definition set_buffer (f : batch_buffer_t → batch_buffer_t) : M optimizer unit :=
  modify (λ s, s <| g_batch_buffer ::= f |>).

(** ** The cache *)

Definition count_miss : M optimizer unit :=
  lock_stats;;
  modify (λ s, s <| g_stats ::= λ t, t <| cache_misses ::= λ n, u64 (n + 1) |> |>
                 <| g_cache ::= λ c, c <| miss_count ::= λ n, u64 (n + 1) |> |>);;
  unlock_stats.

Definition count_hit : M optimizer unit :=
  lock_stats;;
  modify (λ s, s <| g_stats ::= λ t, t <| cache_hits ::= λ n, u64 (n + 1) |> |>
                 <| g_cache ::= λ c, c <| hit_count ::= λ n, u64 (n + 1) |> |>);;
  unlock_stats.

Definition stale (e : cache_entry_t) (n : Z) : bool := (valid e =? 0) || negb (pid e =? n).

(** The answer, and what is in the caller's record afterwards. *)
Definition perf_optimizer_get_cached_resources (n : Z) (out : option Shm.resource_usage_t) :
    M optimizer (bool * option Shm.resource_usage_t) :=
  s ← get;
  match out with
  | None => mret (false, out)
  | Some _ =>
      if g_cache_enabled s =? 0 then mret (false, out) else
      let idx := hash_pid n in
      e ← entry idx;
      if stale e n then count_miss;; mret (false, out) else
      spin_lock idx;;
      e ← entry idx;
      if stale e n then spin_unlock idx;; count_miss;; mret (false, out) else
      current_time ← get_current_time_ms;
      if ttl_ms (g_cache s) <? u64 (current_time - last_update e) then
        set_entry idx (λ e, e <| valid := 0 |>);;
        spin_unlock idx;;
        count_miss;;
        mret (false, out)
      else
        spin_unlock idx;;
        count_hit;;
        mret (true, Some (usage e))
  end.

Definition perf_optimizer_update_cached_resources (n : Z) (u : option Shm.resource_usage_t) :
    M optimizer unit :=
  s ← get;
  match u with
  | None => mret tt
  | Some u =>
      if g_cache_enabled s =? 0 then mret tt else
      let idx := hash_pid n in
      spin_lock idx;;
      set_entry idx (λ e, e <| pid := n |> <| usage := u |>);;
      now ← get_current_time_ms;
      set_entry idx (λ e, e <| last_update := now |> <| valid := 1 |>);;
      spin_unlock idx
  end.

Definition perf_optimizer_invalidate_cache (n : Z) : M optimizer unit :=
  let idx := hash_pid n in
  spin_lock idx;;
  e ← entry idx;
  (if pid e =? n then set_entry idx (λ e, e <| valid := 0 |>) else mret tt);;
  spin_unlock idx.

(** The loop of [perf_optimizer_clear_cache], from entry [i] on. *)
Fixpoint clear_entries (k i : nat) : M optimizer unit :=
  match k with
  | O => mret tt
  | Datatypes.S k' =>
      spin_lock i;; set_entry i (λ e, e <| valid := 0 |>);; spin_unlock i;;
      clear_entries k' (Datatypes.S i)
  end.

Definition perf_optimizer_clear_cache : M optimizer unit :=
  clear_entries (Z.to_nat CACHE_BUCKET_COUNT) 0;;
  lock_stats;;
  modify (λ s, s <| g_cache ::= λ c, c <| hit_count := 0 |> <| miss_count := 0 |> |>);;
  unlock_stats.

(** ** The buffer *)

(** The pending updates, in order. *)
Definition pending (b : batch_buffer_t) : list (Z * Shm.resource_usage_t) :=
  take (Z.to_nat (count b)) (zip (pids b) (pending_updates b)).

Fixpoint write_all (l : list (Z * Shm.resource_usage_t)) : M optimizer unit :=
  match l with
  | [] => mret tt
  | (n, u) :: l' => zoom shm (pt_update n (Some u));; write_all l'
  end.

Definition perf_optimizer_flush_batch_buffer : M optimizer unit :=
  lock_batch;;
  s ← get;
  if count (g_batch_buffer s) =? 0 then unlock_batch else
  write_all (pending (g_batch_buffer s));;
  set_buffer (λ b, b <| count := 0 |>);;
  now ← get_current_time_ms;
  set_buffer (λ b, b <| last_flush := now |>);;
  unlock_batch;;
  count_stats (λ t, t <| batch_flushes ::= λ n, u64 (n + 1) |>).

(** [pids[i] = pid] and [pending_updates[i] = *usage]. *)
Definition store (i : nat) (n : Z) (u : Shm.resource_usage_t) (b : batch_buffer_t) : batch_buffer_t :=
  b <| pids ::= <[i := n]> |> <| pending_updates ::= <[i := u]> |>.

(** The part of [perf_optimizer_batch_update_resource] under the mutex. *)
Definition buffer_update (n : Z) (u : Shm.resource_usage_t) : M optimizer unit :=
  lock_batch;;
  s ← get;
  let b := g_batch_buffer s in
  match find_index (λ p, p =? n) (take (Z.to_nat (count b)) (pids b)) with
  | Some i => set_buffer (λ b, b <| pending_updates ::= <[i := u]> |>);; unlock_batch
  | None =>
      if count b <? CACHE_BUCKET_COUNT then
        set_buffer (λ b, (store (Z.to_nat (count b)) n u b) <| count ::= λ c, c + 1 |>);;
        unlock_batch
      else
        unlock_batch;;
        perf_optimizer_flush_batch_buffer;;
        lock_batch;;
        set_buffer (λ b, (store 0 n u b) <| count := 1 |>);;
        unlock_batch
  end.

Definition perf_optimizer_batch_update_resource (n : Z) (u : option Shm.resource_usage_t) :
    M optimizer Z :=
  s ← get;
  match u with
  | None => zoom shm (pt_update n None)
  | Some u =>
      if g_batching_enabled s =? 0 then zoom shm (pt_update n (Some u)) else
      buffer_update n u;;
      perf_optimizer_update_cached_resources n (Some u);;
      count_stats (λ t, t <| batched_updates ::= λ n, u64 (n + 1) |>);;
      mret 0
  end.

(** ** Settings *)

Definition perf_optimizer_set_cache_ttl (ttl : Z) : M optimizer unit :=
  let ttl := if ttl <? 10 then 10 else ttl in
  let ttl := if 10000 <? ttl then 10000 else ttl in
  modify (λ s, s <| g_cache ::= λ c, c <| ttl_ms := ttl |> |>).

Definition perf_optimizer_set_batch_interval (interval_ms : Z) : M optimizer unit :=
  let interval := if interval_ms <? 10 then 10 else interval_ms in
  let interval := if 1000 <? interval then 1000 else interval in
  set_buffer (λ b, b <| flush_interval_ms := interval |>).

Definition perf_optimizer_enable_cache (enable : bool) : M optimizer unit :=
  modify (λ s, s <| g_cache_enabled := if enable then 1 else 0 |>).

Definition perf_optimizer_enable_batching (enable : bool) : M optimizer unit :=
  modify (λ s, s <| g_batching_enabled := if enable then 1 else 0 |>).

(** ** Statistics *)

(** [(double) a / b * 100.0] *)
Definition percentage (a b : Z) : spec_float :=
  SFmul 53 1024 (SFdiv 53 1024 (double_of a) (double_of b)) (double_of 100).

Definition perf_optimizer_get_stats (stats : option perf_optimizer_stats_t) :
    M optimizer (option perf_optimizer_stats_t) :=
  match stats with
  | None => mret None
  | Some _ =>
      lock_stats;;
      s ← get;
      let t := g_stats s in
      let total := u64 (cache_hits t + cache_misses t) in
      let rate := if 0 <? total then percentage (cache_hits t) total else S754_zero false in
      let avg :=
        if 0 <? total_operations t
        then SFdiv 53 1024 (double_of (total_latency_ns t)) (double_of (total_operations t))
        else S754_zero false in
      unlock_stats;;
      mret (Some (t <| cache_hit_rate := rate |> <| avg_latency_ns := avg |>))
  end.

Definition perf_optimizer_reset_stats : M optimizer unit :=
  lock_stats;;
  modify (λ s, s <| g_stats := stats_zero <| min_latency_ns := UINT64_MAX |> |>);;
  now ← time;
  modify (λ s, s <| g_stats ::= λ t, t <| start_time := now |> |>);;
  unlock_stats;;
  modify (λ s, s <| g_cache ::= λ c,
    c <| hit_count := 0 |> <| miss_count := 0 |> <| eviction_count := 0 |> |>).

(** The report goes to the standard error; only the clock is read. *)
Definition perf_optimizer_print_stats : M optimizer unit :=
  perf_optimizer_get_stats (Some stats_zero);; time;; mret tt.

(** ** The cached check *)

(** The current figure of a resource, in the units of the limit (memory in MB). *)
Definition figure (resource_type : Z) (u : Shm.resource_usage_t) (current : Z) : Z :=
  if resource_type =? 0 then u32 (Shm.qp_count u)
  else if resource_type =? 1 then u32 (Shm.mr_count u)
  else if resource_type =? 2 then u32 (Shm.memory_used u / (1024 * 1024))
  else current.

Definition count_latency (latency : Z) (allowed : bool) (t : perf_optimizer_stats_t) :
    perf_optimizer_stats_t :=
  let t := t <| total_latency_ns ::= λ n, u64 (n + latency) |>
             <| min_latency_ns ::= λ n, if latency <? n then latency else n |>
             <| max_latency_ns ::= λ n, if n <? latency then latency else n |> in
  if allowed then t <| allowed_operations ::= λ n, u64 (n + 1) |>
  else t <| denied_operations ::= λ n, u64 (n + 1) |>.

(** A [uint32_t] sum, compared with the limit. *)
Definition perf_optimizer_check_resource_fast (n resource_type current requested limit : Z) :
    M optimizer bool :=
  start ← get_current_time_ns;
  count_stats (λ t, t <| total_operations ::= λ n, u64 (n + 1) |>);;
  r ← perf_optimizer_get_cached_resources n (Some Shm.usage_zero);
  let actual_current :=
    if fst r : bool then figure resource_type (default Shm.usage_zero (snd r)) current
    else current in
  let allowed := u32 (actual_current + requested) <=? limit in
  finish ← get_current_time_ns;
  count_stats (count_latency (u64 (finish - start)) allowed);;
  mret allowed.

Definition perf_optimizer_prefetch_resources (n : Z) : M optimizer unit :=
  r ← zoom shm (pt_get n);
  match r with
  | Some u => perf_optimizer_update_cached_resources n (Some u)
  | None => mret tt
  end.

(** [x < y] of two doubles. *)
Definition double_lt (x y : spec_float) : bool :=
  match SFcompare x y with Some Lt => true | _ => false end.

Definition perf_optimizer_adaptive_adjust : M optimizer unit :=
  lock_stats;;
  s ← get;
  unlock_stats;;
  let hits := cache_hits (g_stats s) in
  let total := u64 (hits + cache_misses (g_stats s)) in
  if total <? 100 then mret tt else
  let hit_rate := percentage hits total in
  let ttl := ttl_ms (g_cache s) in
  let set_ttl v := modify (λ s, s <| g_cache ::= λ c, c <| ttl_ms := v |> |>) in
  if double_lt hit_rate (double_of 50) && (50 <? ttl) then set_ttl (u32 (ttl - 10))
  else if double_lt (double_of 90) hit_rate && (ttl <? 500) then set_ttl (u32 (ttl + 10))
  else mret tt.

(** ** Start, flush thread, and end *)

Definition perf_optimizer_init : M optimizer Z :=
  modify (λ s, s <| g_cache := cache_zero <| ttl_ms := 100 |> |>
                 <| g_batch_buffer := buffer_zero <| flush_interval_ms := 50 |> |>
                 <| g_stats := stats_zero |>);;
  now ← time;
  modify (λ s, s <| g_stats ::= λ t, t <| start_time := now |> <| min_latency_ns := UINT64_MAX |> |>
                 <| g_running := 1 |>);;
  s ← get;
  if thread_starts s then mret 0
  else modify (λ s, s <| g_running := 0 |>);; mret (-1).

(** One round of the loop of [flush_thread_func], after its sleep: whether the
    loop goes on. *)
Definition flush_thread_round : M optimizer bool :=
  s ← get;
  if g_running s =? 0 then mret false else
  (if negb (g_batching_enabled s =? 0) then perf_optimizer_flush_batch_buffer else mret tt);;
  modify (λ s, s <| adaptive_counter ::= λ n, n + 1 |>);;
  s ← get;
  (if 100 <=? adaptive_counter s then
     perf_optimizer_adaptive_adjust;; modify (λ s, s <| adaptive_counter := 0 |>)
   else mret tt);;
  mret true.

(** [pthread_join] returns: the thread leaves its loop when it wakes up. *)
Definition perf_optimizer_cleanup : M optimizer unit :=
  modify (λ s, s <| g_running := 0 |>);;
  perf_optimizer_flush_batch_buffer.

(** ** Calls *)

Inductive op :=
| OGet (n : Z)
| OUpdate (n : Z) (u : Shm.resource_usage_t)
| OInvalidate (n : Z)
| OClear
| OBatch (n : Z) (u : Shm.resource_usage_t)
| OFlush
| ORound
| OCheck (n resource_type current requested limit : Z)
| OPrefetch (n : Z)
| OSetTtl (ttl : Z)
| OSetInterval (interval : Z)
| OAdjust
| OGetStats
| OResetStats
| OEnableCache (enable : bool)
| OEnableBatching (enable : bool).

Definition run_op (o : op) : M optimizer unit :=
  match o with
  | OGet n => perf_optimizer_get_cached_resources n (Some Shm.usage_zero);; mret tt
  | OUpdate n u => perf_optimizer_update_cached_resources n (Some u)
  | OInvalidate n => perf_optimizer_invalidate_cache n
  | OClear => perf_optimizer_clear_cache
  | OBatch n u => perf_optimizer_batch_update_resource n (Some u);; mret tt
  | OFlush => perf_optimizer_flush_batch_buffer
  | ORound => flush_thread_round;; mret tt
  | OCheck n r c q l => perf_optimizer_check_resource_fast n r c q l;; mret tt
  | OPrefetch n => perf_optimizer_prefetch_resources n
  | OSetTtl ttl => perf_optimizer_set_cache_ttl ttl
  | OSetInterval i => perf_optimizer_set_batch_interval i
  | OAdjust => perf_optimizer_adaptive_adjust
  | OGetStats => perf_optimizer_get_stats (Some stats_zero);; mret tt
  | OResetStats => perf_optimizer_reset_stats
  | OEnableCache b => perf_optimizer_enable_cache b
  | OEnableBatching b => perf_optimizer_enable_batching b
  end.

Fixpoint run_ops (os : list op) : M optimizer unit :=
  match os with [] => mret tt | o :: os' => run_op o;; run_ops os' end.
End Optimizer.

Arguments optimizer S : clear implicits.

(** ** Sound states *)

Section Props.
Context {S : Type} `{!ProcTable S Shm.resource_usage_t}.
Implicit Types (s : optimizer S) (u : Shm.resource_usage_t) (e : cache_entry_t) (i : nat) (n : Z).

Record cache_ok (c : resource_cache_t) : Prop := {
  co_len : length (entries c) = Z.to_nat CACHE_BUCKET_COUNT;
  co_free i e : entries c !! i = Some e → lock e = 0;
  co_ttl : 10 ≤ ttl_ms c ≤ 10000;
}.

Record buffer_ok (b : batch_buffer_t) : Prop := {
  bo_pids : length (pids b) = Z.to_nat CACHE_BUCKET_COUNT;
  bo_updates : length (pending_updates b) = Z.to_nat CACHE_BUCKET_COUNT;
  bo_count : 0 ≤ count b ≤ CACHE_BUCKET_COUNT;
  bo_once : NoDup (take (Z.to_nat (count b)) (pids b));
}.

(** Nothing is held, and the table answers. *)
Record opt_ok s : Prop := {
  oo_cache : cache_ok (g_cache s);
  oo_buffer : buffer_ok (g_batch_buffer s);
  oo_stats : g_stats_mutex s = false;
  oo_batch : g_batch_mutex s = false;
  oo_table : pt_ok (shm s);
}.

(** What the calls on the cache alone need. *)
Record cache_ready s : Prop := {
  cr_cache : cache_ok (g_cache s);
  cr_stats : g_stats_mutex s = false;
}.

Lemma opt_cache_ready s : opt_ok s → cache_ready s.
Proof. intros []. by split. Qed.

(** What the calls on the cache and the statistics leave alone. *)
Record same_store s s' : Prop := {
  ss_buffer : g_batch_buffer s' = g_batch_buffer s;
  ss_table : shm s' = shm s;
  ss_cache_on : g_cache_enabled s' = g_cache_enabled s;
  ss_batch_on : g_batching_enabled s' = g_batching_enabled s;
  ss_stats : g_stats_mutex s' = g_stats_mutex s;
  ss_batch : g_batch_mutex s' = g_batch_mutex s;
}.

Lemma same_store_refl s : same_store s s.
Proof. done. Qed.

Lemma same_store_trans s1 s2 s3 : same_store s1 s2 → same_store s2 s3 → same_store s1 s3.
Proof. intros [] []. split; congruence. Qed.

Lemma same_store_ok s s' : same_store s s' → cache_ok (g_cache s') → opt_ok s → opt_ok s'.
Proof. intros [] Hc []. split; congruence. Qed.

Lemma hash_bound n : (hash_pid n < Z.to_nat CACHE_BUCKET_COUNT)%nat.
Proof.
  unfold hash_pid. pose proof (Z.mod_pos_bound (u32 (u32 n * 2654435761)) CACHE_BUCKET_COUNT eq_refl).
  unfold CACHE_BUCKET_COUNT in *. lia.
Qed.

Lemma hash_entry s n : cache_ok (g_cache s) → is_Some (entries (g_cache s) !! hash_pid n).
Proof. intros Hc. apply lookup_lt_is_Some. rw (co_len _ Hc). apply hash_bound. Qed.

(** ** Locks and counters *)

Lemma count_stats_run f s :
  g_stats_mutex s = false → count_stats f s = Ret tt (s <| g_stats ::= f |>).
Proof. intros H. unfold count_stats, lock_stats, unlock_stats. run. rw H. cbn. by destruct s; cbn in *; subst. Qed.

Lemma count_miss_run s :
  g_stats_mutex s = false →
  ∃ s', count_miss s = Ret tt s' ∧ same_store s s' ∧
    entries (g_cache s') = entries (g_cache s) ∧ ttl_ms (g_cache s') = ttl_ms (g_cache s).
Proof.
  intros H. unfold count_miss, lock_stats, unlock_stats. run. rw H. cbn. eexists.
  split_and!; [done| |done|done]. by split.
Qed.

Lemma count_hit_run s :
  g_stats_mutex s = false →
  ∃ s', count_hit s = Ret tt s' ∧ same_store s s' ∧
    entries (g_cache s') = entries (g_cache s) ∧ ttl_ms (g_cache s') = ttl_ms (g_cache s).
Proof.
  intros H. unfold count_hit, lock_stats, unlock_stats. run. rw H. cbn. eexists.
  split_and!; [done| |done|done]. by split.
Qed.

Lemma alter_insert g i x (l : list cache_entry_t) : alter g i (<[i := x]> l) = <[i := g x]> l.
Proof. revert i. induction l as [|y l IH]; intros [|i]; cbn; try done. f_equal. apply IH. Qed.

(** From [s] to [s'] entry [i] has become [e], and nothing else but the counters
    and the clocks has changed. *)
Record one_entry i e s s' : Prop := {
  oe_same : same_store s s';
  oe_entries : entries (g_cache s') = <[i := e]> (entries (g_cache s));
  oe_ttl : ttl_ms (g_cache s') = ttl_ms (g_cache s);
}.

Lemma one_entry_refl i e s : entries (g_cache s) !! i = Some e → one_entry i e s s.
Proof. intros Hi. split; [done| |done]. by rw list_insert_id. Qed.

Lemma one_entry_quiet i e s s1 s2 :
  one_entry i e s s1 → same_store s1 s2 →
  entries (g_cache s2) = entries (g_cache s1) → ttl_ms (g_cache s2) = ttl_ms (g_cache s1) →
  one_entry i e s s2.
Proof. intros [H1 H2 H3] Hs He Ht. split; [by eapply same_store_trans|congruence..]. Qed.

Lemma one_entry_cache i e s s' :
  one_entry i e s s' → lock e = 0 → cache_ok (g_cache s) → cache_ok (g_cache s').
Proof.
  intros [_ He Ht] Hl [Hlen Hf Hr]. split; [by rw He length_insert| |lia].
  rw He. intros j e' [(_ & <- & _)|[_ Hj]]%list_lookup_insert_Some; [done|by eapply Hf].
Qed.

(** The accesses to the entry, from a state where it has become [e]. *)
Section At_entry.
Context (i : nat) (s0 : optimizer S) (Hi : is_Some (entries (g_cache s0) !! i)).

Lemma at_lookup e s : one_entry i e s0 s → entries (g_cache s) !! i = Some e.
Proof using Hi. intros [_ He _]. rw He. apply list_lookup_insert_eq. by apply lookup_lt_is_Some. Qed.

Lemma at_read e s : one_entry i e s0 s → entry i s = Ret e s.
Proof using Hi. intros H. unfold entry. run. by rw (at_lookup e s H). Qed.

Lemma at_set f e s : one_entry i e s0 s → ∃ s', set_entry i f s = Ret tt s' ∧ one_entry i (f e) s0 s'.
Proof using Hi.
  intros [H1 H2 H3]. eexists. split; [reflexivity|]. split; [|cbn; by rw H2 alter_insert|done].
  eapply same_store_trans; [exact H1|by split].
Qed.

Lemma at_lock e s :
  one_entry i e s0 s → lock e = 0 →
  ∃ s', spin_lock i s = Ret tt s' ∧ one_entry i (e <| lock := 1 |>) s0 s'.
Proof using Hi.
  intros H Hl. unfold spin_lock. rw (bind_Ret _ _ _ _ _ (at_read e s H)). rw Hl.
  by apply (at_set (λ e, e <| lock := 1 |>)).
Qed.

Lemma at_unlock e s :
  one_entry i e s0 s → ∃ s', spin_unlock i s = Ret tt s' ∧ one_entry i (e <| lock := 0 |>) s0 s'.
Proof using Hi. apply at_set. Qed.

Lemma at_time e s :
  one_entry i e s0 s → ∃ n s', get_current_time_ms s = Ret n s' ∧ one_entry i e s0 s'.
Proof using Hi.
  intros H. unfold get_current_time_ms. destruct (time_of_day s 0%nat). eexists _, _.
  split; [done|]. eapply one_entry_quiet; [exact H|by split|done..].
Qed.

Lemma at_miss e s :
  one_entry i e s0 s → g_stats_mutex s0 = false →
  ∃ s', count_miss s = Ret tt s' ∧ one_entry i e s0 s'.
Proof using Hi.
  intros H Hm. destruct (count_miss_run s) as (s' & ? & ? & ? & ?).
  { by rw (ss_stats _ _ (oe_same _ _ _ _ H)). }
  exists s'. split; [done|]. by eapply one_entry_quiet.
Qed.

Lemma at_hit e s :
  one_entry i e s0 s → g_stats_mutex s0 = false →
  ∃ s', count_hit s = Ret tt s' ∧ one_entry i e s0 s'.
Proof using Hi.
  intros H Hm. destruct (count_hit_run s) as (s' & ? & ? & ? & ?).
  { by rw (ss_stats _ _ (oe_same _ _ _ _ H)). }
  exists s'. split; [done|]. by eapply one_entry_quiet.
Qed.
End At_entry.

(** ** The cache *)

(** A query changes nothing but the validity of the entry it finds too old; a
    hit is a valid entry of the pid, no older than the time to live. *)
Lemma get_cached_run s n out :
  cache_ready s → out ≠ None →
  ∃ r e e' s', perf_optimizer_get_cached_resources n out s = Ret r s' ∧
    entries (g_cache s) !! hash_pid n = Some e ∧ one_entry (hash_pid n) e' s s' ∧
    (e' = e ∨ e' = e <| valid := 0 |>) ∧
    (fst r = true → g_cache_enabled s ≠ 0 ∧ valid e ≠ 0 ∧ pid e = n ∧ snd r = Some (usage e)) ∧
    (fst r = false → snd r = out).
Proof.
  intros [Hc Hm] Hout. destruct (hash_entry s n Hc) as [e He].
  assert (Hi : is_Some (entries (g_cache s) !! hash_pid n)) by done.
  pose proof (co_free _ Hc _ _ He) as Hfree.
  pose proof (one_entry_refl _ _ _ He) as H0.
  unfold perf_optimizer_get_cached_resources. rw (bind_Ret _ _ _ s s); [done|].
  destruct out as [out|]; [|done].
  destruct (g_cache_enabled s =? 0) eqn:Hon.
  { exists (false, Some out), e, e, s. split_and!; try done. by left. }
  cbv zeta. rw (bind_Ret _ _ _ _ _ (at_read _ _ Hi _ _ H0)).
  destruct (stale e n) eqn:Hst.
  { destruct (at_miss _ _ Hi _ _ H0 Hm) as (s1 & Hr1 & H1). rw (bind_Ret _ _ _ _ _ Hr1).
    exists (false, Some out), e, e, s1. split_and!; try done. by left. }
  apply orb_false_iff in Hst as [Hv%Z.eqb_neq Hp%negb_false_iff%Z.eqb_eq].
  destruct (at_lock _ _ Hi _ _ H0 Hfree) as (s1 & Hr1 & H1). rw (bind_Ret _ _ _ _ _ Hr1).
  rw (bind_Ret _ _ _ _ _ (at_read _ _ Hi _ _ H1)).
  assert (stale (e <| lock := 1 |>) n = false) as ->.
  { unfold stale. cbn. rw Hp Z.eqb_refl. by rw (proj2 (Z.eqb_neq _ 0) Hv). }
  destruct (at_time _ _ Hi _ _ H1) as (now & s2 & Hr2 & H2). rw (bind_Ret _ _ _ _ _ Hr2).
  destruct (ttl_ms (g_cache s) <? _).
  - destruct (at_set _ _ Hi (λ e, e <| valid := 0 |>) _ _ H2) as (s3 & Hr3 & H3).
    rw (bind_Ret _ _ _ _ _ Hr3).
    destruct (at_unlock _ _ Hi _ _ H3) as (s4 & Hr4 & H4). rw (bind_Ret _ _ _ _ _ Hr4).
    destruct (at_miss _ _ Hi _ _ H4 Hm) as (s5 & Hr5 & H5). rw (bind_Ret _ _ _ _ _ Hr5).
    eexists (false, Some out), e, _, s5. split_and!; try done. right. destruct e. cbn in *. by subst.
  - destruct (at_unlock _ _ Hi _ _ H2) as (s4 & Hr4 & H4). rw (bind_Ret _ _ _ _ _ Hr4).
    destruct (at_hit _ _ Hi _ _ H4 Hm) as (s5 & Hr5 & H5). rw (bind_Ret _ _ _ _ _ Hr5).
    eexists (true, Some (usage e)), e, _, s5. split_and!; try done.
    + left. destruct e. cbn in *. by subst.
    + intros _. split_and!; try done. by apply Z.eqb_neq.
Qed.

Lemma update_cached_run s n u :
  cache_ready s →
  ∃ s', perf_optimizer_update_cached_resources n (Some u) s = Ret tt s' ∧
    (if g_cache_enabled s =? 0 then s' = s
     else ∃ now, one_entry (hash_pid n) (mk_entry n u now 1 0) s s').
Proof.
  intros [Hc _]. destruct (hash_entry s n Hc) as [e He].
  assert (Hi : is_Some (entries (g_cache s) !! hash_pid n)) by done.
  pose proof (co_free _ Hc _ _ He) as Hfree.
  pose proof (one_entry_refl _ _ _ He) as H0.
  unfold perf_optimizer_update_cached_resources. rw (bind_Ret _ _ _ s s); [done|].
  destruct (g_cache_enabled s =? 0) eqn:Hon; [by exists s|]. cbv zeta.
  destruct (at_lock _ _ Hi _ _ H0 Hfree) as (s1 & Hr1 & H1). rw (bind_Ret _ _ _ _ _ Hr1).
  destruct (at_set _ _ Hi (λ e, e <| pid := n |> <| usage := u |>) _ _ H1) as (s2 & Hr2 & H2).
  rw (bind_Ret _ _ _ _ _ Hr2).
  destruct (at_time _ _ Hi _ _ H2) as (now & s3 & Hr3 & H3). rw (bind_Ret _ _ _ _ _ Hr3).
  destruct (at_set _ _ Hi (λ e, e <| last_update := now |> <| valid := 1 |>) _ _ H3) as (s4 & Hr4 & H4).
  rw (bind_Ret _ _ _ _ _ Hr4).
  destruct (at_unlock _ _ Hi _ _ H4) as (s5 & Hr5 & H5). exists s5. split; [done|].
  by exists now.
Qed.

Lemma invalidate_run s n :
  opt_ok s →
  ∃ e e' s', perf_optimizer_invalidate_cache n s = Ret tt s' ∧
    entries (g_cache s) !! hash_pid n = Some e ∧ one_entry (hash_pid n) e' s s' ∧
    (e' = e ∨ e' = e <| valid := 0 |>) ∧ (pid e = n → valid e' = 0).
Proof.
  intros Hok. destruct (hash_entry s n (oo_cache _ Hok)) as [e He].
  assert (Hi : is_Some (entries (g_cache s) !! hash_pid n)) by done.
  pose proof (co_free _ (oo_cache _ Hok) _ _ He) as Hfree.
  pose proof (one_entry_refl _ _ _ He) as H0.
  unfold perf_optimizer_invalidate_cache. cbv zeta.
  destruct (at_lock _ _ Hi _ _ H0 Hfree) as (s1 & Hr1 & H1). rw (bind_Ret _ _ _ _ _ Hr1).
  rw (bind_Ret _ _ _ _ _ (at_read _ _ Hi _ _ H1)). cbn [pid update].
  destruct (Z.eqb_spec (pid e) n) as [Hp|Hp].
  - destruct (at_set _ _ Hi (λ e, e <| valid := 0 |>) _ _ H1) as (s2 & Hr2 & H2).
    rw (bind_Ret _ _ _ _ _ Hr2). destruct (at_unlock _ _ Hi _ _ H2) as (s3 & Hr3 & H3).
    eexists e, _, s3. split_and!; try done. right. destruct e. cbn in *. by subst.
  - destruct (at_unlock _ _ Hi _ _ H1) as (s3 & Hr3 & H3).
    eexists e, _, s3. split_and!; try done. left. destruct e. cbn in *. by subst.
Qed.

(** ** The buffer *)

Implicit Types (b : batch_buffer_t) (l : list (Z * Shm.resource_usage_t))
  (t : gmap Z Shm.resource_usage_t).

(** The table once the updates of [l] have been made, in order. *)
Definition overlay l t : gmap Z Shm.resource_usage_t := foldl (λ t p, <[fst p := snd p]> t) t l.

(** What the table will hold when the pending updates have been written. *)
Definition view s : gmap Z Shm.resource_usage_t :=
  overlay (pending (g_batch_buffer s)) (pt_table (shm s)).

Lemma overlay_app l l' t : overlay (l ++ l') t = overlay l' (overlay l t).
Proof. apply foldl_app. Qed.

Lemma overlay_insert_fresh l t n u :
  n ∉ l.*1 → overlay l (<[n := u]> t) = <[n := u]> (overlay l t).
Proof.
  revert t. induction l as [|[m v] l IH]; intros t Hn; [done|]. cbn in *.
  apply not_elem_of_cons in Hn as [Hne Hn]. rw -IH // insert_insert_ne //.
Qed.

Lemma overlay_replace l t i n u v :
  NoDup l.*1 → l !! i = Some (n, v) → overlay (<[i := (n, u)]> l) t = <[n := u]> (overlay l t).
Proof.
  revert t i. induction l as [|[m w] l IH]; intros t [|i]; cbn; try done.
  - intros [Hn _]%NoDup_cons [= -> ->]. by rw -!overlay_insert_fresh // insert_insert_eq.
  - intros [_ Hl]%NoDup_cons. by apply IH.
Qed.

Lemma overlay_dom l t : dom t ⊆ dom (overlay l t).
Proof.
  revert t. induction l as [|[m v] l IH]; intros t; [done|]. cbn.
  etrans; [|apply IH]. set_solver.
Qed.

Lemma overlay_size l t : (size t ≤ size (overlay l t))%nat.
Proof. rw -!size_dom. apply subseteq_size, overlay_dom. Qed.

Lemma insert_room t n u m :
  (size (<[n := u]> t) ≤ m)%nat → is_Some (t !! n) ∨ (size t < m)%nat.
Proof.
  destruct (t !! n) eqn:E; [by left; eexists|]. rw map_size_insert E. right. lia.
Qed.

Definition positive l : Prop := Forall (λ p, 0 < fst p) l.

(** Writing the updates while the table has room for them. *)
Lemma write_all_run l s :
  pt_ok (shm s) →
  ∃ m, write_all l s = Ret tt (s <| shm := m |>) ∧ pt_ok m ∧
    (positive l → (size (overlay l (pt_table (shm s))) ≤ pt_capacity)%nat →
     pt_table m = overlay l (pt_table (shm s))).
Proof.
  revert s. induction l as [|[n u] l IH]; intros s Hok.
  - exists (shm s). split_and!; [by destruct s|done..].
  - cbn [write_all]. destruct (pt_update_returns (shm s) n (Some u) Hok) as (r & m1 & Hrun & Hok1).
    set (s1 := s <| shm := m1 |>).
    destruct (IH s1 Hok1) as (m & Hm & Hokm & Ht).
    exists m. split_and!; [|done|].
    + unfold zoom, mbind, M_bind. rw Hrun. rw /s1 in Hm. by rw Hm.
    + intros [Hn Hl]%Forall_cons Hsize. cbn in *.
      destruct (pt_update_ok (shm s) n u Hok Hn) as (m2 & Hrun2 & _ & Ht2).
      { eapply insert_room, Nat.le_trans; [apply overlay_size|exact Hsize]. }
      rw Hrun in Hrun2. injection Hrun2 as _ ->. rw Ht2 in Ht. by apply Ht.
Qed.

Lemma pending_keys b : buffer_ok b → (pending b).*1 = take (Z.to_nat (count b)) (pids b).
Proof.
  intros [Hp Hu _ _]. unfold pending. rw fmap_take. f_equal. apply fst_zip. lia.
Qed.

(** ** Flushing *)

Lemma flush_run s :
  opt_ok s →
  ∃ s', perf_optimizer_flush_batch_buffer s = Ret tt s' ∧ opt_ok s' ∧
    g_cache s' = g_cache s ∧ count (g_batch_buffer s') = 0 ∧
    g_cache_enabled s' = g_cache_enabled s ∧ g_batching_enabled s' = g_batching_enabled s ∧
    (positive (pending (g_batch_buffer s)) → (size (view s) ≤ pt_capacity)%nat →
     pt_table (shm s') = view s).
Proof.
  intros Hok. destruct Hok as [Hc Hb Hs Hm Ht]. unfold perf_optimizer_flush_batch_buffer, lock_batch.
  rw (bind_Ret _ _ s tt (s <| g_batch_mutex := true |>)); [by run; rw Hm|].
  rw (bind_Ret _ _ _ (s <| g_batch_mutex := true |>) (s <| g_batch_mutex := true |>)); [done|].
  cbn [g_batch_buffer update].
  destruct (Z.eqb_spec (count (g_batch_buffer s)) 0) as [H0|H0].
  - exists s. split_and!; try done. { unfold unlock_batch. run. by destruct s; cbn in *; subst. }
    intros _ _. unfold view, pending. by rw H0.
  - set (s1 := s <| g_batch_mutex := true |>).
    destruct (write_all_run (pending (g_batch_buffer s)) s1 Ht) as (m & Hrun & Hok & Hv).
    rw (bind_Ret _ _ _ _ _ Hrun). unfold set_buffer, unlock_batch, get_current_time_ms, s1. run.
    cbn -[count_stats]. destruct (time_of_day s 0%nat) as [sec usec].
    rw count_stats_run; [done|]. eexists. split; [done|]. split_and!; try done.
    + split; try done. destruct Hb as [H1 H2 H3 H4]. split; try done. by apply NoDup_nil_2.
Qed.

(** ** Adding to the buffer *)

Lemma pending_lookup b i n :
  buffer_ok b → take (Z.to_nat (count b)) (pids b) !! i = Some n →
  ∃ v, pending b !! i = Some (n, v).
Proof.
  intros Hb Hi. rw -pending_keys // in Hi. rw list_lookup_fmap in Hi.
  apply fmap_Some_1 in Hi as ([m v] & Hi & ->). by exists v.
Qed.

Lemma pending_replace b i n u :
  buffer_ok b → take (Z.to_nat (count b)) (pids b) !! i = Some n →
  pending (b <| pending_updates ::= <[i := u]> |>) = <[i := (n, u)]> (pending b) ∧
  buffer_ok (b <| pending_updates ::= <[i := u]> |>).
Proof.
  intros Hb Hi. split.
  - apply lookup_take_Some in Hi as [Hi Hlt]. unfold pending. cbn.
    rw -take_insert_lt // (insert_zip_with pair _ _ _ n u). by rw (list_insert_id (pids b) i n).
  - destruct Hb. split; cbn; rw ?length_insert; done.
Qed.

Lemma pending_append b n u :
  buffer_ok b → count b < CACHE_BUCKET_COUNT →
  n ∉ take (Z.to_nat (count b)) (pids b) →
  let b' := (store (Z.to_nat (count b)) n u b) <| count ::= λ c, c + 1 |> in
  pending b' = pending b ++ [(n, u)] ∧ buffer_ok b'.
Proof.
  intros [Hp Hu Hc Hn] Hlt Hnew b'. assert (Hk : (Z.to_nat (count b) < Z.to_nat CACHE_BUCKET_COUNT)%nat) by lia.
  assert (Hs : Z.to_nat (count b + 1) = Datatypes.S (Z.to_nat (count b))) by lia.
  split.
  - unfold pending, b', store. cbn. rw Hs. rw -insert_zip_with.
    rw (take_S_r _ _ (n, u)).
    + apply list_lookup_insert_eq. rw length_zip_with. lia.
    + by rw take_insert_ge.
  - split; cbn; rw ?length_insert; try done; [lia|]. rw Hs (take_S_r _ _ n).
    + apply list_lookup_insert_eq. lia.
    + rw take_insert_ge //. apply NoDup_app. split_and!; [done| |apply NoDup_singleton].
      intros m Hm ->%list_elem_of_singleton. done.
Qed.

Lemma pending_first b n u :
  buffer_ok b → let b' := (store 0 n u b) <| count := 1 |> in pending b' = [(n, u)] ∧ buffer_ok b'.
Proof.
  intros [Hp Hu Hc Hn] b'. unfold b', store, pending. destruct (pids b) as [|m ps] eqn:E; [done|].
  destruct (pending_updates b) as [|v us] eqn:E'; [done|]. cbn in *. rw E E'. cbn. split; [done|].
  split; cbn; rw ?E ?E' //. cbn. apply NoDup_singleton.
Qed.

Lemma positive_app l n u : positive l → 0 < n → positive (l ++ [(n, u)]).
Proof. intros Hl Hn. apply Forall_app. by split; [|constructor]. Qed.

(** Changing and unlocking the locked buffer. *)
Lemma locked_buffer f s :
  g_batch_mutex s = false →
  (set_buffer f;; unlock_batch) (s <| g_batch_mutex := true |>) = Ret tt (s <| g_batch_buffer ::= f |>).
Proof.
  intros H. unfold set_buffer, unlock_batch. run. by destruct s; cbn in *; subst.
Qed.

Lemma lock_batch_run s :
  g_batch_mutex s = false → lock_batch s = Ret tt (s <| g_batch_mutex := true |>).
Proof. intros H. unfold lock_batch. run. by rw H. Qed.

Lemma buffer_update_run s n u :
  opt_ok s → 0 < n → positive (pending (g_batch_buffer s)) →
  (size (<[n := u]> (view s)) ≤ pt_capacity)%nat →
  ∃ s', buffer_update n u s = Ret tt s' ∧ opt_ok s' ∧ g_cache s' = g_cache s ∧
    g_cache_enabled s' = g_cache_enabled s ∧ g_batching_enabled s' = g_batching_enabled s ∧
    view s' = <[n := u]> (view s) ∧ positive (pending (g_batch_buffer s')) ∧
    n ∈ (pending (g_batch_buffer s')).*1.
Proof.
  intros Hok Hn Hpos Hroom. pose proof (oo_buffer _ Hok) as Hb. unfold buffer_update.
  rw (bind_Ret _ _ _ _ _ (lock_batch_run s (oo_batch _ Hok))).
  rw (bind_Ret _ _ _ (s <| g_batch_mutex := true |>) (s <| g_batch_mutex := true |>)); [done|].
  cbv zeta. cbn [g_batch_buffer update].
  destruct (find_index _ _) as [i|] eqn:Hf.
  - destruct (find_index_Some _ _ _ Hf) as (m & Hi & Hm%Z.eqb_eq & _). subst m.
    destruct (pending_replace _ _ _ u Hb Hi) as [Hp Hb']. rw locked_buffer; [apply Hok|].
    eexists. split; [done|]. split_and!; try done.
    + destruct Hok. by split.
    + unfold view. cbn [g_batch_buffer shm update]. rw Hp.
      destruct (pending_lookup _ _ _ Hb Hi) as [v Hv]. apply (overlay_replace _ _ _ _ _ v); [|done].
      rw pending_keys //. apply Hb.
    + cbn [g_batch_buffer update]. rw Hp. by apply Forall_insert.
    + cbn [g_batch_buffer update]. rw pending_keys //. by eapply list_elem_of_lookup_2.
  - assert (Hnew : n ∉ take (Z.to_nat (count (g_batch_buffer s))) (pids (g_batch_buffer s))).
    { intros [i Hi]%list_elem_of_lookup. rw find_index_None in Hf. specialize (Hf i n Hi). lia. }
    destruct (Z.ltb_spec (count (g_batch_buffer s)) CACHE_BUCKET_COUNT) as [Hlt|Hge].
    + destruct (pending_append _ n u Hb Hlt Hnew) as [Hp Hb']. rw locked_buffer; [apply Hok|].
      eexists. split; [done|]. split_and!; try done.
      * destruct Hok. by split.
      * unfold view. cbn [g_batch_buffer shm update]. by rw Hp overlay_app.
      * cbn [g_batch_buffer update]. rw Hp. by apply positive_app.
      * cbn [g_batch_buffer update]. rw Hp fmap_app. set_solver.
    + destruct (flush_run s Hok) as (s1 & Hrun & Hok1 & Hc1 & _ & He1 & Hb1 & Hv1).
      destruct (pending_first _ n u (oo_buffer _ Hok1)) as [Hp Hb'].
      exists (s1 <| g_batch_buffer ::= λ b, (store 0 n u b) <| count := 1 |> |>).
      split_and!; try done.
      * rw (bind_Ret _ _ _ tt s).
        { unfold unlock_batch. run. destruct Hok. by destruct s; cbn in *; subst. }
        rw (bind_Ret _ _ _ _ _ Hrun) (bind_Ret _ _ _ _ _ (lock_batch_run s1 (oo_batch _ Hok1))).
        by rw locked_buffer; [apply Hok1|].
      * destruct Hok1. by split.
      * unfold view at 1. cbn [g_batch_buffer shm update]. rw Hp. cbn. rw Hv1 //.
        etrans; [|exact Hroom]. rw -!size_dom dom_insert_L. apply subseteq_size. set_solver.
      * cbn [g_batch_buffer update]. rw Hp. by constructor.
      * cbn [g_batch_buffer update]. rw Hp. set_solver.
Qed.

(** ** What the calls promise together *)

(** The last update the optimiser was told of, for each pid. *)
Definition told_by (o : op) (told : gmap Z Shm.resource_usage_t) : gmap Z Shm.resource_usage_t :=
  match o with OUpdate n u | OBatch n u => <[n := u]> told | _ => told end.

(** The updates meant for the table. *)
Definition written_by (o : op) t : gmap Z Shm.resource_usage_t :=
  match o with OBatch n u => <[n := u]> t | _ => t end.

(** The calls that neither switch the cache or the buffer on or off nor prefetch. *)
Definition calm (o : op) : Prop :=
  match o with
  | OBatch n _ => 0 < n
  | OPrefetch _ | OEnableCache _ | OEnableBatching _ => False
  | _ => True
  end.

(** A valid entry is in the bucket of its pid and holds what was told of it last. *)
Definition cache_sound (told : gmap Z Shm.resource_usage_t) (c : resource_cache_t) : Prop :=
  ∀ i e, entries c !! i = Some e → valid e ≠ 0 →
    hash_pid (pid e) = i ∧ told !! pid e = Some (usage e).

Record sound told t s : Prop := {
  so_ok : opt_ok s;
  so_cache : cache_sound told (g_cache s);
  so_view : view s = t;
  so_pos : positive (pending (g_batch_buffer s));
  so_cache_on : g_cache_enabled s ≠ 0;
  so_batch_on : g_batching_enabled s ≠ 0;
}.

Lemma sound_quiet told t s s' :
  sound told t s → same_store s s' → entries (g_cache s') = entries (g_cache s) →
  10 ≤ ttl_ms (g_cache s') ≤ 10000 → sound told t s'.
Proof.
  intros [Ho Hc Hv Hp Hce Hbe] Hs He Ht. split.
  - apply (same_store_ok s); [done| |done]. destruct (oo_cache _ Ho) as [Hl Hf _]. split; by rw ?He.
  - intros i e. rw He. apply Hc.
  - unfold view. by rw (ss_buffer _ _ Hs) (ss_table _ _ Hs).
  - by rw (ss_buffer _ _ Hs).
  - by rw (ss_cache_on _ _ Hs).
  - by rw (ss_batch_on _ _ Hs).
Qed.

Lemma sound_entry told told' t s s' i e' :
  sound told t s → one_entry i e' s s' → lock e' = 0 → cache_sound told' (g_cache s') →
  sound told' t s'.
Proof.
  intros [Ho Hc Hv Hp Hce Hbe] Hone Hl Hc'. destruct Hone as [Hs He Ht] eqn:E. split.
  - apply (same_store_ok s); [done| |done]. eapply one_entry_cache; [exact Hone|done|apply Ho].
  - done.
  - unfold view. by rw (ss_buffer _ _ Hs) (ss_table _ _ Hs).
  - by rw (ss_buffer _ _ Hs).
  - by rw (ss_cache_on _ _ Hs).
  - by rw (ss_batch_on _ _ Hs).
Qed.

(** An entry that stays or becomes invalid. *)
Lemma sound_invalid told t s s' i e e' :
  sound told t s → entries (g_cache s) !! i = Some e → one_entry i e' s s' →
  e' = e ∨ e' = e <| valid := 0 |> → sound told t s'.
Proof.
  intros Hs Hi Hone He'. pose proof (co_free _ (oo_cache _ (so_ok _ _ _ Hs)) _ _ Hi) as Hl.
  eapply (sound_entry told told); [exact Hs|exact Hone|by destruct He' as [-> | ->]|].
  intros j x. rw (oe_entries _ _ _ _ Hone). intros [(-> & <- & _)|[_ Hj]]%list_lookup_insert_Some Hv.
  - destruct He' as [-> | ->]; [by apply (so_cache _ _ _ Hs)|done].
  - by apply (so_cache _ _ _ Hs).
Qed.

Lemma sound_ttl told t s : sound told t s → 10 ≤ ttl_ms (g_cache s) ≤ 10000.
Proof. intros H. apply (co_ttl _ (oo_cache _ (so_ok _ _ _ H))). Qed.

(** The cells of the rules of [wp] for the calls below. *)
Lemma get_wp told t s n out :
  sound told t s → out ≠ None →
  wp (perf_optimizer_get_cached_resources n out)
    (λ r s', sound told t s' ∧ (fst r = true → ∃ u, snd r = Some u ∧ told !! n = Some u)) s.
Proof.
  intros Hs Hout. destruct (get_cached_run s n out (opt_cache_ready _ (so_ok _ _ _ Hs)) Hout)
    as (r & e & e' & s' & Hrun & Hi & Hone & He' & Hhit & _).
  eapply wp_eq; [exact Hrun|]. split; [by eapply sound_invalid|].
  intros Hr. destruct (Hhit Hr) as (_ & Hv & <- & ->). exists (usage e). split; [done|].
  by apply (so_cache _ _ _ Hs _ _ Hi).
Qed.

Lemma update_wp told t s n u :
  sound told t s →
  wp (perf_optimizer_update_cached_resources n (Some u))
    (λ _ s', sound (<[n := u]> told) t s' ∧ g_batch_buffer s' = g_batch_buffer s) s.
Proof.
  intros Hs. destruct (update_cached_run s n u (opt_cache_ready _ (so_ok _ _ _ Hs))) as (s' & Hrun & Heff).
  rw (proj2 (Z.eqb_neq _ 0) (so_cache_on _ _ _ Hs)) in Heff. destruct Heff as [now Hone].
  eapply wp_eq; [exact Hrun|]. split; [|by destruct Hone as [[]]].
  eapply (sound_entry told); [exact Hs|exact Hone|done|]. intros j e. rw (oe_entries _ _ _ _ Hone). intros [(<- & <- & _)|[Hne Hj]]%list_lookup_insert_Some Hv.
  - split; [done|]. cbn. apply lookup_insert_eq.
  - destruct (so_cache _ _ _ Hs _ _ Hj Hv) as [Hh Ht]. split; [done|].
    rw lookup_insert_ne //. intros ->. done.
Qed.

Lemma flush_wp told t s :
  sound told t s → (size t ≤ pt_capacity)%nat →
  wp perf_optimizer_flush_batch_buffer (λ _ s', sound told t s' ∧ pt_table (shm s') = t) s.
Proof.
  intros [Ho Hc Hv Hp Hce Hbe] Hsize. subst t.
  destruct (flush_run s Ho) as (s' & Hrun & Ho' & Hc' & H0 & He' & Hb' & Ht).
  specialize (Ht Hp Hsize). eapply wp_eq; [exact Hrun|].
  assert (Hpend : pending (g_batch_buffer s') = []) by (unfold pending; by rw H0).
  split; [|done]. split; try done.
  - intros i e. rw Hc'. apply Hc.
  - unfold view at 1. by rw Hpend Ht.
  - rw Hpend. constructor.
  - by rw He'.
  - by rw Hb'.
Qed.

Lemma count_wp told t s f :
  sound told t s →
  wp (count_stats f) (λ _ s', sound told t s' ∧ g_batch_buffer s' = g_batch_buffer s) s.
Proof.
  intros Hs. eapply wp_eq; [apply count_stats_run, (oo_stats _ (so_ok _ _ _ Hs))|].
  split; [|done]. eapply sound_quiet; [exact Hs|by split|done|exact (sound_ttl _ _ _ Hs)].
Qed.

Lemma batch_wp told t s n u :
  sound told t s → 0 < n → (size (<[n := u]> t) ≤ pt_capacity)%nat →
  wp (perf_optimizer_batch_update_resource n (Some u))
    (λ r s', r = 0 ∧ sound (<[n := u]> told) (<[n := u]> t) s' ∧
       n ∈ (pending (g_batch_buffer s')).*1) s.
Proof.
  intros [Ho Hc Hv Hp Hce Hbe] Hn Hsize. subst t. unfold perf_optimizer_batch_update_resource.
  apply wp_get. rw (proj2 (Z.eqb_neq _ 0) Hbe). apply wp_bind.
  destruct (buffer_update_run s n u Ho Hn Hp Hsize) as (s1 & Hrun & Ho1 & Hc1 & He1 & Hb1 & Hv1 & Hp1 & Hin1).
  eapply wp_eq; [exact Hrun|]. apply wp_bind.
  assert (Hs1 : sound told (<[n := u]> (view s)) s1).
  { split; try done; [intros i e; rw Hc1; apply Hc|by rw He1|by rw Hb1]. }
  eapply wp_mono; [|by apply update_wp]. cbn beta. intros _ s2 [Hs2 Hp2]. apply wp_bind.
  eapply wp_mono; [|by apply count_wp]. cbn beta. intros _ s3 [Hs3 Hp3]. apply wp_ret.
  by rw Hp3 Hp2.
Qed.

(** The time to live moves by 10 within bounds. *)
Lemma adjust_wp told t s :
  sound told t s → wp perf_optimizer_adaptive_adjust (λ _ s', sound told t s') s.
Proof.
  intros Hs. pose proof (oo_stats _ (so_ok _ _ _ Hs)) as Hm. pose proof (sound_ttl _ _ _ Hs) as Ht.
  assert (Hcalm : ∀ v, 10 ≤ v ≤ 10000 → sound told t (s <| g_cache ::= λ c, c <| ttl_ms := v |> |>)).
  { intros v Hv. eapply sound_quiet; [exact Hs|by split|done|done]. }
  unfold perf_optimizer_adaptive_adjust, lock_stats, unlock_stats, wp. run. rw Hm. cbn -[percentage].
  assert (Hback : s <| g_stats_mutex := true |> <| g_stats_mutex := false |> = s).
  { destruct s; cbn in *; by subst. }
  rw Hback. destruct (_ <? 100); [by exists tt, s|].
  destruct (double_lt _ _ && (50 <? ttl_ms (g_cache s))) eqn:Hdown.
  - apply andb_true_iff in Hdown as [_ Hdown%Z.ltb_lt]. eexists _, _. split; [done|].
    apply Hcalm. rw u32_small; width_lia.
  - destruct (double_lt _ _ && (ttl_ms (g_cache s) <? 500)) eqn:Hup; [|by exists tt, s].
    apply andb_true_iff in Hup as [_ Hup%Z.ltb_lt]. eexists _, _. split; [done|].
    apply Hcalm. rw u32_small; width_lia.
Qed.

Lemma invalidate_wp told t s n :
  sound told t s → wp (perf_optimizer_invalidate_cache n) (λ _ s', sound told t s') s.
Proof.
  intros Hs. destruct (invalidate_run s n (so_ok _ _ _ Hs)) as (e & e' & s' & Hrun & Hi & Hone & He & _).
  eapply wp_eq; [exact Hrun|]. by eapply sound_invalid.
Qed.

Lemma clear_entries_wp told t k : ∀ i s,
  sound told t s → (i + k ≤ Z.to_nat CACHE_BUCKET_COUNT)%nat →
  wp (clear_entries k i) (λ _ s', sound told t s') s.
Proof.
  induction k as [|k IH]; intros i s Hs Hk; [by apply wp_ret|]. cbn [clear_entries].
  assert (Hi : is_Some (entries (g_cache s) !! i)).
  { apply lookup_lt_is_Some. rw (co_len _ (oo_cache _ (so_ok _ _ _ Hs))). lia. }
  destruct (Hi) as [e He]. pose proof (one_entry_refl _ _ _ He) as H0.
  pose proof (co_free _ (oo_cache _ (so_ok _ _ _ Hs)) _ _ He) as Hfree.
  destruct (at_lock _ _ Hi _ _ H0 Hfree) as (s1 & Hr1 & H1). rw /wp (bind_Ret _ _ _ _ _ Hr1).
  destruct (at_set _ _ Hi (λ e, e <| valid := 0 |>) _ _ H1) as (s2 & Hr2 & H2).
  rw (bind_Ret _ _ _ _ _ Hr2).
  destruct (at_unlock _ _ Hi _ _ H2) as (s3 & Hr3 & H3). rw (bind_Ret _ _ _ _ _ Hr3).
  apply IH; [|lia]. eapply sound_invalid; [exact Hs|exact He|exact H3|].
  right. destruct e. cbn in *. by subst.
Qed.

(** Assignments to the counters of the cache and to the statistics. *)
Lemma modify_wp told t s f :
  sound told t s → same_store s (f s) → entries (g_cache (f s)) = entries (g_cache s) →
  10 ≤ ttl_ms (g_cache (f s)) ≤ 10000 → wp (modify f) (λ _ s', sound told t s') s.
Proof. intros Hs Hf He Ht. apply wp_modify. by eapply sound_quiet. Qed.

(** What the mutex of the statistics protects. *)
Lemma stats_section_wp told t s (m : M (optimizer S) unit) :
  sound told t s →
  (∀ s, g_stats_mutex s = true → wp m (λ _ s', same_store s s' ∧
     entries (g_cache s') = entries (g_cache s) ∧ ttl_ms (g_cache s') = ttl_ms (g_cache s)) s) →
  wp (lock_stats;; m;; unlock_stats) (λ _ s', sound told t s') s.
Proof.
  intros Hs Hm. apply wp_bind. eapply wp_eq.
  { unfold lock_stats. run. by rw (oo_stats _ (so_ok _ _ _ Hs)). }
  apply wp_bind. eapply wp_mono; [|apply Hm; done]. cbn beta. intros _ s2 (H1 & H2 & H3).
  apply wp_modify. eapply sound_quiet; [exact Hs| |done|cbn; rw H3; exact (sound_ttl _ _ _ Hs)].
  destruct H1 as [B1 B2 B3 B4 B5 B6]. split; try done. cbn. by rw (oo_stats _ (so_ok _ _ _ Hs)).
Qed.

Lemma clear_wp told t s :
  sound told t s → wp perf_optimizer_clear_cache (λ _ s', sound told t s') s.
Proof.
  intros Hs. apply wp_bind. eapply wp_mono; [|by apply (clear_entries_wp told t)]. cbn beta.
  intros _ s1 Hs1. apply stats_section_wp; [done|]. intros s2 _. apply wp_modify. by split.
Qed.

Lemma reset_stats_wp told t s :
  sound told t s → wp perf_optimizer_reset_stats (λ _ s', sound told t s') s.
Proof.
  intros Hs. unfold perf_optimizer_reset_stats.
  assert (Hsec : wp (lock_stats;;
     (modify (λ s, s <| g_stats := stats_zero <| min_latency_ns := UINT64_MAX |> |>);;
      now ← time; modify (λ s, s <| g_stats ::= λ st, st <| start_time := now |> |>));;
     unlock_stats) (λ _ s', sound told t s') s).
  { apply stats_section_wp; [done|]. intros s1 _. eexists _, _. split; [reflexivity|]. by split. }
  destruct Hsec as ([] & s1 & Hrun & Hs1).
  assert (Hwp : wp (modify (λ s : optimizer S, s <| g_cache ::= λ c,
    c <| hit_count := 0 |> <| miss_count := 0 |> <| eviction_count := 0 |> |>)) (λ _ s', sound told t s') s1).
  { apply modify_wp; [done|by split|done|exact (sound_ttl _ _ _ Hs1)]. }
  destruct Hwp as ([] & s2 & Hrun2 & Hs2). exists tt, s2. split; [|done].
  unfold mbind, M_bind in *. destruct (lock_stats s) as [[] s3| |]; [|done..].
  cbn in *. by injection Hrun as <-.
Qed.

Lemma get_stats_wp told t s out :
  sound told t s → wp (perf_optimizer_get_stats out) (λ _ s', sound told t s') s.
Proof.
  intros Hs. destruct out as [out|]; [|by apply wp_ret].
  unfold perf_optimizer_get_stats, lock_stats, unlock_stats, wp. run.
  rw (oo_stats _ (so_ok _ _ _ Hs)). eexists _, _. split; [reflexivity|].
  eapply sound_quiet; [exact Hs| |done|exact (sound_ttl _ _ _ Hs)]. split; try done.
  by rw (oo_stats _ (so_ok _ _ _ Hs)).
Qed.

Lemma time_ns_wp told t s :
  sound told t s → wp get_current_time_ns (λ _ s', sound told t s') s.
Proof.
  intros Hs. unfold wp, get_current_time_ns. destruct (monotonic s 0%nat). eexists _, _.
  split; [done|]. eapply sound_quiet; [exact Hs|by split|done|exact (sound_ttl _ _ _ Hs)].
Qed.

(** The cached check decides on the last usage it was told of, or on the caller's
    figure. *)
Lemma check_wp told t s n resource_type current requested limit :
  sound told t s →
  wp (perf_optimizer_check_resource_fast n resource_type current requested limit)
    (λ allowed s', sound told t s' ∧ ∃ actual,
       (actual = current ∨ ∃ u, told !! n = Some u ∧ actual = figure resource_type u current) ∧
       allowed = (u32 (actual + requested) <=? limit)) s.
Proof.
  intros Hs. unfold perf_optimizer_check_resource_fast. apply wp_bind.
  eapply wp_mono; [|by eapply time_ns_wp]. cbn beta. intros st s1 Hs1. apply wp_bind.
  eapply wp_mono; [|by eapply count_wp]. cbn beta. intros _ s2 [Hs2 _]. apply wp_bind.
  eapply wp_mono; [|by eapply get_wp]. cbn beta. intros r s3 [Hs3 Hhit].
  cbv zeta. set (actual := if fst r then _ else _). apply wp_bind.
  eapply wp_mono; [|by eapply time_ns_wp]. cbn beta. intros fi s4 Hs4. apply wp_bind.
  eapply wp_mono; [|by eapply count_wp]. cbn beta. intros _ s5 [Hs5 _]. apply wp_ret.
  split; [done|]. exists actual. split; [|done]. unfold actual.
  destruct (fst r) eqn:Hr; [|by left]. destruct (Hhit eq_refl) as (u & -> & Hu). right. by exists u.
Qed.

Lemma round_wp told t s :
  sound told t s → (size t ≤ pt_capacity)%nat → wp flush_thread_round (λ _ s', sound told t s') s.
Proof.
  intros Hs Hsize. apply wp_get. destruct (g_running s =? 0); [by apply wp_ret|].
  rw (proj2 (Z.eqb_neq _ 0) (so_batch_on _ _ _ Hs)). apply wp_bind.
  eapply wp_mono; [|by apply (flush_wp told t)]. cbn beta. intros _ s1 [Hs1 _]. apply wp_bind.
  assert (∀ (f : Z → Z) s, sound told t s → sound told t (s <| adaptive_counter ::= f |>)) as Hc.
  { intros f s2 Hs2. eapply sound_quiet; [exact Hs2|by split|done|exact (sound_ttl _ _ _ Hs2)]. }
  apply wp_modify, wp_get, wp_bind. cbn [adaptive_counter update].
  destruct (100 <=? _); [apply wp_bind|apply wp_ret, wp_ret; by apply Hc].
  eapply wp_mono; [|apply (adjust_wp told t); by apply Hc]. cbn beta. intros _ s2 Hs2.
  apply wp_modify, wp_ret. by apply (Hc (λ _, 0)).
Qed.

Lemma op_wp told t s o :
  sound told t s → calm o → (size (written_by o t) ≤ pt_capacity)%nat →
  wp (run_op o) (λ _ s', sound (told_by o told) (written_by o t) s') s.
Proof.
  intros Hs Ho Hsize.
  destruct o as [n|n u|n| |n u| | |n r c q l|n|ttl|iv| | | |b|b]; cbn [run_op told_by written_by] in *;
    try done.
  - apply wp_bind. eapply wp_mono; [|by apply (get_wp told t)]. cbn beta. intros _ s1 [? _]. by apply wp_ret.
  - eapply wp_mono; [|by apply update_wp]. cbn beta. by intros _ s1 [? _].
  - by apply invalidate_wp.
  - by apply clear_wp.
  - apply wp_bind. eapply wp_mono; [|by apply (batch_wp told t)]. cbn beta. intros _ s1 (_ & ? & _). by apply wp_ret.
  - eapply wp_mono; [|by apply (flush_wp told t)]. cbn beta. by intros _ s1 [? _].
  - apply wp_bind. eapply wp_mono; [|by apply (round_wp told t)]. cbn beta. intros _ s1 ?. by apply wp_ret.
  - apply wp_bind. eapply wp_mono; [|by apply (check_wp told t)]. cbn beta. intros _ s1 [? _]. by apply wp_ret.
  - apply modify_wp; [done|by split|done|]. cbn. destruct (Z.ltb_spec ttl 10); destruct (Z.ltb_spec 10000 ttl); cbn; lia.
  - apply wp_modify. destruct Hs as [[H1 [B1 B2 B3 B4] H3 H4 H5] Hc Hv Hp Hce Hbe]. by split.
  - by apply adjust_wp.
  - apply wp_bind. eapply wp_mono; [|by apply (get_stats_wp told t)]. cbn beta. intros _ s1 ?. by apply wp_ret.
  - by apply reset_stats_wp.
Qed.

(** The same over a sequence of calls. *)
Definition told_after (os : list op) (told : gmap Z Shm.resource_usage_t) : gmap Z Shm.resource_usage_t :=
  foldl (λ m o, told_by o m) told os.
Definition written_after (os : list op) t : gmap Z Shm.resource_usage_t :=
  foldl (λ m o, written_by o m) t os.

Lemma written_grows os t : dom t ⊆ dom (written_after os t).
Proof.
  revert t. induction os as [|o os IH]; intros t; [done|]. cbn. etrans; [|apply IH].
  destruct o; cbn; set_solver.
Qed.

Lemma ops_wp os : ∀ told t s,
  sound told t s → Forall calm os → (size (written_after os t) ≤ pt_capacity)%nat →
  wp (run_ops os) (λ _ s', sound (told_after os told) (written_after os t) s') s.
Proof.
  induction os as [|o os IH]; intros told t s Hs Hc Hsize; [by apply wp_ret|].
  apply Forall_cons in Hc as [Ho Hc]. cbn [run_ops]. apply wp_bind.
  eapply wp_mono; [|apply (op_wp told t); [done|done|]].
  - cbn beta. intros _ s1 Hs1. by apply IH.
  - etrans; [|exact Hsize]. rw -!size_dom. apply subseteq_size, (written_grows os (written_by o t)).
Qed.

(** A started optimiser knows nothing and has nothing to write. *)
Lemma init_sound s :
  pt_ok (shm s) → g_stats_mutex s = false → g_batch_mutex s = false →
  g_cache_enabled s ≠ 0 → g_batching_enabled s ≠ 0 →
  ∃ r s', perf_optimizer_init s = Ret r s' ∧ r = (if thread_starts s then 0 else -1) ∧
    sound ∅ (pt_table (shm s)) s'.
Proof.
  intros Ht Hm Hb Hc Hbe. unfold perf_optimizer_init, time. run. cbn.
  assert (Hc0 : cache_ok (cache_zero <| ttl_ms := 100 |>)).
  { split; [done| |done]. by intros i e [-> _]%lookup_replicate. }
  assert (Hb0 : buffer_ok (buffer_zero <| flush_interval_ms := 50 |>)).
  { split; try done. apply NoDup_nil_2. }
  assert (Hs0 : cache_sound ∅ (cache_zero <| ttl_ms := 100 |>)).
  { by intros i e [-> _]%lookup_replicate. }
  assert (Hp0 : positive (pending (buffer_zero <| flush_interval_ms := 50 |>))) by constructor.
  destruct (thread_starts s); cbn; eexists _, _; (split; [done|]); (split; [done|]);
    (split; [split; [exact Hc0|exact Hb0|done|done|exact Ht]|exact Hs0|done|exact Hp0|done|done]).
Qed.

(** ** Properties *)

(** C27: the buffer loses nothing and reorders nothing that matters: after any calls
    (updates, flushes, rounds of the flush thread, queries, changes of settings,
    with the cache and the buffer switched on) and the final clean-up, the process
    table holds what writing every update at once would have left, provided the
    table has room for all the pids. *)
Theorem batched_writes_reach_table told t s os :
  sound told t s → Forall calm os → (size (written_after os t) ≤ pt_capacity)%nat →
  ∃ s', (run_ops os;; perf_optimizer_cleanup) s = Ret tt s' ∧
    pt_table (shm s') = written_after os t.
Proof.
  intros Hs Hos Hsize. assert (Hwp : wp (run_ops os;; perf_optimizer_cleanup)
    (λ _ s', pt_table (shm s') = written_after os t) s); cycle 1.
  { destruct Hwp as ([] & s' & Hrun & Ht). by exists s'. }
  apply wp_bind. eapply wp_mono; [|by apply (ops_wp os told t)]. cbn beta. intros _ s1 Hs1.
  apply wp_bind, wp_modify. eapply wp_mono; [|apply (flush_wp (told_after os told) (written_after os t))].
  - cbn beta. by intros _ s2 [_ Ht].
  - eapply sound_quiet; [exact Hs1|by split|done|exact (sound_ttl _ _ _ Hs1)].
  - done.
Qed.

(** C28: a hit of the cache is the last update the optimiser was told of for that
    pid, whatever other pids share its bucket, after any sequence of calls that leaves
    the cache and the buffer switched on, does not prefetch, batches updates of positive
    pids only, and writes no more pids than the table has room for.  (An update told
    while the cache is off does not reach it: see [cache_off_goes_stale].) *)
Theorem cached_read_is_last_update told t s os n out :
  sound told t s → Forall calm os → (size (written_after os t) ≤ pt_capacity)%nat → out ≠ None →
  ∃ s1 r s2, run_ops os s = Ret tt s1 ∧
    perf_optimizer_get_cached_resources n out s1 = Ret r s2 ∧
    (fst r = true → snd r = told_after os told !! n) ∧
    (fst r = false → snd r = out).
Proof.
  intros Hs Hos Hsize Hout. destruct (ops_wp os told t s Hs Hos Hsize) as ([] & s1 & Hrun & Hs1).
  destruct (get_cached_run s1 n out (opt_cache_ready _ (so_ok _ _ _ Hs1)) Hout)
    as (r & e & e' & s2 & Hrun2 & Hi & _ & _ & Hhit & Hmiss).
  exists s1, r, s2. split_and!; [done|done| |done]. intros Hr.
  destruct (Hhit Hr) as (_ & Hv & <- & ->).
  by destruct (so_cache _ _ _ Hs1 _ _ Hi Hv) as [_ ->].
Qed.

Lemma overlay_cons m v l t : overlay ((m, v) :: l) t = overlay l (<[m := v]> t).
Proof. done. Qed.

Lemma overlay_lookup_in l n t t' : n ∈ l.*1 → overlay l t !! n = overlay l t' !! n.
Proof.
  revert t t'. induction l as [|[m v] l IH]; intros t t'; cbn [fmap list_fmap fst]; [set_solver|].
  rw !overlay_cons.
  destruct (decide (n ∈ l.*1)) as [Hin|Hnin]; [by intros _; apply IH|].
  intros Hin. assert (n = m) as -> by set_solver. rw !overlay_insert_fresh //. by rw !lookup_insert_eq.
Qed.

Lemma overlay_dom_eq l t : dom (overlay l t) = dom t ∪ list_to_set l.*1.
Proof.
  revert t. induction l as [|[m v] l IH]; intros t; [set_solver|].
  rw overlay_cons IH. set_solver.
Qed.

(** Switching the cache off leaves the entries in it: an update told of in between is not
    recorded, and once the cache is on again a hit gives the older one. *)
Theorem cache_off_goes_stale n u1 u2 s s1 out :
  perf_optimizer_update_cached_resources n (Some u1) s = Ret tt s1 →
  ∃ s2, run_ops [OUpdate n u1; OEnableCache false; OUpdate n u2; OEnableCache true] s = Ret tt s2 ∧
    perf_optimizer_get_cached_resources n out s2 =
      perf_optimizer_get_cached_resources n out (s1 <| g_cache_enabled := 1 |>).
Proof.
  intros H. eexists. split; [|reflexivity]. cbn [run_ops run_op].
  rw (bind_Ret _ _ _ _ _ H). reflexivity.
Qed.

(** Switching the buffer off leaves the updates in it: a later update of the
    same pid goes straight to the table, and the clean-up then writes the older
    one over it. *)
Theorem late_flush_restores_old_value told t s n u1 u2 :
  sound told t s → 0 < n → (size (<[n := u1]> t) ≤ pt_capacity)%nat →
  ∃ s1 s2, run_ops [OBatch n u1; OEnableBatching false; OBatch n u2] s = Ret tt s1 ∧
    pt_table (shm s1) !! n = Some u2 ∧
    perf_optimizer_cleanup s1 = Ret tt s2 ∧ pt_table (shm s2) !! n = Some u1.
Proof.
  intros Hs Hn Hsize.
  destruct (batch_wp told t s n u1 Hs Hn Hsize) as (r & s0 & Hrun & _ & Hs0 & Hin).
  destruct Hs0 as [Ho Hc Hv Hp Hce Hbe].
  assert (Hdom : dom (pt_table (shm s0)) ⊆ dom (<[n := u1]> t)) by (rw -Hv; apply overlay_dom).
  destruct (pt_update_ok (shm s0) n u2) as (m & Hrun2 & Hm & Ht2); [apply Ho|done| |].
  { apply (insert_room _ n u2). etrans; [|exact Hsize]. rw -!size_dom. apply subseteq_size.
    set_solver. }
  set (s1 := s0 <| g_batching_enabled := 0 |> <| shm := m |>).
  assert (Ho1 : opt_ok s1) by (destruct Ho; by split).
  set (s1' := s1 <| g_running := 0 |>).
  assert (Ho1' : opt_ok s1') by (destruct Ho1; by split).
  destruct (flush_run s1' Ho1') as (s2 & Hrun3 & _ & _ & _ & _ & _ & Ht3).
  exists s1, s2. split_and!.
  - cbn [run_ops run_op]. unfold perf_optimizer_enable_batching. cbn.
    rw (bind_Ret _ _ _ tt s0); [by rw (bind_Ret _ _ _ _ _ Hrun)|].
    unfold perf_optimizer_batch_update_resource at 1. run. cbn -[pt_update]. by rw Hrun2.
  - cbn. by rw Ht2 lookup_insert_eq.
  - exact Hrun3.
  - rw Ht3; [done| |].
    + etrans; [|exact Hsize]. rw -!size_dom. apply subseteq_size.
      unfold view. cbn [g_batch_buffer shm update]. cbn. rw Ht2.
      rw -Hv /view !overlay_dom_eq. set_solver.
    + unfold view. cbn. rw (overlay_lookup_in _ n _ (pt_table (shm s0)) Hin).
      fold (view s0). by rw Hv lookup_insert_eq.
Qed.
End Props.

(** ** Example: the optimiser in front of the shared memory *)

Definition example_start : optimizer Shm.state :=
  mk_optimizer cache_zero buffer_zero stats_zero false false 0 1 1 0
    (Shm.fresh (λ n, (Z.of_nat n, 0))) (λ _, (1, 0)) (λ n, (Z.of_nat n, 0)) (λ _, 7) true.

Definition example_optimizer : optimizer Shm.state :=
  after example_start (perf_optimizer_init example_start).

Lemma example_sound : sound ∅ ∅ example_optimizer.
Proof.
  destruct (init_sound example_start) as (r & s' & Hrun & _ & Hs);
    [apply Shm.shm_fresh_ready|done..|].
  unfold example_optimizer. rw Hrun. cbn [after].
  replace (pt_table (shm example_start)) with (∅ : gmap Z Shm.resource_usage_t) in Hs; [done|].
  symmetry. apply Shm.table_data_zero.
Qed.

#[local] Opaque example_optimizer.

Definition example_ops : list op :=
  [OBatch 42 (Shm.mk_usage 1 0 0); OGet 42; OBatch 43 (Shm.mk_usage 5 5 5); ORound;
   OBatch 42 (Shm.mk_usage 2 1 4096)].

Lemma batched_writes_reach_table_witness :
  ∃ s', (run_ops example_ops;; perf_optimizer_cleanup) example_optimizer = Ret tt s' ∧
    Shm.table (Shm.shm (shm s')) !! 42 = Some (Shm.mk_usage 2 1 4096).
Proof.
  destruct (batched_writes_reach_table ∅ ∅ example_optimizer example_ops example_sound)
    as (s' & Hrun & Ht).
  - repeat constructor.
  - vm_compute. repeat constructor.
  - exists s'. split; [exact Hrun|]. change (Shm.table (Shm.shm (shm s'))) with (pt_table (shm s')).
    rewrite Ht. vm_compute. reflexivity.
Defined.

Lemma cached_read_is_last_update_witness :
  ∃ s1 r s2, run_ops example_ops example_optimizer = Ret tt s1 ∧
    perf_optimizer_get_cached_resources 42 (Some Shm.usage_zero) s1 = Ret r s2 ∧
    (fst r = true → snd r = Some (Shm.mk_usage 2 1 4096)).
Proof.
  destruct (cached_read_is_last_update ∅ ∅ example_optimizer example_ops 42 (Some Shm.usage_zero)
    example_sound) as (s1 & r & s2 & H1 & H2 & H3 & _).
  - repeat constructor.
  - vm_compute. repeat constructor.
  - discriminate.
  - exists s1, r, s2. exact (conj H1 (conj H2 H3)).
Defined.

Lemma late_flush_restores_old_value_witness :
  ∃ s1 s2, run_ops [OBatch 42 (Shm.mk_usage 1 0 0); OEnableBatching false;
      OBatch 42 (Shm.mk_usage 2 0 0)] example_optimizer = Ret tt s1 ∧
    perf_optimizer_cleanup s1 = Ret tt s2 ∧
    Shm.table (Shm.shm (shm s2)) !! 42 = Some (Shm.mk_usage 1 0 0).
Proof.
  destruct (late_flush_restores_old_value ∅ ∅ example_optimizer 42 (Shm.mk_usage 1 0 0)
    (Shm.mk_usage 2 0 0) example_sound) as (s1 & s2 & H1 & _ & H2 & H3).
  - reflexivity.
  - vm_compute. repeat constructor.
  - exists s1, s2. exact (conj H1 (conj H2 H3)).
Defined.

End PerfOptimizer.
