(* ===== verification/PerfTests.v ===== *)
(** * The tests of the performance optimiser

    The program [test_performance_optimizer.c], run on the model.  Four of its tests
    pass; the test of the fast resource check does not: it passes a current count
    that the optimiser ignores as long as the cache knows the process. *)

From S2P Require Import Prelude CString CFloat SlotTable ShmProcess PerfOptimizer.

Module PerfTests.
Import PerfOptimizer.
#[local] Existing Instances Shm.expand_usage Shm.usage_inhabited Shm.process_table.
#[local] Abbreviation optimiser := (optimizer Shm.state).
#[local] Abbreviation test := (M optimiser Z).

(** [TEST_ASSERT]: the test function returns -1 when the condition fails. *)
Definition test_assert (cond : bool) (k : test) : test := if cond then k else mret (-1).

(** The test reads a record of its own after the call. *)
Definition cached (n : Z) : M optimiser (bool * Shm.resource_usage_t) :=
  r ← perf_optimizer_get_cached_resources n (Some Shm.usage_zero);
  mret (fst r, default Shm.usage_zero (snd r)).

Definition stats : M optimiser perf_optimizer_stats_t :=
  r ← perf_optimizer_get_stats (Some stats_zero);
  mret (default stats_zero r).

(** Every later reading of the wall clock is later by that many microseconds. *)
Definition later (micro : Z) (t : Z * Z) : Z * Z :=
  let u := snd t + micro in (fst t + u / 1000000, u mod 1000000).

Definition usleep (micro : Z) : M optimiser unit :=
  modify (λ s, s <| time_of_day := λ n, later micro (time_of_day s n) |>).

Definition test_cache_basic : test :=
  r ← perf_optimizer_init;
  test_assert (r =? 0) (
  perf_optimizer_set_cache_ttl 200;;
  let usage := Shm.mk_usage 10 20 1024 in
  perf_optimizer_update_cached_resources 12345 (Some usage);;
  r ← cached 12345;
  test_assert (fst r) (
  test_assert (Shm.qp_count (snd r) =? 10) (
  test_assert (Shm.mr_count (snd r) =? 20) (
  perf_optimizer_invalidate_cache 12345;;
  r ← cached 12345;
  test_assert (negb (fst r)) (
  perf_optimizer_update_cached_resources 12345 (Some usage);;
  r ← cached 12345;
  test_assert (fst r) (
  perf_optimizer_clear_cache;;
  r ← cached 12345;
  test_assert (negb (fst r)) (
  perf_optimizer_cleanup;;
  mret 0))))))).

Definition test_cache_ttl : test :=
  r ← perf_optimizer_init;
  test_assert (r =? 0) (
  perf_optimizer_set_cache_ttl 50;;
  perf_optimizer_update_cached_resources 12346 (Some (Shm.mk_usage 5 10 512));;
  r ← cached 12346;
  test_assert (fst r) (
  usleep 60000;;
  r ← cached 12346;
  test_assert (negb (fst r)) (
  perf_optimizer_cleanup;;
  mret 0))).

(** [for (i = 0; i < n; i++)] *)
Fixpoint update_and_read (n : nat) (i : Z) : M optimiser unit :=
  match n with
  | O => mret tt
  | S n' =>
      perf_optimizer_update_cached_resources (1000 + i) (Some (Shm.mk_usage i (i * 2) (i * 1024)));;
      cached (1000 + i);;
      update_and_read n' (i + 1)
  end.

Definition test_performance_stats : test :=
  r ← perf_optimizer_init;
  test_assert (r =? 0) (
  update_and_read 100 0;;
  t ← stats;
  test_assert (0 <? cache_hits t) (
  perf_optimizer_reset_stats;;
  t ← stats;
  test_assert (cache_hits t =? 0) (
  perf_optimizer_cleanup;;
  mret 0))).

Definition test_fast_resource_check : test :=
  r ← perf_optimizer_init;
  test_assert (r =? 0) (
  perf_optimizer_update_cached_resources 12347 (Some (Shm.mk_usage 30 50 10240));;
  b ← perf_optimizer_check_resource_fast 12347 0 30 10 50;
  test_assert b (
  b ← perf_optimizer_check_resource_fast 12347 0 48 5 50;
  test_assert (negb b) (
  stats;;
  perf_optimizer_cleanup;;
  mret 0))).

Fixpoint batch_updates (n : nat) (i : Z) : M optimiser unit :=
  match n with
  | O => mret tt
  | S n' =>
      perf_optimizer_batch_update_resource (2000 + i) (Some (Shm.mk_usage i (i * 2) (i * 1024)));;
      batch_updates n' (i + 1)
  end.

Definition test_batch_update : test :=
  r ← perf_optimizer_init;
  test_assert (r =? 0) (
  perf_optimizer_enable_batching true;;
  perf_optimizer_set_batch_interval 100;;
  batch_updates 10 0;;
  t ← stats;
  test_assert (batched_updates t =? 10) (
  perf_optimizer_flush_batch_buffer;;
  stats;;
  perf_optimizer_cleanup;;
  mret 0)).

Definition all_tests : M optimiser (list Z) :=
  r1 ← test_cache_basic;
  r2 ← test_cache_ttl;
  r3 ← test_performance_stats;
  r4 ← test_fast_resource_check;
  r5 ← test_batch_update;
  mret [r1; r2; r3; r4; r5].

(** The exit code is the number of tests that failed. *)
Definition main : test :=
  rs ← all_tests; mret (Z.of_nat (length (filter (λ r, r ≠ 0) rs))).

(** A process that starts, on a fresh shared memory; [gettimeofday] advances by ten
    microseconds from one reading to the next. *)
Definition at_start (mono : nat → Z * Z) (wall : nat → Z) : optimiser :=
  mk_optimizer cache_zero buffer_zero stats_zero false false 0 1 1 0
    (Shm.fresh (λ n, (Z.of_nat n, 0))) (λ n, (1700000000, 10 * Z.of_nat n)) mono wall true.

(** The repository's own test of the optimiser fails: with the process's count
    cached, the check ignores the count it is given, and allows the request the test
    expects it to refuse.  The other four tests pass. *)
Theorem fast_check_test_fails wall :
  let s := at_start (λ n, (Z.of_nat n, 0)) wall in
  value (all_tests s) = Some [0; 0; 0; -1; 0] ∧ value (main s) = Some 1.
Proof. split; vm_compute; reflexivity. Qed.
End PerfTests.
