(* ===== verification/CacheExp.v ===== *)
(** * Experiment 4: the cache ([experiments/exp4_cache/src/exp4_cache.c])

    The program as a client of the performance optimiser and of the process shared
    memory: its options, the three tests, the statistics of the latencies.  [rand] and
    what is left on the stack are streams; the layout of the reports is left out. *)

From stdpp Require Import sorting.
From S2P Require Import Prelude CString CFloat SlotTable ShmProcess PerfOptimizer.

Module CacheExp.
Import PerfOptimizer.
#[local] Existing Instances Shm.expand_usage Shm.usage_inhabited Shm.process_table.

Definition NUM_WARMUP_OPS : Z := 1000.
Definition NUM_MEASURE_OPS : Z := 100000.

Record test_config_t := mk_config {
  test_type : Z;
  workload_type : Z;
  num_processes : Z;
  use_cache : Z;
  enable_adaptive : Z;
  ttl : Z;                    (* uint32_t ttl_ms *)
  output_file : string;
}.
#[export] Instance expand_config : Expand test_config_t := λ r,
  mk_config (test_type r) (workload_type r) (num_processes r) (use_cache r) (enable_adaptive r)
    (ttl r) (output_file r).

Record test_result_t := mk_result {
  hit_rate : spec_float;
  avg_latency : spec_float;
  min_latency : spec_float;
  max_latency : spec_float;
  p50_latency : spec_float;
  p99_latency : spec_float;
  std_dev : spec_float;
  total_ops : Z;
  duration_sec : spec_float;
}.
#[export] Instance expand_result : Expand test_result_t := λ r,
  mk_result (hit_rate r) (avg_latency r) (min_latency r) (max_latency r) (p50_latency r)
    (p99_latency r) (std_dev r) (total_ops r) (duration_sec r).

Definition zero : spec_float := S754_zero false.
Definition result_zero : test_result_t := mk_result zero zero zero zero zero zero zero 0 zero.

(** ** The statistics of the latencies *)

(** [if (latencies[i] > latencies[j])] swap them. *)
Definition exchange (i j : nat) (l : list Z) : list Z :=
  match l !! i, l !! j with
  | Some a, Some b => if b <? a then <[i := b]> (<[j := a]> l) else l
  | _, _ => l
  end.

(** [for (j = ...; j < count; j++)], [n] turns from [j] on. *)
Fixpoint inner_loop (n i j : nat) (l : list Z) : list Z :=
  match n with
  | O => l
  | Datatypes.S n' => inner_loop n' i (Datatypes.S j) (exchange i j l)
  end.

(** [for (i = ...; i < count - 1; i++)], [n] turns from [i] on. *)
Fixpoint outer_loop (n i : nat) (l : list Z) : list Z :=
  match n with
  | O => l
  | Datatypes.S n' => outer_loop n' (Datatypes.S i) (inner_loop n i (Datatypes.S i) l)
  end.

Definition sort (l : list Z) : list Z := outer_loop (length l - 1) 0 l.

Definition add (x y : spec_float) : spec_float := SFadd 53 1024 x y.
Definition div (x y : spec_float) : spec_float := SFdiv 53 1024 x y.

Fixpoint sum_of (l : list Z) (sum : spec_float) : spec_float :=
  match l with [] => sum | x :: l' => sum_of l' (add sum (double_of x)) end.

Fixpoint sum_squares (l : list Z) (avg sum_sq : spec_float) : spec_float :=
  match l with
  | [] => sum_sq
  | x :: l' =>
      let diff := SFsub 53 1024 (double_of x) avg in
      sum_squares l' avg (add sum_sq (SFmul 53 1024 diff diff))
  end.

(** [latencies[count * percent / 100]] of the sorted array; the indices are in the array
    when [count] is positive. *)
Definition percentile (l : list Z) (percent : Z) : spec_float :=
  double_of (default 0 (l !! Z.to_nat (Z.of_nat (length l) * percent ÷ 100))).

Definition calculate_stats (latencies : list Z) (r : test_result_t) : test_result_t :=
  match latencies with
  | [] => r
  | _ =>
      let l := sort latencies in
      let count := double_of (Z.of_nat (length l)) in
      let avg := div (sum_of l zero) count in
      r <| min_latency := double_of (default 0 (l !! 0%nat)) |>
        <| max_latency := double_of (default 0 (l !! (length l - 1)%nat)) |>
        <| p50_latency := percentile l 50 |>
        <| p99_latency := percentile l 99 |>
        <| avg_latency := avg |>
        <| std_dev := SFsqrt 53 1024 (div (sum_squares l avg zero) count) |>
  end.

(** ** The tests *)

(** The process: the library's state, the answers of [rand], and whether [malloc] has
    memory. *)
Record state := mk_state {
  opt : optimizer Shm.state;
  rands : nat → Z;
  memory_left : bool;
}.
#[export] Instance expand_state : Expand state := λ r, mk_state (opt r) (rands r) (memory_left r).

Definition optimiser {A} (m : M (optimizer Shm.state) A) : M state A := zoom opt m.
Definition on_shm {A} (m : M Shm.state A) : M state A := zoom opt (zoom shm m).

Definition rand : M state Z := λ s, Ret (rands s 0%nat) (s <| rands := λ n, rands s (Datatypes.S n) |>).

Definition get_time_ns : M state Z := optimiser get_current_time_ns.

(** [a % b] of two integers. *)
Definition modulo (a b : Z) : M state Z := if b =? 0 then crash else mret (Z.rem a b).

(** [for (int i = i0; ...; i++)], [n] turns. *)
Fixpoint for_loop (n : nat) (i : Z) (body : Z → M state unit) : M state unit :=
  match n with
  | O => mret tt
  | Datatypes.S n' => body i;; for_loop n' (i + 1) body
  end.

Definition warm_up (config : test_config_t) (i : Z) : M state unit :=
  k ← modulo i (num_processes config);
  let pid := 1000 + k in
  let usage := Shm.mk_usage (i mod 100) (i mod 50) (i mod 1000 * 1024 * 1024) in
  on_shm (Shm.shm_update_process_resources pid (Some usage));;
  optimiser (perf_optimizer_update_cached_resources pid (Some usage)).

Definition pick_pid (config : test_config_t) (i : Z) : M state Z :=
  let n := num_processes config in
  k ← (if workload_type config =? 0 then modulo (i ÷ 1000) n
       else if workload_type config =? 1 then r ← rand; modulo r n
       else if workload_type config =? 2 then modulo (i ÷ 100) n
       else modulo i n);
  mret (1000 + k).

(** One access of the workload. *)
Definition access (junk : Z → Shm.resource_usage_t) (config : test_config_t) (i : Z) : M state unit :=
  pid ← pick_pid config i;
  r ← optimiser (perf_optimizer_get_cached_resources pid (Some (junk i)));
  if (fst r : bool) then mret tt else
  u ← on_shm (Shm.shm_get_process_resources pid (snd r));
  if fst u =? 0 then optimiser (perf_optimizer_update_cached_resources pid (snd u)) else mret tt.

Section Tests.
(** What the uninitialised records hold. *)
Context (junk : Z → Shm.resource_usage_t).

Definition test_hit_rate (config : test_config_t) (result : test_result_t) : M state test_result_t :=
  optimiser perf_optimizer_init;;
  optimiser (perf_optimizer_enable_cache true);;
  optimiser (perf_optimizer_set_cache_ttl (ttl config));;
  optimiser perf_optimizer_reset_stats;;
  for_loop (Z.to_nat NUM_WARMUP_OPS) 0 (warm_up config);;
  optimiser perf_optimizer_reset_stats;;
  start ← get_time_ns;
  for_loop (Z.to_nat NUM_MEASURE_OPS) 0 (access junk config);;
  finish ← get_time_ns;
  t ← optimiser (perf_optimizer_get_stats (Some stats_zero));
  let stats := default stats_zero t in
  optimiser perf_optimizer_cleanup;;
  mret (result <| hit_rate := cache_hit_rate stats |>
               <| total_ops := NUM_MEASURE_OPS |>
               <| duration_sec := div (double_of (u64 (finish - start))) (double_of 1000000000) |>
               <| avg_latency := avg_latency_ns stats |>).

Definition NUM_PIDS : Z := 256.

Definition prepare (config : test_config_t) (i : Z) : M state unit :=
  let pid := 2000 + i in
  let usage := Shm.mk_usage (i mod 50) (i mod 20) (i mod 100 * 1024 * 1024) in
  on_shm (Shm.shm_update_process_resources pid (Some usage));;
  if negb (use_cache config =? 0)
  then optimiser (perf_optimizer_update_cached_resources pid (Some usage)) else mret tt.

(** One query, of the cache first or of the shared memory alone. *)
Definition query (config : test_config_t) (i : Z) : M state unit :=
  let pid := 2000 + i mod NUM_PIDS in
  if negb (use_cache config =? 0) then
    r ← optimiser (perf_optimizer_get_cached_resources pid (Some (junk i)));
    if (fst r : bool) then mret tt
    else on_shm (Shm.shm_get_process_resources pid (snd r));; mret tt
  else on_shm (Shm.shm_get_process_resources pid (Some (junk i)));; mret tt.

Fixpoint measure (n : nat) (config : test_config_t) (i : Z) : M state (list Z) :=
  match n with
  | O => mret []
  | Datatypes.S n' =>
      start ← get_time_ns;
      query config i;;
      finish ← get_time_ns;
      l ← measure n' config (i + 1);
      mret (u64 (finish - start) :: l)
  end.

(** The early returns leave the result as it was. *)
Definition test_latency (config : test_config_t) (result : test_result_t) : M state test_result_t :=
  r ← on_shm Shm.shm_init;
  if negb (r =? 0) then mret result else
  (if negb (use_cache config =? 0) then
     optimiser perf_optimizer_init;;
     optimiser (perf_optimizer_enable_cache true);;
     optimiser (perf_optimizer_set_cache_ttl (ttl config))
   else mret tt);;
  for_loop (Z.to_nat NUM_PIDS) 0 (prepare config);;
  for_loop (Z.to_nat NUM_WARMUP_OPS) 0 (query config);;
  m ← gets memory_left;
  if negb m then mret result else
  latencies ← measure (Z.to_nat NUM_MEASURE_OPS) config 0;
  (if negb (use_cache config =? 0) then optimiser perf_optimizer_cleanup else mret tt);;
  mret ((calculate_stats latencies result)
          <| total_ops := NUM_MEASURE_OPS |>
          <| hit_rate := if use_cache config =? 0 then zero else double_of 100 |>).

(** One access of a round of the third test: eight in ten to ten processes, the others
    anywhere among fifty more; a miss is filled with a made-up usage. *)
Definition mixed_access (local_batch i : Z) : M state unit :=
  k ← modulo i local_batch;
  pid ← (if k <? 80 then mret (3000 + i mod 10)
         else r ← rand; mret (3000 + 10 + Z.rem r 50));
  r ← optimiser (perf_optimizer_get_cached_resources pid (Some (junk i)));
  if (fst r : bool) then mret tt else
  let usage := (default Shm.usage_zero (snd r)) <| Shm.qp_count := Z.rem pid 50 |>
                                             <| Shm.mr_count := Z.rem pid 20 |> in
  on_shm (Shm.shm_update_process_resources pid (Some usage));;
  optimiser (perf_optimizer_update_cached_resources pid (Some usage)).

(** A round, and the hit rate it measures. *)
Definition adaptive_round (config : test_config_t) (round : Z) : M state spec_float :=
  optimiser perf_optimizer_reset_stats;;
  for_loop (Z.to_nat 10000) 0 (mixed_access (100 + round * 10));;
  t ← optimiser (perf_optimizer_get_stats (Some stats_zero));
  (if enable_adaptive config =? 0 then mret tt
   else
     optimiser perf_optimizer_adaptive_adjust;;
     optimiser (perf_optimizer_set_cache_ttl 0));;
  mret (cache_hit_rate (default stats_zero t)).

Fixpoint rounds (n : nat) (config : test_config_t) (round : Z) : M state (list spec_float) :=
  match n with
  | O => mret []
  | Datatypes.S n' =>
      h ← adaptive_round config round;
      hs ← rounds n' config (round + 1);
      mret (h :: hs)
  end.

Definition NUM_ROUNDS : Z := 20.

Definition test_adaptive_ttl (config : test_config_t) (result : test_result_t) :
    M state test_result_t :=
  optimiser perf_optimizer_init;;
  optimiser (perf_optimizer_enable_cache true);;
  optimiser (perf_optimizer_set_cache_ttl 50);;
  hit_rates ← rounds (Z.to_nat NUM_ROUNDS) config 0;
  let sum := foldl add zero hit_rates in
  optimiser perf_optimizer_cleanup;;
  mret (result <| hit_rate := div sum (double_of NUM_ROUNDS) |>
               <| total_ops := NUM_ROUNDS * 10000 |>).

(** ** The program *)

Definition default_config : test_config_t := mk_config 0 0 10 1 0 100 "results/exp4_result.csv".

(** An option [getopt_long] returns, with its argument. *)
Definition option_t : Type := ascii * string.

(** One turn of the switch; [inr] is the exit code of the program. *)
Definition exp4_option (c : test_config_t) (o : option_t) : test_config_t + Z :=
  let '(letter, optarg) := o in
  match letter with
  | "t"%char => inl (c <| test_type := atoi optarg |>)
  | "w"%char => inl (c <| workload_type := atoi optarg |>)
  | "p"%char => inl (c <| num_processes := atoi optarg |>)
  | "c"%char => inl (c <| use_cache := atoi optarg |>)
  | "a"%char => inl (c <| enable_adaptive := atoi optarg |>)
  | "l"%char => inl (c <| ttl := u32 (atoi optarg) |>)
  | "o"%char => inl (c <| output_file := optarg |>)
  | "h"%char => inr 0
  | _ => inr 1
  end.

Fixpoint parse_options (os : list option_t) (c : test_config_t) : test_config_t + Z :=
  match os with
  | [] => inl c
  | o :: os' => match exp4_option c o with inl c' => parse_options os' c' | inr e => inr e end
  end.

(** The exit code, and the result that is printed and saved. *)
Definition main (os : list option_t) : M state (Z * option test_result_t) :=
  match parse_options os default_config with
  | inr e => mret (e, None)
  | inl config =>
      let run test := r ← test config result_zero; mret (0, Some r) in
      if test_type config =? 0 then run test_hit_rate
      else if test_type config =? 1 then run test_latency
      else if test_type config =? 2 then run test_adaptive_ttl
      else mret (1, None)
  end.
End Tests.

(** ** The sort *)

(** One pass of the outer loop, on the elements from its index on: the least of them
    first. *)
Fixpoint pass (x : Z) (l : list Z) : Z * list Z :=
  match l with
  | [] => (x, [])
  | y :: l' =>
      if y <? x then let '(m, r) := pass y l' in (m, x :: r)
      else let '(m, r) := pass x l' in (m, y :: r)
  end.

Lemma pass_spec x l :
  let '(m, r) := pass x l in x :: l ≡ₚ m :: r ∧ Forall (λ y, m ≤ y) r ∧ m ≤ x.
Proof.
  revert x. induction l as [|y l IH]; intros x; cbn; [done|].
  destruct (Z.ltb_spec y x).
  - specialize (IH y). destruct (pass y l) as [m r]. destruct IH as (Hp & Hf & Hm).
    split_and!; [|by constructor; [lia|]|lia]. by rw Hp perm_swap.
  - specialize (IH x). destruct (pass x l) as [m r]. destruct IH as (Hp & Hf & Hm).
    split_and!; [|by constructor; [lia|]|done]. by rw perm_swap Hp perm_swap.
Qed.

Lemma pass_length x l : length (snd (pass x l)) = length l.
Proof.
  pose proof (pass_spec x l) as H. destruct (pass x l) as [m r]. destruct H as (Hp & _).
  apply Permutation_length in Hp. cbn in *. lia.
Qed.

Lemma insert_mid (pre l : list Z) x y : <[length pre := y]> (pre ++ x :: l) = pre ++ y :: l.
Proof. by rw insert_app_r_alt // Nat.sub_diag. Qed.

Lemma lookup_mid (pre l : list Z) x : (pre ++ x :: l) !! length pre = Some x.
Proof. by rw lookup_app_r // Nat.sub_diag. Qed.

Lemma exchange_mid pre mid rest x y :
  exchange (length pre) (length pre + S (length mid)) (pre ++ x :: mid ++ y :: rest) =
  if y <? x then pre ++ y :: mid ++ x :: rest else pre ++ x :: mid ++ y :: rest.
Proof.
  assert (Hl : length (pre ++ x :: mid) = (length pre + S (length mid))%nat) by (by rw length_app).
  assert (H : ∀ z, pre ++ x :: mid ++ z :: rest = (pre ++ x :: mid) ++ z :: rest)
    by (intros; by rw -app_assoc).
  unfold exchange. rw lookup_mid -Hl {1}H lookup_mid. destruct (y <? x); [|done].
  by rw H insert_mid -H insert_mid.
Qed.

Lemma inner_loop_pass rest pre mid x :
  inner_loop (length rest) (length pre) (length pre + S (length mid)) (pre ++ x :: mid ++ rest) =
  let '(m, r) := pass x rest in pre ++ m :: mid ++ r.
Proof.
  revert mid x. induction rest as [|y rest IH]; intros mid x; [done|]. cbn [length inner_loop pass].
  rw exchange_mid. replace (S (length pre + S (length mid)))%nat
    with (length pre + S (length (mid ++ [y])))%nat by (rw length_app; cbn; lia).
  assert (H : ∀ (z : Z) l, mid ++ z :: l = (mid ++ [z]) ++ l) by (intros; by rw -app_assoc).
  destruct (y <? x).
  - rw (H x rest). replace (length (mid ++ [y])) with (length (mid ++ [x])) by (by rw !length_app).
    rw IH. destruct (pass y rest) as [m r]. by rw -(H x r).
  - rw (H y rest) IH. destruct (pass x rest) as [m r]. by rw -(H y r).
Qed.

(** The rest of the sort, from an index with the elements before it done. *)
Lemma outer_loop_spec n pre l :
  length l = S n →
  ∃ l', outer_loop n (length pre) (pre ++ l) = pre ++ l' ∧ l' ≡ₚ l ∧ Sorted Z.le l'.
Proof.
  revert pre l. induction n as [|n IH]; intros pre l Hl.
  - exists l. destruct l as [|x []]; [done| |done]. split_and!; [done..|]. by repeat constructor.
  - destruct l as [|x l]; [done|]. injection Hl as Hl. cbn [outer_loop].
    pose proof (inner_loop_pass l pre [] x) as Hin. rw Hl in Hin. cbn [length app] in Hin.
    replace (length pre + 1)%nat with (S (length pre)) in Hin by lia. rw Hin.
    pose proof (pass_spec x l) as Hp. pose proof (pass_length x l) as Hr.
    destruct (pass x l) as [m r]. destruct Hp as (Hp & Hf & _). cbn in Hr.
    destruct (IH (pre ++ [m]) r) as (l' & Hrun & Hl' & Hs); [lia|].
    exists (m :: l'). rw length_app Nat.add_1_r -!app_assoc in Hrun. cbn in Hrun. split_and!.
    + exact Hrun.
    + by rw Hp Hl'.
    + apply Sorted_cons; [done|]. destruct l' as [|z l']; [constructor|]. constructor.
      eapply Forall_forall in Hf; [exact Hf|]. rw -Hl'. by left.
Qed.

Lemma sort_at l : sort l ≡ₚ l ∧ Sorted Z.le (sort l).
Proof.
  unfold sort. destruct l as [|x l]; [done|].
  destruct (outer_loop_spec (length l) [] (x :: l)) as (l' & Hrun & ?); [done|].
  cbn [length]. rw Nat.sub_succ Nat.sub_0_r. cbn in Hrun. by rw Hrun.
Qed.

Lemma sort_merge_sort l : sort l = merge_sort Z.le l.
Proof.
  destruct (sort_at l) as [Hp Hs]. apply (Sorted_unique Z.le); [done|apply Sorted_merge_sort; apply _|].
  by rw Hp merge_sort_Permutation.
Qed.

Lemma sorted_index (l : list Z) percent :
  l ≠ [] → 0 ≤ percent < 100 →
  ∃ x, l !! Z.to_nat (Z.of_nat (length l) * percent ÷ 100) = Some x.
Proof.
  intros Hl Hp. apply lookup_lt_is_Some. destruct l as [|y l]; [done|].
  rw Z.quot_div_nonneg; [lia..|].
  assert (Z.of_nat (length (y :: l)) * percent / 100 < Z.of_nat (length (y :: l))); [|cbn [length] in *; lia].
  apply Z.div_lt_upper_bound; [lia|]. cbn [length]. nia.
Qed.

Lemma least_first (s : list Z) :
  Sorted Z.le s → s ≠ [] → ∃ x, s !! 0%nat = Some x ∧ ∀ y, y ∈ s → x ≤ y.
Proof.
  intros Hs%Sorted_StronglySorted Hne; [|apply _]. destruct s as [|x s]; [done|].
  exists x. split; [done|]. apply StronglySorted_cons in Hs as [Hf _].
  intros y [->|Hy]%elem_of_cons; [done|]. by eapply Forall_forall in Hf.
Qed.

Lemma greatest_last (s : list Z) :
  Sorted Z.le s → s ≠ [] → ∃ x, s !! (length s - 1)%nat = Some x ∧ ∀ y, y ∈ s → y ≤ x.
Proof.
  intros Hs%Sorted_StronglySorted Hne; [|apply _]. destruct (exists_last Hne) as (s' & x & ->).
  exists x. rw length_app Nat.add_sub. split; [apply lookup_mid|].
  apply StronglySorted_app in Hs as (Hx & _).
  intros y [Hy| ->%list_elem_of_singleton]%elem_of_app; [|done]. apply Hx; [done|by left].
Qed.

(** The statistics of a sample of latencies: the nested loops sort it as the
    reference sort does, the minimum and the maximum are those of the sample, and the
    two percentiles are the elements of the sorted sample at their ranks. *)
Theorem latency_statistics (l : list Z) r :
  l ≠ [] →
  let s := merge_sort Z.le l in
  let rank p := Z.to_nat (Z.of_nat (length l) * p / 100) in
  let r' := calculate_stats l r in
  sort l = s ∧
  ∃ least greatest p50 p99,
    (least ∈ l ∧ ∀ x, x ∈ l → least ≤ x) ∧ (greatest ∈ l ∧ ∀ x, x ∈ l → x ≤ greatest) ∧
    s !! rank 50 = Some p50 ∧ s !! rank 99 = Some p99 ∧
    min_latency r' = double_of least ∧ max_latency r' = double_of greatest ∧
    p50_latency r' = double_of p50 ∧ p99_latency r' = double_of p99.
Proof.
  intros Hl s rank r'. pose proof (sort_merge_sort l) as Hsort. split; [done|].
  destruct (sort_at l) as [Hp Hs]. rw Hsort in Hp, Hs. fold s in Hp, Hs, Hsort.
  assert (Hlen : length s = length l) by (by rw Hp).
  assert (Hne : s ≠ []) by (intros H; apply Hl, length_zero_iff_nil; by rw -Hlen H).
  destruct (sorted_index s 50) as [p50 H50]; [done..|].
  destruct (sorted_index s 99) as [p99 H99]; [done..|].
  destruct (least_first s) as (least & H0 & Hle); [done..|].
  destruct (greatest_last s) as (greatest & Hn & Hge); [done..|].
  exists least, greatest, p50, p99. rw Hlen in H50, H99, Hn.
  rw Z.quot_div_nonneg in H50; [lia..|]. rw Z.quot_div_nonneg in H99; [lia..|].
  assert (Hin : ∀ x, x ∈ l ↔ x ∈ s) by (intros; by rw Hp).
  split_and!.
  - apply Hin. by eapply list_elem_of_lookup_2.
  - intros x Hx%Hin. by apply Hle.
  - apply Hin. by eapply list_elem_of_lookup_2.
  - intros x Hx%Hin. by apply Hge.
  - exact H50.
  - exact H99.
  - unfold r', calculate_stats. destruct l; [done|]. cbn -[sort]. by rw Hsort H0.
  - unfold r', calculate_stats. destruct l; [done|]. cbn -[sort]. by rw Hsort Hlen Hn.
  - unfold r', calculate_stats, percentile. destruct l; [done|]. cbn -[sort Z.of_nat].
    rw Hsort Hlen. rw Z.quot_div_nonneg; [lia..|]. by rw H50.
  - unfold r', calculate_stats, percentile. destruct l; [done|]. cbn -[sort Z.of_nat].
    rw Hsort Hlen. rw Z.quot_div_nonneg; [lia..|]. by rw H99.
Qed.
(** ** The counters *)

#[local] Abbreviation lib := (optimizer Shm.state).

(** Calls that count neither a hit nor a miss. *)
Definition uncounted {A} (m : M lib A) : Prop :=
  ∀ s a s', m s = Ret a s' → g_stats s' = g_stats s.

Lemma uncounted_bind {A B} (m : M lib A) (k : A → M lib B) :
  uncounted m → (∀ a, uncounted (k a)) → uncounted (m ≫= k).
Proof. intros Hm Hk s b s' (a & t & Ht & Hs)%bind_inv. rw (Hk _ _ _ _ Hs). by eapply Hm. Qed.

Lemma uncounted_get : uncounted (get : M lib lib).
Proof. by intros s a s' [= _ <-]. Qed.

Lemma uncounted_ret {A} (a : A) : uncounted (mret a).
Proof. by intros s b s' [= _ <-]. Qed.

Lemma uncounted_set_entry i f : uncounted (set_entry i f).
Proof. by intros s b s' [= _ <-]. Qed.

Lemma uncounted_entry i : uncounted (entry i).
Proof. apply uncounted_bind; [apply uncounted_get|]. intros s. by case_match; [apply uncounted_ret|]. Qed.

Lemma uncounted_lock i : uncounted (spin_lock i).
Proof.
  apply uncounted_bind; [apply uncounted_entry|]. intros e.
  by case_match; [apply uncounted_set_entry|].
Qed.

Lemma uncounted_time : uncounted get_current_time_ms.
Proof. intros s a s'. unfold get_current_time_ms. case_match. by intros [= _ <-]. Qed.

#[local] Create HintDb counts.
#[local] Hint Resolve uncounted_get uncounted_ret uncounted_set_entry uncounted_entry uncounted_lock
  uncounted_time : counts.

Lemma uncounted_update n u : uncounted (perf_optimizer_update_cached_resources n (Some u)).
Proof.
  unfold perf_optimizer_update_cached_resources, spin_unlock.
  apply uncounted_bind; [auto with counts|]. intros s. case_match; [auto with counts|].
  repeat (apply uncounted_bind; [auto with counts|]; intros ?). auto with counts.
Qed.

Lemma count_miss_stats (s s' : lib) :
  count_miss s = Ret tt s' →
  g_stats s' = (g_stats s) <| cache_misses ::= λ n, u64 (n + 1) |>.
Proof.
  unfold count_miss, lock_stats, unlock_stats. run. intros H. by repeat (case_match; simplify_eq/=).
Qed.

Lemma count_hit_stats (s s' : lib) :
  count_hit s = Ret tt s' →
  g_stats s' = (g_stats s) <| cache_hits ::= λ n, u64 (n + 1) |>.
Proof.
  unfold count_hit, lock_stats, unlock_stats. run. intros H. by repeat (case_match; simplify_eq/=).
Qed.

(** A call that ends with the count of a miss, after calls that count nothing. *)
Definition counts_one (m : M lib (bool * option Shm.resource_usage_t)) : Prop :=
  ∀ s r s', m s = Ret r s' →
    g_stats s' = (if fst r : bool then (g_stats s) <| cache_hits ::= λ n, u64 (n + 1) |>
                  else (g_stats s) <| cache_misses ::= λ n, u64 (n + 1) |>).

Lemma counts_one_bind {A} (m : M lib A) k :
  uncounted m → (∀ a, counts_one (k a)) → counts_one (m ≫= k).
Proof. intros Hm Hk s b s' (a & t & Ht & Hs)%bind_inv. rw (Hk _ _ _ _ Hs). by rw (Hm _ _ _ Ht). Qed.

Lemma counts_one_miss out : counts_one (count_miss;; mret (false, out)).
Proof. intros s r s' ([] & t & Ht & [= <- <-])%bind_inv. by apply count_miss_stats. Qed.

Lemma counts_one_hit out : counts_one (count_hit;; mret (true, out)).
Proof. intros s r s' ([] & t & Ht & [= <- <-])%bind_inv. by apply count_hit_stats. Qed.

#[local] Hint Resolve counts_one_miss counts_one_hit : counts.

(** Every query of the enabled cache is counted once. *)
Lemma get_cached_counts n u (s : lib) r s' :
  g_cache_enabled s ≠ 0 → perf_optimizer_get_cached_resources n (Some u) s = Ret r s' →
  g_stats s' = (if fst r : bool then (g_stats s) <| cache_hits ::= λ n, u64 (n + 1) |>
                else (g_stats s) <| cache_misses ::= λ n, u64 (n + 1) |>).
Proof.
  intros Hon. unfold perf_optimizer_get_cached_resources, spin_unlock.
  rw (bind_Ret _ _ _ s s); [done|]. rw (proj2 (Z.eqb_neq _ 0) Hon).
  set (m := entry _ ≫= _). enough (H : counts_one m) by (intros Hr; exact (H _ _ _ Hr)). subst m.
  apply counts_one_bind; [auto with counts|]. intros e. case_match; [auto with counts|].
  apply counts_one_bind; [auto with counts|]. intros _.
  apply counts_one_bind; [auto with counts|]. intros e'. case_match.
  { apply counts_one_bind; [auto with counts|]. auto with counts. }
  apply counts_one_bind; [auto with counts|]. intros now. case_match.
  - apply counts_one_bind; [auto with counts|]. intros _.
    apply counts_one_bind; [auto with counts|]. auto with counts.
  - apply counts_one_bind; [auto with counts|]. auto with counts.
Qed.
(** ** The state during a test *)

Lemma wp_optimiser {A} (m : M lib A) (Q : A → state → Prop) s :
  wp m (λ a o, Q a (s <| opt := o |>)) (opt s) → wp (optimiser m) Q s.
Proof.
  intros (a & o & Hm & HQ). exists a, (s <| opt := o |>). split; [|done].
  unfold optimiser, zoom. by rw Hm.
Qed.

(** A loop keeps what its body keeps. *)
Lemma for_loop_wp n i body (P : Z → state → Prop) s :
  (∀ j t, i ≤ j < i + Z.of_nat n → P j t → wp (body j) (λ _ t', P (j + 1) t') t) →
  P i s → wp (for_loop n i body) (λ _ t, P (i + Z.of_nat n) t) s.
Proof.
  revert i s. induction n as [|n IH]; intros i s Hbody Hs.
  - apply wp_ret. by rw Z.add_0_r.
  - cbn [for_loop]. apply wp_bind. eapply wp_mono; [|apply Hbody; [lia|done]].
    intros a t Ht. cbn in Ht. replace (i + Z.of_nat (Datatypes.S n)) with (i + 1 + Z.of_nat n) by lia.
    apply IH; [|exact Ht]. intros j u Hj. apply Hbody. lia.
Qed.

Section Running.
(** The shared memory, which the program has not mapped. *)
Context (m : Shm.state) (Hunmapped : Shm.shm_data_ptr m = false).

Lemma update_unmapped pid u s :
  shm (opt s) = m → on_shm (Shm.shm_update_process_resources pid (Some u)) s = Ret (-1) s.
Proof using Hunmapped.
  intros Hm. unfold on_shm, zoom, Shm.shm_update_process_resources. run. rw Hm Hunmapped. cbn.
  rw -Hm. by destruct s as [[]].
Qed.

Lemma get_unmapped pid u s :
  shm (opt s) = m → on_shm (Shm.shm_get_process_resources pid (Some u)) s = Ret (-1, Some u) s.
Proof using Hunmapped.
  intros Hm. unfold on_shm, zoom, Shm.shm_get_process_resources. run. rw Hm Hunmapped. cbn.
  rw -Hm. by destruct s as [[]].
Qed.

(** The cache is on, with that time to live; nothing is held, nothing buffered. *)
Record running (t : Z) (s : state) : Prop := {
  run_cache : cache_ready (opt s);
  run_on : g_cache_enabled (opt s) = 1;
  run_buffer : count (g_batch_buffer (opt s)) = 0;
  run_batch : g_batch_mutex (opt s) = false;
  run_ttl : ttl_ms (g_cache (opt s)) = t;
  run_shm : shm (opt s) = m;
}.

Definition hits (s : state) : Z := cache_hits (g_stats (opt s)).
Definition misses (s : state) : Z := cache_misses (g_stats (opt s)).

(** So many queries have been counted. *)
Record counted (t k : Z) (s : state) : Prop := {
  cnt_running : running t s;
  cnt_total : hits s + misses s = k;
  cnt_hits : 0 ≤ hits s;
  cnt_misses : 0 ≤ misses s;
}.

Lemma running_one_entry t i e s o :
  running t s → one_entry i e (opt s) o → lock e = 0 → running t (s <| opt := o |>).
Proof.
  intros [Hc Hon Hb Hm Ht Hs] H Hl. pose proof (oe_same _ _ _ _ H) as [E1 E2 E3 E4 E5 E6].
  split; cbn; [|congruence..|rw (oe_ttl _ _ _ _ H) //|congruence].
  split; [by eapply one_entry_cache; [|done|apply Hc]|rw E5; apply Hc].
Qed.

Lemma get_cached_wp t k n u s :
  counted t k s → k < UINT64_MAX →
  wp (optimiser (perf_optimizer_get_cached_resources n (Some u)))
     (λ r s', counted t (k + 1) s' ∧ is_Some (snd r)) s.
Proof using.
  intros [Hrun Ht Hh Hm] Hk. apply wp_optimiser.
  destruct (get_cached_run (opt s) n (Some u) (run_cache _ _ Hrun)) as
    (r & e & e' & o & Hg & He & H1 & He' & Htrue & Hfalse); [done|].
  pose proof (get_cached_counts n u (opt s) r o) as Hc. rw (run_on _ _ Hrun) in Hc.
  specialize (Hc ltac:(done) Hg). eapply wp_eq; [exact Hg|].
  assert (Hl : lock e' = 0).
  { pose proof (co_free _ (cr_cache _ (run_cache _ _ Hrun)) _ _ He). by destruct He' as [-> | ->]. }
  unfold UINT64_MAX in Hk. split.
  - split; [by eapply running_one_entry|unfold hits, misses in *; cbn; rw Hc; destruct (fst r); cbn..];
      rw ?u64_small; unfold is_u64; lia.
  - destruct (fst r) eqn:E; [destruct (Htrue eq_refl) as (_ & _ & _ & ->)|rw Hfalse //]; by eexists.
Qed.

Lemma update_cached_wp t k n u s :
  counted t k s →
  wp (optimiser (perf_optimizer_update_cached_resources n (Some u))) (λ _ s', counted t k s') s.
Proof using.
  intros [Hrun Ht Hh Hm]. apply wp_optimiser.
  destruct (update_cached_run (opt s) n u (run_cache _ _ Hrun)) as (o & Hg & Heff).
  rw (run_on _ _ Hrun) in Heff. destruct Heff as [now H1]. eapply wp_eq; [exact Hg|].
  pose proof (uncounted_update n u _ _ _ Hg) as Hc.
  split; unfold hits, misses in *; cbn; rw ?Hc; try done. by eapply running_one_entry.
Qed.
(** The time to live a request leads to. *)
Definition clamp (ttl : Z) : Z :=
  let ttl := if ttl <? 10 then 10 else ttl in if 10000 <? ttl then 10000 else ttl.

Lemma clamp_range ttl : 10 ≤ clamp ttl ≤ 10000.
Proof. unfold clamp. repeat case_match; lia. Qed.

(** A process that has not used the optimiser yet. *)
Record unused (s : state) : Prop := {
  un_stats : g_stats_mutex (opt s) = false;
  un_batch : g_batch_mutex (opt s) = false;
  un_shm : shm (opt s) = m;
}.

Lemma start_wp ttl s :
  unused s →
  wp (optimiser perf_optimizer_init;; optimiser (perf_optimizer_enable_cache true);;
      optimiser (perf_optimizer_set_cache_ttl ttl)) (λ _ s', running (clamp ttl) s') s.
Proof using.
  intros [Hs Hb Hm]. unfold optimiser, perf_optimizer_init, perf_optimizer_enable_cache,
    perf_optimizer_set_cache_ttl, time. run. cbn. unfold wp.
  destruct (thread_starts (opt s)); cbn; eexists _, _; (split; [reflexivity|]).
  all: split; cbn; try done; split; cbn; try done; split; cbn; [done| |apply clamp_range].
  all: intros i e [-> _]%lookup_replicate; done.
Qed.

(** Steps that change neither the cache, nor what the tests rely on. *)
Lemma counted_quiet t k s s' :
  running t s → entries (g_cache (opt s')) = entries (g_cache (opt s)) →
  ttl_ms (g_cache (opt s')) = ttl_ms (g_cache (opt s)) →
  same_store (opt s) (opt s') →
  0 ≤ hits s' → 0 ≤ misses s' → hits s' + misses s' = k → counted t k s'.
Proof using.
  intros [[[H1 H2 H3] H4] Hon Hb Hm Ht Hs] He Htt [E1 E2 E3 E4 E5 E6] Hh Hmi Hk.
  split; try done. split; try congruence. split; [|congruence].
  split; [by rw He|by rw He|by rw Htt].
Qed.

Lemma reset_wp t s :
  running t s → wp (optimiser perf_optimizer_reset_stats) (λ _ s', counted t 0 s') s.
Proof using.
  intros [Hc Hon Hb Hm Ht Hs]. apply wp_optimiser.
  unfold perf_optimizer_reset_stats, lock_stats, unlock_stats, time, wp. run.
  rw (cr_stats _ Hc). cbn. eexists _, _. split; [reflexivity|].
  apply (counted_quiet t 0 s); try done. split; try done; cbn. by rw (cr_stats _ Hc).
Qed.

Lemma get_stats_counted t k s :
  counted t k s → 0 < k ≤ UINT64_MAX →
  wp (optimiser (perf_optimizer_get_stats (Some stats_zero)))
     (λ o s', counted t k s' ∧ ∃ st, o = Some st ∧ cache_hit_rate st = percentage (hits s) k) s.
Proof using.
  intros [[Hc Hon Hb Hm Ht Hs] Hk Hh Hmi] Hpos. apply wp_optimiser.
  unfold perf_optimizer_get_stats, lock_stats, unlock_stats, wp. run.
  rw (cr_stats _ Hc). cbn. eexists _, _. split; [reflexivity|]. split.
  - apply (counted_quiet t k s); try done. split; try done; cbn. by rw (cr_stats _ Hc).
  - eexists. split; [done|]. cbn. unfold hits, misses, UINT64_MAX in *. rw Hk.
    rw u64_small; [unfold is_u64; lia|]. by rw (proj2 (Z.ltb_lt 0 k)); [lia|].
Qed.

Lemma time_wp t k s : counted t k s → wp get_time_ns (λ _ s', counted t k s') s.
Proof using.
  intros [[Hc Hon Hb Hm Ht Hs] Hk Hh Hmi]. apply wp_optimiser.
  unfold get_current_time_ns, wp. destruct (monotonic (opt s) 0%nat). eexists _, _. split; [done|].
  by apply (counted_quiet t k s).
Qed.

Lemma cleanup_wp t s :
  running t s → wp (optimiser perf_optimizer_cleanup) (λ _ s', shm (opt s') = m ∧ ttl_ms (g_cache (opt s')) = t) s.
Proof using.
  intros [Hc Hon Hb Hm Ht Hs]. apply wp_optimiser.
  unfold perf_optimizer_cleanup, perf_optimizer_flush_batch_buffer, lock_batch, unlock_batch, wp. run.
  cbn. rw Hm. cbn. rw Hb. cbn. by eexists _, _.
Qed.
(** ** The bodies of the loops *)

Lemma modulo_run a b s : b ≠ 0 → modulo a b s = Ret (Z.rem a b) s.
Proof using. intros Hb. unfold modulo. by rw (proj2 (Z.eqb_neq _ 0) Hb). Qed.

Lemma counted_rand t k s f : counted t k s → counted t k (s <| rands := f |>).
Proof using. intros [[Hc Hon Hb Hm Ht Hs] Hk Hh Hmi]. split; [by split|done..]. Qed.

Lemma rand_wp t k s : counted t k s → wp rand (λ _ s', counted t k s') s.
Proof using. intros H. eapply wp_eq; [reflexivity|]. by apply counted_rand. Qed.

Lemma warm_up_wp t k config i s :
  num_processes config ≠ 0 → counted t k s → wp (warm_up config i) (λ _ s', counted t k s') s.
Proof using Hunmapped.
  intros Hn Hs. apply wp_bind. eapply wp_eq; [by apply modulo_run|]. cbv zeta.
  apply wp_bind. eapply wp_eq; [apply update_unmapped, Hs|]. by apply update_cached_wp.
Qed.

Lemma pick_pid_wp t k config i s :
  num_processes config ≠ 0 → counted t k s → wp (pick_pid config i) (λ _ s', counted t k s') s.
Proof using.
  intros Hn Hs. unfold pick_pid. cbv zeta.
  apply wp_bind. eapply (wp_mono _ (λ _ s', counted t k s')); [intros; by apply wp_ret|].
  apply wp_if; intros _; [eapply wp_eq; [by apply modulo_run|done]|].
  apply wp_if; intros _.
  - apply wp_bind. eapply wp_mono; [|by apply rand_wp]. intros r s' Hs'. cbn in Hs'.
    eapply wp_eq; [by apply modulo_run|done].
  - apply wp_if; intros _; (eapply wp_eq; [by apply modulo_run|done]).
Qed.

Lemma access_wp junk t k config i s :
  num_processes config ≠ 0 → k < UINT64_MAX → counted t k s →
  wp (access junk config i) (λ _ s', counted t (k + 1) s') s.
Proof using Hunmapped.
  intros Hn Hk Hs. apply wp_bind. eapply wp_mono; [|by apply pick_pid_wp]. intros pid s1 Hs1. cbn in Hs1.
  apply wp_bind. eapply wp_mono; [|by apply get_cached_wp].
  intros [[] out] s2 [Hs2 Hout]; cbn [fst snd] in *; [by apply wp_ret|]. destruct Hout as [u ->].
  apply wp_bind. eapply wp_eq; [apply get_unmapped, Hs2|]. by apply wp_ret.
Qed.

Lemma mixed_access_wp junk t k b i s :
  b ≠ 0 → k < UINT64_MAX → counted t k s →
  wp (mixed_access junk b i) (λ _ s', counted t (k + 1) s') s.
Proof using Hunmapped.
  intros Hb Hk Hs. apply wp_bind. eapply wp_eq; [by apply modulo_run|].
  apply wp_bind. eapply (wp_mono _ (λ _ s', counted t k s')); last first.
  { apply wp_if; intros _; [by apply wp_ret|]. apply wp_bind.
    eapply wp_mono; [|by apply rand_wp]. intros r s' Hs'. by apply wp_ret. }
  intros pid s1 Hs1. cbn in Hs1. apply wp_bind. eapply wp_mono; [|by apply get_cached_wp].
  intros [[] out] s2 [Hs2 Hout]; cbn [fst snd] in *; [by apply wp_ret|]. destruct Hout as [u ->].
  apply wp_bind. eapply wp_eq; [apply update_unmapped, Hs2|]. by apply update_cached_wp.
Qed.

(** The adjustment only moves the time to live, and the call that follows moves it again. *)
Lemma ttl_adjusted_wp t s :
  running t s →
  wp (optimiser perf_optimizer_adaptive_adjust;; optimiser (perf_optimizer_set_cache_ttl 0))
     (λ _ s', running 10 s') s.
Proof using.
  intros [Hc Hon Hb Hm Ht Hs].
  assert (H : ∃ o, perf_optimizer_adaptive_adjust (opt s) = Ret tt o ∧ same_store (opt s) o ∧
    entries (g_cache o) = entries (g_cache (opt s))).
  { unfold perf_optimizer_adaptive_adjust, lock_stats, unlock_stats. run. rw (cr_stats _ Hc). cbn.
    repeat case_match; eexists; (split; [reflexivity|]); (split; [|done]);
      split; try done; cbn; by rw (cr_stats _ Hc). }
  destruct H as (o & Ho & [E1 E2 E3 E4 E5 E6] & He). apply wp_bind, wp_optimiser. eapply wp_eq; [exact Ho|].
  eapply wp_eq; [reflexivity|]. destruct Hc as [[H1 H2 H3] H4].
  split; try done; cbn; [|congruence..]. split; [|cbn; congruence]. split; cbn; [by rw He|by rw He|lia].
Qed.

(** A round: ten thousand queries with the time to live it starts with, and then the
    adjustment, which in the adaptive mode always ends at ten milliseconds. *)
Lemma adaptive_round_wp junk t config round s :
  0 ≤ round → running t s →
  wp (adaptive_round junk config round)
     (λ h s', running (if enable_adaptive config =? 0 then t else 10) s' ∧
        ∃ n, 0 ≤ n ≤ 10000 ∧ h = percentage n 10000) s.
Proof using Hunmapped.
  intros Hr Hs. apply wp_bind. eapply wp_mono; [|by apply reset_wp]. intros _a s1 Hs1. cbn in Hs1.
  apply wp_bind. eapply wp_mono; [|apply (for_loop_wp _ _ _ (counted t)); [|done]]; last first.
  { intros j u Hj. apply mixed_access_wp; [lia|unfold UINT64_MAX; lia]. }
  intros _b s2 Hs2. cbn beta in Hs2. rw Z.add_0_l Z2Nat.id in Hs2; [done|].
  apply wp_bind. eapply wp_mono; [|by apply (get_stats_counted t 10000)].
  intros o s3 [Hs3 (st & -> & Hrate)]. cbn [default].
  assert (Hn : 0 ≤ hits s2 ≤ 10000) by (destruct Hs2; lia).
  apply wp_bind. eapply (wp_mono _ (λ _ s', running (if enable_adaptive config =? 0 then t else 10) s')).
  { intros _c s4 Hs4. apply wp_ret. split; [done|]. by exists (hits s2). }
  destruct (enable_adaptive config =? 0); [by apply wp_ret, Hs3|].
  by apply (ttl_adjusted_wp t), Hs3.
Qed.

Lemma rounds_wp junk n config round s t :
  0 ≤ round → running t s →
  wp (rounds junk n config round)
     (λ l s', running (if (enable_adaptive config =? 0) || (n =? 0)%nat then t else 10) s' ∧
        ∃ ns, length ns = n ∧ Forall (λ h, 0 ≤ h ≤ 10000) ns ∧
          l = (λ h, percentage h 10000) <$> ns) s.
Proof using Hunmapped.
  revert round s t. induction n as [|n IH]; intros round s t Hr Hs.
  - apply wp_ret. rw orb_true_r. split; [done|]. by exists [].
  - cbn [rounds]. apply wp_bind. eapply wp_mono; [|by apply adaptive_round_wp].
    intros h s1 (Hs1 & x & Hx & ->). apply wp_bind. eapply wp_mono; [|apply (IH (round + 1)); [lia|done]].
    intros l s2 (Hs2 & ns & Hlen & Hall & ->). apply wp_ret. split.
    + rw orb_false_r. by destruct (enable_adaptive config =? 0), (n =? 0)%nat.
    + exists (x :: ns). split_and!; [by rw /= Hlen|by constructor|done].
Qed.

(** The call of the test on its defaults. *)
Lemma test_hit_rate_run junk config result s :
  unused s → num_processes config ≠ 0 →
  wp (test_hit_rate junk config result)
     (λ r s', shm (opt s') = m ∧ total_ops r = NUM_MEASURE_OPS ∧
        ∃ h, 0 ≤ h ≤ NUM_MEASURE_OPS ∧ hit_rate r = percentage h NUM_MEASURE_OPS) s.
Proof using Hunmapped.
  intros Hs Hn. destruct (start_wp (ttl config) s Hs) as ([] & s1 & Hrun & Hs1).
  unfold test_hit_rate. set (rest := optimiser perf_optimizer_reset_stats ≫= _).
  enough (H : wp rest (λ r s', shm (opt s') = m ∧ total_ops r = NUM_MEASURE_OPS ∧
    ∃ h, 0 ≤ h ≤ NUM_MEASURE_OPS ∧ hit_rate r = percentage h NUM_MEASURE_OPS) s1).
  { destruct H as (r & s' & Hr & HQ). exists r, s'. split; [|done].
    revert Hrun. unfold mbind, M_bind. destruct (optimiser perf_optimizer_init s); [|done..].
    destruct (optimiser (perf_optimizer_enable_cache true) s0); [|done..]. by intros ->. }
  subst rest. apply wp_bind. eapply wp_mono; [|by apply reset_wp]. intros _a s2 Hs2. cbn in Hs2.
  apply wp_bind. eapply wp_mono; [|apply (for_loop_wp _ _ _ (λ _, counted (clamp (ttl config)) 0)); [|done]]; last first.
  { intros j u _. by apply warm_up_wp. }
  intros _b s3 Hs3. cbn beta in Hs3. apply wp_bind.
  eapply wp_mono; [|apply reset_wp, Hs3]. intros _c s4 Hs4. cbn in Hs4.
  apply wp_bind. eapply wp_mono; [|by apply time_wp]. intros start s5 Hs5. cbn in Hs5.
  apply wp_bind. eapply wp_mono; [|apply (for_loop_wp _ _ _ (counted (clamp (ttl config)))); [|done]]; last first.
  { intros j u Hj. apply access_wp; [done|]. unfold NUM_MEASURE_OPS, UINT64_MAX in *. lia. }
  intros _d s6 Hs6. cbn beta in Hs6. rw Z.add_0_l Z2Nat.id in Hs6; [done|].
  apply wp_bind. eapply wp_mono; [|by apply time_wp]. intros finish s7 Hs7. cbn in Hs7.
  apply wp_bind. eapply wp_mono; [|by apply (get_stats_counted (clamp (ttl config)) NUM_MEASURE_OPS)].
  intros o s8 [Hs8 (st & -> & Hrate)]. cbv zeta. cbn [default].
  apply wp_bind. eapply wp_mono; [|apply (cleanup_wp (clamp (ttl config))), Hs8].
  intros _e s9 [Hm _]. apply wp_ret. split_and!; [done..|]. exists (hits s7).
  split; [|exact Hrate]. destruct Hs7. lia.
Qed.
End Running.
(** The hit-rate test returns for every workload, time to live and clock, and every
    one of its hundred thousand queries is counted once, as a hit or as a miss: the rate
    is a number of hits out of [NUM_MEASURE_OPS].  The shared memory, which the program
    never maps, is not touched. *)
Theorem hit_rate_accounts junk config result s :
  unused (shm (opt s)) s → Shm.shm_data_ptr (shm (opt s)) = false → num_processes config ≠ 0 →
  ∃ r s', test_hit_rate junk config result s = Ret r s' ∧ shm (opt s') = shm (opt s) ∧
    total_ops r = NUM_MEASURE_OPS ∧
    ∃ h, 0 ≤ h ≤ NUM_MEASURE_OPS ∧ hit_rate r = percentage h NUM_MEASURE_OPS.
Proof. intros Hs Hm Hn. by apply (test_hit_rate_run (shm (opt s)) Hm). Qed.

(** Without processes the first turn of the warm-up divides by zero. *)
Lemma no_processes_crash junk config result s :
  unused (shm (opt s)) s → num_processes config = 0 → test_hit_rate junk config result s = Crash.
Proof.
  intros Hs Hn. destruct (start_wp _ (ttl config) s Hs) as ([] & s1 & Hrun & Hs1).
  destruct (reset_wp _ _ _ Hs1) as ([] & s2 & Hrun2 & _). unfold test_hit_rate.
  assert (Hw : warm_up config 0 s2 = Crash).
  { unfold warm_up, modulo. by rw Hn. }
  revert Hrun. unfold mbind, M_bind. destruct (optimiser perf_optimizer_init s); [|done..].
  destruct (optimiser (perf_optimizer_enable_cache true) s0); [|done..]. intros ->.
  rw Hrun2. change (Z.to_nat NUM_WARMUP_OPS) with (Datatypes.S 999). cbn [for_loop].
  unfold mbind, M_bind. by rw Hw.
Qed.

(** The adaptive-TTL test measures twenty rounds of ten thousand queries.  In the
    adaptive mode the time to live is ten milliseconds after every round, whatever the
    hit rates: the call meant to print it sets it to the minimum.  In the other mode it
    stays at fifty. *)
Theorem adaptive_mode_means_ten_ms junk config result s :
  unused (shm (opt s)) s → Shm.shm_data_ptr (shm (opt s)) = false →
  ∃ r s' hits, test_adaptive_ttl junk config result s = Ret r s' ∧
    ttl_ms (g_cache (opt s')) = (if enable_adaptive config =? 0 then 50 else 10) ∧
    length hits = Z.to_nat NUM_ROUNDS ∧ Forall (λ h, 0 ≤ h ≤ 10000) hits ∧
    hit_rate r = div (foldl add zero ((λ h, percentage h 10000) <$> hits)) (double_of NUM_ROUNDS).
Proof.
  intros Hs Hm. set (m := shm (opt s)) in *.
  destruct (start_wp m 50 s Hs) as ([] & s1 & Hrun & Hs1).
  destruct (rounds_wp m Hm junk (Z.to_nat NUM_ROUNDS) config 0 s1 50) as
    (l & s2 & Hrun2 & Hs2 & hits & Hlen & Hall & ->); [done..|].
  destruct (cleanup_wp m _ _ Hs2) as ([] & s3 & Hrun3 & _ & Ht).
  eexists _, s3, hits. split_and!; [|by rw Ht orb_false_r|done..|].
  - unfold test_adaptive_ttl. revert Hrun. unfold mbind, M_bind.
    destruct (optimiser perf_optimizer_init s); [|done..].
    destruct (optimiser (perf_optimizer_enable_cache true) s0); [|done..]. intros ->.
    rw Hrun2 Hrun3. reflexivity.
  - done.
Qed.

(** The program as it starts. *)
Definition at_start : state :=
  mk_state
    (mk_optimizer cache_zero buffer_zero stats_zero false false 0 1 1 0
       (Shm.mk_state (-1) false Shm.data_zero (Shm.mk_os 3 0 true 0) (λ n, (Z.of_nat n, 0)))
       (λ n, (1700000000, 10 * Z.of_nat n)) (λ n, (Z.of_nat n, 0)) (λ n, Z.of_nat n) true)
    (λ n, Z.of_nat n * 7919) true.

Lemma latency_statistics_witness :
  let l := [30; 10; 20; 40] in
  let r := calculate_stats l result_zero in
  [30; 10; 20; 40] ≠ [] ∧ sort l = [10; 20; 30; 40] ∧ p50_latency r = double_of 30 ∧
  min_latency r = double_of 10 ∧ sort l = merge_sort Z.le l.
Proof.
  split_and!; [done|done|done|done|]. by apply (latency_statistics [30; 10; 20; 40] result_zero).
Defined.

Lemma hit_rate_accounts_witness :
  let config := default_config <| workload_type := 1 |> in
  num_processes config ≠ 0 ∧
  ∃ r s', test_hit_rate (λ _, Shm.usage_zero) config result_zero at_start = Ret r s' ∧
    shm (opt s') = shm (opt at_start) ∧ total_ops r = NUM_MEASURE_OPS ∧
    ∃ h, 0 ≤ h ≤ NUM_MEASURE_OPS ∧ hit_rate r = percentage h NUM_MEASURE_OPS.
Proof. split; [done|]. by apply hit_rate_accounts. Defined.

Lemma adaptive_mode_means_ten_ms_witness :
  let config := default_config <| test_type := 2 |> <| enable_adaptive := 1 |> in
  ∃ r s' hits, test_adaptive_ttl (λ _, Shm.usage_zero) config result_zero at_start = Ret r s' ∧
    ttl_ms (g_cache (opt s')) = 10 ∧
    length hits = Z.to_nat NUM_ROUNDS ∧ Forall (λ h, 0 ≤ h ≤ 10000) hits ∧
    hit_rate r = div (foldl add zero ((λ h, percentage h 10000) <$> hits)) (double_of NUM_ROUNDS).
Proof.
  intros config.
  by apply (adaptive_mode_means_ten_ms (λ _, Shm.usage_zero) config result_zero at_start).
Defined.
End CacheExp.
