(* ===== verification/PolicyManager.v ===== *)
(** * The policy manager ([src/dynamic_policy_manager.c], [src/include/dynamic_policy.h])

    One configuration of limits per resource, guarded by a mutex, written to a
    file and read back, published to the process shared memory of [ShmProcess];
    a thread that wakes up to adjust it; and a table of policies per tenant.
    This file has the data, every operation, and the machine of calls and thread
    rounds; the properties are in [PolicyProps.v]. *)

From S2P Require Import Prelude CString CFloat ShmProcess.

Module Policy.

(** ** Data ([dynamic_policy.h]) *)

Inductive policy_type := POLICY_TYPE_STATIC | POLICY_TYPE_DYNAMIC | POLICY_TYPE_ADAPTIVE.

Inductive resource_type :=
| RESOURCE_QP | RESOURCE_MR | RESOURCE_CQ | RESOURCE_PD | RESOURCE_MEMORY.
#[export] Instance resource_type_eq_dec : EqDecision resource_type.
Proof. solve_decision. Defined.

(** An argument of type [enum resource_type] is any integer. *)
Definition resource_code (r : resource_type) : Z :=
  match r with
  | RESOURCE_QP => 0 | RESOURCE_MR => 1 | RESOURCE_CQ => 2 | RESOURCE_PD => 3
  | RESOURCE_MEMORY => 4
  end.
Definition resource_of (n : Z) : option resource_type :=
  match n with
  | 0 => Some RESOURCE_QP | 1 => Some RESOURCE_MR | 2 => Some RESOURCE_CQ
  | 3 => Some RESOURCE_PD | 4 => Some RESOURCE_MEMORY | _ => None
  end.

Record resource_limit_t := mk_limit {
  max_per_process : Z;   (* uint32_t *)
  max_global : Z;        (* uint32_t *)
  max_memory : Z;        (* uint64_t *)
}.
#[export] Instance expand_limit : Expand resource_limit_t := λ r,
  mk_limit (max_per_process r) (max_global r) (max_memory r).

Record policy_rule_t := mk_rule {
  rule_id : Z;
  type : policy_type;
  resource : resource_type;
  limit : resource_limit_t;
  priority : Z;
  created_at : Z;
  expires_at : Z;
  enabled : bool;
}.
#[export] Instance expand_rule : Expand policy_rule_t := λ r,
  mk_rule (rule_id r) (type r) (resource r) (limit r) (priority r) (created_at r)
    (expires_at r) (enabled r).

Record dynamic_policy_config_t := mk_config {
  qp_policy : policy_rule_t;
  mr_policy : policy_rule_t;
  cq_policy : policy_rule_t;
  pd_policy : policy_rule_t;
  memory_policy : policy_rule_t;
  auto_adjust : bool;
  adjust_interval : Z;            (* uint32_t *)
  high_watermark : spec_float;    (* float *)
  low_watermark : spec_float;     (* float *)
}.
#[export] Instance expand_config : Expand dynamic_policy_config_t := λ r,
  mk_config (qp_policy r) (mr_policy r) (cq_policy r) (pd_policy r) (memory_policy r)
    (auto_adjust r) (adjust_interval r) (high_watermark r) (low_watermark r).

Record tenant_policy_t := mk_tenant_policy {
  tenant_id : Z;
  tenant_name : string;
  policy : dynamic_policy_config_t;
  last_updated : Z;
}.
#[export] Instance expand_tenant_policy : Expand tenant_policy_t := λ r,
  mk_tenant_policy (tenant_id r) (tenant_name r) (policy r) (last_updated r).

(** Zero-filled values. *)
Definition limit_zero : resource_limit_t := mk_limit 0 0 0.
Definition rule_zero : policy_rule_t :=
  mk_rule 0 POLICY_TYPE_STATIC RESOURCE_QP limit_zero 0 0 0 false.
Definition config_zero : dynamic_policy_config_t :=
  mk_config rule_zero rule_zero rule_zero rule_zero rule_zero false 0
    (S754_zero false) (S754_zero false).
Definition tenant_policy_zero : tenant_policy_t := mk_tenant_policy 0 "" config_zero 0.

(** The field of the configuration a resource selects. *)
Definition rule_of (r : resource_type) : dynamic_policy_config_t → policy_rule_t :=
  match r with
  | RESOURCE_QP => qp_policy | RESOURCE_MR => mr_policy | RESOURCE_CQ => cq_policy
  | RESOURCE_PD => pd_policy | RESOURCE_MEMORY => memory_policy
  end.
Definition set_rule (r : resource_type) (f : policy_rule_t → policy_rule_t)
    (c : dynamic_policy_config_t) : dynamic_policy_config_t :=
  match r with
  | RESOURCE_QP => c <| qp_policy ::= f |> | RESOURCE_MR => c <| mr_policy ::= f |>
  | RESOURCE_CQ => c <| cq_policy ::= f |> | RESOURCE_PD => c <| pd_policy ::= f |>
  | RESOURCE_MEMORY => c <| memory_policy ::= f |>
  end.

Definition MAX_TENANTS : Z := 64.     (* shared_memory_tenant.h *)
Definition DEFAULT_MAX_QP_PER_PROCESS : Z := 100.
Definition DEFAULT_MAX_GLOBAL_QP : Z := 1000.
Definition DEFAULT_MAX_MR_PER_PROCESS : Z := 1000.
Definition DEFAULT_MAX_GLOBAL_MR : Z := 10000.
Definition DEFAULT_MAX_MEMORY_PER_PROCESS : Z := 10 * 1024 * 1024 * 1024.
Definition DEFAULT_ADJUST_INTERVAL : Z := 60.

(** 0.8f, 0.2f, 0.0f and 1.0f. *)
Definition float_0_8 : spec_float := S754_finite false 13421773 (-24).
Definition float_0_2 : spec_float := S754_finite false 13421773 (-26).
Definition float_0 : spec_float := S754_zero false.
Definition float_1 : spec_float := S754_finite false 8388608 (-23).

(** ** State

    The handle [g_adjust_thread]: never created (or joined), created and still
    able to end, or blocked for ever on the mutex it holds. *)
Inductive adjust_thread := NoThread | Joinable | Stuck.

(** What [dynamic_policy_adjust] writes to the error stream. *)
Inductive advice := ConsiderRaising | ConsiderLowering.

(** The statics of the file, the process shared memory, the files the process
    can read, those it may write, what an uninitialised [resource_usage_t] on the
    stack happens to hold, the answer of [pthread_create], the readings of
    [time (NULL)], and the advice written. *)
Record state := mk_state {
  g_policy_config : dynamic_policy_config_t;
  g_policy_mutex : bool;
  g_adjust_thread : adjust_thread;
  g_running : Z;
  g_tenant_policies : list tenant_policy_t;
  g_tenant_mutex : bool;
  shm : Shm.state;
  files : string → option string;
  writable : string → bool;
  stack_garbage : Shm.resource_usage_t;
  os_thread : Z;
  clock : nat → Z;
  advised : list advice;
}.
#[export] Instance expand_state : Expand state := λ r,
  mk_state (g_policy_config r) (g_policy_mutex r) (g_adjust_thread r) (g_running r)
    (g_tenant_policies r) (g_tenant_mutex r) (shm r) (files r) (writable r)
    (stack_garbage r) (os_thread r) (clock r) (advised r).

Definition time : M state Z := λ s,
  Ret (clock s 0%nat) (s <| clock := λ n, clock s (S n) |>).

Definition lock_policy : M state unit :=
  s ← get; if g_policy_mutex s then hang else modify (λ s, s <| g_policy_mutex := true |>).
Definition unlock_policy : M state unit := modify (λ s, s <| g_policy_mutex := false |>).
Definition lock_tenants : M state unit :=
  s ← get; if g_tenant_mutex s then hang else modify (λ s, s <| g_tenant_mutex := true |>).
Definition unlock_tenants : M state unit := modify (λ s, s <| g_tenant_mutex := false |>).

Definition set_config (f : dynamic_policy_config_t → dynamic_policy_config_t) : M state unit :=
  modify (λ s, s <| g_policy_config ::= f |>).

(** The call of [shm_set_global_limits] at the end of every publishing
    operation; its result is ignored. *)
Definition publish : M state unit :=
  s ← get;
  let c := g_policy_config s in
  zoom shm (Shm.shm_set_global_limits (max_global (limit (qp_policy c)))
    (max_global (limit (mr_policy c))) (max_memory (limit (memory_policy c))));;
  mret tt.

(** A local [resource_usage_t] after [shm_get_global_resources (&global_usage)]. *)
Definition global_usage : M state Shm.resource_usage_t :=
  s ← get;
  r ← zoom shm (Shm.shm_get_global_resources (Some (stack_garbage s)));
  mret (default (stack_garbage s) (snd r)).

(** ** Default configuration *)

Definition init_default_rule (r : resource_type) (l : resource_limit_t) : M state policy_rule_t :=
  now ← time;
  mret (mk_rule (resource_code r) POLICY_TYPE_STATIC r l 1 now 0 true).

Definition set_default_config : M state unit :=
  qp ← init_default_rule RESOURCE_QP
         (mk_limit DEFAULT_MAX_QP_PER_PROCESS DEFAULT_MAX_GLOBAL_QP 0);
  mr ← init_default_rule RESOURCE_MR
         (mk_limit DEFAULT_MAX_MR_PER_PROCESS DEFAULT_MAX_GLOBAL_MR 0);
  cq ← init_default_rule RESOURCE_CQ
         (mk_limit DEFAULT_MAX_QP_PER_PROCESS DEFAULT_MAX_GLOBAL_QP 0);
  pd ← init_default_rule RESOURCE_PD (mk_limit 100 1000 0);
  mem ← init_default_rule RESOURCE_MEMORY (mk_limit 0 0 DEFAULT_MAX_MEMORY_PER_PROCESS);
  set_config (λ _, mk_config qp mr cq pd mem false DEFAULT_ADJUST_INTERVAL float_0_8 float_0_2).

Definition dynamic_policy_set_default : M state Z :=
  lock_policy;; set_default_config;; unlock_policy;; mret 0.

(** ** Limits *)

Definition dynamic_policy_set_limit (n : Z) (l : option resource_limit_t) : M state Z :=
  match l with
  | None => mret (-1)
  | Some l =>
      lock_policy;;
      match resource_of n with
      | Some r => set_config (set_rule r (λ p, p <| limit := l |>));; publish;; unlock_policy;; mret 0
      | None => unlock_policy;; mret (-1)
      end
  end.

Definition dynamic_policy_get_limit (n : Z) (out : option resource_limit_t) :
    M state (Z * option resource_limit_t) :=
  match out with
  | None => mret (-1, None)
  | Some _ =>
      lock_policy;;
      s ← get;
      match resource_of n with
      | Some r => unlock_policy;; mret (0, Some (limit (rule_of r (g_policy_config s))))
      | None => unlock_policy;; mret (-1, out)
      end
  end.

(** [true]: the request exceeds a limit. *)
Definition dynamic_policy_check_limit (n current_usage requested_amount : Z) : M state bool :=
  r ← dynamic_policy_get_limit n (Some limit_zero);
  match r with
  | (0, Some l) =>
      usage ← global_usage;
      let global_current :=
        match resource_of n with
        | Some RESOURCE_QP => u32 (Shm.qp_count usage)
        | Some RESOURCE_MR => u32 (Shm.mr_count usage)
        | _ => 0
        end in
      if max_global l <? u32 (global_current + requested_amount) then mret true else
      if max_per_process l <? u32 (current_usage + requested_amount) then mret true else
      mret false
  | _ => mret false
  end.

Definition dynamic_policy_update (config : option dynamic_policy_config_t) : M state Z :=
  match config with
  | None => mret (-1)
  | Some c => lock_policy;; set_config (λ _, c);; publish;; unlock_policy;; mret 0
  end.

Definition dynamic_policy_get_config (out : option dynamic_policy_config_t) :
    M state (Z * option dynamic_policy_config_t) :=
  match out with
  | None => mret (-1, None)
  | Some _ => lock_policy;; s ← get; unlock_policy;; mret (0, Some (g_policy_config s))
  end.

Definition dynamic_policy_enable_rule (n : Z) (enable : bool) : M state Z :=
  lock_policy;;
  match resource_of n with
  | Some r => set_config (set_rule r (λ p, p <| enabled := enable |>));; unlock_policy;; mret 0
  | None => unlock_policy;; mret (-1)
  end.

(** [dynamic_policy_print_config] writes the configuration to stderr under the
    lock. *)
Definition dynamic_policy_print_config : M state unit := lock_policy;; unlock_policy.

(** ** The configuration file *)

Definition MB : Z := 1024 * 1024.

(** The field a key of the file assigns; an unknown key assigns none. *)
Definition apply_key (key : string) (val : Z) (c : dynamic_policy_config_t) :
    dynamic_policy_config_t :=
  if String.eqb key "max_qp_per_process" then
    set_rule RESOURCE_QP (λ p, p <| limit ::= λ l, l <| max_per_process := val |> |>) c
  else if String.eqb key "max_global_qp" then
    set_rule RESOURCE_QP (λ p, p <| limit ::= λ l, l <| max_global := val |> |>) c
  else if String.eqb key "max_mr_per_process" then
    set_rule RESOURCE_MR (λ p, p <| limit ::= λ l, l <| max_per_process := val |> |>) c
  else if String.eqb key "max_global_mr" then
    set_rule RESOURCE_MR (λ p, p <| limit ::= λ l, l <| max_global := val |> |>) c
  else if String.eqb key "max_memory_mb" then
    set_rule RESOURCE_MEMORY (λ p, p <| limit ::= λ l, l <| max_memory := u64 (u64 (val * 1024) * 1024) |> |>) c
  else if String.eqb key "auto_adjust" then c <| auto_adjust := negb (val =? 0) |>
  else if String.eqb key "adjust_interval" then c <| adjust_interval := val |>
  else c.

(** [sscanf (line, "%63s %u", key, &val)], when it returns 2. *)
Definition scan_setting (line : string) : option (string * Z) :=
  '(key, rest) ← scan_token 63 line;
  '(val, _) ← scan_uint rest;
  Some (key, val).

Definition load_line (c : dynamic_policy_config_t) (line : string) : dynamic_policy_config_t :=
  match line with
  | String x _ =>
      if Ascii.eqb x "#"%char || is_newline x then c else
      match scan_setting line with
      | Some (key, val) => apply_key key val c
      | None => c
      end
  | EmptyString => c
  end.

Definition dynamic_policy_load_config (config_path : string) : M state Z :=
  s ← get;
  match files s config_path with
  | None => mret (-1)
  | Some text =>
      lock_policy;;
      set_config (λ c, foldl load_line c (fgets_lines 256 text));;
      unlock_policy;;
      mret 0
  end.

(** One [fprintf] of the form "key %u\n". *)
Definition setting (key : string) (val : Z) : string := key +:+ " " +:+ print_dec val.

Definition settings (c : dynamic_policy_config_t) : list string :=
  ["# RDMA Dynamic Policy Configuration";
   setting "max_qp_per_process" (max_per_process (limit (qp_policy c)));
   setting "max_global_qp" (max_global (limit (qp_policy c)));
   setting "max_mr_per_process" (max_per_process (limit (mr_policy c)));
   setting "max_global_mr" (max_global (limit (mr_policy c)));
   setting "max_memory_mb" (max_memory (limit (memory_policy c)) / (1024 * 1024));
   setting "auto_adjust" (if auto_adjust c then 1 else 0);
   setting "adjust_interval" (adjust_interval c)].

Definition file_text (lines : list string) : string :=
  foldr (λ l t, l +:+ newline +:+ t) EmptyString lines.

Definition dynamic_policy_save_config (config_path : string) : M state Z :=
  lock_policy;;
  s ← get;
  if negb (writable s config_path) then unlock_policy;; mret (-1) else
  let text := file_text (settings (g_policy_config s)) in
  modify (λ s, s <| files ::= λ f p, if String.eqb p config_path then Some text else f p |>);;
  unlock_policy;;
  mret 0.

(** ** Automatic adjustment *)

Definition dynamic_policy_set_auto_adjust (enable : bool) (interval : Z) (high low : spec_float) :
    M state Z :=
  lock_policy;;
  set_config (λ c, c <| auto_adjust := enable |>);;
  set_config (λ c, if 0 <? interval then c <| adjust_interval := interval |> else c);;
  set_config (λ c, if below float_0 high && SFleb high float_1
                   then c <| high_watermark := high |> else c);;
  set_config (λ c, if SFleb float_0 low && below low float_1
                   then c <| low_watermark := low |> else c);;
  unlock_policy;;
  mret 0.

Definition advise (a : advice) : M state unit := modify (λ s, s <| advised ::= λ l, l ++ [a] |>).

Definition dynamic_policy_adjust : M state Z :=
  lock_policy;;
  usage ← global_usage;
  s ← get;
  let c := g_policy_config s in
  let maximum := max_global (limit (qp_policy c)) in
  (if 0 <? maximum then
     let qp_usage_rate := float_ratio (Shm.qp_count usage) maximum in
     if below (high_watermark c) qp_usage_rate then advise ConsiderRaising
     else if below qp_usage_rate (low_watermark c) then advise ConsiderLowering
     else mret tt
   else mret tt);;
  unlock_policy;;
  mret 0.

(** What [adjust_thread_func] does between two of its sleeps; [false]: it ends. *)
Definition adjust_thread_round : M state bool :=
  s ← get;
  if g_running s =? 0 then mret false else
  if auto_adjust (g_policy_config s) then
    lock_policy;;
    dynamic_policy_adjust;;
    unlock_policy;;
    mret true
  else mret true.

(** ** Start and stop *)

Definition dynamic_policy_init : M state Z :=
  lock_policy;;
  set_default_config;;
  r ← zoom shm Shm.shm_init;
  if negb (r =? 0) then unlock_policy;; mret (-1) else
  publish;;
  unlock_policy;;
  modify (λ s, s <| g_running := 1 |>);;
  s ← get;
  if negb (os_thread s =? 0) then mret (-1) else
  modify (λ s, s <| g_adjust_thread := Joinable |>);;
  mret 0.

(** [pthread_join]: a thread that is not stuck wakes up, finds [g_running] 0 and
    ends; joining a thread that was never created, or twice, is undefined. *)
Definition join_adjust_thread : M state unit :=
  s ← get;
  match g_adjust_thread s with
  | NoThread => crash
  | Joinable => modify (λ s, s <| g_adjust_thread := NoThread |>)
  | Stuck => hang
  end.

Definition dynamic_policy_cleanup : M state unit :=
  modify (λ s, s <| g_running := 0 |>);;
  join_adjust_thread;;
  lock_policy;;
  set_config (λ _, config_zero);;
  unlock_policy.

(** ** Policies of tenants *)

Definition dynamic_policy_set_tenant_policy (tid : Z) (p : option tenant_policy_t) : M state Z :=
  match p with
  | None => mret (-1)
  | Some p =>
      if MAX_TENANTS <=? tid then mret (-1) else
      lock_tenants;;
      now ← time;
      modify (λ s, s <| g_tenant_policies ::= <[Z.to_nat tid := p <| last_updated := now |>]> |>);;
      unlock_tenants;;
      mret 0
  end.

Definition dynamic_policy_get_tenant_policy (tid : Z) (out : option tenant_policy_t) :
    M state (Z * option tenant_policy_t) :=
  match out with
  | None => mret (-1, None)
  | Some _ =>
      if MAX_TENANTS <=? tid then mret (-1, out) else
      lock_tenants;;
      s ← get;
      match g_tenant_policies s !! Z.to_nat tid with
      | Some p => unlock_tenants;; mret (0, Some p)
      | None => crash
      end
  end.

Definition dynamic_policy_delete_tenant_policy (tid : Z) : M state Z :=
  if MAX_TENANTS <=? tid then mret (-1) else
  lock_tenants;;
  modify (λ s, s <| g_tenant_policies ::= <[Z.to_nat tid := tenant_policy_zero]> |>);;
  unlock_tenants;;
  mret 0.

Definition dynamic_policy_check_tenant_limit (tid n current_usage requested_amount : Z) :
    M state bool :=
  if MAX_TENANTS <=? tid then mret false else
  r ← dynamic_policy_get_tenant_policy tid (Some tenant_policy_zero);
  match r with
  | (0, Some p) =>
      match resource_of n with
      | Some r =>
          let l := limit (rule_of r (policy p)) in
          mret (max_per_process l <? u32 (current_usage + requested_amount))
      | None => mret false
      end
  | _ => mret false
  end.

(** The loop of [dynamic_policy_get_all_tenant_policies]: what it copies. *)
Fixpoint collect_policies (ps : list tenant_policy_t) (count max_count : Z) :
    list tenant_policy_t :=
  match ps with
  | [] => []
  | p :: ps' =>
      if count <? max_count then
        if negb (tenant_id p =? 0) then p :: collect_policies ps' (count + 1) max_count
        else collect_policies ps' count max_count
      else []
  end.

(** [out]: whether the caller's array is there. *)
Definition dynamic_policy_get_all_tenant_policies (out : bool) (max_count : Z) :
    M state (Z * list tenant_policy_t) :=
  if negb out || (max_count <=? 0) then mret (-1, []) else
  lock_tenants;;
  s ← get;
  let l := collect_policies (g_tenant_policies s) 0 max_count in
  unlock_tenants;;
  mret (Z.of_nat (length l), l).

(** ** The process: calls, the thread, other processes *)

Inductive call :=
| Init | Cleanup | SetDefault
| LoadConfig (path : string) | SaveConfig (path : string)
| SetLimit (n : Z) (l : option resource_limit_t)
| GetLimit (n : Z) (out : option resource_limit_t)
| CheckLimit (n current_usage requested_amount : Z)
| UpdateConfig (c : option dynamic_policy_config_t)
| GetConfig (out : option dynamic_policy_config_t)
| SetAutoAdjust (enable : bool) (interval : Z) (high low : spec_float)
| Adjust | PrintConfig
| EnableRule (n : Z) (enable : bool)
| SetTenantPolicy (tid : Z) (p : option tenant_policy_t)
| GetTenantPolicy (tid : Z) (out : option tenant_policy_t)
| DeleteTenantPolicy (tid : Z)
| CheckTenantLimit (tid n current_usage requested_amount : Z)
| GetAllTenantPolicies (out : bool) (max_count : Z).

(** The value a call returns, as a number. *)
Definition run_call (c : call) : M state Z :=
  match c with
  | Init => dynamic_policy_init
  | Cleanup => dynamic_policy_cleanup;; mret 0
  | SetDefault => dynamic_policy_set_default
  | LoadConfig path => dynamic_policy_load_config path
  | SaveConfig path => dynamic_policy_save_config path
  | SetLimit n l => dynamic_policy_set_limit n l
  | GetLimit n out => r ← dynamic_policy_get_limit n out; mret (fst r)
  | CheckLimit n cur req => b ← dynamic_policy_check_limit n cur req; mret (Z.b2z b)
  | UpdateConfig c => dynamic_policy_update c
  | GetConfig out => r ← dynamic_policy_get_config out; mret (fst r)
  | SetAutoAdjust e i h l => dynamic_policy_set_auto_adjust e i h l
  | Adjust => dynamic_policy_adjust
  | PrintConfig => dynamic_policy_print_config;; mret 0
  | EnableRule n b => dynamic_policy_enable_rule n b
  | SetTenantPolicy tid p => dynamic_policy_set_tenant_policy tid p
  | GetTenantPolicy tid out => r ← dynamic_policy_get_tenant_policy tid out; mret (fst r)
  | DeleteTenantPolicy tid => dynamic_policy_delete_tenant_policy tid
  | CheckTenantLimit tid n cur req =>
      b ← dynamic_policy_check_tenant_limit tid n cur req; mret (Z.b2z b)
  | GetAllTenantPolicies out n => r ← dynamic_policy_get_all_tenant_policies out n; mret (fst r)
  end.

(** A call of this process returns; the thread makes a round; the thread takes
    the mutex and does not get through [dynamic_policy_adjust]; another process
    calls the process shared memory. *)
Inductive step (allowed : call → Prop) : state → state → Prop :=
| step_call c r s s' : allowed c → run_call c s = Ret r s' → step allowed s s'
| step_round b s s' :
    g_adjust_thread s = Joinable → adjust_thread_round s = Ret b s' → step allowed s s'
| step_stuck s s' :
    g_adjust_thread s = Joinable → g_running s ≠ 0 → auto_adjust (g_policy_config s) = true →
    lock_policy s = Ret tt s' → dynamic_policy_adjust s' = Hang →
    step allowed s (s' <| g_adjust_thread := Stuck |>)
| step_other c r s m :
    match c with Shm.SetLimits _ _ _ => False | _ => True end →
    Shm.run_call c (shm s) = Ret r m → step allowed s (s <| shm := m |>).

End Policy.
