(* ===== verification/PolicyProps.v ===== *)
(** * Properties of the policy manager

    The configuration file reads back what was saved; the limits in the shared
    memory are the configured ones as long as only publishing operations change
    them; what a check answers; the adjusting thread blocks itself and every
    later call; the table of tenant policies. *)

From S2P Require Import Prelude CString CFloat ShmProcess PolicyManager.

Module PolicyProps.
Import Policy.

(** ** Locks and the shared memory *)

Lemma lock_policy_run s :
  g_policy_mutex s = false → lock_policy s = Ret tt (s <| g_policy_mutex := true |>).
Proof. intros H. unfold lock_policy. run. by rw H. Qed.

Lemma lock_policy_blocked s : g_policy_mutex s = true → lock_policy s = Hang.
Proof. intros H. unfold lock_policy. run. by rw H. Qed.

Lemma unlock_lock_policy s :
  g_policy_mutex s = false → (s <| g_policy_mutex := true |>) <| g_policy_mutex := false |> = s.
Proof. destruct s. cbn. by intros ->. Qed.

Lemma zoom_read {A} (m : M Shm.state A) s a :
  m (shm s) = Ret a (shm s) → zoom shm m s = Ret a s.
Proof. intros H. unfold zoom. rw H. by destruct s. Qed.

Lemma get_global_run m u :
  Shm.shm_get_global_resources (Some u) m =
    Ret (if Shm.shm_data_ptr m then (0, Some (Shm.global_stats (Shm.shm m))) else (-1, Some u)) m.
Proof. unfold Shm.shm_get_global_resources. run. by destruct (Shm.shm_data_ptr m). Qed.

(** The local variable holds the global figures, or what was on the stack. *)
Lemma global_usage_run s :
  global_usage s = Ret (if Shm.shm_data_ptr (shm s) then Shm.global_stats (Shm.shm (shm s))
                        else stack_garbage s) s.
Proof.
  unfold global_usage. rw (bind_Ret _ _ s s s); [done|].
  rw (bind_Ret _ _ _ _ _ (zoom_read _ s _ (get_global_run (shm s) (stack_garbage s)))).
  by destruct (Shm.shm_data_ptr (shm s)).
Qed.

(** ** The configuration file *)

(** The fields at the width they have. *)
Record storable (c : dynamic_policy_config_t) : Prop := {
  storable_qp : is_u32 (max_per_process (limit (qp_policy c)));
  storable_global_qp : is_u32 (max_global (limit (qp_policy c)));
  storable_mr : is_u32 (max_per_process (limit (mr_policy c)));
  storable_global_mr : is_u32 (max_global (limit (mr_policy c)));
  storable_memory : is_u64 (max_memory (limit (memory_policy c)));
  storable_interval : is_u32 (adjust_interval c);
}.

(** [b] with the settings of [c] that the file records; memory in whole MB, whose number
    is written as 64 bits and read as 32. *)
Definition restored (c b : dynamic_policy_config_t) : dynamic_policy_config_t :=
  b <| qp_policy := (qp_policy b) <| limit := (limit (qp_policy b))
         <| max_per_process := max_per_process (limit (qp_policy c)) |>
         <| max_global := max_global (limit (qp_policy c)) |> |> |>
    <| mr_policy := (mr_policy b) <| limit := (limit (mr_policy b))
         <| max_per_process := max_per_process (limit (mr_policy c)) |>
         <| max_global := max_global (limit (mr_policy c)) |> |> |>
    <| memory_policy := (memory_policy b) <| limit := (limit (memory_policy b))
         <| max_memory := u32 (max_memory (limit (memory_policy c)) / MB) * MB |> |> |>
    <| auto_adjust := auto_adjust c |>
    <| adjust_interval := adjust_interval c |>.

(** A key that the file can carry. *)
Definition plain_key (key : string) : bool :=
  match key with
  | String x _ => negb (Ascii.eqb x "#"%char) && free_of is_space key
                  && (String.length key <=? 63)%nat
  | EmptyString => false
  end.

Lemma space_newline c : is_space c = false → is_newline c = false.
Proof. destruct c as [[] [] [] [] [] [] [] []]; by vm_compute. Qed.

Lemma load_setting key val c :
  plain_key key = true → is_u64 val →
  load_line c (setting key val +:+ newline) = apply_key key (u32 val) c.
Proof.
  intros Hk Hv. destruct key as [|x key]; [done|].
  apply andb_prop in Hk as [[Hx Hs]%andb_prop Hl%Nat.leb_le].
  assert (Hx' : is_space x = false) by (cbn in Hs; by destruct (is_space x)).
  assert (Hscan : scan_setting (setting (String x key) val +:+ newline) = Some (String x key, u32 val)).
  { unfold scan_setting, setting. rw -!string_app_assoc.
    change (" " +:+ ?t) with (String " "%char t).
    rw scan_token_app //. cbn [mbind option_bind].
    assert (Hskip : scan_uint (String " "%char (print_dec val +:+ newline)) =
                    scan_uint (print_dec val +:+ newline)) by done.
    by rw Hskip scan_uint_wide. }
  assert (Hcons : setting (String x key) val +:+ newline =
    String x (key +:+ " " +:+ print_dec val +:+ newline)).
  { unfold setting. by rw !append_cons -!string_app_assoc. }
  rw Hcons in Hscan |- *. cbn [load_line].
  rw (space_newline x Hx') Hscan. by rw (proj1 (negb_true_iff _) Hx).
Qed.

Lemma setting_short key val :
  plain_key key = true → is_u64 val →
  (String.length (setting key val) < 255)%nat ∧ free_of is_newline (setting key val) = true.
Proof.
  intros Hk Hv. unfold setting. destruct key as [|x key]; [done|].
  apply andb_prop in Hk as [[_ Hs]%andb_prop Hl%Nat.leb_le].
  rw !length_app_string !free_of_app. cbn [String.length] in *. split.
  - pose proof (length_print 20 val). unfold is_u64 in Hv. cbn. lia.
  - rw print_dec_free; [apply Hv|by intros [[] [] [] [] [] [] [] []]; vm_compute|].
    assert (free_of is_newline (String x key) = true) as ->; [|done].
    refine (all_chars_impl _ _ _ _ Hs). intros c Hc. apply negb_true_iff in Hc. by rw space_newline.
Qed.

(** Loading a file of settings applies them one after the other. *)
Lemma load_settings kvs c :
  Forall (λ kv, plain_key (fst kv) = true ∧ is_u64 (snd kv)) kvs →
  foldl load_line c (fgets_lines 256 (file_text ((λ kv, setting (fst kv) (snd kv)) <$> kvs))) =
  foldl (λ c kv, apply_key (fst kv) (u32 (snd kv)) c) c kvs.
Proof.
  intros H. revert c. induction H as [|[key val] kvs [Hk Hv] H IH]; intros c; [done|].
  cbn [fst snd] in Hk, Hv. destruct (setting_short key val Hk Hv) as [Hl Hf].
  cbn [fmap list_fmap file_text foldr fst snd]. rw fgets_line; [cbn; lia|done|].
  cbn [foldl fst snd]. by rw load_setting // IH.
Qed.

Lemma load_comment l t c :
  (String.length l < 254)%nat → free_of is_newline l = true →
  foldl load_line c (fgets_lines 256 (String "#"%char l +:+ newline +:+ t)) =
  foldl load_line c (fgets_lines 256 t).
Proof. intros Hl Hf. rw fgets_line; [cbn; lia|done|]. done. Qed.

Lemma load_saved c b :
  storable c → foldl load_line b (fgets_lines 256 (file_text (settings c))) = restored c b.
Proof.
  intros [Hq Hgq Hm Hgm Hmem Hi].
  change (file_text (settings c)) with
    (String "#"%char " RDMA Dynamic Policy Configuration" +:+ newline +:+
     file_text ((λ kv, setting (fst kv) (snd kv)) <$>
       [("max_qp_per_process", max_per_process (limit (qp_policy c)));
        ("max_global_qp", max_global (limit (qp_policy c)));
        ("max_mr_per_process", max_per_process (limit (mr_policy c)));
        ("max_global_mr", max_global (limit (mr_policy c)));
        ("max_memory_mb", max_memory (limit (memory_policy c)) / MB);
        ("auto_adjust", if auto_adjust c then 1 else 0);
        ("adjust_interval", adjust_interval c)])).
  assert (Hmb : is_u64 (max_memory (limit (memory_policy c)) / MB)).
  { change MB with (2 ^ 20). width_lia. }
  rw load_comment; [by apply Nat.ltb_lt|done|]. rw load_settings.
  - repeat apply Forall_cons_2; [..|by apply Forall_nil]; (split; [done|]); try assumption;
      try (cbn [snd]; width_lia). by destruct (auto_adjust c).
  - assert (Hback : u64 (u64 (u32 (max_memory (limit (memory_policy c)) / MB) * 1024) * 1024) =
      u32 (max_memory (limit (memory_policy c)) / MB) * MB).
    { generalize (max_memory (limit (memory_policy c)) / MB). intros q. pose proof (u32_range q).
      change MB with (1024 * 1024). rw !u64_small; width_lia. }
    destruct b as [bq bm bcq bpd bmem ? ? ? ?]. cbn -[MB Z.div u64 u32].
    rw Hback. set (mb := u32 (_ / MB)). rw !u32_small //; [by destruct (auto_adjust c)|].
    unfold restored. cbn -[MB Z.div u64 u32]. by destruct (auto_adjust c).
Qed.

(** C35: what [dynamic_policy_save_config] writes, [dynamic_policy_load_config]
    reads back: loading the file into any manager (whose mutex is free) installs
    exactly the five limits, the switch and the interval of the saved
    configuration, and leaves every other field of that manager alone.  The memory limit
    is rounded down to whole MB; their number is saved as 64 bits but read as 32, so that
    it comes back only when the limit is below 2^52 bytes, and reduced modulo 2^32
    otherwise. *)
Theorem policy_file_roundtrip s path :
  g_policy_mutex s = false → writable s path = true → storable (g_policy_config s) →
  ∃ s', dynamic_policy_save_config path s = Ret 0 s' ∧
    g_policy_config s' = g_policy_config s ∧
    ∀ t, g_policy_mutex t = false → files t path = files s' path →
      dynamic_policy_load_config path t =
        Ret 0 (t <| g_policy_config := restored (g_policy_config s) (g_policy_config t) |>) ∧
      let saved := max_memory (limit (memory_policy (g_policy_config s))) in
      let read := max_memory (limit (memory_policy (restored (g_policy_config s) (g_policy_config t)))) in
      (saved < 2 ^ 52 → read = saved / MB * MB) ∧ read = saved / MB mod 2 ^ 32 * MB.
Proof.
  intros Hfree Hw Hc. unfold dynamic_policy_save_config.
  rw (bind_Ret _ _ _ _ _ (lock_policy_run s Hfree)). run. rw Hw. eexists. split_and!; [done|done|].
  intros t Ht Hfile. cbn -[settings file_text] in Hfile. rw String.eqb_refl in Hfile.
  unfold dynamic_policy_load_config. rw (bind_Ret _ _ t t t); [done|]. rw Hfile.
  rw (bind_Ret _ _ _ _ _ (lock_policy_run t Ht)). run. cbn -[settings file_text fgets_lines].
  split.
  - f_equal. rw -(load_saved _ (g_policy_config t) Hc). destruct t. cbn in Ht. by subst.
  - split; [|done]. intros Hsmall. cbn -[MB Z.div u32]. f_equal. apply u32_small.
    pose proof (storable_memory _ Hc). change MB with (2 ^ 20). width_lia.
Qed.

(** A manager before [dynamic_policy_init], on a freshly created shared memory. *)
Definition at_start : state :=
  mk_state config_zero false NoThread 0 (replicate (Z.to_nat MAX_TENANTS) tenant_policy_zero) false
    (Shm.fresh (λ _, (5, 6))) (λ _, None) (λ _, true) (Shm.mk_usage 7 7 7) 0 (λ _, 1700000000) [].

(** The default configuration with 3 MB and a half of memory. *)
Definition small_config : dynamic_policy_config_t :=
  set_rule RESOURCE_MEMORY (λ p, p <| limit := mk_limit 0 0 3670016 |>)
    (g_policy_config (after at_start (dynamic_policy_set_default at_start))).

Lemma policy_file_roundtrip_witness :
  let s := at_start <| g_policy_config := small_config |> in
  ∃ s', dynamic_policy_save_config "/etc/policy" s = Ret 0 s' ∧
    max_global (limit (qp_policy (restored small_config config_zero))) = 1000 ∧
    max_memory (limit (memory_policy (restored small_config config_zero))) = 3145728 ∧
    dynamic_policy_load_config "/etc/policy" (at_start <| files := files s' |>) =
      Ret 0 (at_start <| files := files s' |>
                      <| g_policy_config := restored small_config config_zero |>).
Proof.
  intros s. destruct (policy_file_roundtrip s "/etc/policy") as (s' & Hs & _ & Hload);
    [reflexivity|reflexivity|split; (split; by vm_compute)|].
  change (g_policy_config s) with small_config in Hload.
  exists s'. split_and!; [exact Hs|by vm_compute|by vm_compute|].
  exact (proj1 (Hload (at_start <| files := files s' |>) eq_refl eq_refl)).
Defined.

Create HintDb policy discriminated.

(** ** The tenant calls touch nothing but the table of tenants *)

(** Walk through the body of a call with the rules of [leads]. *)
Ltac lead :=
  repeat lazymatch goal with
    | |- leads _ _ (mret _) => apply leads_ret
    | |- leads _ _ hang => apply leads_hang
    | |- leads _ _ crash => apply leads_crash
    | |- leads _ _ (modify _) => first [apply leads_modify; intros ? HP; exact HP | auto with policy]
    | |- leads _ _ (match ?x with _ => _ end) => destruct x eqn:?
    | |- leads _ _ (get ≫= _) => apply leads_get; intros ?
    | |- leads ?P _ (modify _ ≫= _) =>
        apply (leads_bind _ P);
        [first [apply leads_modify; intros ? HP; exact HP | solve [auto with policy]]|intros ?]
    | |- leads _ _ (_ ≫= _) => eapply leads_bind; [solve [eauto with policy]|intros ?]
    end.

Definition tenant_call (c : call) : bool :=
  match c with
  | SetTenantPolicy _ _ | GetTenantPolicy _ _ | DeleteTenantPolicy _
  | CheckTenantLimit _ _ _ _ | GetAllTenantPolicies _ _ => true
  | _ => false
  end.

Section TenantCalls.
Context (P : state → Prop).
Context (Hmutex : ∀ s b, P s → P (s <| g_tenant_mutex := b |>)).
Context (Htable : ∀ s f, P s → P (s <| g_tenant_policies ::= f |>)).
Context (Hclock : ∀ s f, P s → P (s <| clock := f |>)).

Lemma keep_lock_tenants : leads P P lock_tenants.
Proof.
  apply leads_get. intros t. apply leads_if; [apply leads_hang|]. apply leads_modify. auto.
Qed.
Lemma keep_unlock_tenants : leads P P unlock_tenants.
Proof. apply leads_modify. auto. Qed.
Lemma keep_table f : leads P P (modify (λ s, s <| g_tenant_policies ::= f |>)).
Proof. apply leads_modify. auto. Qed.
Lemma keep_time : leads P P time.
Proof. intros s a s' HP. intros [= _ <-]. auto. Qed.

#[local] Hint Resolve keep_lock_tenants keep_unlock_tenants keep_table keep_time : policy.

Lemma keep_get_tenant tid out : leads P P (dynamic_policy_get_tenant_policy tid out).
Proof. unfold dynamic_policy_get_tenant_policy. lead. Qed.

#[local] Hint Resolve keep_get_tenant : policy.

Lemma keep_check_tenant tid n cur req :
  leads P P (dynamic_policy_check_tenant_limit tid n cur req).
Proof. unfold dynamic_policy_check_tenant_limit. cbv zeta. lead. Qed.

Lemma keep_get_all out n : leads P P (dynamic_policy_get_all_tenant_policies out n).
Proof. unfold dynamic_policy_get_all_tenant_policies. cbv zeta. lead. Qed.

#[local] Hint Resolve keep_check_tenant keep_get_all : policy.

Lemma tenant_calls_keep c : tenant_call c = true → leads P P (run_call c).
Proof.
  intros Hc. destruct c; try discriminate Hc; cbn [run_call]; try solve [lead].
  - unfold dynamic_policy_set_tenant_policy. lead.
  - unfold dynamic_policy_delete_tenant_policy. lead.
Qed.
End TenantCalls.

(** ** Published limits *)

Definition shared_limits (m : Shm.state) : Z * Z * Z :=
  (Shm.max_global_qp (Shm.shm m), Shm.max_global_mr (Shm.shm m), Shm.max_global_memory (Shm.shm m)).
Definition configured_limits (c : dynamic_policy_config_t) : Z * Z * Z :=
  (max_global (limit (qp_policy c)), max_global (limit (mr_policy c)),
   max_memory (limit (memory_policy c))).

Definition shm_ready (s : state) : Prop := Shm.ready (shm s).
Definition published (s : state) : Prop :=
  Shm.ready (shm s) ∧ shared_limits (shm s) = configured_limits (g_policy_config s).

Lemma keeps_lock (P : state → Prop) :
  (∀ s b, P s → P (s <| g_policy_mutex := b |>)) →
  leads P P lock_policy ∧ leads P P unlock_policy.
Proof.
  intros H. split; [|apply leads_modify; intros s; apply H].
  apply leads_get. intros t. apply leads_if; [apply leads_hang|apply leads_modify; intros s; apply H].
Qed.

Lemma published_lock : leads published published lock_policy.
Proof. by apply keeps_lock. Qed.
Lemma published_unlock : leads published published unlock_policy.
Proof. by apply keeps_lock. Qed.
Lemma ready_lock : leads shm_ready shm_ready lock_policy.
Proof. by apply keeps_lock. Qed.

Lemma published_usage : leads published published global_usage.
Proof. apply leads_pure; [|done]. intros s a s'. rw global_usage_run. by intros [= _ <-]. Qed.

Lemma publish_limits_run s :
  Shm.ready (shm s) → ∃ s', publish s = Ret tt s' ∧ published s'.
Proof.
  intros Hr. unfold publish.
  set (c := g_policy_config s).
  destruct (Shm.set_global_limits_run (shm s) (max_global (limit (qp_policy c)))
    (max_global (limit (mr_policy c))) (max_memory (limit (memory_policy c))) Hr)
    as (m & Hm & Hr' & _ & _ & Hq & Hmr & Hmem).
  exists (s <| shm := m |>). rw (bind_Ret _ _ s s s); [done|]. fold c.
  rw (bind_Ret _ _ s 0 (s <| shm := m |>)); [by unfold zoom; rw Hm|].
  split; [done|]. split; [done|]. unfold shared_limits, configured_limits. cbn. fold c. by rw Hq Hmr Hmem.
Qed.

(** [publish] touches nothing but the shared memory. *)
Lemma publish_keeps s s' :
  publish s = Ret tt s' →
  os_thread s' = os_thread s ∧ g_tenant_policies s' = g_tenant_policies s ∧
  g_tenant_mutex s' = g_tenant_mutex s ∧ g_policy_config s' = g_policy_config s.
Proof.
  unfold publish. intros (t & s0 & [= <- <-] & Hs)%bind_inv.
  apply bind_inv in Hs as (r & s1 & Hz & [= <-]). revert Hz. unfold zoom.
  destruct (Shm.shm_set_global_limits _ _ _ _); [|done..]. by intros [= _ <-].
Qed.

Lemma published_publish : leads shm_ready published publish.
Proof.
  intros s [] s' Hr Hs. destruct (publish_limits_run s Hr) as (s1 & Hs1 & ?). rw Hs1 in Hs. by injection Hs as <-.
Qed.

Lemma ready_config f : leads shm_ready shm_ready (set_config f).
Proof. by apply leads_modify. Qed.

Lemma published_config f :
  (∀ c, configured_limits (f c) = configured_limits c) → leads published published (set_config f).
Proof. intros Hf. apply leads_modify. intros s [Hr Hl]. split; [done|]. cbn. by rw Hf. Qed.

#[export] Hint Resolve published_lock published_unlock ready_lock published_usage published_publish
  ready_config : policy.

(** Calls that change the configuration without publishing it, or start over. *)
Definition resets (c : call) : bool :=
  match c with Init | Cleanup | SetDefault | LoadConfig _ => true | _ => false end.

Lemma enable_limits r b c :
  configured_limits (set_rule r (λ p, p <| enabled := b |>) c) = configured_limits c.
Proof. by destruct r. Qed.

Lemma published_ready P m : leads shm_ready P m → leads (A:=unit) published P m.
Proof. apply leads_weaken. by intros s []. Qed.

Lemma published_set_publish (P : state → Prop) f k :
  leads published P k → leads (A:=Z) published P (set_config f;; publish;; k).
Proof.
  intros Hk. apply (leads_bind _ shm_ready); [apply published_ready, ready_config|intros _].
  by apply (leads_bind _ published); [apply published_publish|intros _].
Qed.

Lemma published_auto_adjust e i h l :
  leads published published (dynamic_policy_set_auto_adjust e i h l).
Proof.
  unfold dynamic_policy_set_auto_adjust.
  eapply leads_bind; [apply published_lock|intros _].
  do 4 (eapply leads_bind; [apply published_config; intros c; by repeat case_match|intros _]).
  lead.
Qed.

Lemma published_adjust : leads published published dynamic_policy_adjust.
Proof.
  unfold dynamic_policy_adjust, advise. cbv zeta.
  lead; (apply (leads_bind _ published); [|intros _]; lead).
Qed.

Lemma published_get_limit n out : leads published published (dynamic_policy_get_limit n out).
Proof. unfold dynamic_policy_get_limit. lead. Qed.

#[export] Hint Resolve published_get_limit : policy.

Lemma published_check_limit n cur req :
  leads published published (dynamic_policy_check_limit n cur req).
Proof. unfold dynamic_policy_check_limit. cbv zeta. lead. Qed.

Lemma published_get_config out : leads published published (dynamic_policy_get_config out).
Proof. unfold dynamic_policy_get_config. lead. Qed.

Lemma published_print : leads published published dynamic_policy_print_config.
Proof. unfold dynamic_policy_print_config. lead. auto with policy. Qed.

#[export] Hint Resolve published_auto_adjust published_adjust published_check_limit
  published_get_config published_print : policy.

Lemma published_call c : resets c = false → leads published published (run_call c).
Proof.
  intros Hc. destruct (tenant_call c) eqn:Ht; [by apply tenant_calls_keep|].
  destruct c; try discriminate Hc; try discriminate Ht; cbn [run_call]; eauto with policy;
    try solve [lead].
  - unfold dynamic_policy_save_config. cbv zeta. lead.
  - unfold dynamic_policy_set_limit. lead. apply published_set_publish. lead.
  - unfold dynamic_policy_update. lead. apply published_set_publish. lead.
  - unfold dynamic_policy_enable_rule. lead.
    eapply leads_bind; [apply published_config; intros c'; apply enable_limits|intros _]. lead.
Qed.

(** The calls of other processes leave the limits alone. *)
Section OtherProcesses.
Context (L : Z * Z * Z).
Let P (m : Shm.state) : Prop := shared_limits m = L.

Definition keeps_limits (f : Shm.shared_memory_data_t → Shm.shared_memory_data_t) : Prop :=
  ∀ d, Shm.max_global_qp (f d) = Shm.max_global_qp d ∧
    Shm.max_global_mr (f d) = Shm.max_global_mr d ∧
    Shm.max_global_memory (f d) = Shm.max_global_memory d.

Lemma store_limits f : keeps_limits f → leads P P (Shm.store f).
Proof.
  intros Hf. apply leads_modify. intros t Ht. unfold P, shared_limits in *. cbn.
  destruct (Hf (Shm.shm t)) as (-> & -> & ->). exact Ht.
Qed.

Lemma lock_limits : leads P P Shm.shm_lock.
Proof. apply leads_get. intros t. apply leads_if; [by apply store_limits|apply leads_hang]. Qed.

Lemma clock_limits : leads P P Shm.get_current_time_ns.
Proof.
  intros t a t' Ht. unfold Shm.get_current_time_ns. destruct (Shm.clock t 0%nat).
  intros [= _ <-]. exact Ht.
Qed.

Lemma end_limits f v :
  keeps_limits f →
  leads P P (Shm.store f;; now ← Shm.get_current_time_ns; Shm.store (Shm.touch now);;
             Shm.shm_unlock;; mret v : M Shm.state Z).
Proof.
  intros Hf. eapply leads_bind; [by apply store_limits|intros _].
  eapply leads_bind; [apply clock_limits|intros now].
  eapply leads_bind; [by apply store_limits|intros _].
  eapply leads_bind; [by apply store_limits|intros _]. apply leads_ret.
Qed.

Lemma update_limits pid u : leads P P (Shm.shm_update_process_resources pid u).
Proof.
  apply leads_get. intros t. destruct u as [u|]; [|apply leads_ret].
  apply leads_if; [apply leads_ret|].
  eapply leads_bind; [apply lock_limits|intros _]. cbv zeta. apply leads_if.
  - eapply leads_bind; [by apply store_limits|intros _]. apply leads_ret.
  - apply (leads_bind _ P); [apply leads_if; [by apply store_limits|apply leads_ret]|intros _].
    by apply end_limits.
Qed.

Lemma global_limits u : leads P P (Shm.shm_update_global_resources u).
Proof.
  apply leads_get. intros t. destruct u as [u|]; [|apply leads_ret].
  apply leads_if; [apply leads_ret|].
  eapply leads_bind; [apply lock_limits|intros _]. by apply end_limits.
Qed.

Lemma read_limits pid u v :
  leads P P (Shm.shm_get_process_resources pid u) ∧ leads P P (Shm.shm_get_global_resources v).
Proof.
  split; apply leads_get; intros t.
  - destruct u; [|apply leads_ret]. apply leads_if; [apply leads_ret|].
    destruct (find_index _ _); [|apply leads_ret].
    destruct (_ !! _); [apply leads_ret|apply leads_crash].
  - destruct v; [|apply leads_ret]. apply leads_if; apply leads_ret.
Qed.

Lemma other_limits c :
  match c with Shm.SetLimits _ _ _ => False | _ => True end → leads P P (Shm.run_call c).
Proof.
  intros Hc. destruct c as [pid u|u|?|pid out|out]; try done; cbn [Shm.run_call].
  - apply update_limits.
  - apply global_limits.
  - apply (leads_bind _ P); [apply (read_limits pid out None)|intros ?; apply leads_ret].
  - apply (leads_bind _ P); [apply (read_limits 0 None out)|intros ?; apply leads_ret].
Qed.
End OtherProcesses.

Lemma published_step s s' :
  published s → step (λ c, resets c = false) s s' → published s'.
Proof.
  intros HP. destruct 1 as [c r s s' Hc Hrun|b s s' _ Hrun|s s' _ _ _ Hlock _|c r s m Hc Hrun].
  - by eapply published_call.
  - refine ((_ : leads published published adjust_thread_round) s b s' HP Hrun).
    unfold adjust_thread_round. lead.
  - apply (published_lock s tt s' HP Hlock).
  - destruct HP as [Hr Hl]. destruct (Shm.shm_call_ready c (shm s) Hr) as (r' & m' & Hm & Hr' & _).
    rw Hrun in Hm. injection Hm as <- <-. split; [done|].
    exact (other_limits _ c Hc (shm s) r m Hl Hrun).
Qed.

(** [publish] that finds the object mapped. *)
Lemma publish_mapped s s' :
  publish s = Ret tt s' → Shm.shm_data_ptr (shm s') = true →
  shared_limits (shm s') = configured_limits (g_policy_config s').
Proof.
  unfold publish, Shm.shm_set_global_limits, Shm.shm_lock, Shm.shm_unlock, Shm.store. run.
  destruct (Shm.shm_data_ptr (shm s)) eqn:Hp; cbn; rw ?Hp; cbn.
  - destruct (Shm.lock (Shm.shm (shm s)) =? 0); [|done]. by intros [= <-] _.
  - intros [= <-]. cbn. by rw Hp.
Qed.

(** The calls that end by publishing the configuration. *)
Definition publishes (c : call) : bool :=
  match c with Init | SetLimit _ _ | UpdateConfig _ => true | _ => false end.

Lemma publishes_limits c s s' :
  publishes c = true → run_call c s = Ret 0 s' → Shm.shm_data_ptr (shm s') = true →
  shared_limits (shm s') = configured_limits (g_policy_config s').
Proof.
  intros Hc Hrun Hp. destruct c as [| | | | |n [l|]| | |[c|]| | | | | | | | | |]; try done;
    cbn [run_call] in Hrun.
  - unfold dynamic_policy_init in Hrun.
    apply bind_inv in Hrun as (_ & s1 & _ & Hrun). apply bind_inv in Hrun as (_ & s2 & _ & Hrun).
    apply bind_inv in Hrun as (r & s3 & _ & Hrun). destruct (r =? 0); cbn [negb] in Hrun; [|done].
    apply bind_inv in Hrun as ([] & s4 & Hpub & Hrun). revert Hrun. run. cbn.
    destruct (os_thread s4 =? 0); cbn; [|done]. intros [= <-].
    exact (publish_mapped s3 s4 Hpub Hp).
  - unfold dynamic_policy_set_limit in Hrun. apply bind_inv in Hrun as (_ & s1 & _ & Hrun).
    destruct (resource_of n); [|done]. apply bind_inv in Hrun as (_ & s2 & _ & Hrun).
    apply bind_inv in Hrun as ([] & s3 & Hpub & Hrun). injection Hrun as <-.
    exact (publish_mapped s2 s3 Hpub Hp).
  - unfold dynamic_policy_update in Hrun. apply bind_inv in Hrun as (_ & s1 & _ & Hrun).
    apply bind_inv in Hrun as (_ & s2 & _ & Hrun).
    apply bind_inv in Hrun as ([] & s3 & Hpub & Hrun). injection Hrun as <-.
    exact (publish_mapped s2 s3 Hpub Hp).
Qed.

(** The limits the other processes read are the configured ones.  After an
    initialisation, a [dynamic_policy_set_limit] or a [dynamic_policy_update]
    that succeeded on a usable object, whatever calls, rounds of the adjusting
    thread and calls of other processes to the shared memory follow in any order
    (except a new initialisation, a clean-up, a reload of the file or of the
    defaults, and another process setting the limits itself), the limits in the
    shared memory equal those of the configuration, and the object stays usable. *)
Theorem limits_published c s0 s1 s2 :
  publishes c = true → run_call c s0 = Ret 0 s1 → Shm.ready (shm s1) →
  rtc (step (λ c, resets c = false)) s1 s2 →
  Shm.ready (shm s2) ∧ shared_limits (shm s2) = configured_limits (g_policy_config s2).
Proof.
  intros Hc Hrun Hr Hsteps. assert (HP : published s1).
  { split; [done|]. apply (publishes_limits c s0 s1 Hc Hrun), Hr. }
  clear Hrun Hr. induction Hsteps as [s|s t u Hst _ IH]; [exact HP|].
  by apply IH, (published_step s t).
Qed.

Lemma at_start_published : published at_start.
Proof. split; [apply Shm.shm_fresh_ready|reflexivity]. Qed.

Lemma limits_published_witness :
  let s1 := after at_start (run_call (SetLimit 0 (Some (mk_limit 5 50 0))) at_start) in
  let s2 := after s1 (run_call (EnableRule 0 false) s1) in
  shared_limits (shm s2) = (50, 0, 0) ∧ shared_limits (shm s2) = configured_limits (g_policy_config s2).
Proof.
  intros s1 s2. split; [by vm_compute|].
  assert (H1 : run_call (SetLimit 0 (Some (mk_limit 5 50 0))) at_start = Ret 0 s1) by reflexivity.
  assert (H2 : run_call (EnableRule 0 false) s1 = Ret 0 s2) by reflexivity.
  apply (limits_published (SetLimit 0 (Some (mk_limit 5 50 0))) at_start s1 s2 eq_refl H1).
  - exact (proj1 (published_call (SetLimit 0 (Some (mk_limit 5 50 0))) eq_refl
      _ _ _ at_start_published H1)).
  - apply rtc_once. exact (step_call (λ c, resets c = false) (EnableRule 0 false) 0 s1 s2 eq_refl H2).
Defined.

(** ** The adjusting thread *)

(** The calls that reach the policy mutex in [s]. *)
Definition needs_mutex (s : state) (c : call) : bool :=
  match c with
  | LoadConfig path => bool_decide (is_Some (files s path))
  | SetLimit _ l => bool_decide (is_Some l)
  | GetLimit _ out => bool_decide (is_Some out)
  | UpdateConfig c => bool_decide (is_Some c)
  | GetConfig out => bool_decide (is_Some out)
  | SetTenantPolicy _ _ | GetTenantPolicy _ _ | DeleteTenantPolicy _
  | CheckTenantLimit _ _ _ _ | GetAllTenantPolicies _ _ => false
  | _ => true
  end.

(** The thread holds the mutex and waits for it. *)
Record deadlocked (s : state) : Prop := {
  dead_mutex : g_policy_mutex s = true;
  dead_thread : g_adjust_thread s = Stuck;
}.

Lemma bind_Hang {S A B} (m : M S A) (k : A → M S B) s : m s = Hang → (m ≫= k) s = Hang.
Proof. unfold mbind, M_bind. by intros ->. Qed.

Lemma deadlocked_hangs s c : deadlocked s → needs_mutex s c = true → run_call c s = Hang.
Proof.
  intros [Hm Ht] Hc. pose proof (lock_policy_blocked s Hm) as Hl.
  destruct c as [| | |path|path|n l|n out|n cur req|c|out|e i h l| | |n b| | | | |]; try done;
    cbn [run_call needs_mutex] in *;
    try (apply bool_decide_eq_true in Hc as [x Hx]; subst);
    try solve [repeat first [exact Hl | apply bind_Hang]].
  - apply bind_Hang. unfold dynamic_policy_cleanup, join_adjust_thread. run. cbn. by rw Ht.
  - unfold dynamic_policy_load_config. rw (bind_Ret _ _ s s s) // Hx. by apply bind_Hang.
Qed.

(** No call, round or other process gets the thread out. *)
Lemma deadlocked_step s s' : deadlocked s → step (λ _, True) s s' → deadlocked s'.
Proof.
  intros Hd. pose proof Hd as [Hm Ht]. destruct 1 as [c r s s' _ Hrun|b s s' Hj _|s s' Hj _ _ _ _|c r s m _ Hrun];
    [|congruence|congruence|by split].
  destruct (needs_mutex s c) eqn:Hc; [by rw (deadlocked_hangs s c Hd Hc) in Hrun|].
  destruct (tenant_call c) eqn:Htc.
  { eapply (tenant_calls_keep deadlocked); [by intros ?? []..|exact Htc|exact Hd|exact Hrun]. }
  assert (s' = s) as ->; [|done].
  destruct c as [| | |path| |n [l|]|n [out|]| |[c|]|[out|]| | | | | | | | |]; try done;
    cbn [run_call] in Hrun; try by injection Hrun.
  unfold dynamic_policy_load_config in Hrun. rw (bind_Ret _ _ s s s) // in Hrun.
  cbn in Hc. destruct (files s path); [by rw bool_decide_eq_false in Hc; destruct Hc|by injection Hrun].
Qed.

(** C36: with automatic adjustment switched on, the adjusting thread locks
    [g_policy_mutex] and calls [dynamic_policy_adjust], which locks it again: the
    round never ends, the thread keeps the mutex, and from then on, whatever else
    happens, every call that takes the mutex (checks, limits, the clean-up)
    never returns. *)
Theorem adjust_thread_deadlocks s :
  g_adjust_thread s = Joinable → g_running s ≠ 0 → auto_adjust (g_policy_config s) = true →
  g_policy_mutex s = false →
  adjust_thread_round s = Hang ∧
  ∃ s1, step (λ _, True) s s1 ∧
    ∀ s2 c, rtc (step (λ _, True)) s1 s2 → needs_mutex s2 c = true → run_call c s2 = Hang.
Proof.
  intros Hj Hr Ha Hm. pose proof (lock_policy_run s Hm) as Hl.
  assert (Hh : dynamic_policy_adjust (s <| g_policy_mutex := true |>) = Hang).
  { apply bind_Hang. by apply lock_policy_blocked. }
  split.
  - unfold adjust_thread_round. rw (bind_Ret _ _ s s s) // (proj2 (Z.eqb_neq _ _) Hr) Ha.
    rw (bind_Ret _ _ _ _ _ Hl). by apply bind_Hang.
  - eexists. split; [by apply (step_stuck _ s _ Hj Hr Ha Hl Hh)|].
    intros s2 c Hsteps Hc. apply deadlocked_hangs; [|done]. clear Hc.
    match goal with H : rtc _ ?s1 _ |- _ => assert (Hd : deadlocked s1) by by split end.
    induction Hsteps as [t|t u v Hst _ IH]; [exact Hd|]. by apply IH, (deadlocked_step t).
Qed.

(** A manager that has been initialised. *)
Definition running : state := after at_start (dynamic_policy_init at_start).

Lemma adjust_thread_deadlocks_witness :
  let s := after running (dynamic_policy_set_auto_adjust true 5 float_0_8 float_0_2 running) in
  adjust_thread_round s = Hang ∧
  ∃ s1, step (λ _, True) s s1 ∧ run_call Cleanup s1 = Hang ∧ run_call (CheckLimit 0 1 1) s1 = Hang.
Proof.
  intros s. destruct (adjust_thread_deadlocks s) as (Hr & s1 & Hst & Hall);
    [by vm_compute|by vm_compute|by vm_compute|by vm_compute|].
  split; [exact Hr|]. exists s1. split_and!; [exact Hst|by apply Hall|by apply Hall].
Defined.

(** ** Checks *)

(** The global count a check compares: only QPs and MRs have one. *)
Definition global_count (r : resource_type) (u : Shm.resource_usage_t) : Z :=
  match r with
  | RESOURCE_QP => u32 (Shm.qp_count u)
  | RESOURCE_MR => u32 (Shm.mr_count u)
  | _ => 0
  end.

Definition exceeded (l : resource_limit_t) (global cur req : Z) : bool :=
  (max_global l <? u32 (global + req)) || (max_per_process l <? u32 (cur + req)).

Lemma get_limit_run s n r out :
  resource_of n = Some r → g_policy_mutex s = false →
  dynamic_policy_get_limit n (Some out) s = Ret (0, Some (limit (rule_of r (g_policy_config s)))) s.
Proof.
  intros Hn Hm. unfold dynamic_policy_get_limit.
  rw (bind_Ret _ _ _ _ _ (lock_policy_run s Hm)) (bind_Ret _ _ _ _ _ (eq_refl : get _ = Ret _ _)) Hn.
  run. cbn. by rw unlock_lock_policy.
Qed.

Lemma policy_check_run s n r cur req :
  resource_of n = Some r → g_policy_mutex s = false →
  dynamic_policy_check_limit n cur req s =
    Ret (exceeded (limit (rule_of r (g_policy_config s)))
           (global_count r (if Shm.shm_data_ptr (shm s) then Shm.global_stats (Shm.shm (shm s))
                            else stack_garbage s)) cur req) s.
Proof.
  intros Hn Hm. unfold dynamic_policy_check_limit.
  rw (bind_Ret _ _ _ _ _ (get_limit_run s n r limit_zero Hn Hm)).
  rw (bind_Ret _ _ _ _ _ (global_usage_run s)) Hn.
  unfold exceeded. cbv zeta. set (u := if Shm.shm_data_ptr _ then _ else _).
  change (match r with RESOURCE_QP => u32 (Shm.qp_count u) | RESOURCE_MR => u32 (Shm.mr_count u)
          | _ => 0 end) with (global_count r u).
  destruct (_ <? _); [done|]. by destruct (_ <? _).
Qed.

(** What [dynamic_policy_check_limit] answers on a mapped object: "exceeded"
    exactly when the global count (of QPs and MRs; 0 for every other resource)
    plus the request passes [max_global], or the caller's count plus the request
    passes [max_per_process], as long as the sums fit 32 bits; a sum that does
    not fit wraps.  The memory limit [max_memory] has no part in it, and neither
    has the [enabled] switch: after [dynamic_policy_enable_rule] every answer is
    the same. *)
Theorem check_limit_verdict s n r cur req :
  resource_of n = Some r → g_policy_mutex s = false → Shm.shm_data_ptr (shm s) = true →
  is_u32 cur → is_u32 req →
  let l := limit (rule_of r (g_policy_config s)) in
  let global := global_count r (Shm.global_stats (Shm.shm (shm s))) in
  ∃ b, dynamic_policy_check_limit n cur req s = Ret b s ∧
    (global + req < 2 ^ 32 → cur + req < 2 ^ 32 →
     b = true ↔ max_global l < global + req ∨ max_per_process l < cur + req) ∧
    ∀ m e s', dynamic_policy_enable_rule m e s = Ret 0 s' →
      dynamic_policy_check_limit n cur req s' = Ret b s'.
Proof.
  intros Hn Hm Hp Hcur Hreq l global. pose proof (policy_check_run s n r cur req Hn Hm) as Hrun.
  rw Hp in Hrun. fold l in Hrun. fold global in Hrun. eexists. split; [exact Hrun|]. split.
  - intros Hg Hc. assert (Hglobal : 0 ≤ global).
    { unfold global, global_count. destruct r; try lia; apply u32_range. }
    unfold exceeded. rw !u32_small; [width_lia..|]. rw orb_true_iff !Z.ltb_lt. done.
  - intros m e s' He. unfold dynamic_policy_enable_rule in He.
    rw (bind_Ret _ _ _ _ _ (lock_policy_run s Hm)) in He.
    destruct (resource_of m) as [rm|]; [|done]. revert He. run. intros [= <-].
    rw (policy_check_run _ n r cur req Hn); [done|]. cbn. rw Hp. fold global.
    do 2 f_equal. unfold l. by destruct rm, r.
Qed.

(** The default memory rule refuses one byte, whatever its 10 GB. *)
Lemma check_limit_verdict_witness :
  dynamic_policy_check_limit 4 0 1 running = Ret true running ∧
  max_memory (limit (memory_policy (g_policy_config running))) = 10737418240.
Proof.
  destruct (check_limit_verdict running 4 RESOURCE_MEMORY 0 1) as (b & Hb & Hv & _);
    [reflexivity|by vm_compute|by vm_compute|done|done|].
  assert (b = true) as ->.
  { apply Hv; [by vm_compute|done|]. left. by vm_compute. }
  split; [exact Hb|by vm_compute].
Defined.

(** ** Policies of tenants *)

Lemma collect_policies_spec ps count max_count :
  count ≤ max_count →
  collect_policies ps count max_count =
    take (Z.to_nat (max_count - count)) (filter (λ p, tenant_id p ≠ 0) ps).
Proof.
  revert count. induction ps as [|p ps IH]; intros count Hc; [by destruct (Z.to_nat _)|].
  cbn [collect_policies]. destruct (Z.ltb_spec count max_count) as [Hlt|Hge].
  - rw filter_cons. destruct (Z.eqb_spec (tenant_id p) 0) as [Hz|Hz]; cbn [negb].
    + rw decide_False; [naive_solver|]. by apply IH.
    + rw decide_True; [done|]. replace (Z.to_nat (max_count - count)) with
        (S (Z.to_nat (max_count - (count + 1)))) by lia.
      cbn [take firstn]. by rw IH; [lia|].
  - by replace (Z.to_nat (max_count - count)) with 0%nat by lia.
Qed.

(** The table of tenants is whole and unlocked. *)
Record tenants_ok (s : state) : Prop := {
  tenants_length : length (g_tenant_policies s) = Z.to_nat MAX_TENANTS;
  tenants_free : g_tenant_mutex s = false;
}.

Definition tenant_policy_of (s : state) (tid : Z) : tenant_policy_t :=
  default tenant_policy_zero (g_tenant_policies s !! Z.to_nat tid).

Lemma lock_tenants_run s :
  g_tenant_mutex s = false → lock_tenants s = Ret tt (s <| g_tenant_mutex := true |>).
Proof. intros H. unfold lock_tenants. run. by rw H. Qed.

Lemma get_tenant_run s tid out :
  tenants_ok s → 0 ≤ tid < MAX_TENANTS →
  dynamic_policy_get_tenant_policy tid (Some out) s = Ret (0, Some (tenant_policy_of s tid)) s.
Proof.
  intros [Hl Hf] Ht. unfold dynamic_policy_get_tenant_policy, tenant_policy_of.
  rw (proj2 (Z.leb_gt _ _)); [lia|]. rw (bind_Ret _ _ _ _ _ (lock_tenants_run s Hf)). run. cbn.
  destruct (lookup_lt_is_Some_2 (g_tenant_policies s) (Z.to_nat tid)) as [p ->];
    [rw Hl; unfold MAX_TENANTS in *; lia|]. cbn. do 2 f_equal. destruct s. cbn in *. by subst.
Qed.

Lemma put_tenant_of s tid q p clk :
  tenants_ok s → 0 ≤ tid < MAX_TENANTS → 0 ≤ q →
  tenant_policy_of (s <| g_tenant_policies ::= <[Z.to_nat tid := p]> |> <| clock := clk |>) q =
    if decide (q = tid) then p else tenant_policy_of s q.
Proof.
  intros [Hl _] Ht Hq. unfold tenant_policy_of. cbn. case_decide as Hd; [subst q|].
  - rw list_lookup_insert_eq; [rw Hl; unfold MAX_TENANTS in *; lia|done].
  - rw list_lookup_insert_ne; [lia|done].
Qed.

Lemma get_all_run s n :
  tenants_ok s → 0 < n →
  ∃ l, dynamic_policy_get_all_tenant_policies true n s = Ret (Z.of_nat (length l), l) s ∧
    l = take (Z.to_nat n) (filter (λ p, tenant_id p ≠ 0) (g_tenant_policies s)).
Proof.
  intros [_ Hf] Hn. unfold dynamic_policy_get_all_tenant_policies.
  rw (proj2 (Z.leb_gt _ _) Hn). cbn [negb orb].
  rw (bind_Ret _ _ _ _ _ (lock_tenants_run s Hf)). run.
  exists (collect_policies (g_tenant_policies s) 0 n).
  split; [destruct s; cbn in Hf; by subst|].
  rw collect_policies_spec; [lia|]. by rw Z.sub_0_r.
Qed.

Lemma set_tenant_run s tid p :
  tenants_ok s → tid < MAX_TENANTS →
  dynamic_policy_set_tenant_policy tid (Some p) s =
    Ret 0 (s <| g_tenant_policies ::= <[Z.to_nat tid := p <| last_updated := clock s 0%nat |>]> |>
             <| clock := λ n, clock s (S n) |>).
Proof.
  intros [_ Hf] Ht. unfold dynamic_policy_set_tenant_policy.
  rw (proj2 (Z.leb_gt _ _) Ht) (bind_Ret _ _ _ _ _ (lock_tenants_run s Hf)).
  unfold time. run. cbn. destruct s. cbn in Hf. by subst.
Qed.

Lemma delete_tenant_run s tid :
  tenants_ok s → tid < MAX_TENANTS →
  dynamic_policy_delete_tenant_policy tid s =
    Ret 0 (s <| g_tenant_policies ::= <[Z.to_nat tid := tenant_policy_zero]> |> <| clock := clock s |>).
Proof.
  intros [_ Hf] Ht. unfold dynamic_policy_delete_tenant_policy.
  rw (proj2 (Z.leb_gt _ _) Ht) (bind_Ret _ _ _ _ _ (lock_tenants_run s Hf)).
  run. cbn. destruct s. cbn in Hf. by subst.
Qed.

Lemma put_tenant_ok s i p clk :
  tenants_ok s → tenants_ok (s <| g_tenant_policies ::= <[i := p]> |> <| clock := clk |>).
Proof. intros [Hl Hf]. split; [cbn; by rw length_insert|done]. Qed.

(** The tenant policies are a table indexed by the tenant id: a stored policy
    is the one read back, stamped with the current time, the other tenants keep
    theirs; a deleted one reads as zeros; an id of [MAX_TENANTS] or more is
    refused; and a list of all policies holds, in order of their index, the first
    [max_count] entries whose [tenant_id] field is not 0. *)
Theorem tenant_policy_table s tid p :
  tenants_ok s → 0 ≤ tid →
  ∃ r s', dynamic_policy_set_tenant_policy tid (Some p) s = Ret r s' ∧ tenants_ok s' ∧
    r = (if tid <? MAX_TENANTS then 0 else -1) ∧
    (∀ q, 0 ≤ q < MAX_TENANTS → dynamic_policy_get_tenant_policy q (Some tenant_policy_zero) s' =
       Ret (0, Some (if decide (q = tid) then p <| last_updated := clock s 0%nat |>
                     else tenant_policy_of s q)) s') ∧
    (∀ n, 0 < n → ∃ l, dynamic_policy_get_all_tenant_policies true n s' =
       Ret (Z.of_nat (length l), l) s' ∧
       l = take (Z.to_nat n) (filter (λ p, tenant_id p ≠ 0) (g_tenant_policies s'))) ∧
    ∃ s'', dynamic_policy_delete_tenant_policy tid s' = Ret r s'' ∧ tenants_ok s'' ∧
      ∀ q, 0 ≤ q < MAX_TENANTS →
        tenant_policy_of s'' q = if decide (q = tid) then tenant_policy_zero else tenant_policy_of s q.
Proof.
  intros Hok Ht. destruct (Z.ltb_spec tid MAX_TENANTS) as [Hlt|Hge].
  - eexists 0, _. split; [by apply set_tenant_run|].
    match goal with |- tenants_ok ?s1 ∧ _ => set (s' := s1) end.
    assert (Hok' : tenants_ok s') by by apply put_tenant_ok.
    split_and!; [done|done| | |].
    + intros q Hq. rw (get_tenant_run s' q) //. do 3 f_equal. apply put_tenant_of; [done|lia|lia].
    + intros n Hn. by apply get_all_run.
    + eexists. split_and!; [by apply delete_tenant_run|by apply put_tenant_ok|].
      intros q Hq. rw put_tenant_of; [done|lia|lia|].
      unfold s'. rw put_tenant_of; [done|lia|lia|]. by destruct (decide (q = tid)).
  - exists (-1), s. unfold dynamic_policy_set_tenant_policy, dynamic_policy_delete_tenant_policy.
    rw (proj2 (Z.leb_le _ _) Hge). split_and!; [done..| | |].
    + intros q Hq. rw decide_False; [lia|]. by apply get_tenant_run.
    + intros n Hn. by apply get_all_run.
    + exists s. split_and!; [done..|]. intros q Hq. by rw decide_False; [lia|].
Qed.

Lemma tenant_policy_table_witness :
  let p := mk_tenant_policy 5 "five" small_config 0 in
  ∃ s', dynamic_policy_set_tenant_policy 5 (Some p) at_start = Ret 0 s' ∧
    dynamic_policy_get_tenant_policy 5 (Some tenant_policy_zero) s' =
      Ret (0, Some (p <| last_updated := 1700000000 |>)) s'.
Proof.
  intros p. destruct (tenant_policy_table at_start 5 p) as (r & s' & Hs & _ & -> & Hget & _);
    [by split|lia|].
  exists s'. split; [exact Hs|]. exact (Hget 5 ltac:(split; [lia|by vm_compute])).
Defined.

End PolicyProps.
