(* ===== verification/PolicyTests.v ===== *)
(** * The tests of the policy manager

    The program [test_dynamic_policy.c], run on the model: what the repository's own
    tests expect of the policy manager is what its definitions do. *)

From S2P Require Import Prelude CString CFloat ShmProcess PolicyManager PolicyProps.

Module PolicyTests.
Import Policy PolicyProps.

(** [TEST_ASSERT]: the test function returns -1 when the condition fails. *)
Definition test_assert (cond : bool) (k : M state Z) : M state Z := if cond then k else mret (-1).

Definition float_0_75 : spec_float := S754_finite false 12582912 (-24).
Definition float_0_25 : spec_float := S754_finite false 8388608 (-25).

Definition test_dynamic_policy_basic : M state Z :=
  r ← dynamic_policy_init;
  test_assert (r =? 0) (
  c ← dynamic_policy_get_config (Some config_zero);
  test_assert (fst c =? 0) (
  let config := default config_zero (snd c) in
  test_assert (max_per_process (limit (qp_policy config)) =? 100) (
  test_assert (max_global (limit (qp_policy config)) =? 1000) (
  r ← dynamic_policy_set_limit 0 (Some (mk_limit 50 500 (1024 * 1024 * 1024)));
  test_assert (r =? 0) (
  l ← dynamic_policy_get_limit 0 (Some limit_zero);
  test_assert (fst l =? 0) (
  let read_limit := default limit_zero (snd l) in
  test_assert (max_per_process read_limit =? 50) (
  test_assert (max_global read_limit =? 500) (
  b ← dynamic_policy_check_limit 0 40 5;
  test_assert (negb b) (
  b ← dynamic_policy_check_limit 0 48 5;
  test_assert b (
  r ← dynamic_policy_set_auto_adjust true 30 float_0_8 float_0_2;
  test_assert (r =? 0) (
  dynamic_policy_cleanup;;
  mret 0))))))))))).

Definition test_policy : tenant_policy_t :=
  mk_tenant_policy 1 "TestTenant"
    (set_rule RESOURCE_MR (λ p, p <| limit := mk_limit 60 600 0 |>)
      (set_rule RESOURCE_QP (λ p, p <| limit := mk_limit 30 300 0 |>) config_zero)) 0.

Definition test_tenant_policy : M state Z :=
  r ← dynamic_policy_init;
  test_assert (r =? 0) (
  r ← dynamic_policy_set_tenant_policy 1 (Some test_policy);
  test_assert (r =? 0) (
  p ← dynamic_policy_get_tenant_policy 1 (Some tenant_policy_zero);
  test_assert (fst p =? 0) (
  let read_policy := default tenant_policy_zero (snd p) in
  test_assert (tenant_id read_policy =? 1) (
  test_assert (max_per_process (limit (qp_policy (policy read_policy))) =? 30) (
  b ← dynamic_policy_check_tenant_limit 1 0 25 3;
  test_assert (negb b) (
  b ← dynamic_policy_check_tenant_limit 1 0 28 5;
  test_assert b (
  r ← dynamic_policy_delete_tenant_policy 1;
  test_assert (r =? 0) (
  dynamic_policy_cleanup;;
  mret 0)))))))).

(** The file the test writes. *)
Definition test_file : string := "/tmp/test_policy.conf".

Definition has_max_qp (line : string) : bool :=
  match strstr "max_qp_per_process" line, strstr "75" line with Some _, Some _ => true | _, _ => false end.

Definition test_policy_config_file : M state Z :=
  r ← dynamic_policy_init;
  test_assert (r =? 0) (
  dynamic_policy_set_limit 0 (Some (mk_limit 75 750 0));;
  dynamic_policy_set_auto_adjust false 60 float_0_75 float_0_25;;
  r ← dynamic_policy_save_config test_file;
  test_assert (r =? 0) (
  s ← get;
  test_assert (bool_decide (is_Some (files s test_file))) (
  let lines := fgets_lines 256 (default EmptyString (files s test_file)) in
  test_assert (existsb has_max_qp lines) (
  dynamic_policy_set_default;;
  r ← dynamic_policy_load_config test_file;
  test_assert (r =? 0) (
  l ← dynamic_policy_get_limit 0 (Some limit_zero);
  test_assert (max_per_process (default limit_zero (snd l)) =? 75) (
  dynamic_policy_cleanup;;
  mret 0)))))).

(** The exit code is the number of tests that failed. *)
Definition main : M state Z :=
  r1 ← test_dynamic_policy_basic;
  r2 ← test_tenant_policy;
  r3 ← test_policy_config_file;
  mret (Z.of_nat (length (filter (λ r, r ≠ 0) [r1; r2; r3]))).

(** The tests of the policy manager pass on a fresh system, whatever the clock
    says, whatever files there are, and whatever is on the stack. *)
Theorem policy_tests_pass f clk g :
  ∃ s', main (at_start <| files := f |> <| clock := clk |> <| stack_garbage := g |>) = Ret 0 s'.
Proof. eexists. vm_compute. reflexivity. Qed.
End PolicyTests.
