(* ===== verification/CollectorShm.v ===== *)
(** * The collector on shared memory ([src/collector_server_shm.c])

    A service that copies the figures the eBPF programs keep in kernel maps into
    the process shared memory of [ShmProcess], every 100 ms, and publishes the
    global limits it finds in its environment.  The kernel's maps are an argument:
    the keys a traversal yields, and what the lookups answer. *)

From S2P Require Import Prelude CString SlotTable ShmProcess.

Module CollectorShm.
#[local] Existing Instances Shm.expand_state Shm.expand_data Shm.expand_usage Shm.usage_inhabited.

(** What [bpf_map_get_next_key] yields from key 0 on, and the answers of
    [bpf_map_lookup_elem] in the two maps. *)
Record kernel_maps := mk_maps {
  process_keys : list Z;                             (* uint32_t *)
  process_usage : Z → option Shm.resource_usage_t;
  global_usage : option Shm.resource_usage_t;
}.

Record service := mk_service {
  running : Z;
  max_global_qp : Z;          (* uint32_t *)
  max_global_memory : Z;      (* uint64_t *)
  qp_count_mutex : bool;
  memory_count_mutex : bool;
  ebpf_sync_mutex : bool;
  process_resources_map_fd : Z;
  global_resources_map_fd : Z;
  sync_thread : bool;         (* started *)
  shm : Shm.state;
  getenv : string → option string;
  bpf_obj_get : string → Z;
  os_thread : Z;              (* pthread_create *)
}.
#[export] Instance expand_service : Expand service := λ r,
  mk_service (running r) (max_global_qp r) (max_global_memory r) (qp_count_mutex r)
    (memory_count_mutex r) (ebpf_sync_mutex r) (process_resources_map_fd r)
    (global_resources_map_fd r) (sync_thread r) (shm r) (getenv r) (bpf_obj_get r) (os_thread r).

(** ** Limits from the environment *)

Definition update_max_global_qp : M service unit :=
  s ← get;
  match getenv s "RDMA_INTERCEPT_MAX_GLOBAL_QP" with
  | None => mret tt
  | Some max_qp_str =>
      let new_max := u32 (atoi max_qp_str) in
      if 0 <? new_max then
        if qp_count_mutex s then hang else
        modify (λ s, s <| qp_count_mutex := true |>);;
        modify (λ s, s <| max_global_qp := new_max |>);;
        modify (λ s, s <| qp_count_mutex := false |>)
      else mret tt
  end.

Definition update_max_global_memory : M service unit :=
  s ← get;
  match getenv s "RDMA_INTERCEPT_MAX_GLOBAL_MEMORY" with
  | None => mret tt
  | Some max_memory_str =>
      let new_max := u64 (atoll max_memory_str) in
      if 0 <? new_max then
        if memory_count_mutex s then hang else
        modify (λ s, s <| memory_count_mutex := true |>);;
        modify (λ s, s <| max_global_memory := new_max |>);;
        modify (λ s, s <| memory_count_mutex := false |>)
      else mret tt
  end.

Definition signal_handler : M service unit := modify (λ s, s <| running := 0 |>).

(** ** Synchronisation *)

(** The three figures and the version, under the lock of the object. *)
Definition store_global (u : Shm.resource_usage_t) : M Shm.state unit :=
  Shm.shm_lock;;
  Shm.store (λ d, d <| Shm.global_stats ::= λ g, g <| Shm.qp_count := Shm.qp_count u |> |>);;
  Shm.store (λ d, d <| Shm.global_stats ::= λ g, g <| Shm.mr_count := Shm.mr_count u |> |>);;
  Shm.store (λ d, d <| Shm.global_stats ::= λ g, g <| Shm.memory_used := Shm.memory_used u |> |>);;
  Shm.store (λ d, d <| Shm.version ::= λ v, u64 (v + 1) |>);;
  Shm.shm_unlock.

(** The loop over the process map; the key becomes a [pid_t], the result of the
    update is ignored. *)
Definition copy_process (k : kernel_maps) (next_pid : Z) : M Shm.state unit :=
  match process_usage k next_pid with
  | Some usage => Shm.shm_update_process_resources (i32 next_pid) (Some usage);; mret tt
  | None => mret tt
  end.
Fixpoint copy_processes (k : kernel_maps) (keys : list Z) : M Shm.state unit :=
  match keys with
  | [] => mret tt
  | next_pid :: keys' => copy_process k next_pid;; copy_processes k keys'
  end.

Definition sync_ebpf_data_to_shared_memory (k : kernel_maps) : M service unit :=
  s ← get;
  if ebpf_sync_mutex s then hang else
  modify (λ s, s <| ebpf_sync_mutex := true |>);;
  ptr ← zoom shm Shm.shm_get_ptr;
  if negb ptr then modify (λ s, s <| ebpf_sync_mutex := false |>) else
  (if 0 <=? global_resources_map_fd s then
     match global_usage k with
     | Some u => zoom shm (store_global u)
     | None => mret tt
     end
   else mret tt);;
  (if 0 <=? process_resources_map_fd s then zoom shm (copy_processes k (process_keys k))
   else mret tt);;
  modify (λ s, s <| ebpf_sync_mutex := false |>).

(** [sync_thread_func]: one round per contents of the kernel maps. *)
Fixpoint sync_thread_func (ks : list kernel_maps) : M service unit :=
  s ← get;
  if running s =? 0 then mret tt else
  match ks with
  | [] => mret tt
  | k :: ks' => sync_ebpf_data_to_shared_memory k;; sync_thread_func ks'
  end.

(** ** Start and stop *)

Definition initialize_service : M service Z :=
  r ← zoom shm Shm.shm_init;
  if negb (r =? 0) then mret (-1) else
  update_max_global_qp;;
  update_max_global_memory;;
  s ← get;
  zoom shm (Shm.shm_set_global_limits (max_global_qp s) 1000 (max_global_memory s));;
  modify (λ s, s <| process_resources_map_fd := bpf_obj_get s "/sys/fs/bpf/process_resources" |>);;
  modify (λ s, s <| global_resources_map_fd := bpf_obj_get s "/sys/fs/bpf/global_resources" |>);;
  s ← get;
  if negb (os_thread s =? 0) then mret (-1) else
  modify (λ s, s <| sync_thread := true |>);;
  mret 0.

(** [pthread_join] returns: the thread ends at its next test of [running]. The
    descriptors are closed but keep their numbers. *)
Definition cleanup_service : M service unit := modify (λ s, s <| running := 0 |>).

(** [main]: the exit code; [ks] are the contents the thread sees until a signal
    stops the service. *)
Definition main (ks : list kernel_maps) : M service Z :=
  r ← initialize_service;
  if negb (r =? 0) then mret 1 else
  sync_thread_func ks;;
  signal_handler;;
  cleanup_service;;
  mret 0.

(** ** The table after a synchronisation *)

(** The kernel's figures of a list of keys, the last one winning, over [m]. *)
Definition copied_one (k : kernel_maps) (n : Z) (m : gmap Z Shm.resource_usage_t) :
    gmap Z Shm.resource_usage_t :=
  match process_usage k n with
  | Some u => if 0 <? i32 n then <[i32 n := u]> m else m
  | None => m
  end.
Definition copied (k : kernel_maps) (keys : list Z) (m : gmap Z Shm.resource_usage_t) :
    gmap Z Shm.resource_usage_t := foldl (λ m n, copied_one k n m) m keys.

(** What a synchronisation may change of a usable object. *)
Record copied_into (s : Shm.state) (g : Shm.resource_usage_t) (m : gmap Z Shm.resource_usage_t)
    (s' : Shm.state) : Prop := {
  copied_ready : Shm.ready s';
  copied_global : Shm.global_stats (Shm.shm s') = g;
  copied_table : Shm.table (Shm.shm s') = m;
  copied_limits : Shm.max_global_qp (Shm.shm s') = Shm.max_global_qp (Shm.shm s) ∧
    Shm.max_global_mr (Shm.shm s') = Shm.max_global_mr (Shm.shm s) ∧
    Shm.max_global_memory (Shm.shm s') = Shm.max_global_memory (Shm.shm s);
}.

Lemma copied_dom k keys m : dom m ⊆ dom (copied k keys m).
Proof.
  revert m. induction keys as [|n keys IH]; intros m; [done|]. cbn [copied foldl].
  etrans; [|apply IH]. unfold copied_one. destruct (process_usage k n); [|done].
  destruct (0 <? i32 n); [|done]. rw dom_insert_L. set_solver.
Qed.

Lemma store_global_run u s :
  Shm.ready s → ∃ s', store_global u s = Ret tt s' ∧ copied_into s u (Shm.table (Shm.shm s)) s'.
Proof.
  intros [Hp Hl Hd]. unfold store_global, Shm.shm_lock, Shm.shm_unlock, Shm.store. run. rw Hl. cbn.
  eexists. split; [reflexivity|]. split; cbn; [|by destruct u|done|done].
  split; [done..|]. destruct Hd. by split.
Qed.

Lemma update_copied n u s g :
  Shm.ready s → Shm.global_stats (Shm.shm s) = g →
  Z.of_nat (size (if 0 <? n then <[n := u]> (Shm.table (Shm.shm s)) else Shm.table (Shm.shm s)))
    ≤ Shm.MAX_PROCESSES →
  ∃ r s', Shm.shm_update_process_resources n (Some u) s = Ret r s' ∧
    copied_into s g (if 0 <? n then <[n := u]> (Shm.table (Shm.shm s)) else Shm.table (Shm.shm s)) s'.
Proof.
  intros Hr Hg Hroom. destruct (Z.ltb_spec 0 n) as [Hn|Hn].
  - destruct (Shm.update_insert s n u Hr Hn) as (s' & Hrun & Hr' & Ht & _ & Hsame).
    { destruct (Shm.table (Shm.shm s) !! n) as [v|] eqn:Hv; [left; by eexists|right].
      rw map_size_insert_None // in Hroom. lia. }
    exists 0, s'. split; [done|]. destruct Hsame.
    split; [done|congruence|done|done].
  - exists (-1), s. split; [by apply Shm.update_bad|]. by split.
Qed.

Lemma copy_one_run k n s g :
  Shm.ready s → Shm.global_stats (Shm.shm s) = g →
  Z.of_nat (size (copied_one k n (Shm.table (Shm.shm s)))) ≤ Shm.MAX_PROCESSES →
  ∃ s', copy_process k n s = Ret tt s' ∧ copied_into s g (copied_one k n (Shm.table (Shm.shm s))) s'.
Proof.
  intros Hr Hg Hroom. unfold copy_process, copied_one in *.
  destruct (process_usage k n) as [u|]; [|exists s; by split].
  destruct (update_copied (i32 n) u s g Hr Hg Hroom) as (r & s1 & Hrun & Hc).
  exists s1. split; [by rw (bind_Ret _ _ _ _ _ Hrun)|done].
Qed.

Lemma copy_run k keys s g :
  Shm.ready s → Shm.global_stats (Shm.shm s) = g →
  Z.of_nat (size (copied k keys (Shm.table (Shm.shm s)))) ≤ Shm.MAX_PROCESSES →
  ∃ s', copy_processes k keys s = Ret tt s' ∧
    copied_into s g (copied k keys (Shm.table (Shm.shm s))) s'.
Proof.
  revert s. induction keys as [|n keys IH]; intros s Hr Hg Hroom.
  { exists s. split; [done|]. by split. }
  cbn [copy_processes copied foldl] in *. fold (copied k keys) in *.
  destruct (copy_one_run k n s g Hr Hg) as (s1 & H1 & [Hr1 Hg1 Ht1 (Hl1 & Hl2 & Hl3)]).
  { etrans; [|exact Hroom]. apply inj_le. rw -!size_dom. apply subseteq_size, copied_dom. }
  rw -Ht1 in Hroom. destruct (IH s1 Hr1 Hg1 Hroom) as (s2 & H2 & [Hr2 Hg2 Ht2 (Hm1 & Hm2 & Hm3)]).
  exists s2. rw (bind_Ret _ _ _ _ _ H1) H2. split; [done|]. split; [done|done|by rw Ht2 Ht1|].
  split_and!; congruence.
Qed.

Lemma zoom_shm {A} (m : M Shm.state A) s a m' :
  m (shm s) = Ret a m' → zoom shm m s = Ret a (s <| shm := m' |>).
Proof. intros H. unfold zoom. by rw H. Qed.

Lemma copied_other k keys m pid :
  (∀ n, n ∈ keys → i32 n ≠ pid) → copied k keys m !! pid = m !! pid.
Proof.
  revert m. induction keys as [|n keys IH]; intros m Hn; [done|].
  change (copied k (n :: keys) m) with (copied k keys (copied_one k n m)).
  rw IH; [intros x Hx; apply Hn; by right|].
  unfold copied_one. destruct (process_usage k n); [|done]. destruct (0 <? i32 n); [|done].
  rw lookup_insert_ne; [apply Hn; by left|done].
Qed.

(** The part that copies the global figures. *)
Lemma sync_global_run k s :
  Shm.ready (shm s) → 0 ≤ global_resources_map_fd s →
  ∃ m, (if 0 <=? global_resources_map_fd s then
     match global_usage k with
     | Some u => zoom shm (store_global u)
     | None => mret tt
     end
   else mret tt) s = Ret tt (s <| shm := m |>) ∧
    copied_into (shm s) (default (Shm.global_stats (Shm.shm (shm s))) (global_usage k))
      (Shm.table (Shm.shm (shm s))) m.
Proof.
  intros Hr Hfd. rw (proj2 (Z.leb_le _ _) Hfd). destruct (global_usage k) as [u|]; cbn [default].
  - destruct (store_global_run u (shm s) Hr) as (m & Hrun & Hm). exists m.
    split; [by apply zoom_shm|done].
  - exists (shm s). split; [by destruct s|by split].
Qed.

(** One synchronisation copies the kernel's figures: on a usable object that
    has room for the processes, it returns, the global figures become the kernel's
    (if its map answers), and the table becomes the recorded one overwritten by
    the kernel's figures of every process the traversal yields.  The limits stay,
    and so do the records of processes the kernel no longer knows. *)
Theorem sync_copies_kernel k s :
  Shm.ready (shm s) → ebpf_sync_mutex s = false →
  0 ≤ global_resources_map_fd s → 0 ≤ process_resources_map_fd s →
  let table := Shm.table (Shm.shm (shm s)) in
  Z.of_nat (size (copied k (process_keys k) table)) ≤ Shm.MAX_PROCESSES →
  ∃ m, sync_ebpf_data_to_shared_memory k s = Ret tt (s <| shm := m |>) ∧
    copied_into (shm s) (default (Shm.global_stats (Shm.shm (shm s))) (global_usage k))
      (copied k (process_keys k) table) m ∧
    ∀ pid, 0 < pid → (∀ n, n ∈ process_keys k → i32 n ≠ pid) →
      Shm.table (Shm.shm m) !! pid = table !! pid.
Proof.
  intros Hr Hmutex Hg Hp table Hroom. pose proof (Shm.ready_ptr _ Hr) as Hptr.
  set (s0 := s <| ebpf_sync_mutex := true |>).
  destruct (sync_global_run k s0 Hr Hg) as (m1 & H1 & [Hr1 Hg1 Ht1 (Hl1 & Hl2 & Hl3)]).
  set (s1 := s0 <| shm := m1 |>).
  destruct (copy_run k (process_keys k) (shm s1) _ Hr1 eq_refl) as (m2 & H2 & [Hr2 Hg2 Ht2 (Hk1 & Hk2 & Hk3)]).
  { change (shm s1) with m1. by rw Ht1. }
  exists m2. split; [|split].
  - unfold sync_ebpf_data_to_shared_memory. rw (bind_Ret _ _ s s s) // Hmutex.
    rw (bind_Ret _ _ s tt s0) //.
    rw (bind_Ret _ _ s0 true s0).
    { unfold zoom, Shm.shm_get_ptr, gets. cbn. rw Hptr. done. }
    cbn [negb]. rw (bind_Ret _ _ _ _ _ H1) (proj2 (Z.leb_le _ _) Hp).
    rw (bind_Ret _ _ _ _ _ (zoom_shm _ s1 _ _ H2)). unfold modify. f_equal. destruct s. cbn in Hmutex |- *.
    by subst.
  - change (shm s0) with (shm s) in *. change (shm s1) with m1 in *.
    split; [done|by rw Hg2|by rw Ht2 Ht1|split_and!; congruence].
  - intros pid Hpid Hn. rw Ht2. change (shm s1) with m1. rw Ht1. by apply copied_other.
Qed.

(** The limit a variable of the environment gives. *)
Definition qp_limit (s : service) : Z :=
  match getenv s "RDMA_INTERCEPT_MAX_GLOBAL_QP" with
  | Some v => if 0 <? u32 (atoi v) then u32 (atoi v) else max_global_qp s
  | None => max_global_qp s
  end.
Definition memory_limit (s : service) : Z :=
  match getenv s "RDMA_INTERCEPT_MAX_GLOBAL_MEMORY" with
  | Some v => if 0 <? u64 (atoll v) then u64 (atoll v) else max_global_memory s
  | None => max_global_memory s
  end.

Lemma update_qp_run s :
  qp_count_mutex s = false → update_max_global_qp s = Ret tt (s <| max_global_qp := qp_limit s |>).
Proof.
  intros Hm. unfold update_max_global_qp, qp_limit. run.
  destruct (getenv s _) as [v|]; [|by destruct s].
  destruct (0 <? u32 (atoi v)); [|by destruct s]. rw Hm. destruct s. cbn in *. by subst.
Qed.

Lemma update_memory_run s :
  memory_count_mutex s = false →
  update_max_global_memory s = Ret tt (s <| max_global_memory := memory_limit s |>).
Proof.
  intros Hm. unfold update_max_global_memory, memory_limit. run.
  destruct (getenv s _) as [v|]; [|by destruct s].
  destruct (0 <? u64 (atoll v)); [|by destruct s]. rw Hm. destruct s. cbn in *. by subst.
Qed.

(** At start-up the service publishes the limits of its environment: when the
    object can be opened, mapped and is not locked, [initialize_service] makes it
    usable and its limits are the environment's positive numbers (10 QPs and 10 GB
    when a variable is missing or not positive at its width; a negative number
    counts as a huge limit) and 1000 MRs; it succeeds exactly when the thread
    starts. *)
Theorem service_publishes_limits s :
  let m := shm s in
  0 ≤ Shm.os_shm_open (Shm.os m) → Shm.os_ftruncate (Shm.os m) = 0 →
  Shm.os_mmap (Shm.os m) = true → Shm.data_ok (Shm.shm m) → Shm.lock (Shm.shm m) = 0 →
  qp_count_mutex s = false → memory_count_mutex s = false →
  ∃ s', initialize_service s = Ret (if os_thread s =? 0 then 0 else -1) s' ∧
    Shm.ready (shm s') ∧
    Shm.max_global_qp (Shm.shm (shm s')) = qp_limit s ∧
    Shm.max_global_mr (Shm.shm (shm s')) = 1000 ∧
    Shm.max_global_memory (Shm.shm (shm s')) = memory_limit s.
Proof.
  intros m Ho Hf Hm Hd Hl Hq Hmem. unfold initialize_service.
  destruct (Shm.shm_init_ready m Ho Hf Hm Hd Hl) as (m1 & H1 & Hr1).
  rw (bind_Ret _ _ _ _ _ (zoom_shm _ s _ _ H1)). cbn [negb Z.eqb].
  set (s1 := s <| shm := m1 |>).
  rw (bind_Ret _ _ _ _ _ (update_qp_run s1 Hq)). set (s2 := s1 <| max_global_qp := _ |>).
  rw (bind_Ret _ _ _ _ _ (update_memory_run s2 Hmem)). set (s3 := s2 <| max_global_memory := _ |>).
  rw (bind_Ret _ _ s3 s3 s3) //.
  destruct (Shm.set_global_limits_run (shm s3) (max_global_qp s3) 1000 (max_global_memory s3) Hr1)
    as (m2 & H2 & Hr2 & _ & _ & Hlq & Hlm & Hlmem).
  rw (bind_Ret _ _ _ _ _ (zoom_shm _ s3 _ _ H2)). run. cbn.
  destruct (os_thread s =? 0); cbn; eexists; (split; [reflexivity|]); by split_and!.
Qed.

(** ** Examples *)

Definition usage_ex (n : Z) : Shm.resource_usage_t := Shm.mk_usage n 1 4096.

(** A kernel that knows processes 7 and 9. *)
Definition kernel_ex : kernel_maps :=
  mk_maps [7; 9] (λ n, if (n =? 7) || (n =? 9) then Some (usage_ex n) else None)
    (Some (usage_ex 16)).

(** A service whose shared memory has recorded process 8. *)
Definition shm_ex : Shm.state :=
  after (Shm.fresh (λ _, (5, 6)))
    (Shm.shm_update_process_resources 8 (Some (usage_ex 8)) (Shm.fresh (λ _, (5, 6)))).
Definition service_ex : service :=
  mk_service 1 10 (10 * 2 ^ 30) false false false 5 6 false shm_ex
    (λ v, if String.eqb v "RDMA_INTERCEPT_MAX_GLOBAL_QP" then Some "-1" else None) (λ _, 7) 0.

Lemma shm_ex_ready :
  Shm.ready shm_ex ∧ Shm.table (Shm.shm shm_ex) = {[ 8 := usage_ex 8 ]}.
Proof.
  destruct (Shm.update_insert (Shm.fresh (λ _, (5, 6))) 8 (usage_ex 8)) as (s' & Hs & Hr & Ht & _);
    [apply Shm.shm_fresh_ready|lia| |].
  - right. change (Shm.shm (Shm.fresh (λ _, (5, 6)))) with Shm.data_zero. by rw Shm.table_data_zero.
  - unfold shm_ex. rw Hs. split; [done|]. rw Ht.
    change (Shm.shm (Shm.fresh (λ _, (5, 6)))) with Shm.data_zero. by rw Shm.table_data_zero.
Qed.

Lemma sync_copies_kernel_witness :
  ∃ m, sync_ebpf_data_to_shared_memory kernel_ex service_ex = Ret tt (service_ex <| shm := m |>) ∧
    Shm.table (Shm.shm m) = {[ 7 := usage_ex 7; 8 := usage_ex 8; 9 := usage_ex 9 ]} ∧
    Shm.global_stats (Shm.shm m) = usage_ex 16.
Proof.
  destruct shm_ex_ready as [Hr Ht].
  assert (Hc : copied kernel_ex (process_keys kernel_ex) (Shm.table (Shm.shm shm_ex)) =
    {[ 7 := usage_ex 7; 8 := usage_ex 8; 9 := usage_ex 9 ]}).
  { rw Ht. by vm_compute. }
  destruct (sync_copies_kernel kernel_ex service_ex) as (m & Hrun & [_ Hg Hm _] & _);
    [exact Hr|done|done|done| |].
  - change (shm service_ex) with shm_ex. rw Hc. by vm_compute.
  - exists m. split; [exact Hrun|]. split; [|exact Hg]. rw Hm. exact Hc.
Defined.

(** "-1" is a limit of 4294967295 QPs. *)
Lemma service_publishes_limits_witness :
  ∃ s', initialize_service service_ex = Ret 0 s' ∧
    Shm.max_global_qp (Shm.shm (shm s')) = 4294967295.
Proof.
  destruct shm_ex_ready as [Hr _].
  destruct (service_publishes_limits service_ex) as (s' & Hrun & _ & Hq & _);
    [by vm_compute|by vm_compute|by vm_compute|apply Hr|by vm_compute|done|done|].
  exists s'. split; [exact Hrun|]. rw Hq. by vm_compute.
Defined.

End CollectorShm.
