(* ===== verification/ShmTenant.v ===== *)
(** * Tenant shared memory ([src/shm/shared_memory_tenant.h], [src/shm/shared_memory_tenant.c])

    One POSIX shared-memory object holds an array of [MAX_TENANTS] tenants
    (status, quota, usage, the processes bound to it), the table that maps pids
    to tenants, two global counters, a spin lock and a version.  This file
    models the data and every operation of [shared_memory_tenant.c]; the
    invariants and the properties are in [TenantProps.v]. *)

From S2P Require Import Prelude SlotTable.

Module Tenant.

(** ** Data ([shared_memory_tenant.h]) *)

Definition MAX_TENANTS : Z := 64.
Definition TENANT_NAME_MAX : Z := 64.
Definition MAX_PROCESSES : Z := 1024.   (* shared_memory.h *)

Inductive tenant_status :=
| TENANT_STATUS_INACTIVE
| TENANT_STATUS_ACTIVE
| TENANT_STATUS_SUSPENDED.
#[export] Instance tenant_status_eq_dec : EqDecision tenant_status.
Proof. solve_decision. Defined.

Record tenant_quota_t := mk_quota {
  max_qp_per_tenant : Z;      (* uint32_t *)
  max_mr_per_tenant : Z;      (* uint32_t *)
  max_memory_per_tenant : Z;  (* uint64_t *)
  max_cq_per_tenant : Z;      (* uint32_t *)
  max_pd_per_tenant : Z;      (* uint32_t *)
}.

Record tenant_resource_usage_t := mk_usage {
  qp_count : Z;               (* int *)
  mr_count : Z;               (* int *)
  cq_count : Z;               (* int *)
  pd_count : Z;               (* int *)
  memory_used : Z;            (* uint64_t *)
  total_qp_creates : Z;       (* uint64_t *)
  total_qp_destroys : Z;      (* uint64_t *)
  total_mr_regs : Z;          (* uint64_t *)
  total_mr_deregs : Z;        (* uint64_t *)
}.
#[export] Instance expand_usage : Expand tenant_resource_usage_t := λ r,
  mk_usage (qp_count r) (mr_count r) (cq_count r) (pd_count r) (memory_used r)
    (total_qp_creates r) (total_qp_destroys r) (total_mr_regs r) (total_mr_deregs r).

Record tenant_info_t := mk_info {
  tenant_id : Z;
  tenant_name : string;
  status : tenant_status;
  quota : tenant_quota_t;
  usage : tenant_resource_usage_t;
  created_at : Z;
  last_active_at : Z;
  process_count : Z;          (* uint32_t *)
  processes : list Z;         (* pid_t[MAX_PROCESSES] *)
}.
#[export] Instance expand_info : Expand tenant_info_t := λ r,
  mk_info (tenant_id r) (tenant_name r) (status r) (quota r) (usage r)
    (created_at r) (last_active_at r) (process_count r) (processes r).

Record pid_tenant_mapping_t := mk_mapping {
  m_pid : Z;
  m_tenant_id : Z;
  m_mapped_at : Z;
}.
#[export] Instance expand_mapping : Expand pid_tenant_mapping_t := λ r,
  mk_mapping (m_pid r) (m_tenant_id r) (m_mapped_at r).

Record tenant_shared_memory_t := mk_shm {
  tenants : list tenant_info_t;                (* tenant_info_t[MAX_TENANTS] *)
  pid_mappings : list pid_tenant_mapping_t;    (* pid_tenant_mapping_t[MAX_PROCESSES] *)
  active_tenant_count : Z;                     (* uint32_t *)
  total_process_count : Z;                     (* uint32_t *)
  lock : Z;                                    (* volatile int tenant_shm_lock *)
  version : Z;                                 (* volatile uint64_t *)
  last_update_time : Z;                        (* uint64_t *)
}.
#[export] Instance expand_shm : Expand tenant_shared_memory_t := λ r,
  mk_shm (tenants r) (pid_mappings r) (active_tenant_count r) (total_process_count r)
    (lock r) (version r) (last_update_time r).

(** Zero-filled values ([memset], and the contents of a new object). *)
Definition quota_zero : tenant_quota_t := mk_quota 0 0 0 0 0.
Definition usage_zero : tenant_resource_usage_t := mk_usage 0 0 0 0 0 0 0 0 0.
Definition info_zero : tenant_info_t :=
  mk_info 0 "" TENANT_STATUS_INACTIVE quota_zero usage_zero 0 0 0
    (replicate (Z.to_nat MAX_PROCESSES) 0).
Definition mapping_zero : pid_tenant_mapping_t := mk_mapping 0 0 0.
Definition shm_zero : tenant_shared_memory_t :=
  mk_shm (replicate (Z.to_nat MAX_TENANTS) info_zero)
    (replicate (Z.to_nat MAX_PROCESSES) mapping_zero) 0 0 0 0 0.

(** [sizeof(tenant_shared_memory_t)] on an LP64 machine: 64 tenants of 4272
    bytes, 1024 mappings of 16 bytes, and 32 bytes of counters. *)
Definition TENANT_SHM_SIZE : Z := MAX_TENANTS * 4272 + MAX_PROCESSES * 16 + 32.

(** What the operating system answers to this component. *)
Record os_answers := mk_os {
  os_shm_open : Z;       (* a descriptor, or negative *)
  os_ftruncate : Z;
  os_mmap : bool;        (* false: MAP_FAILED *)
  os_fstat : Z;
  os_st_size : Z;
}.

(** What a process sees: its own [g_tenant_shm] and [g_tenant_shm_fd], the
    contents of the object named [TENANT_SHM_NAME], and the successive readings
    of [time(NULL)]. *)
Record state := mk_state {
  g_tenant_shm : bool;
  g_tenant_shm_fd : Z;
  shm : tenant_shared_memory_t;
  os : os_answers;
  clock : nat → Z;
}.
#[export] Instance expand_state : Expand state := λ r,
  mk_state (g_tenant_shm r) (g_tenant_shm_fd r) (shm r) (os r) (clock r).

(** ** Access to the shared object *)

Definition time : M state Z := λ s,
  Ret (clock s 0%nat) (s <| clock := λ n, clock s (S n) |>).

Definition store (f : tenant_shared_memory_t → tenant_shared_memory_t) : M state unit :=
  modify (λ s, s <| shm ::= f |>).

(** [&shm->tenants[tid]]: an index out of the array is an error. *)
Definition tenant_at (tid : Z) : M state tenant_info_t := λ s,
  match tenants (shm s) !! Z.to_nat tid with
  | Some t => Ret t s
  | None => Crash
  end.

Definition tenant_put (tid : Z) (t : tenant_info_t) : M state unit :=
  store (λ d, d <| tenants ::= <[Z.to_nat tid := t]> |>).

(** ** Initialisation and locking *)

(** [spin_lock]: succeeds at once when the lock is free; when it is held, no
    step of this process frees it (see [SpinLock.v] for several processes). *)
Definition spin_lock : M state unit :=
  s ← get;
  if lock (shm s) =? 0 then store (λ d, d <| lock := 1 |>) else hang.

Definition spin_unlock : M state unit := store (λ d, d <| lock := 0 |>).

Definition tenant_shm_init : M state Z :=
  s ← get;
  if g_tenant_shm s then mret 0 else
  modify (λ s, s <| g_tenant_shm_fd := os_shm_open (os s) |>);;
  if os_shm_open (os s) <? 0 then mret (-1) else
  if os_ftruncate (os s) <? 0 then
    modify (λ s, s <| g_tenant_shm_fd := -1 |>);; mret (-1)
  else if negb (os_mmap (os s)) then
    modify (λ s, s <| g_tenant_shm_fd := -1 |> <| g_tenant_shm := false |>);; mret (-1)
  else
    modify (λ s, s <| g_tenant_shm := true |>);;
    (if (os_fstat (os s) =? 0) && (os_st_size (os s) =? TENANT_SHM_SIZE)
        && (version (shm s) =? 0)
     then
       store (λ _, shm_zero <| version := 1 |>);;
       now ← time;
       store (λ d, d <| last_update_time := u64 now |>)
     else mret ());;
    mret 0.

(** After [shm_unlink] the name is free: the next [tenant_shm_init] opens a
    fresh, zero-filled object. *)
Definition tenant_shm_destroy : M state Z :=
  s ← get;
  if negb (g_tenant_shm s) then mret 0 else
  modify (λ s, s <| g_tenant_shm := false |>
                 <| g_tenant_shm_fd ::= λ fd, if 0 <=? fd then -1 else fd |>
                 <| shm := shm_zero |>);;
  mret 0.

Definition tenant_shm_get_ptr : M state bool :=
  s ← get;
  (if g_tenant_shm s then mret () else tenant_shm_init;; mret ());;
  gets g_tenant_shm.

Definition tenant_shm_lock : M state unit := spin_lock.

(** The version and the time stamp are written after the lock is released. *)
Definition tenant_shm_unlock : M state unit :=
  spin_unlock;;
  store (λ d, d <| version ::= λ v, u64 (v + 1) |>);;
  now ← time;
  store (λ d, d <| last_update_time := u64 now |>).

(** ** Tenants *)

Definition default_quota : tenant_quota_t :=
  mk_quota 100 1000 (1024 * 1024 * 1024) 100 100.

(** [strncpy] of at most [TENANT_NAME_MAX - 1] bytes, NUL-terminated. *)
Definition name_of (name : option string) : string :=
  String.substring 0 (Z.to_nat (TENANT_NAME_MAX - 1)) (default "unnamed"%string name).

Definition tenant_create (tid : Z) (name : option string) (q : option tenant_quota_t) :
    M state Z :=
  if (tid =? 0) || (MAX_TENANTS <=? tid) then mret (-1) else
  ptr ← tenant_shm_get_ptr;
  if negb ptr then mret (-1) else
  tenant_shm_lock;;
  tenant ← tenant_at tid;
  if decide (status tenant ≠ TENANT_STATUS_INACTIVE) then
    tenant_shm_unlock;; mret (-1)
  else
    now ← time;
    tenant_put tid (info_zero <| tenant_id := tid |>
      <| tenant_name := name_of name |>
      <| status := TENANT_STATUS_ACTIVE |>
      <| created_at := now |> <| last_active_at := now |>
      <| quota := default default_quota q |>);;
    store (λ d, d <| active_tenant_count ::= λ n, u32 (n + 1) |>);;
    tenant_shm_unlock;;
    mret 0.

(** The loop of [tenant_delete]: clears the mappings of the tenant and counts
    each one down. *)
Fixpoint unmap_all (tid : Z) (maps : list pid_tenant_mapping_t) (total : Z) :
    list pid_tenant_mapping_t * Z :=
  match maps with
  | [] => ([], total)
  | m :: maps' =>
      if m_tenant_id m =? tid then
        let '(ms, n) := unmap_all tid maps' (u32 (total - 1)) in
        (m <| m_pid := 0 |> <| m_tenant_id := 0 |> :: ms, n)
      else
        let '(ms, n) := unmap_all tid maps' total in (m :: ms, n)
  end.

Definition tenant_delete (tid : Z) : M state Z :=
  if (tid =? 0) || (MAX_TENANTS <=? tid) then mret (-1) else
  ptr ← tenant_shm_get_ptr;
  if negb ptr then mret (-1) else
  tenant_shm_lock;;
  tenant ← tenant_at tid;
  if decide (status tenant = TENANT_STATUS_INACTIVE) then
    tenant_shm_unlock;; mret (-1)
  else
    store (λ d,
      let '(ms, n) := unmap_all tid (pid_mappings d) (total_process_count d) in
      d <| pid_mappings := ms |> <| total_process_count := n |>);;
    tenant_put tid (tenant <| status := TENANT_STATUS_INACTIVE |> <| process_count := 0 |>);;
    store (λ d, d <| active_tenant_count ::= λ n, u32 (n - 1) |>);;
    tenant_shm_unlock;;
    mret 0.

(** [*info] is the caller's variable ([None]: a null pointer). The status is
    read again after the lock is released. *)
Definition tenant_get_info (tid : Z) (info : option tenant_info_t) :
    M state (Z * option tenant_info_t) :=
  match info with
  | None => mret (-1, info)
  | Some _ =>
      if MAX_TENANTS <=? tid then mret (-1, info) else
      ptr ← tenant_shm_get_ptr;
      if negb ptr then mret (-1, info) else
      tenant_shm_lock;;
      tenant ← tenant_at tid;
      tenant_shm_unlock;;
      tenant' ← tenant_at tid;
      mret (if decide (status tenant' ≠ TENANT_STATUS_INACTIVE) then 0 else -1, Some tenant)
  end.

Definition tenant_set_status (tid : Z) (st : tenant_status) : M state Z :=
  if MAX_TENANTS <=? tid then mret (-1) else
  ptr ← tenant_shm_get_ptr;
  if negb ptr then mret (-1) else
  tenant_shm_lock;;
  tenant ← tenant_at tid;
  if decide (status tenant = TENANT_STATUS_INACTIVE) then
    tenant_shm_unlock;; mret (-1)
  else
    now ← time;
    tenant_put tid (tenant <| status := st |> <| last_active_at := now |>);;
    tenant_shm_unlock;;
    mret 0.

Definition tenant_update_quota (tid : Z) (q : option tenant_quota_t) : M state Z :=
  match q with
  | None => mret (-1)
  | Some q =>
      if MAX_TENANTS <=? tid then mret (-1) else
      ptr ← tenant_shm_get_ptr;
      if negb ptr then mret (-1) else
      tenant_shm_lock;;
      tenant ← tenant_at tid;
      if decide (status tenant = TENANT_STATUS_INACTIVE) then
        tenant_shm_unlock;; mret (-1)
      else
        now ← time;
        tenant_put tid (tenant <| quota := q |> <| last_active_at := now |>);;
        tenant_shm_unlock;;
        mret 0
  end.

(** ** Processes *)

(** The search loop of [tenant_bind_process]: [(found, empty_slot)], -1 for
    neither; it stops at the first slot that holds the pid. *)
Fixpoint bind_scan (pid : Z) (maps : list pid_tenant_mapping_t) (i empty : Z) : Z * Z :=
  match maps with
  | [] => (-1, empty)
  | m :: maps' =>
      if m_pid m =? pid then (i, empty)
      else bind_scan pid maps' (i + 1)
             (if (empty <? 0) && (m_pid m =? 0) then i else empty)
  end.

(** Store [y] in the first element of [l] equal to [x]. *)
Fixpoint replace_first (x y : Z) (l : list Z) : list Z :=
  match l with
  | [] => []
  | z :: l' => if z =? x then y :: l' else z :: replace_first x y l'
  end.

Definition tenant_bind_process (pid tid : Z) : M state Z :=
  if MAX_TENANTS <=? tid then mret (-1) else
  ptr ← tenant_shm_get_ptr;
  if negb ptr then mret (-1) else
  tenant_shm_lock;;
  tenant ← tenant_at tid;
  if decide (status tenant ≠ TENANT_STATUS_ACTIVE) then
    tenant_shm_unlock;; mret (-1)
  else
    s ← get;
    let '(found, empty_slot) := bind_scan pid (pid_mappings (shm s)) 0 (-1) in
    let idx := if 0 <=? found then found else empty_slot in
    if idx <? 0 then tenant_shm_unlock;; mret (-1) else
    let fresh := found <? 0 in
    (if fresh
     then tenant_put tid (tenant <| process_count ::= λ n, u32 (n + 1) |>);;
          store (λ d, d <| total_process_count ::= λ n, u32 (n + 1) |>)
     else mret ());;
    mapped ← time;
    store (λ d, d <| pid_mappings ::= <[Z.to_nat idx := mk_mapping pid tid mapped]> |>);;
    (if fresh
     then t ← tenant_at tid; tenant_put tid (t <| processes ::= replace_first 0 pid |>)
     else mret ());;
    now ← time;
    t ← tenant_at tid;
    tenant_put tid (t <| last_active_at := now |>);;
    tenant_shm_unlock;;
    mret 0.

Definition tenant_unbind_process (pid : Z) : M state Z :=
  ptr ← tenant_shm_get_ptr;
  if negb ptr then mret (-1) else
  tenant_shm_lock;;
  s ← get;
  match find_index (λ m, m_pid m =? pid) (pid_mappings (shm s)) with
  | Some i =>
      let m := default mapping_zero (pid_mappings (shm s) !! i) in
      let tid := m_tenant_id m in
      tenant ← tenant_at tid;
      tenant_put tid (tenant <| processes ::= replace_first pid 0 |>
        <| process_count ::= λ n, if 0 <? n then n - 1 else n |>);;
      store (λ d, d <| pid_mappings ::= <[i := m <| m_pid := 0 |> <| m_tenant_id := 0 |>]> |>
        <| total_process_count ::= λ n, if 0 <? n then n - 1 else n |>);;
      tenant_shm_unlock;;
      mret 0
  | None => tenant_shm_unlock;; mret (-1)
  end.

Definition tenant_get_process_tenant (pid : Z) (out : option Z) : M state (Z * option Z) :=
  match out with
  | None => mret (-1, out)
  | Some _ =>
      ptr ← tenant_shm_get_ptr;
      if negb ptr then mret (-1, Some 0) else
      tenant_shm_lock;;
      s ← get;
      match find_index (λ m, m_pid m =? pid) (pid_mappings (shm s)) with
      | Some i =>
          let m := default mapping_zero (pid_mappings (shm s) !! i) in
          tenant_shm_unlock;; mret (0, Some (m_tenant_id m))
      | None => tenant_shm_unlock;; mret (-1, Some 0)
      end
  end.

(** ** Usage *)

Definition tenant_update_resource_usage (tid : Z) (u : option tenant_resource_usage_t) :
    M state Z :=
  match u with
  | None => mret (-1)
  | Some u =>
      if MAX_TENANTS <=? tid then mret (-1) else
      ptr ← tenant_shm_get_ptr;
      if negb ptr then mret (-1) else
      tenant_shm_lock;;
      tenant ← tenant_at tid;
      if decide (status tenant ≠ TENANT_STATUS_ACTIVE) then
        tenant_shm_unlock;; mret (-1)
      else
        now ← time;
        tenant_put tid (tenant <| usage := u |> <| last_active_at := now |>);;
        tenant_shm_unlock;;
        mret 0
  end.

Definition tenant_get_resource_usage (tid : Z) (u : option tenant_resource_usage_t) :
    M state (Z * option tenant_resource_usage_t) :=
  match u with
  | None => mret (-1, u)
  | Some _ =>
      if MAX_TENANTS <=? tid then mret (-1, u) else
      ptr ← tenant_shm_get_ptr;
      if negb ptr then mret (-1, u) else
      tenant_shm_lock;;
      tenant ← tenant_at tid;
      if decide (status tenant ≠ TENANT_STATUS_ACTIVE) then
        tenant_shm_unlock;; mret (-1, u)
      else
        tenant_shm_unlock;; mret (0, Some (usage tenant))
  end.

(** The switch of [tenant_check_resource_limit]: counts are added to the
    [uint32_t] request at 32 bits, the memory at 64. *)
Definition exceeds (t : tenant_info_t) (resource_type requested_amount : Z) : bool :=
  let u := usage t in
  let q := quota t in
  match resource_type with
  | 0 => max_qp_per_tenant q <? u32 (qp_count u + requested_amount)
  | 1 => max_mr_per_tenant q <? u32 (mr_count u + requested_amount)
  | 2 => max_memory_per_tenant q <? u64 (memory_used u + requested_amount)
  | 3 => max_cq_per_tenant q <? u32 (cq_count u + requested_amount)
  | 4 => max_pd_per_tenant q <? u32 (pd_count u + requested_amount)
  | _ => false
  end.

Definition tenant_check_resource_limit (tid resource_type requested_amount : Z) :
    M state bool :=
  if MAX_TENANTS <=? tid then mret false else
  ptr ← tenant_shm_get_ptr;
  if negb ptr then mret false else
  tenant_shm_lock;;
  tenant ← tenant_at tid;
  if decide (status tenant ≠ TENANT_STATUS_ACTIVE) then
    tenant_shm_unlock;; mret true
  else
    tenant_shm_unlock;;
    mret (exceeds tenant resource_type requested_amount).

(** The loop of [tenant_get_active_list]: what it copies to the caller's array. *)
Fixpoint collect_active (ts : list tenant_info_t) (count max_count : Z) : list tenant_info_t :=
  match ts with
  | [] => []
  | t :: ts' =>
      if count <? max_count then
        if decide (status t = TENANT_STATUS_ACTIVE)
        then t :: collect_active ts' (count + 1) max_count
        else collect_active ts' count max_count
      else []
  end.

(** [out]: whether the caller's array is there; the result is the count and the
    tenants stored in the array from its first element on. *)
Definition tenant_get_active_list (out : bool) (max_count : Z) :
    M state (Z * list tenant_info_t) :=
  if negb out || (max_count <=? 0) then mret (-1, []) else
  ptr ← tenant_shm_get_ptr;
  if negb ptr then mret (-1, []) else
  tenant_shm_lock;;
  s ← get;
  let l := collect_active (tenants (shm s)) 0 max_count in
  tenant_shm_unlock;;
  mret (Z.of_nat (length l), l).

(** [tenant_print_all] writes the active tenants to stderr under the lock. *)
Definition tenant_print_all : M state unit :=
  ptr ← tenant_shm_get_ptr;
  if negb ptr then mret () else
  tenant_shm_lock;;
  tenant_shm_unlock.

Definition tenant_get_statistics (tid : Z) (creates regs : option Z) :
    M state (Z * option Z * option Z) :=
  match creates, regs with
  | Some _, Some _ =>
      if MAX_TENANTS <=? tid then mret (-1, creates, regs) else
      ptr ← tenant_shm_get_ptr;
      if negb ptr then mret (-1, creates, regs) else
      tenant_shm_lock;;
      tenant ← tenant_at tid;
      if decide (status tenant ≠ TENANT_STATUS_ACTIVE) then
        tenant_shm_unlock;; mret (-1, creates, regs)
      else
        tenant_shm_unlock;;
        mret (0, Some (total_qp_creates (usage tenant)), Some (total_mr_regs (usage tenant)))
  | _, _ => mret (-1, creates, regs)
  end.

End Tenant.
