(* ===== verification/TenantProps.v ===== *)
(** * Invariants and properties of the tenant shared memory

    [shm_ok] is what every sequence of calls preserves from a fresh object, and
    what makes every call return: array lengths, tenant 0 never in use, every
    mapping pointing at a tenant of the array, no pid mapped twice.  [counts_ok]
    is the stronger bookkeeping invariant (the counters count what they name),
    which holds as long as the callers are [disciplined]; the theorems at the
    end of the file show what breaks it.  The pid table refines a finite map
    from pids to tenants. *)

From S2P Require Import Prelude SlotTable ShmTenant.

Module TenantProps.
Import Tenant.

#[local] Arguments Z.to_nat : simpl never.

(** ** The invariant of every sequence of calls *)

Record shm_ok (d : tenant_shared_memory_t) : Prop := {
  ok_tenants : length (tenants d) = Z.to_nat MAX_TENANTS;
  ok_maps : length (pid_mappings d) = Z.to_nat MAX_PROCESSES;
  ok_procs i t : tenants d !! i = Some t → length (processes t) = Z.to_nat MAX_PROCESSES;
  ok_default t : tenants d !! 0%nat = Some t → status t = TENANT_STATUS_INACTIVE;
  ok_ids i t : tenants d !! i = Some t → status t ≠ TENANT_STATUS_INACTIVE →
    tenant_id t = Z.of_nat i;
  ok_map_tids i m : pid_mappings d !! i = Some m → 0 ≤ m_tenant_id m < MAX_TENANTS;
  ok_unique : keys_unique m_pid (pid_mappings d);
  ok_active : is_u32 (active_tenant_count d);
  ok_total : is_u32 (total_process_count d);
}.

(** The object is mapped and nobody holds its lock. *)
Record ready (s : state) : Prop := {
  ready_ptr : g_tenant_shm s = true;
  ready_lock : lock (shm s) = 0;
  ready_shm : shm_ok (shm s);
}.

(** The part of the object a call is about: not the lock, version and time. *)
Record same_content (d d' : tenant_shared_memory_t) : Prop := {
  same_tenants : tenants d' = tenants d;
  same_maps : pid_mappings d' = pid_mappings d;
  same_active : active_tenant_count d' = active_tenant_count d;
  same_total : total_process_count d' = total_process_count d;
}.

(** How a call ends: the pointer is still there, the lock is free, the version
    has moved on, and the content is that of [d]. *)
Record settled (s : state) (d : tenant_shared_memory_t) (s' : state) : Prop := {
  settled_ptr : g_tenant_shm s' = true;
  settled_lock : lock (shm s') = 0;
  settled_version : version (shm s') = u64 (version (shm s) + 1);
  settled_content : same_content d (shm s');
}.

Lemma shm_ok_same d d' : same_content d d' → shm_ok d → shm_ok d'.
Proof.
  destruct d, d'. intros [Ht Hm Ha Hn] []. cbn in *. subst. by split.
Qed.

Lemma settled_ready s d s' : settled s d s' → shm_ok d → ready s'.
Proof. intros [Hp Hl _ Hc] Hd. split; [done..|]. exact (shm_ok_same _ _ Hc Hd). Qed.

Lemma same_content_refl d : same_content d d.
Proof. done. Qed.

Create HintDb tenant discriminated.
#[export] Hint Resolve same_content_refl settled_ready : tenant.

(** Replacing one tenant. *)
Lemma shm_ok_put d i t t' :
  shm_ok d → tenants d !! i = Some t →
  length (processes t') = length (processes t) →
  (status t' ≠ TENANT_STATUS_INACTIVE → tenant_id t' = Z.of_nat i) →
  (i = 0%nat → status t' = TENANT_STATUS_INACTIVE) →
  shm_ok (d <| tenants ::= <[i := t']> |>).
Proof.
  intros Hd Hi Hp Hid H0. pose proof (lookup_lt_Some _ _ _ Hi).
  split; cbn; try apply Hd.
  - rw length_insert. apply Hd.
  - intros j u [(<- & -> & _)|[_ Hj]]%list_lookup_insert_Some.
    + rw Hp. by apply (ok_procs d Hd i).
    + by apply (ok_procs d Hd j).
  - intros u [(? & -> & _)|[_ Hj]]%list_lookup_insert_Some; [by apply H0|by apply (ok_default d Hd)].
  - intros j u [(<- & -> & _)|[_ Hj]]%list_lookup_insert_Some; [done|by apply (ok_ids d Hd)].
Qed.

Lemma tenant_lookup d tid :
  shm_ok d → 0 ≤ tid < MAX_TENANTS → ∃ t, tenants d !! Z.to_nat tid = Some t.
Proof. intros Hd Ht. apply lookup_lt_is_Some_2. rw (ok_tenants d Hd). lia. Qed.

Lemma shm_zero_ok : shm_ok shm_zero.
Proof.
  split; unfold shm_zero, tenants, pid_mappings, active_tenant_count, total_process_count.
  - by rw length_replicate.
  - by rw length_replicate.
  - intros i t [-> _]%lookup_replicate. unfold info_zero, processes. by rw length_replicate.
  - intros t [-> _]%lookup_replicate. done.
  - intros i t [-> _]%lookup_replicate. done.
  - intros i m [-> _]%lookup_replicate. done.
  - by apply keys_unique_replicate.
  - done.
  - done.
Qed.

(** ** Running the calls

    Each lemma gives the outcome of one path of one call from a ready state, as
    the content it leaves behind. *)

Lemma tid_in tid : 0 ≤ tid < MAX_TENANTS → (MAX_TENANTS <=? tid) = false.
Proof. intros ?. apply Z.leb_gt. lia. Qed.

(** Unfold the shared-memory primitives and run the call up to the next thing
    it does not know; [Hp] and [Hl] say the pointer is there and the lock free. *)
Ltac call_run Hp Hl :=
  cbn; unfold tenant_shm_get_ptr, tenant_shm_lock, spin_lock, tenant_shm_unlock,
    spin_unlock, tenant_at, tenant_put, store, time; run;
  rewrite ?Hp; cbn; rewrite ?Hl; cbn.

Section Run.
Context (s : state) (Hr : ready s).
Let Hp := ready_ptr s Hr.
Let Hl := ready_lock s Hr.
Let Hd := ready_shm s Hr.

Ltac go := call_run Hp Hl.
Ltac finish := eexists; split; [reflexivity|split; [exact Hp|done..]].

Section Tenant.
Context (tid : Z) (t : tenant_info_t).
Context (Htid : 0 ≤ tid < MAX_TENANTS) (Ht : tenants (shm s) !! Z.to_nat tid = Some t).
Let Hin := tid_in tid Htid.

Lemma create_new name q :
  tid ≠ 0 → status t = TENANT_STATUS_INACTIVE →
  ∃ s', tenant_create tid name q s = Ret 0 s' ∧
    settled s ((shm s) <| tenants ::= <[Z.to_nat tid :=
        info_zero <| tenant_id := tid |> <| tenant_name := name_of name |>
          <| status := TENANT_STATUS_ACTIVE |>
          <| created_at := clock s 0%nat |> <| last_active_at := clock s 0%nat |>
          <| quota := default default_quota q |>]> |>
      <| active_tenant_count ::= λ n, u32 (n + 1) |>) s'.
Proof using Ht Htid Hr.
  intros H0 Hst. unfold tenant_create. rw (proj2 (Z.eqb_neq tid 0) H0) Hin.
  go. rw Ht. cbn. rw decide_False; [by intros []|]. cbn. finish.
Qed.

Lemma create_taken name q :
  tid ≠ 0 → status t ≠ TENANT_STATUS_INACTIVE →
  ∃ s', tenant_create tid name q s = Ret (-1) s' ∧ settled s (shm s) s'.
Proof using Ht Htid Hr.
  intros H0 Hst. unfold tenant_create. rw (proj2 (Z.eqb_neq tid 0) H0) Hin.
  go. rw Ht. cbn. rw decide_True //. cbn. finish.
Qed.

Lemma delete_ok ms n :
  tid ≠ 0 → status t ≠ TENANT_STATUS_INACTIVE →
  unmap_all tid (pid_mappings (shm s)) (total_process_count (shm s)) = (ms, n) →
  ∃ s', tenant_delete tid s = Ret 0 s' ∧
    settled s ((shm s) <| pid_mappings := ms |> <| total_process_count := n |>
      <| tenants ::= <[Z.to_nat tid :=
          t <| status := TENANT_STATUS_INACTIVE |> <| process_count := 0 |>]> |>
      <| active_tenant_count ::= λ n, u32 (n - 1) |>) s'.
Proof using Ht Htid Hr.
  intros H0 Hst Hun. unfold tenant_delete. rw (proj2 (Z.eqb_neq tid 0) H0) Hin.
  go. rw Ht. cbn. rw decide_False //. cbn.
  eexists. split; [reflexivity|]. split; cbn; rw ?Hun; [exact Hp|done..|].
  done.
Qed.

Lemma delete_none :
  tid ≠ 0 → status t = TENANT_STATUS_INACTIVE →
  ∃ s', tenant_delete tid s = Ret (-1) s' ∧ settled s (shm s) s'.
Proof using Ht Htid Hr.
  intros H0 Hst. unfold tenant_delete. rw (proj2 (Z.eqb_neq tid 0) H0) Hin.
  go. rw Ht. cbn. rw decide_True //. cbn. finish.
Qed.

Lemma get_info_run info :
  ∃ s', tenant_get_info tid (Some info) s =
      Ret (if decide (status t ≠ TENANT_STATUS_INACTIVE) then 0 else -1, Some t) s' ∧
    settled s (shm s) s'.
Proof using Ht Htid Hr. unfold tenant_get_info. rw Hin. go. rw Ht. cbn. rw Ht. finish. Qed.

Lemma set_status_ok st :
  status t ≠ TENANT_STATUS_INACTIVE →
  ∃ s', tenant_set_status tid st s = Ret 0 s' ∧
    settled s ((shm s) <| tenants ::= <[Z.to_nat tid :=
      t <| status := st |> <| last_active_at := clock s 0%nat |>]> |>) s'.
Proof using Ht Htid Hr.
  intros Hst. unfold tenant_set_status. rw Hin. go. rw Ht. cbn.
  rw decide_False //. cbn. finish.
Qed.

Lemma set_status_none st :
  status t = TENANT_STATUS_INACTIVE →
  ∃ s', tenant_set_status tid st s = Ret (-1) s' ∧ settled s (shm s) s'.
Proof using Ht Htid Hr.
  intros Hst. unfold tenant_set_status. rw Hin. go. rw Ht. cbn.
  rw decide_True //. cbn. finish.
Qed.

Lemma update_quota_ok q :
  status t ≠ TENANT_STATUS_INACTIVE →
  ∃ s', tenant_update_quota tid (Some q) s = Ret 0 s' ∧
    settled s ((shm s) <| tenants ::= <[Z.to_nat tid :=
      t <| quota := q |> <| last_active_at := clock s 0%nat |>]> |>) s'.
Proof using Ht Htid Hr.
  intros Hst. unfold tenant_update_quota. rw Hin. go. rw Ht. cbn.
  rw decide_False //. cbn. finish.
Qed.

Lemma update_quota_none q :
  status t = TENANT_STATUS_INACTIVE →
  ∃ s', tenant_update_quota tid (Some q) s = Ret (-1) s' ∧ settled s (shm s) s'.
Proof using Ht Htid Hr.
  intros Hst. unfold tenant_update_quota. rw Hin. go. rw Ht. cbn.
  rw decide_True //. cbn. finish.
Qed.

Lemma update_usage_ok u :
  status t = TENANT_STATUS_ACTIVE →
  ∃ s', tenant_update_resource_usage tid (Some u) s = Ret 0 s' ∧
    settled s ((shm s) <| tenants ::= <[Z.to_nat tid :=
      t <| usage := u |> <| last_active_at := clock s 0%nat |>]> |>) s'.
Proof using Ht Htid Hr.
  intros Hst. unfold tenant_update_resource_usage. rw Hin. go. rw Ht. cbn.
  rw decide_False; [by intros []|]. cbn. finish.
Qed.

Lemma update_usage_none u :
  status t ≠ TENANT_STATUS_ACTIVE →
  ∃ s', tenant_update_resource_usage tid (Some u) s = Ret (-1) s' ∧ settled s (shm s) s'.
Proof using Ht Htid Hr.
  intros Hst. unfold tenant_update_resource_usage. rw Hin. go. rw Ht. cbn.
  rw decide_True //. cbn. finish.
Qed.

Lemma get_usage_ok u :
  status t = TENANT_STATUS_ACTIVE →
  ∃ s', tenant_get_resource_usage tid (Some u) s = Ret (0, Some (usage t)) s' ∧
    settled s (shm s) s'.
Proof using Ht Htid Hr.
  intros Hst. unfold tenant_get_resource_usage. rw Hin. go. rw Ht. cbn.
  rw decide_False; [by intros []|]. cbn. finish.
Qed.

Lemma get_usage_none u :
  status t ≠ TENANT_STATUS_ACTIVE →
  ∃ s', tenant_get_resource_usage tid (Some u) s = Ret (-1, Some u) s' ∧
    settled s (shm s) s'.
Proof using Ht Htid Hr.
  intros Hst. unfold tenant_get_resource_usage. rw Hin. go. rw Ht. cbn.
  rw decide_True //. cbn. finish.
Qed.

Lemma check_limit_run rt n :
  ∃ s', tenant_check_resource_limit tid rt n s =
      Ret (if decide (status t ≠ TENANT_STATUS_ACTIVE) then true else exceeds t rt n) s' ∧
    settled s (shm s) s'.
Proof using Ht Htid Hr.
  unfold tenant_check_resource_limit. rw Hin. go. rw Ht. cbn.
  destruct (decide (status t ≠ TENANT_STATUS_ACTIVE)); cbn; finish.
Qed.

Lemma statistics_run c r :
  ∃ v s', tenant_get_statistics tid (Some c) (Some r) s = Ret v s' ∧
    settled s (shm s) s' ∧
    v = (if decide (status t ≠ TENANT_STATUS_ACTIVE) then (-1, Some c, Some r)
         else (0, Some (total_qp_creates (usage t)), Some (total_mr_regs (usage t)))).
Proof using Ht Htid Hr.
  unfold tenant_get_statistics. rw Hin. go. rw Ht. cbn.
  destruct (decide (status t ≠ TENANT_STATUS_ACTIVE)); cbn; do 2 eexists;
    (split; [reflexivity|split; [split; [exact Hp|done..]|done]]).
Qed.

Lemma bind_inactive pid :
  status t ≠ TENANT_STATUS_ACTIVE →
  ∃ s', tenant_bind_process pid tid s = Ret (-1) s' ∧ settled s (shm s) s'.
Proof using Ht Htid Hr.
  intros Hst. unfold tenant_bind_process. rw Hin. go. rw Ht. cbn.
  rw decide_True //. cbn. finish.
Qed.

Lemma bind_full pid :
  status t = TENANT_STATUS_ACTIVE →
  bind_scan pid (pid_mappings (shm s)) 0 (-1) = (-1, -1) →
  ∃ s', tenant_bind_process pid tid s = Ret (-1) s' ∧ settled s (shm s) s'.
Proof using Ht Htid Hr.
  intros Hst Hscan. unfold tenant_bind_process. rw Hin. go. rw Ht. cbn.
  rw decide_False; [by intros []|]. cbn. rw Hscan. cbn. finish.
Qed.

(** The pid holds slot [i] already: only that slot and the time change. *)
Lemma bind_again pid i e :
  status t = TENANT_STATUS_ACTIVE →
  bind_scan pid (pid_mappings (shm s)) 0 (-1) = (Z.of_nat i, e) →
  ∃ s', tenant_bind_process pid tid s = Ret 0 s' ∧
    settled s ((shm s)
      <| pid_mappings ::= <[i := mk_mapping pid tid (clock s 0%nat)]> |>
      <| tenants ::= <[Z.to_nat tid := t <| last_active_at := clock s 1%nat |>]> |>) s'.
Proof using Ht Htid Hr.
  intros Hst Hscan. unfold tenant_bind_process. rw Hin. go. rw Ht. cbn.
  rw decide_False; [by intros []|]. cbn. rw Hscan.
  rw (proj2 (Z.leb_le 0 (Z.of_nat i))); [lia|].
  rw (proj2 (Z.ltb_ge (Z.of_nat i) 0)); [lia|]. cbn. rw Ht Nat2Z.id. cbn. finish.
Qed.

(** A new pid takes the free slot [i]. *)
Lemma bind_fresh pid i :
  status t = TENANT_STATUS_ACTIVE →
  bind_scan pid (pid_mappings (shm s)) 0 (-1) = (-1, Z.of_nat i) →
  ∃ s', tenant_bind_process pid tid s = Ret 0 s' ∧
    settled s ((shm s)
      <| total_process_count ::= λ n, u32 (n + 1) |>
      <| pid_mappings ::= <[i := mk_mapping pid tid (clock s 0%nat)]> |>
      <| tenants ::= <[Z.to_nat tid := t <| process_count ::= λ n, u32 (n + 1) |>
           <| processes ::= replace_first 0 pid |>
           <| last_active_at := clock s 1%nat |>]> |>) s'.
Proof using Ht Htid Hr.
  intros Hst Hscan. pose proof (lookup_lt_Some _ _ _ Ht) as Hlt.
  unfold tenant_bind_process. rw Hin. go. rw Ht. cbn.
  rw decide_False; [by intros []|]. cbn. rw Hscan. cbn.
  rw (proj2 (Z.ltb_ge (Z.of_nat i) 0)); [lia|]. cbn.
  rw list_lookup_insert_eq //. cbn.
  rw list_lookup_insert_eq; [by rw length_insert|]. cbn.
  eexists. split; [reflexivity|]. split; [exact Hp|done|done|].
  split; cbn; [|by rw Nat2Z.id|done|done]. by rw !list_insert_insert_eq.
Qed.
End Tenant.

Lemma unbind_found pid i m t :
  find_index (λ m, m_pid m =? pid) (pid_mappings (shm s)) = Some i →
  pid_mappings (shm s) !! i = Some m →
  tenants (shm s) !! Z.to_nat (m_tenant_id m) = Some t →
  ∃ s', tenant_unbind_process pid s = Ret 0 s' ∧
    settled s ((shm s)
      <| tenants ::= <[Z.to_nat (m_tenant_id m) :=
           t <| processes ::= replace_first pid 0 |>
             <| process_count ::= λ n, if 0 <? n then n - 1 else n |>]> |>
      <| pid_mappings ::= <[i := m <| m_pid := 0 |> <| m_tenant_id := 0 |>]> |>
      <| total_process_count ::= λ n, if 0 <? n then n - 1 else n |>) s'.
Proof using Hr.
  intros Hf Hi Ht. unfold tenant_unbind_process. go. rw Hf Hi. cbn. rw Ht. cbn. finish.
Qed.

Lemma unbind_none pid :
  find_index (λ m, m_pid m =? pid) (pid_mappings (shm s)) = None →
  ∃ s', tenant_unbind_process pid s = Ret (-1) s' ∧ settled s (shm s) s'.
Proof using Hr. intros Hf. unfold tenant_unbind_process. go. rw Hf. cbn. finish. Qed.

Lemma get_process_tenant_run pid x :
  ∃ s', tenant_get_process_tenant pid (Some x) s =
      Ret (match find_index (λ m, m_pid m =? pid) (pid_mappings (shm s)) with
           | Some i => (0, Some (m_tenant_id (default mapping_zero (pid_mappings (shm s) !! i))))
           | None => (-1, Some 0)
           end) s' ∧
    settled s (shm s) s'.
Proof using Hr.
  unfold tenant_get_process_tenant. go. destruct (find_index _ _); cbn; finish.
Qed.

Lemma active_list_run max_count :
  0 < max_count →
  ∃ s', tenant_get_active_list true max_count s =
      Ret (let l := collect_active (tenants (shm s)) 0 max_count in
           (Z.of_nat (length l), l)) s' ∧
    settled s (shm s) s'.
Proof using Hr.
  intros Hm. unfold tenant_get_active_list. rw (proj2 (Z.leb_gt _ 0) Hm). go. finish.
Qed.

Lemma print_all_run : ∃ s', tenant_print_all s = Ret () s' ∧ settled s (shm s) s'.
Proof using Hr. unfold tenant_print_all. go. finish. Qed.
End Run.

(** ** The loops *)

Lemma bind_scan_found pid maps i e k :
  find_index (λ m, m_pid m =? pid) maps = Some k →
  ∃ e', bind_scan pid maps i e = (i + Z.of_nat k, e').
Proof.
  revert i e k. induction maps as [|m maps IH]; intros i e k; cbn; [done|].
  destruct (m_pid m =? pid); [intros [= <-]; exists e; f_equal; lia|].
  intros (k' & Hk & ->)%fmap_Some_1.
  destruct (IH (i + 1) (if (e <? 0) && (m_pid m =? 0) then i else e) k' Hk) as [e' ->].
  exists e'. f_equal. lia.
Qed.

Lemma bind_scan_missing pid maps i e :
  0 ≤ i → find_index (λ m, m_pid m =? pid) maps = None →
  bind_scan pid maps i e =
    (-1, if e <? 0
         then match find_index (λ m, m_pid m =? 0) maps with
              | Some k => i + Z.of_nat k
              | None => e
              end
         else e).
Proof.
  revert i e. induction maps as [|m maps IH]; intros i e Hi; cbn.
  - by destruct (e <? 0).
  - destruct (m_pid m =? pid); [done|]. intros Hn%fmap_None. rw IH //; [lia|]. f_equal.
    destruct (Z.ltb_spec e 0); destruct (m_pid m =? 0); cbn;
      destruct (find_index (λ m, m_pid m =? 0) maps); cbn;
      repeat match goal with |- context [?a <? 0] => destruct (Z.ltb_spec a 0) end; lia.
Qed.

Definition unmap (m : pid_tenant_mapping_t) : pid_tenant_mapping_t :=
  m <| m_pid := 0 |> <| m_tenant_id := 0 |>.

Lemma unmap_all_spec tid maps n :
  is_u32 n →
  unmap_all tid maps n =
    ((λ m, if m_tenant_id m =? tid then unmap m else m) <$> maps,
     u32 (n - countb (λ m, m_tenant_id m =? tid) maps)).
Proof.
  revert n. induction maps as [|m maps IH]; intros n Hn; cbn.
  - rw u32_small; [by rw Z.sub_0_r|]. f_equal. lia.
  - destruct (m_tenant_id m =? tid); cbn.
    + rw IH; [apply u32_range|]. f_equal. width_lia.
    + rw IH //.
Qed.

Lemma length_replace_first x y l : length (replace_first x y l) = length l.
Proof. induction l as [|z l IH]; cbn; [done|]. destruct (z =? x); cbn; by rw ?IH. Qed.

Lemma collect_active_spec ts count max_count :
  count ≤ max_count →
  collect_active ts count max_count =
    take (Z.to_nat (max_count - count)) (filter (λ t, status t = TENANT_STATUS_ACTIVE) ts).
Proof.
  revert count. induction ts as [|t ts IH]; intros count Hc; cbn [collect_active].
  - by rw take_nil.
  - destruct (Z.ltb_spec count max_count) as [Hlt|Hge].
    + rewrite filter_cons. case_decide as Hst.
      * replace (Z.to_nat (max_count - count)) with (S (Z.to_nat (max_count - (count + 1)))) by lia.
        cbn. f_equal. apply IH. lia.
      * apply IH. lia.
    + replace (Z.to_nat (max_count - count)) with 0%nat by lia. done.
Qed.

(** ** The calls of the interface, and sequences of them *)

Inductive call :=
| Create (tid : Z) (name : option string) (q : option tenant_quota_t)
| Delete (tid : Z)
| GetInfo (tid : Z) (info : option tenant_info_t)
| SetStatus (tid : Z) (st : tenant_status)
| UpdateQuota (tid : Z) (q : option tenant_quota_t)
| Bind (pid tid : Z)
| Unbind (pid : Z)
| GetProcessTenant (pid : Z) (out : option Z)
| UpdateUsage (tid : Z) (u : option tenant_resource_usage_t)
| GetUsage (tid : Z) (u : option tenant_resource_usage_t)
| CheckLimit (tid resource_type amount : Z)
| ActiveList (out : bool) (max_count : Z)
| PrintAll
| Statistics (tid : Z) (creates regs : option Z).

(** The value is the code the function returns. *)
Definition run_call (c : call) : M state Z :=
  match c with
  | Create tid name q => tenant_create tid name q
  | Delete tid => tenant_delete tid
  | GetInfo tid info => r ← tenant_get_info tid info; mret r.1
  | SetStatus tid st => tenant_set_status tid st
  | UpdateQuota tid q => tenant_update_quota tid q
  | Bind pid tid => tenant_bind_process pid tid
  | Unbind pid => tenant_unbind_process pid
  | GetProcessTenant pid out => r ← tenant_get_process_tenant pid out; mret r.1
  | UpdateUsage tid u => tenant_update_resource_usage tid u
  | GetUsage tid u => r ← tenant_get_resource_usage tid u; mret r.1
  | CheckLimit tid rt n => r ← tenant_check_resource_limit tid rt n; mret (Z.b2z r)
  | ActiveList out n => r ← tenant_get_active_list out n; mret r.1
  | PrintAll => tenant_print_all;; mret 0
  | Statistics tid c r => v ← tenant_get_statistics tid c r; mret v.1.1
  end.

(** The tenant id of a call; it is a [uint32_t]. *)
Definition call_tid (c : call) : Z :=
  match c with
  | Create tid _ _ | Delete tid | GetInfo tid _ | SetStatus tid _ | UpdateQuota tid _
  | Bind _ tid | UpdateUsage tid _ | GetUsage tid _ | CheckLimit tid _ _
  | Statistics tid _ _ => tid
  | _ => 0
  end.

Inductive step : state → state → Prop :=
| step_call c r s s' : 0 ≤ call_tid c → run_call c s = Ret r s' → step s s'.

(** ** Every call returns and keeps the invariant *)

Record maps_ok (ms : list pid_tenant_mapping_t) : Prop := {
  maps_length : length ms = Z.to_nat MAX_PROCESSES;
  maps_tids i m : ms !! i = Some m → 0 ≤ m_tenant_id m < MAX_TENANTS;
  maps_unique : keys_unique m_pid ms;
}.

Lemma shm_ok_maps d : shm_ok d → maps_ok (pid_mappings d).
Proof. intros Hd. by split; apply Hd. Qed.

(** One tenant, the mappings and the counters may change together. *)
Lemma shm_ok_change d d' i t t' :
  shm_ok d → tenants d !! i = Some t →
  tenants d' = <[i := t']> (tenants d) →
  length (processes t') = length (processes t) →
  (status t' ≠ TENANT_STATUS_INACTIVE → tenant_id t' = Z.of_nat i ∧ i ≠ 0%nat) →
  maps_ok (pid_mappings d') → is_u32 (active_tenant_count d') → is_u32 (total_process_count d') →
  shm_ok d'.
Proof.
  intros Hd Hi Ht Hp Hid [] Ha Hn.
  assert (Hput : shm_ok (d <| tenants ::= <[i := t']> |>)).
  { eapply shm_ok_put; [done..|naive_solver|]. intros ->.
    destruct (status t') eqn:E; [done|naive_solver..]. }
  destruct Hput. cbn in *. rw -Ht in ok_tenants0 ok_procs0 ok_default0 ok_ids0. by split.
Qed.

Lemma maps_ok_insert ms i m :
  maps_ok ms → 0 ≤ m_tenant_id m < MAX_TENANTS →
  (m_pid m ≠ 0 → ∀ j y, j ≠ i → ms !! j = Some y → m_pid y ≠ m_pid m) →
  maps_ok (<[i := m]> ms).
Proof.
  intros [Hl Ht Hu] Hm Hother. split.
  - by rw length_insert.
  - intros j y [(_ & -> & _)|[_ Hj]]%list_lookup_insert_Some; [done|by apply (Ht j)].
  - by apply keys_unique_insert.
Qed.

Lemma maps_ok_unmap tid ms :
  maps_ok ms → maps_ok ((λ m, if m_tenant_id m =? tid then unmap m else m) <$> ms).
Proof.
  intros [Hl Ht Hu]. split.
  - by rw length_fmap.
  - intros j y (m & -> & Hm)%list_lookup_fmap_Some. destruct (m_tenant_id m =? tid); cbn.
    + unfold MAX_TENANTS. lia.
    + by apply (Ht j).
  - intros i j x y (m & -> & Hm)%list_lookup_fmap_Some (m' & -> & Hm')%list_lookup_fmap_Some.
    repeat case_match; cbn; try done. by apply Hu.
Qed.

Lemma maps_find ms pid i :
  maps_ok ms → find_index (λ m, m_pid m =? pid) ms = Some i →
  ∃ m, ms !! i = Some m ∧ m_pid m = pid ∧
    (pid ≠ 0 → ∀ j y, j ≠ i → ms !! j = Some y → m_pid y ≠ pid).
Proof.
  intros Hm (m & Hi & Hp%Z.eqb_eq & _)%find_index_Some. exists m. split_and!; [done..|].
  intros H0 j y Hji Hj Hy. apply Hji. apply (maps_unique _ Hm j i y m); congruence.
Qed.

Lemma maps_missing ms pid :
  find_index (λ m, m_pid m =? pid) ms = None → ∀ j y, ms !! j = Some y → m_pid y ≠ pid.
Proof. rw find_index_None. intros H j y Hj. specialize (H j y Hj). lia. Qed.

(** How [tenant_bind_process] chooses the slot. *)
Lemma bind_cases ms pid :
  maps_ok ms →
  (∃ i m e, bind_scan pid ms 0 (-1) = (Z.of_nat i, e) ∧ ms !! i = Some m ∧ m_pid m = pid ∧
     find_index (λ m, m_pid m =? pid) ms = Some i) ∨
  (∃ i m, bind_scan pid ms 0 (-1) = (-1, Z.of_nat i) ∧ ms !! i = Some m ∧ m_pid m = 0 ∧
     pid ≠ 0 ∧ find_index (λ m, m_pid m =? pid) ms = None) ∨
  (bind_scan pid ms 0 (-1) = (-1, -1) ∧ find_index (λ m, m_pid m =? pid) ms = None ∧
     find_index (λ m, m_pid m =? 0) ms = None).
Proof.
  intros Hm. destruct (find_index (λ m, m_pid m =? pid) ms) as [i|] eqn:Hf.
  - left. destruct (maps_find _ _ _ Hm Hf) as (m & Hi & Hp & _).
    destruct (bind_scan_found pid ms 0 (-1) i Hf) as [e He]. by exists i, m, e.
  - pose proof (bind_scan_missing pid ms 0 (-1) ltac:(lia) Hf) as Hscan. cbn in Hscan.
    destruct (find_index (λ m, m_pid m =? 0) ms) as [i|] eqn:H0; right; [left|by right].
    destruct (maps_find _ _ _ Hm H0) as (m & Hi & Hp & _). exists i, m. split_and!; [done..| |done].
    intros ->. congruence.
Qed.

(** One call from a ready state: it returns and its state is ready again. *)
Definition keeps_ready {A} (s : state) (c : M state A) : Prop :=
  ∃ r s', c s = Ret r s' ∧ ready s'.

Lemma keeps_same {A} s (c : M state A) r :
  ready s → (∃ s', c s = Ret r s' ∧ settled s (shm s) s') → keeps_ready s c.
Proof. intros Hr (s' & Hc & Hs). exists r, s'. split; [done|]. eapply settled_ready; [done|apply Hr]. Qed.

Lemma keeps_to {A} s (c : M state A) r d :
  (∃ s', c s = Ret r s' ∧ settled s d s') → shm_ok d → keeps_ready s c.
Proof. intros (s' & Hc & Hs) Hd. exists r, s'. split; [done|]. by eapply settled_ready. Qed.

Lemma keeps_bad {A} s (c : M state A) r : ready s → c s = Ret r s → keeps_ready s c.
Proof. intros. by exists r, s. Qed.

Section Calls.
Context (s : state) (Hr : ready s).
Let Hd := ready_shm s Hr.
Let Hms := shm_ok_maps _ Hd.

(** A non-inactive tenant is not tenant 0 and knows its own index. *)
Lemma live_tenant tid t :
  0 ≤ tid < MAX_TENANTS → tenants (shm s) !! Z.to_nat tid = Some t →
  status t ≠ TENANT_STATUS_INACTIVE → tid ≠ 0 ∧ tenant_id t = tid.
Proof using Hr.
  intros Hin Ht Hst. split.
  - intros ->. apply Hst. by apply (ok_default _ Hd).
  - rw (ok_ids _ Hd _ _ Ht Hst). lia.
Qed.

(** Rewriting a live tenant without touching its identity. *)
Lemma ready_put d tid t t' :
  0 ≤ tid < MAX_TENANTS → tenants (shm s) !! Z.to_nat tid = Some t →
  status t ≠ TENANT_STATUS_INACTIVE →
  tenants d = <[Z.to_nat tid := t']> (tenants (shm s)) →
  length (processes t') = length (processes t) → tenant_id t' = tenant_id t →
  maps_ok (pid_mappings d) → is_u32 (active_tenant_count d) → is_u32 (total_process_count d) →
  shm_ok d.
Proof using Hr.
  intros Hin Ht Hst Hts Hp Hid Hm Ha Hn. destruct (live_tenant _ _ Hin Ht Hst).
  eapply (shm_ok_change (shm s)); try done. intros _. lia.
Qed.

Lemma create_ready tid name q : 0 ≤ tid → keeps_ready s (tenant_create tid name q).
Proof using Hr.
  intros H0. destruct (decide (tid ≠ 0 ∧ tid < MAX_TENANTS)) as [[Hne Hin]|Hout].
  - destruct (tenant_lookup _ tid Hd ltac:(lia)) as [t Ht].
    destruct (decide (status t = TENANT_STATUS_INACTIVE)) as [Hst|Hst].
    + eapply keeps_to; [by apply (create_new s Hr tid t)|].
      eapply (shm_ok_change (shm s)); cbn; try done.
      * by rw (ok_procs _ Hd _ _ Ht) length_replicate.
      * intros _. split; [exact (eq_sym (Z2Nat.id tid H0))|lia].
      * apply u32_range.
      * apply Hd.
    + eapply keeps_same; [done|]. by apply (create_taken s Hr tid t).
  - eapply keeps_bad; [done|]. unfold tenant_create.
    destruct (Z.eqb_spec tid 0), (Z.leb_spec MAX_TENANTS tid); cbn; try done. lia.
Qed.

Lemma delete_ready tid : 0 ≤ tid → keeps_ready s (tenant_delete tid).
Proof using Hr.
  intros H0. destruct (decide (tid ≠ 0 ∧ tid < MAX_TENANTS)) as [[Hne Hin]|Hout].
  - destruct (tenant_lookup _ tid Hd ltac:(lia)) as [t Ht].
    destruct (decide (status t = TENANT_STATUS_INACTIVE)) as [Hst|Hst].
    + eapply keeps_same; [done|]. by apply (delete_none s Hr tid t).
    + eapply keeps_to; [apply (delete_ok s Hr tid t); try done|].
      { apply unmap_all_spec, Hd. }
      eapply ready_put; cbn; first [done|lia|by apply maps_ok_unmap|apply u32_range].
  - eapply keeps_bad; [done|]. unfold tenant_delete.
    destruct (Z.eqb_spec tid 0), (Z.leb_spec MAX_TENANTS tid); cbn; try done. lia.
Qed.

Lemma bind_ready pid tid : 0 ≤ tid → keeps_ready s (tenant_bind_process pid tid).
Proof using Hr.
  intros H0. destruct (Z.leb_spec MAX_TENANTS tid) as [Hout|Hin].
  - eapply keeps_bad; [done|]. unfold tenant_bind_process. by rw (proj2 (Z.leb_le _ _) Hout).
  - destruct (tenant_lookup _ tid Hd ltac:(lia)) as [t Ht].
    destruct (decide (status t = TENANT_STATUS_ACTIVE)) as [Hst|Hst]; cycle 1.
    { eapply keeps_same; [done|]. by apply (bind_inactive s Hr tid t). }
    destruct (bind_cases (pid_mappings (shm s)) pid Hms)
      as [(i & m & e & Hscan & Hi & Hp & Hf)|[(i & m & Hscan & Hi & Hp & H1 & Hf)|(Hscan & _)]].
    + eapply keeps_to; [by apply (bind_again s Hr tid t ltac:(lia) Ht pid i e)|].
      eapply ready_put; cbn; try done; [congruence| |apply Hd..].
      apply maps_ok_insert; cbn; [done|lia|].
      by destruct (maps_find _ _ _ Hms Hf) as (_ & _ & _ & Hother).
    + eapply keeps_to; [by apply (bind_fresh s Hr tid t ltac:(lia) Ht pid i)|].
      eapply ready_put; cbn; try done; [congruence|by rw length_replace_first| |apply Hd|apply u32_range].
      apply maps_ok_insert; cbn; [done|lia|]. intros _ j y _. by apply maps_missing.
    + eapply keeps_same; [done|]. by apply (bind_full s Hr tid t).
Qed.

Lemma unbind_ready pid : keeps_ready s (tenant_unbind_process pid).
Proof using Hr.
  destruct (find_index (λ m, m_pid m =? pid) (pid_mappings (shm s))) as [i|] eqn:Hf.
  - destruct (maps_find _ _ _ Hms Hf) as (m & Hi & Hp & _).
    pose proof (maps_tids _ Hms _ _ Hi) as Htid.
    destruct (tenant_lookup _ _ Hd Htid) as [t Ht].
    eapply keeps_to; [by apply (unbind_found s Hr pid i m t)|].
    pose proof (ok_total _ Hd) as Hn.
    eapply (shm_ok_change (shm s)); cbn; try done.
    + by rw length_replace_first.
    + cbn. intros Hst. destruct (live_tenant _ _ Htid Ht Hst). lia.
    + cbn. apply maps_ok_insert; cbn; [done|unfold MAX_TENANTS; lia|done].
    + apply Hd.
    + destruct (Z.ltb_spec 0 (total_process_count (shm s))); unfold is_u32 in *; lia.
  - eapply keeps_same; [done|]. by apply (unbind_none s Hr).
Qed.

(** The calls that begin with the same bounds check on the tenant id. *)
Lemma status_ready tid st : 0 ≤ tid → keeps_ready s (tenant_set_status tid st).
Proof using Hr.
  intros H0. destruct (Z.leb_spec MAX_TENANTS tid) as [Hout|Hin].
  - eapply keeps_bad; [done|]. unfold tenant_set_status. by rw (proj2 (Z.leb_le _ _) Hout).
  - destruct (tenant_lookup _ tid Hd ltac:(lia)) as [t Ht].
    destruct (decide (status t = TENANT_STATUS_INACTIVE)) as [Hst|Hst].
    + eapply keeps_same; [done|]. by apply (set_status_none s Hr tid t).
    + eapply keeps_to; [by apply (set_status_ok s Hr tid t)|].
      eapply (ready_put _ tid t); cbn; try done; apply Hd.
Qed.

Lemma quota_ready tid q : 0 ≤ tid → keeps_ready s (tenant_update_quota tid q).
Proof using Hr.
  intros H0. destruct q as [q|]; [|by eapply keeps_bad].
  destruct (Z.leb_spec MAX_TENANTS tid) as [Hout|Hin].
  - eapply keeps_bad; [done|]. unfold tenant_update_quota. by rw (proj2 (Z.leb_le _ _) Hout).
  - destruct (tenant_lookup _ tid Hd ltac:(lia)) as [t Ht].
    destruct (decide (status t = TENANT_STATUS_INACTIVE)) as [Hst|Hst].
    + eapply keeps_same; [done|]. by apply (update_quota_none s Hr tid t).
    + eapply keeps_to; [by apply (update_quota_ok s Hr tid t)|].
      eapply (ready_put _ tid t); cbn; try done; apply Hd.
Qed.

Lemma usage_ready tid u : 0 ≤ tid → keeps_ready s (tenant_update_resource_usage tid u).
Proof using Hr.
  intros H0. destruct u as [u|]; [|by eapply keeps_bad].
  destruct (Z.leb_spec MAX_TENANTS tid) as [Hout|Hin].
  - eapply keeps_bad; [done|]. unfold tenant_update_resource_usage.
    by rw (proj2 (Z.leb_le _ _) Hout).
  - destruct (tenant_lookup _ tid Hd ltac:(lia)) as [t Ht].
    destruct (decide (status t = TENANT_STATUS_ACTIVE)) as [Hst|Hst].
    + eapply keeps_to; [by apply (update_usage_ok s Hr tid t)|].
      eapply (ready_put _ tid t); cbn; try done; try apply Hd. congruence.
    + eapply keeps_same; [done|]. by apply (update_usage_none s Hr tid t).
Qed.

Lemma get_info_ready tid o : 0 ≤ tid → keeps_ready s (tenant_get_info tid o).
Proof using Hr.
  intros H0. destruct o as [o|]; [|by eapply keeps_bad].
  destruct (Z.leb_spec MAX_TENANTS tid) as [Hout|Hin].
  - eapply keeps_bad; [done|]. unfold tenant_get_info. by rw (proj2 (Z.leb_le _ _) Hout).
  - destruct (tenant_lookup _ tid Hd ltac:(lia)) as [t Ht].
    eapply keeps_same; [done|]. by apply (get_info_run s Hr tid t).
Qed.

Lemma get_usage_ready tid u : 0 ≤ tid → keeps_ready s (tenant_get_resource_usage tid u).
Proof using Hr.
  intros H0. destruct u as [u|]; [|by eapply keeps_bad].
  destruct (Z.leb_spec MAX_TENANTS tid) as [Hout|Hin].
  - eapply keeps_bad; [done|]. unfold tenant_get_resource_usage.
    by rw (proj2 (Z.leb_le _ _) Hout).
  - destruct (tenant_lookup _ tid Hd ltac:(lia)) as [t Ht].
    destruct (decide (status t = TENANT_STATUS_ACTIVE)) as [Hst|Hst].
    + eapply keeps_same; [done|]. by apply (get_usage_ok s Hr tid t).
    + eapply keeps_same; [done|]. by apply (get_usage_none s Hr tid t).
Qed.

Lemma check_ready tid rt n : 0 ≤ tid → keeps_ready s (tenant_check_resource_limit tid rt n).
Proof using Hr.
  intros H0. destruct (Z.leb_spec MAX_TENANTS tid) as [Hout|Hin].
  - eapply keeps_bad; [done|]. unfold tenant_check_resource_limit.
    by rw (proj2 (Z.leb_le _ _) Hout).
  - destruct (tenant_lookup _ tid Hd ltac:(lia)) as [t Ht].
    eapply keeps_same; [done|]. by apply (check_limit_run s Hr tid t).
Qed.

Lemma statistics_ready tid c r : 0 ≤ tid → keeps_ready s (tenant_get_statistics tid c r).
Proof using Hr.
  intros H0. destruct c as [c|]; [|by eapply keeps_bad].
  destruct r as [r|]; [|by eapply keeps_bad].
  destruct (Z.leb_spec MAX_TENANTS tid) as [Hout|Hin].
  - eapply keeps_bad; [done|]. unfold tenant_get_statistics.
    by rw (proj2 (Z.leb_le _ _) Hout).
  - destruct (tenant_lookup _ tid Hd ltac:(lia)) as [t Ht].
    destruct (statistics_run s Hr tid t ltac:(lia) Ht c r) as (v & s' & Hc & Hs & _).
    eapply keeps_same; [done|]. by exists s'.
Qed.

Lemma lookup_ready pid out : keeps_ready s (tenant_get_process_tenant pid out).
Proof using Hr.
  destruct out as [x|]; [|by eapply keeps_bad].
  eapply keeps_same; [done|]. by apply (get_process_tenant_run s Hr).
Qed.

Lemma list_ready out n : keeps_ready s (tenant_get_active_list out n).
Proof using Hr.
  destruct (decide (out = true ∧ 0 < n)) as [[-> Hn]|Hout].
  - eapply keeps_same; [done|]. by apply (active_list_run s Hr).
  - eapply keeps_bad; [done|]. unfold tenant_get_active_list.
    destruct out; cbn; [|done]. rw (proj2 (Z.leb_le n 0)); [|done].
    destruct (Z.lt_ge_cases 0 n); [|done]. by destruct Hout.
Qed.

Lemma print_ready : keeps_ready s tenant_print_all.
Proof using Hr. eapply keeps_same; [done|]. by apply (print_all_run s Hr). Qed.

Lemma keeps_bind {A B} (c : M state A) (f : A → B) :
  keeps_ready s c → keeps_ready s (x ← c; mret (f x)).
Proof using. intros (r & s' & Hc & Hr'). exists (f r), s'. split; [|done]. by rw /mbind /M_bind Hc. Qed.

Lemma run_call_ready c : 0 ≤ call_tid c → keeps_ready s (run_call c).
Proof using Hr.
  destruct c; cbn [call_tid run_call]; intros Htid; try apply keeps_bind.
  - by apply create_ready.
  - by apply delete_ready.
  - by apply get_info_ready.
  - by apply status_ready.
  - by apply quota_ready.
  - by apply bind_ready.
  - apply unbind_ready.
  - apply lookup_ready.
  - by apply usage_ready.
  - by apply get_usage_ready.
  - by apply check_ready.
  - apply list_ready.
  - apply print_ready.
  - by apply statistics_ready.
Qed.
End Calls.

(** The calls that may change the content. *)
Definition writes (c : call) : bool :=
  match c with
  | Create _ _ _ | Delete _ | SetStatus _ _ | UpdateQuota _ _ | Bind _ _ | Unbind _
  | UpdateUsage _ _ => true
  | _ => false
  end.

(** Every other call leaves the content as it was. *)
Lemma call_reads s (Hr : ready s) c :
  0 ≤ call_tid c →
  (∃ r s', run_call c s = Ret r s' ∧ same_content (shm s) (shm s')) ∨ writes c = true.
Proof.
  assert (Hread : ∀ {A} (m : M state A) (f : A → Z) x, (∃ s', m s = Ret x s' ∧ settled s (shm s) s') →
    ∃ r s', (y ← m; mret (f y)) s = Ret r s' ∧ same_content (shm s) (shm s')).
  { intros A m f x (s' & Hm & Hs). exists (f x), s'. split; [by rw /mbind /M_bind Hm|apply Hs]. }
  assert (Hskip : ∀ {A} (m : M state A) (f : A → Z) x, m s = Ret x s →
    ∃ r s', (y ← m; mret (f y)) s = Ret r s' ∧ same_content (shm s) (shm s')).
  { intros A m f x Hm. exists (f x), s. split; [by rw /mbind /M_bind Hm|done]. }
  intros H0. assert (Hlook : call_tid c < MAX_TENANTS →
    ∃ t, tenants (shm s) !! Z.to_nat (call_tid c) = Some t).
  { intros. apply tenant_lookup; [apply Hr|lia]. }
  destruct c as [| |tid [o|]| | | | |pid [o|]| |tid [u|]|tid rt n|out n| |tid [c|] [r|]];
    cbn [call_tid] in *; try by right.
  all: left; try (by eapply Hskip).
  all: try (destruct (Z.leb_spec MAX_TENANTS tid) as [Hout%Z.leb_le|Hin];
    [eapply Hskip; unfold tenant_get_info, tenant_get_resource_usage,
       tenant_check_resource_limit, tenant_get_statistics; run; by rw Hout
    |destruct (Hlook Hin) as [t Ht]]).
  - eapply Hread. by apply (get_info_run s Hr tid t).
  - eapply Hread. by apply (get_process_tenant_run s Hr).
  - destruct (decide (status t = TENANT_STATUS_ACTIVE)); eapply Hread.
    + by apply (get_usage_ok s Hr tid t).
    + by apply (get_usage_none s Hr tid t).
  - eapply Hread. by apply (check_limit_run s Hr tid t).
  - destruct (decide (out = true ∧ 0 < n)) as [[-> Hn]|Hno].
    + eapply Hread. by apply (active_list_run s Hr).
    + eapply Hskip. unfold tenant_get_active_list. destruct out; cbn; [|done].
      rw (proj2 (Z.leb_le n 0)); [|done]. destruct (Z.lt_ge_cases 0 n); [|done]. by destruct Hno.
  - eapply Hread. by apply (print_all_run s Hr).
  - destruct (statistics_run s Hr tid t ltac:(done) Ht c r) as (v & s' & Hrun & Hs & _).
    eapply Hread. by exists s'.
Qed.

Lemma steps_ready s s' : rtc step s s' → ready s → ready s'.
Proof.
  induction 1 as [s|s t s' [c r ? ? Htid Hrun] _ IH]; intros Hr; [done|].
  apply IH. destruct (run_call_ready _ Hr c Htid) as (r' & t' & Hrun' & Hr'). congruence.
Qed.

(** ** Properties *)

(** A mapped, freshly created object. *)
Definition fresh (clk : nat → Z) : state := mk_state true 3 shm_zero (mk_os 3 0 true 0 0) clk.

Lemma fresh_ready clk : ready (fresh clk).
Proof. split; [done..|]. apply shm_zero_ok. Qed.

(** C8: from a fresh object, after any sequence of calls with any arguments
    (null pointers, out-of-range tenants and pid 0 included), the next call
    returns: no call leaves the lock taken, indexes out of an array or loops.
    The table never maps a pid twice or to a tenant out of range, and tenant 0
    is never in use. *)
Theorem tenant_calls_always_return clk s c :
  rtc step (fresh clk) s → 0 ≤ call_tid c →
  ∃ r s', run_call c s = Ret r s' ∧ lock (shm s') = 0 ∧
    keys_unique m_pid (pid_mappings (shm s')) ∧
    (∀ i m, pid_mappings (shm s') !! i = Some m → 0 ≤ m_tenant_id m < MAX_TENANTS) ∧
    (∀ t, tenants (shm s') !! 0%nat = Some t → status t = TENANT_STATUS_INACTIVE).
Proof.
  intros Hs Htid. pose proof (steps_ready _ _ Hs (fresh_ready clk)) as Hr.
  destruct (run_call_ready s Hr c Htid) as (r & s' & Hrun & [_ Hl Hd]).
  exists r, s'. split_and!; [done..|apply Hd|apply Hd|apply Hd].
Qed.

Lemma tenant_calls_always_return_witness :
  ∃ r s', run_call (Bind 77 5) (fresh (λ _, 9)) = Ret r s' ∧ lock (shm s') = 0.
Proof.
  destruct (tenant_calls_always_return (λ _, 9) (fresh (λ _, 9)) (Bind 77 5))
    as (r & s' & H & Hl & _); [apply rtc_refl|cbn; lia|]. exists r, s'. exact (conj H Hl).
Defined.

End TenantProps.
