(* ===== verification/ShmTests.v ===== *)
(** * The tests of the shared memory

    The program [test_shared_memory.c], run on the model: the basic calls, a parent and
    a child on one object, the tenants, and ten processes that count at the same time,
    under an arbitrary schedule.  The pids, what [fork] answers and the schedule are
    what the operating system decides. *)

From S2P Require Import Prelude SlotTable ShmProcess ShmTenant.

Module ShmTests.
#[local] Existing Instances Shm.expand_usage Shm.expand_state Tenant.expand_usage Tenant.expand_state
  Tenant.tenant_status_eq_dec.
#[local] Abbreviation usage := Shm.resource_usage_t.

(** [TEST_ASSERT]: the test function returns -1 when the condition fails. *)
Definition test_assert {S} (cond : bool) (k : M S Z) : M S Z := if cond then k else mret (-1).

(** What the operating system decides for the program: its pid, the pid [fork] gives to
    the child of the second test and to the children of the fourth (negative: it fails),
    and the order in which the children of the fourth run. *)
Record environment := mk_env {
  getpid : Z;
  fork_child : Z;
  forks : list Z;
  schedule : list nat;
}.

Section Tests.
Context (e : environment).

(** A query into a variable of the caller. *)
Definition read (pid : Z) : M Shm.state (Z * usage) :=
  r ← Shm.shm_get_process_resources pid (Some Shm.usage_zero);
  mret (fst r, default Shm.usage_zero (snd r)).

Definition test_basic_shm : M Shm.state Z :=
  Shm.shm_destroy;;
  r ← Shm.shm_init;
  test_assert (r =? 0) (
  ptr ← Shm.shm_get_ptr;
  test_assert ptr (
  r ← Shm.shm_set_global_limits 100 1000 (1024 * 1024 * 1024);
  test_assert (r =? 0) (
  s ← get;
  test_assert (Shm.max_global_qp (Shm.shm s) =? 100) (
  test_assert (Shm.max_global_mr (Shm.shm s) =? 1000) (
  r ← Shm.shm_update_process_resources (getpid e) (Some (Shm.mk_usage 5 10 1024));
  test_assert (r =? 0) (
  r ← read (getpid e);
  test_assert (fst r =? 0) (
  test_assert (Shm.qp_count (snd r) =? 5) (
  test_assert (Shm.mr_count (snd r) =? 10) (
  Shm.shm_destroy;;
  mret 0))))))))).

(** The child of [test_multi_process_shm]: its exit status. *)
Definition child_of (parent pid : Z) : M Shm.state Z :=
  ptr ← Shm.shm_get_ptr;
  if negb ptr then mret 1 else
  r ← read parent;
  if negb (fst r =? 0) then mret 1 else
  if negb (Shm.qp_count (snd r) =? 10) then mret 1 else
  Shm.shm_update_process_resources pid (Some (Shm.mk_usage 5 5 512));;
  mret 0.

(** The parent waits for the child at once. *)
Definition test_multi_process_shm : M Shm.state Z :=
  Shm.shm_destroy;;
  r ← Shm.shm_init;
  test_assert (r =? 0) (
  Shm.shm_update_process_resources (getpid e) (Some (Shm.mk_usage 10 20 2048));;
  let pid := fork_child e in
  if pid <? 0 then mret (-1) else
  status ← child_of (getpid e) pid;
  if negb (status =? 0) then mret (-1) else
  r ← read pid;
  test_assert (negb (fst r =? 0) || (Shm.qp_count (snd r) =? 5)) (
  Shm.shm_destroy;;
  mret 0)).

Definition test_tenant_shm : M Tenant.state Z :=
  Tenant.tenant_shm_destroy;;
  r ← Tenant.tenant_shm_init;
  test_assert (r =? 0) (
  r ← Tenant.tenant_create 1 (Some "TestTenant")
        (Some (Tenant.mk_quota 50 500 (1024 * 1024 * 100) 50 50));
  test_assert (r =? 0) (
  i ← Tenant.tenant_get_info 1 (Some Tenant.info_zero);
  test_assert (fst i =? 0) (
  let info := default Tenant.info_zero (snd i) in
  test_assert (Tenant.tenant_id info =? 1) (
  test_assert (String.eqb (Tenant.tenant_name info) "TestTenant") (
  test_assert (bool_decide (Tenant.status info = Tenant.TENANT_STATUS_ACTIVE)) (
  test_assert (Tenant.max_qp_per_tenant (Tenant.quota info) =? 50) (
  r ← Tenant.tenant_bind_process 12345 1;
  test_assert (r =? 0) (
  t ← Tenant.tenant_get_process_tenant 12345 (Some 0);
  test_assert (fst t =? 0) (
  test_assert (default 0 (snd t) =? 1) (
  r ← Tenant.tenant_update_resource_usage 1
        (Some (Tenant.mk_usage 10 20 0 0 10240 15 0 0 0));
  test_assert (r =? 0) (
  u ← Tenant.tenant_get_resource_usage 1 (Some Tenant.usage_zero);
  test_assert (fst u =? 0) (
  let read_usage := default Tenant.usage_zero (snd u) in
  test_assert (Tenant.qp_count read_usage =? 10) (
  test_assert (Tenant.total_qp_creates read_usage =? 15) (
  b ← Tenant.tenant_check_resource_limit 1 0 40;
  test_assert (negb b) (
  b ← Tenant.tenant_check_resource_limit 1 0 50;
  test_assert b (
  r ← Tenant.tenant_unbind_process 12345;
  test_assert (r =? 0) (
  r ← Tenant.tenant_delete 1;
  test_assert (r =? 0) (
  i ← Tenant.tenant_get_info 1 (Some info);
  test_assert (negb (fst i =? 0)) (
  Tenant.tenant_shm_destroy;;
  mret 0))))))))))))))))))).

(** ** Ten processes count *)

Definition NUM_PROCESSES : Z := 10.
Definition NUM_UPDATES : Z := 100.

(** A child: the rounds of its loop it has done, and the record it has read and not
    yet written back. *)
Record child := mk_child { rounds : Z; reading : option usage }.
#[export] Instance expand_child : Expand child := λ c, mk_child (rounds c) (reading c).

Definition finished (c : child) : bool := NUM_UPDATES <=? rounds c.

Definition increment (u : usage) : usage :=
  u <| Shm.qp_count ::= λ n, i32 (n + 1) |> <| Shm.mr_count ::= λ n, i32 (n + 1) |>.

(** One call of the child [pid]: the query of a round, or its update. *)
Definition child_step (pid : Z) (c : child) : M Shm.state child :=
  if finished c then mret c else
  match reading c with
  | None =>
      r ← read pid;
      mret (if fst r =? 0 then c <| reading := Some (snd r) |> else c <| rounds ::= Z.succ |>)
  | Some u =>
      Shm.shm_update_process_resources pid (Some (increment u));;
      mret (mk_child (rounds c + 1) None)
  end.

(** The children run in the order of the schedule; the number of a process that is not
    one of them is somebody else's turn. *)
Fixpoint run_children (pids : list Z) (turns : list nat) (cs : list child) :
    M Shm.state (list child) :=
  match turns with
  | [] => mret cs
  | i :: turns' =>
      match pids !! i, cs !! i with
      | Some pid, Some c => c' ← child_step pid c; run_children pids turns' (<[i := c']> cs)
      | _, _ => run_children pids turns' cs
      end
  end.

(** The sum the parent computes after the last [waitpid]. *)
Fixpoint total_of (pids : list Z) (total_qp : Z) : M Shm.state Z :=
  match pids with
  | [] => mret total_qp
  | pid :: pids' =>
      r ← read pid;
      total_of pids' (if fst r =? 0 then i32 (total_qp + Shm.qp_count (snd r)) else total_qp)
  end.

(** Until every child has exited, [waitpid] does not return. *)
Definition test_concurrent_access : M Shm.state Z :=
  Shm.shm_destroy;;
  r ← Shm.shm_init;
  test_assert (r =? 0) (
  if existsb (λ pid, pid <? 0) (forks e) then mret (-1) else
  cs ← run_children (forks e) (schedule e)
         (replicate (Z.to_nat NUM_PROCESSES) (mk_child 0 None));
  if negb (forallb finished cs) then hang else
  total_qp ← total_of (forks e) 0;
  test_assert (total_qp =? NUM_PROCESSES * NUM_UPDATES) (
  Shm.shm_destroy;;
  mret 0)).

(** The program holds both objects. *)
Record state := mk_state { proc : Shm.state; ten : Tenant.state }.
#[export] Instance expand_tests : Expand state := λ s, mk_state (proc s) (ten s).

Definition main : M state Z :=
  r1 ← zoom proc test_basic_shm;
  r2 ← zoom proc test_multi_process_shm;
  r3 ← zoom ten test_tenant_shm;
  r4 ← zoom proc test_concurrent_access;
  mret (Z.of_nat (length (filter (λ r, r ≠ 0) [r1; r2; r3; r4]))).
End Tests.
#[local] Existing Instances expand_child expand_tests.

#[local] Arguments Z.to_nat : simpl never.

(** ** The system lets the program run *)

Definition allowed (o : Shm.os_answers) : Prop :=
  0 ≤ Shm.os_shm_open o ∧ Shm.os_ftruncate o = 0 ∧ Shm.os_mmap o = true ∧ Shm.os_shm_unlink o = 0.

(** Ready, and the answers of the system are still those of [o]. *)
Definition going (o : Shm.os_answers) (s : Shm.state) : Prop := Shm.ready s ∧ Shm.os s = o.

Lemma update_os pid u s r s' :
  Shm.shm_update_process_resources pid u s = Ret r s' → Shm.os s' = Shm.os s.
Proof.
  unfold Shm.shm_update_process_resources, Shm.shm_lock, Shm.shm_unlock, Shm.store,
    Shm.get_current_time_ns. run. intros H.
  repeat (case_match; simplify_eq/=; try done).
Qed.

Lemma limits_os a b c s r s' :
  Shm.shm_set_global_limits a b c s = Ret r s' → Shm.os s' = Shm.os s.
Proof.
  unfold Shm.shm_set_global_limits, Shm.shm_lock, Shm.shm_unlock, Shm.store. run. intros H.
  repeat (case_match; simplify_eq/=; try done).
Qed.

Lemma init_os s r s' : Shm.shm_init s = Ret r s' → Shm.os s' = Shm.os s.
Proof.
  unfold Shm.shm_init, Shm.store, Shm.get_current_time_ns. run. intros H.
  repeat (case_match; simplify_eq/=; try done).
Qed.

Lemma shm_destroyed_run s :
  allowed (Shm.os s) →
  ∃ t, Shm.shm_destroy s = Ret 0 t ∧ Shm.shm t = Shm.data_zero ∧ Shm.os t = Shm.os s.
Proof.
  intros (_ & _ & _ & Hu). unfold Shm.shm_destroy. run. rw Hu. cbn. by eexists.
Qed.

Lemma init_run s :
  allowed (Shm.os s) → Shm.shm s = Shm.data_zero →
  ∃ t, Shm.shm_init s = Ret 0 t ∧ going (Shm.os s) t ∧ Shm.table (Shm.shm t) = ∅.
Proof.
  intros (Ho & Hf & Hm & Hu) Hz.
  destruct (Shm.shm_init_ready s) as (t & Hrun & Hr);
    [done..|rw Hz; apply Shm.data_zero_ok|by rw Hz|].
  exists t. split_and!; [done|split; [done|apply (init_os _ _ _ Hrun)]|].
  revert Hrun. unfold Shm.shm_init, Shm.store, Shm.get_current_time_ns. run.
  rw (proj2 (Z.eqb_neq _ (-1))); [lia|]. rw Hf Hm Hz. cbn.
  destruct (Shm.clock s 0%nat). intros [= <-].
  apply Shm.blank_ok; cbn; rw Hz; apply fmap_replicate.
Qed.

(** What the object says of a process. *)
Definition slot_of (s : Shm.state) (pid : Z) : usage :=
  default Shm.usage_zero (Shm.table (Shm.shm s) !! pid).

Lemma read_run pid s : Shm.ready s → 0 < pid → read pid s = Ret (0, slot_of s pid) s.
Proof.
  intros [Hp _ Hd] Hpid.
  unfold read. by rw (bind_Ret _ _ _ _ _ (Shm.get_process_run s pid Shm.usage_zero Hp Hd Hpid)).
Qed.

Section Calls.
Context {B : Type} (o : Shm.os_answers) (Q : B → Shm.state → Prop).

(** The object is removed and opened again. *)
Lemma wp_restart (k : Z → M Shm.state B) s :
  allowed o → Shm.os s = o →
  (∀ t, going o t → Shm.table (Shm.shm t) = ∅ → wp (k 0) Q t) →
  wp (Shm.shm_destroy;; r ← Shm.shm_init; k r) Q s.
Proof.
  intros Ho <- Hk. destruct (shm_destroyed_run s Ho) as (t & Hrun & Hz & Hos).
  apply wp_bind. eapply wp_eq; [exact Hrun|].
  destruct (init_run t) as (t' & Hrun' & Hg & Ht); [by rw Hos|done|]. rw Hos in Hg.
  apply wp_bind. eapply wp_eq; [exact Hrun'|]. by apply Hk.
Qed.

Lemma wp_update pid u (k : Z → M Shm.state B) s :
  going o s → 0 < pid →
  is_Some (Shm.table (Shm.shm s) !! pid) ∨ Z.of_nat (size (Shm.table (Shm.shm s))) < Shm.MAX_PROCESSES →
  (∀ t, going o t → Shm.table (Shm.shm t) = <[pid := u]> (Shm.table (Shm.shm s)) → wp (k 0) Q t) →
  wp (Shm.shm_update_process_resources pid (Some u) ≫= k) Q s.
Proof.
  intros [Hr Ho] Hpid Hroom Hk.
  destruct (Shm.update_insert s pid u Hr Hpid Hroom) as (t & Hrun & Hr' & Ht & _).
  apply wp_bind. eapply wp_eq; [exact Hrun|]. apply Hk; [|done].
  split; [done|]. by rw (update_os _ _ _ _ _ Hrun).
Qed.

Lemma wp_limits a b c (k : Z → M Shm.state B) s :
  going o s →
  (∀ t, going o t → Shm.table (Shm.shm t) = Shm.table (Shm.shm s) →
     Shm.max_global_qp (Shm.shm t) = a → Shm.max_global_mr (Shm.shm t) = b → wp (k 0) Q t) →
  wp (Shm.shm_set_global_limits a b c ≫= k) Q s.
Proof.
  intros [Hr Ho] Hk.
  destruct (Shm.set_global_limits_run s a b c Hr) as (t & Hrun & Hr' & Ht & _ & Hq & Hm & _).
  apply wp_bind. eapply wp_eq; [exact Hrun|]. apply Hk; try done.
  split; [done|]. by rw (limits_os _ _ _ _ _ _ Hrun).
Qed.

Lemma wp_read pid (k : Z * usage → M Shm.state B) s :
  going o s → 0 < pid →
  wp (k (0, slot_of s pid)) Q s →
  wp (read pid ≫= k) Q s.
Proof.
  intros [Hr _] Hpid Hk. apply wp_bind. eapply wp_eq; [by apply read_run|exact Hk].
Qed.

Lemma wp_destroy (k : Z → M Shm.state B) s :
  allowed o → Shm.os s = o → (∀ t, Shm.os t = o → wp (k 0) Q t) →
  wp (Shm.shm_destroy ≫= k) Q s.
Proof.
  intros Ho <- Hk. destruct (shm_destroyed_run s Ho) as (t & Hrun & _ & Hos).
  apply wp_bind. eapply wp_eq; [exact Hrun|]. by apply Hk.
Qed.
End Calls.

(** ** The first two tests *)

Lemma basic_run e s :
  allowed (Shm.os s) → 0 < getpid e →
  wp (test_basic_shm e) (λ r t, r = 0 ∧ Shm.os t = Shm.os s) s.
Proof.
  intros Ho Hpid. eapply wp_restart; [done..|]. intros t1 H1 Ht1. cbn.
  apply wp_bind. eapply wp_eq; [unfold Shm.shm_get_ptr, gets; by rw (Shm.ready_ptr _ (proj1 H1))|]. cbn.
  eapply wp_limits; [done|]. intros t2 H2 Ht2 Hq Hm. cbn. apply wp_get. rw Hq Hm. cbn.
  eapply wp_update; [done..| |].
  { right. by rw Ht2 Ht1 map_size_empty. }
  intros t3 H3 Ht3. cbn. eapply wp_read; [done..|]. unfold slot_of. rw Ht3 lookup_insert decide_True //. cbn.
  eapply wp_destroy; [done|apply H3|]. intros t4 H4. by apply wp_ret.
Qed.

Lemma multi_run e s :
  allowed (Shm.os s) → 0 < getpid e → 0 < fork_child e → getpid e ≠ fork_child e →
  wp (test_multi_process_shm e) (λ r t, r = 0 ∧ Shm.os t = Shm.os s) s.
Proof.
  intros Ho Hpid Hchild Hne. eapply wp_restart; [done..|]. intros t1 H1 Ht1. cbn.
  eapply wp_update; [done..| |].
  { right. by rw Ht1 map_size_empty. }
  intros t2 H2 Ht2. cbn. rw (proj2 (Z.ltb_ge (fork_child e) 0)); [lia|]. cbn.
  apply wp_bind. eapply (wp_bind Shm.shm_get_ptr).
  eapply wp_eq; [unfold Shm.shm_get_ptr, gets; by rw (Shm.ready_ptr _ (proj1 H2))|]. cbn.
  eapply wp_read; [done..|]. unfold slot_of. rw Ht2 Ht1 lookup_insert decide_True //. cbn.
  eapply wp_update; [done..| |].
  { right. rw Ht2 Ht1. by rw map_size_insert_None // map_size_empty. }
  intros t3 H3 Ht3. apply wp_ret. cbn. eapply wp_read; [done..|]. unfold slot_of.
  rw Ht3 lookup_insert decide_True //. cbn.
  eapply wp_destroy; [done|apply H3|]. intros t4 H4. by apply wp_ret.
Qed.

(** ** The children *)

Section Children.
Context (o : Shm.os_answers) (pids : list Z).
Context (Hpids : NoDup pids) (Hpos : Forall (λ p, 0 < p) pids).
Context (Hfew : Z.of_nat (length pids) ≤ Shm.MAX_PROCESSES).

(** The record of a child that has done [n] rounds. *)
Definition counted_to (n : Z) : usage := Shm.mk_usage n n 0.

Lemma increment_counted n : 0 ≤ n < NUM_UPDATES → increment (counted_to n) = counted_to (n + 1).
Proof.
  unfold NUM_UPDATES, increment, counted_to. intros Hn.
  assert (H : i32 (n + 1) = n + 1) by (apply i32_small; unfold is_i32; lia).
  unfold update. cbn beta iota delta [Shm.qp_count Shm.mr_count Shm.memory_used]. by rw H.
Qed.

(** What a child has done is what the object says of it, and what it has read is so
    still: nobody else writes its slot. *)
Definition child_ok (u : usage) (c : child) : Prop :=
  0 ≤ rounds c ≤ NUM_UPDATES ∧ u = counted_to (rounds c) ∧
  (∀ v, reading c = Some v → v = u ∧ rounds c < NUM_UPDATES).

Record counted (cs : list child) (s : Shm.state) : Prop := {
  counted_going : going o s;
  counted_dom : dom (Shm.table (Shm.shm s)) ⊆ list_to_set pids;
  counted_children : Forall2 (λ pid c, child_ok (slot_of s pid) c) pids cs;
}.

(** The calls a child has made. *)
Definition calls (c : child) : nat :=
  Z.to_nat (2 * rounds c) + (match reading c with Some _ => 1%nat | None => 0%nat end).

Lemma room_for_child cs s pid :
  counted cs s → pid ∈ pids →
  is_Some (Shm.table (Shm.shm s) !! pid) ∨ Z.of_nat (size (Shm.table (Shm.shm s))) < Shm.MAX_PROCESSES.
Proof.
  intros [_ Hdom _] Hin. destruct (Shm.table (Shm.shm s) !! pid) eqn:Hp; [by left; eexists|right].
  rw -size_dom. assert (H : (size (dom (Shm.table (Shm.shm s))) < size (list_to_set pids : gset Z))%nat).
  { apply subset_size. split; [done|]. intros Hsub.
    assert (pid ∈ dom (Shm.table (Shm.shm s))) as Hd by (apply Hsub; set_solver).
    apply elem_of_dom in Hd as [v Hv]. congruence. }
  rw size_list_to_set // in H. lia.
Qed.

(** A step that changes at most the slot of child [i]. *)
Lemma children_after cs s t i pid c' :
  counted cs s → pids !! i = Some pid → child_ok (slot_of t pid) c' →
  (∀ q, q ≠ pid → slot_of t q = slot_of s q) →
  Forall2 (λ q c, child_ok (slot_of t q) c) pids (<[i := c']> cs).
Proof.
  intros [_ _ Hcs] Hpid Hok Hrest. apply Forall2_same_length_lookup_2.
  { rw length_insert. by eapply Forall2_length. }
  intros j q c Hq Hc. destruct (decide (j = i)) as [->|Hne].
  - simplify_eq. rw list_lookup_insert_eq in Hc; [|by simplify_eq].
    apply lookup_lt_Some in Hpid. by rw -(Forall2_length _ _ _ Hcs).
  - rw list_lookup_insert_ne // in Hc. rw Hrest; [|by apply (Forall2_lookup_lr _ _ _ _ _ _ Hcs Hq Hc)].
    intros ->. apply Hne. by eapply NoDup_lookup.
Qed.

(** One turn of a child: it makes one more call, or it had finished. *)
Lemma child_step_run cs s i pid c :
  counted cs s → pids !! i = Some pid → cs !! i = Some c →
  ∃ c' t, child_step pid c s = Ret c' t ∧ counted (<[i := c']> cs) t ∧
    calls c' = (if finished c then calls c else S (calls c)).
Proof.
  intros Hs Hpid Hc. pose proof Hs as [Hg Hdom Hcs].
  pose proof (Forall2_lookup_lr _ _ _ _ _ _ Hcs Hpid Hc) as (Hr & Hu & Hread).
  assert (Hin : pid ∈ pids) by (by eapply list_elem_of_lookup_2).
  assert (Hpp : 0 < pid) by (by eapply Forall_forall in Hpos).
  unfold child_step, NUM_UPDATES in *. destruct (finished c) eqn:Hf.
  - exists c, s. split_and!; [done| |done]. by rw list_insert_id.
  - apply Z.leb_gt in Hf. unfold NUM_UPDATES in Hf. destruct (reading c) as [u|] eqn:Hrd.
    + destruct (Hread u eq_refl) as [-> _].
      destruct (Shm.update_insert s pid (increment (slot_of s pid))) as (t & Hrun & Hr' & Ht & _);
        [apply Hg|done|by eapply room_for_child|].
      exists (mk_child (rounds c + 1) None), t. split_and!.
      * by rw (bind_Ret _ _ _ _ _ Hrun).
      * split; [split; [done|rw (update_os _ _ _ _ _ Hrun); apply Hg]| |].
        { rw Ht dom_insert_L. set_solver. }
        eapply children_after; [done..| |].
        { unfold slot_of at 1. rw Ht lookup_insert decide_True //. cbn. rw Hu.
          split_and!; [unfold NUM_UPDATES; cbn; lia|unfold NUM_UPDATES; cbn; lia| |done].
          apply increment_counted. unfold NUM_UPDATES. lia. }
        { intros q Hq. unfold slot_of. by rw Ht lookup_insert_ne. }
      * unfold calls. cbn. rw Hrd. lia.
    + exists (c <| reading := Some (slot_of s pid) |>), s. split_and!.
      * by rw (bind_Ret _ _ _ _ _ (read_run _ _ (proj1 Hg) Hpp)).
      * split; [done..|]. eapply children_after; [done..| |done].
        split_and!; [unfold NUM_UPDATES; cbn; lia|unfold NUM_UPDATES; cbn; lia|done|]. cbn. intros v [= <-]. by split.
      * unfold calls. cbn. rw Hrd. lia.
Qed.
(** A child makes a call each time it is its turn, until it has finished. *)
Lemma run_children_run turns cs s :
  counted cs s →
  ∃ cs' t, run_children pids turns cs s = Ret cs' t ∧ counted cs' t ∧
    ∀ i c', cs' !! i = Some c' →
      ∃ c, cs !! i = Some c ∧
        (200 `min` (calls c + count_occ Nat.eq_dec turns i) ≤ calls c')%nat.
Proof.
  revert cs s. induction turns as [|j turns IH]; intros cs s Hs.
  - exists cs, s. split_and!; [done..|]. intros i c' Hc. exists c'. split; [done|unfold count_occ; lia].
  - cbn [run_children]. destruct (pids !! j) as [pid|] eqn:Hpid; last first.
    { pose proof (counted_children _ _ Hs) as Hcs%Forall2_length.
      destruct (IH cs s Hs) as (cs' & t & Hrun & Ht & Hall). exists cs', t. split_and!; [done..|].
      intros i c' Hc'. destruct (Hall i c' Hc') as (c & Hc & Hd). exists c. split; [done|].
      rw count_occ_cons_neq //. intros ->. apply lookup_ge_None in Hpid.
      apply lookup_lt_Some in Hc. lia. }
    destruct (cs !! j) as [c|] eqn:Hc; last first.
    { apply lookup_ge_None in Hc. apply lookup_lt_Some in Hpid.
      pose proof (Forall2_length _ _ _ (counted_children _ _ Hs)). lia. }
    destruct (child_step_run cs s j pid c) as (c1 & s1 & Hstep & Hs1 & Hcalls); [done..|].
    rw (bind_Ret _ _ _ _ _ Hstep).
    destruct (IH _ _ Hs1) as (cs' & t & Hrun & Ht & Hall). exists cs', t. split_and!; [done..|].
    intros i c' Hc'. destruct (Hall i c' Hc') as (c0 & Hc0 & Hd).
    destruct (decide (i = j)) as [->|Hne].
    + rw list_lookup_insert_eq in Hc0; [by eapply lookup_lt_Some|]. simplify_eq.
      exists c. split; [done|]. rw count_occ_cons_eq //.
      destruct (finished c) eqn:Hf; [|lia]. apply Z.leb_le in Hf.
      unfold calls, NUM_UPDATES in *. lia.
    + rw list_lookup_insert_ne // in Hc0. exists c0. split; [done|]. by rw count_occ_cons_neq.
Qed.
End Children.

Lemma total_of_run l total s :
  Shm.ready s → Forall (λ p, 0 < p) l → (∀ p, p ∈ l → slot_of s p = counted_to NUM_UPDATES) →
  0 ≤ total → total + NUM_UPDATES * Z.of_nat (length l) < 2 ^ 31 →
  total_of l total s = Ret (total + NUM_UPDATES * Z.of_nat (length l)) s.
Proof.
  unfold NUM_UPDATES. intros Hr. revert total. induction l as [|p l IH]; intros total Hl Hs Ht Hb.
  - cbn. by rw Z.add_0_r.
  - apply Forall_cons in Hl as [Hp Hl]. cbn [total_of].
    rw (bind_Ret _ _ _ _ _ (read_run _ _ Hr Hp)) Hs; [by left|]. cbn [fst snd Z.eqb].
    cbn [length] in Hb |- *. change (Shm.qp_count (counted_to 100)) with 100.
    rw i32_small; [unfold is_i32; lia|]. rw IH; [done|by intros; apply Hs; right|lia..|].
    f_equal. lia.
Qed.

(** What the fourth test needs of the system: distinct pids, and enough turns for every
    child (a child makes two calls per round). *)
Record fair (e : environment) : Prop := {
  fair_count : length (forks e) = Z.to_nat NUM_PROCESSES;
  fair_distinct : NoDup (forks e);
  fair_pids : Forall (λ p, 0 < p) (forks e);
  fair_turns i : (i < Z.to_nat NUM_PROCESSES)%nat →
    (Z.to_nat (2 * NUM_UPDATES) ≤ count_occ Nat.eq_dec (schedule e) i)%nat;
}.

Lemma concurrent_run e s :
  allowed (Shm.os s) → fair e → wp (test_concurrent_access e) (λ r t, r = 0) s.
Proof.
  intros Ho [Hlen Hnd Hpos Hturns]. eapply wp_restart; [done..|]. intros t1 H1 Ht1. cbn [test_assert Z.eqb].
  assert (existsb (λ pid, pid <? 0) (forks e) = false) as ->.
  { apply not_true_iff_false. intros (p & Hp & Hneg)%existsb_exists.
    apply list_elem_of_In in Hp. eapply Forall_forall in Hpos; [|done]. lia. }
  assert (Hc : counted (Shm.os s) (forks e) (replicate (Z.to_nat NUM_PROCESSES) (mk_child 0 None)) t1).
  { split; [done|by rw Ht1 dom_empty_L; set_solver|]. rw -Hlen. clear -Ht1.
    induction (forks e); cbn; constructor; [|done].
    unfold child_ok, slot_of. rw Ht1 lookup_empty. by split_and!. }
  assert (Hfew : Z.of_nat (length (forks e)) ≤ Shm.MAX_PROCESSES) by (by rw Hlen).
  destruct (run_children_run _ _ Hnd Hpos Hfew (schedule e) _ _ Hc) as (cs & t2 & Hrun & Ht2 & Hall).
  eapply wp_bind, wp_eq; [exact Hrun|]. destruct Ht2 as [[Hr2 Ho2] _ Hcs].
  assert (Hdone : ∀ i pid c, forks e !! i = Some pid → cs !! i = Some c →
    rounds c = NUM_UPDATES ∧ slot_of t2 pid = counted_to NUM_UPDATES).
  { intros i pid c Hi Hci. destruct (Hall i c Hci) as (c0 & Hc0 & Hcalls).
    destruct (Forall2_lookup_lr _ _ _ _ _ _ Hcs Hi Hci) as (Hr & Hu & Hread).
    apply lookup_lt_Some in Hi. rw Hlen in Hi. specialize (Hturns i Hi).
    assert (rounds c = NUM_UPDATES) as Hn; [|by rw Hu Hn].
    unfold calls, NUM_UPDATES in *. destruct (reading c); [|lia].
    destruct (Hread _ eq_refl). lia. }
  assert (forallb finished cs = true) as ->.
  { apply forallb_forall. intros c (i & Hi)%list_elem_of_In%list_elem_of_lookup.
    destruct (Forall2_lookup_r _ _ _ _ _ Hcs Hi) as (pid & Hpid & _).
    unfold finished. apply Z.leb_le. by destruct (Hdone i pid c) as [-> _]. }
  cbn [negb]. eapply wp_bind, wp_eq.
  { apply total_of_run; [done|done| |done|by rw Hlen].
    intros p (i & Hi)%list_elem_of_lookup. destruct (Forall2_lookup_l _ _ _ _ _ Hcs Hi) as (c & Hci & _).
    by eapply Hdone. }
  rw Hlen. cbn. eapply wp_destroy; [done..|]. intros t3 _. by apply wp_ret.
Qed.

(** ** The tenants *)

(** A process that has not mapped the tenant object. *)
Definition tenants_unmapped (d : Tenant.tenant_shared_memory_t) (clk : nat → Z) : Tenant.state :=
  Tenant.mk_state false (-1) d (Tenant.mk_os 3 0 true 0 Tenant.TENANT_SHM_SIZE) clk.

Lemma tenant_test_run clk : value (test_tenant_shm (tenants_unmapped Tenant.shm_zero clk)) = Some 0.
Proof. vm_compute. reflexivity. Qed.

(** The test destroys nothing when it starts: the object is not mapped yet.  On a system
    where tenant 1 exists, it fails. *)
Lemma tenant_test_not_repeatable d clk t :
  Tenant.version d ≠ 0 → Tenant.lock d = 0 →
  Tenant.tenants d !! 1%nat = Some t → Tenant.status t ≠ Tenant.TENANT_STATUS_INACTIVE →
  value (test_tenant_shm (tenants_unmapped d clk)) = Some (-1).
Proof.
  intros Hv Hl Ht Hs. unfold test_tenant_shm, tenants_unmapped.
  unfold Tenant.tenant_shm_destroy, Tenant.tenant_shm_init, Tenant.tenant_create,
    Tenant.tenant_shm_get_ptr, Tenant.tenant_shm_lock, Tenant.spin_lock, Tenant.tenant_at,
    Tenant.tenant_shm_unlock, Tenant.spin_unlock, Tenant.time, Tenant.store.
  run. cbn. rw (proj2 (Z.eqb_neq _ _) Hv). cbn. rw Z.eqb_refl. cbn. rw Hl. cbn. rw Ht. by rw decide_True.
Qed.

Lemma value_Some {S A} (r : result S A) a : value r = Some a → ∃ s, r = Ret a s.
Proof. destruct r; [|done..]. intros [= ->]. by eexists. Qed.

Lemma zoom_proc {A} (m : M Shm.state A) s a p :
  m (proc s) = Ret a p → zoom proc m s = Ret a (mk_state p (ten s)).
Proof. intros H. unfold zoom. by rw H. Qed.

Lemma zoom_ten {A} (m : M Tenant.state A) s a t :
  m (ten s) = Ret a t → zoom ten m s = Ret a (mk_state (proc s) t).
Proof. intros H. unfold zoom. by rw H. Qed.

(** The tests of the shared memory pass, whatever pids the system deals out and in
    whatever order it lets the ten children of the last test run, as long as each gets
    its 200 turns: their thousand updates are all counted. *)
Theorem shm_tests_pass e p clk :
  0 < getpid e → 0 < fork_child e → getpid e ≠ fork_child e → fair e → allowed (Shm.os p) →
  value (main e (mk_state p (tenants_unmapped Tenant.shm_zero clk))) = Some 0.
Proof.
  intros Hpid Hchild Hne Hfair Ho.
  destruct (basic_run e p Ho Hpid) as (? & p1 & H1 & -> & Ho1). rw -Ho1 in Ho.
  destruct (multi_run e p1 Ho Hpid Hchild Hne) as (? & p2 & H2 & -> & Ho2). rw -Ho2 in Ho.
  destruct (concurrent_run e p2 Ho Hfair) as (? & p3 & H4 & ->).
  destruct (value_Some _ _ (tenant_test_run clk)) as [t H3].
  set (u := tenants_unmapped _ _). unfold main.
  rw (bind_Ret _ _ _ _ _ (zoom_proc (test_basic_shm e) (mk_state p u) _ _ H1)).
  rw (bind_Ret _ _ _ _ _ (zoom_proc (test_multi_process_shm e) (mk_state p1 u) _ _ H2)).
  rw (bind_Ret _ _ _ _ _ (zoom_ten test_tenant_shm (mk_state p2 u) _ _ H3)).
  by rw (bind_Ret _ _ _ _ _ (zoom_proc (test_concurrent_access e) (mk_state p2 t) _ _ H4)).
Qed.

(** Ten children with the pids 101 to 110, in turn. *)
Definition in_turn : environment :=
  mk_env 100 99 (Z.of_nat <$> seq 101 10) (concat (replicate 200 (seq 0 10))).

Lemma in_turn_fair : fair in_turn.
Proof.
  split; [done|by apply (bool_decide_unpack _); vm_compute| |].
  - apply (bool_decide_unpack _). by vm_compute.
  - intros i Hi. apply Nat.leb_le. change (i < 10)%nat in Hi.
    do 10 (destruct i as [|i]; [by vm_compute|]). lia.
Qed.

Lemma shm_tests_pass_witness :
  let p := Shm.fresh (λ n, (Z.of_nat n, 0)) in
  fair in_turn ∧
  value (main in_turn (mk_state p (tenants_unmapped Tenant.shm_zero (λ n, Z.of_nat n)))) = Some 0.
Proof.
  split; [apply in_turn_fair|].
  apply shm_tests_pass; [done..|apply in_turn_fair|done].
Defined.
End ShmTests.
