(* ===== verification/TenantSpec.v ===== *)
(** * What the tenant store promises: an abstract specification and its refinement

    The abstract store knows nothing of slots, counters, locks or versions: it
    is the set of live tenants with their name, status, quota and usage, and a
    finite map from pid to tenant that has room for [MAX_PROCESSES] pids.
    [spec] answers each call on it; [calls_refine_spec] shows that
    [shared_memory_tenant.c] answers the same, on every argument for which the
    pid is a real one. *)

From S2P Require Import Prelude SlotTable ShmTenant TenantProps.

Module TenantSpec.
Import Tenant TenantProps.

#[local] Arguments Z.to_nat : simpl never.

(** ** The abstract store *)

Record tview := mk_view {
  v_name : string;
  v_status : tenant_status;
  v_quota : tenant_quota_t;
  v_usage : tenant_resource_usage_t;
}.
#[export] Instance expand_tview : Expand tview := λ r,
  mk_view (v_name r) (v_status r) (v_quota r) (v_usage r).

Record store := mk_store {
  live : Z → option tview;
  owner : gmap Z Z;
}.
#[export] Instance expand_store : Expand store := λ r, mk_store (live r) (owner r).

Inductive answer :=
| Code (c : Z)
| Denied (b : bool)
| InfoOf (v : option tview)
| OwnerOf (t : option Z)
| UsageOf (u : option tenant_resource_usage_t)
| StatsOf (s : option (Z * Z)).

Definition live_put (tid : Z) (v : option tview) (a : store) : store :=
  a <| live := λ k, if decide (k = tid) then v else live a k |>.

Definition in_range (tid : Z) : bool := (0 <=? tid) && (tid <? MAX_TENANTS).

Definition is_active (v : tview) : bool := bool_decide (v_status v = TENANT_STATUS_ACTIVE).

(** The live tenant [tid], when it is active. *)
Definition active (a : store) (tid : Z) : option tview :=
  v ← live a tid; if is_active v then Some v else None.

(** The limit the tenant's quota puts on one more request, as the code computes it. *)
Definition view_exceeds (v : tview) (rt n : Z) : bool :=
  exceeds (info_zero <| quota := v_quota v |> <| usage := v_usage v |>) rt n.

Definition spec (c : call) (a : store) : answer * store :=
  match c with
  | Create tid name q =>
      if decide (tid = 0 ∨ MAX_TENANTS ≤ tid ∨ is_Some (live a tid)) then (Code (-1), a) else
      (Code 0, live_put tid
        (Some (mk_view (name_of name) TENANT_STATUS_ACTIVE (default default_quota q) usage_zero)) a)
  | Delete tid =>
      match live a tid with
      | None => (Code (-1), a)
      | Some _ => (Code 0, live_put tid None a <| owner ::= filter (λ x, x.2 ≠ tid) |>)
      end
  | SetStatus tid st =>
      match live a tid with
      | None => (Code (-1), a)
      | Some v =>
          (Code 0, live_put tid
            (if decide (st = TENANT_STATUS_INACTIVE) then None else Some (v <| v_status := st |>)) a)
      end
  | UpdateQuota tid (Some q) =>
      match live a tid with
      | None => (Code (-1), a)
      | Some v => (Code 0, live_put tid (Some (v <| v_quota := q |>)) a)
      end
  | UpdateUsage tid (Some u) =>
      match active a tid with
      | None => (Code (-1), a)
      | Some v => (Code 0, live_put tid (Some (v <| v_usage := u |>)) a)
      end
  | Bind pid tid =>
      match active a tid with
      | None => (Code (-1), a)
      | Some _ =>
          if decide (owner a !! pid = None ∧ size (owner a) = Z.to_nat MAX_PROCESSES)
          then (Code (-1), a)
          else (Code 0, a <| owner ::= <[pid := tid]> |>)
      end
  | Unbind pid =>
      match owner a !! pid with
      | None => (Code (-1), a)
      | Some _ => (Code 0, a <| owner ::= delete pid |>)
      end
  | GetInfo tid (Some _) => (InfoOf (live a tid), a)
  | GetProcessTenant pid (Some _) => (OwnerOf (owner a !! pid), a)
  | GetUsage tid (Some _) => (UsageOf (v_usage <$> active a tid), a)
  | Statistics tid (Some _) (Some _) =>
      (StatsOf ((λ v, (total_qp_creates (v_usage v), total_mr_regs (v_usage v))) <$> active a tid), a)
  | CheckLimit tid rt n =>
      (Denied (in_range tid && match active a tid with
                               | None => true
                               | Some v => view_exceeds v rt n
                               end), a)
  | _ => (Code (-1), a)
  end.

(** ** The answers of the code *)

Definition view (t : tenant_info_t) : tview :=
  mk_view (tenant_name t) (status t) (quota t) (usage t).

(** The call, with what it hands back through its output pointers. *)
Definition respond (c : call) : M state answer :=
  match c with
  | GetInfo tid (Some i) =>
      r ← tenant_get_info tid (Some i);
      mret (InfoOf (if fst r =? 0 then view <$> snd r else None))
  | GetProcessTenant pid (Some x) =>
      r ← tenant_get_process_tenant pid (Some x);
      mret (OwnerOf (if fst r =? 0 then snd r else None))
  | GetUsage tid (Some u) =>
      r ← tenant_get_resource_usage tid (Some u);
      mret (UsageOf (if fst r =? 0 then snd r else None))
  | Statistics tid (Some c) (Some d) =>
      r ← tenant_get_statistics tid (Some c) (Some d);
      mret (StatsOf (if fst (fst r) =? 0
                     then x ← snd (fst r); y ← snd r; Some (x, y) else None))
  | CheckLimit tid rt n => b ← tenant_check_resource_limit tid rt n; mret (Denied b)
  | _ => r ← run_call c; mret (Code r)
  end.

(** ** The abstraction relation *)

Record refines (a : store) (d : tenant_shared_memory_t) : Prop := {
  ref_live tid : 0 ≤ tid < MAX_TENANTS →
    live a tid = (t ← tenants d !! Z.to_nat tid;
                  if decide (status t = TENANT_STATUS_INACTIVE) then None else Some (view t));
  ref_out tid : ¬ 0 ≤ tid < MAX_TENANTS → live a tid = None;
  ref_owner : owner a = slots_map m_pid m_tenant_id (pid_mappings d);
}.

Lemma refines_same a d d' : same_content d d' → refines a d → refines a d'.
Proof. intros [Ht Hm _ _] []. split; rw ?Ht ?Hm; auto. Qed.

(** Replacing one tenant, and the mappings. *)
Lemma refines_put a d d' tid t' v o :
  shm_ok d → refines a d → 0 ≤ tid < MAX_TENANTS →
  tenants d' = <[Z.to_nat tid := t']> (tenants d) →
  o = slots_map m_pid m_tenant_id (pid_mappings d') →
  v = (if decide (status t' = TENANT_STATUS_INACTIVE) then None else Some (view t')) →
  refines (live_put tid v a <| owner := o |>) d'.
Proof.
  intros Hd [Hl Ho Hw] Hin Ht Hm ->. split; cbn; [| |done].
  - intros k Hk. rw Ht. destruct (decide (k = tid)) as [->|Hne].
    + rw list_lookup_insert_eq; [|done]. rw (ok_tenants d Hd). unfold MAX_TENANTS in *. lia.
    + rw list_lookup_insert_ne; [lia|]. by apply Hl.
  - intros k Hk. destruct (decide (k = tid)) as [->|Hne]; [done|by apply Ho].
Qed.

(** Rewriting a tenant that stays the same to the abstract store. *)
Lemma refines_view a d d' tid t t' :
  shm_ok d → refines a d → 0 ≤ tid < MAX_TENANTS → tenants d !! Z.to_nat tid = Some t →
  tenants d' = <[Z.to_nat tid := t']> (tenants d) → view t' = view t → status t' = status t →
  refines (a <| owner := slots_map m_pid m_tenant_id (pid_mappings d') |>) d'.
Proof.
  intros Hd [Hl Ho Hw] Hin Ht Ht' Hv Hs. split; cbn; [|done..].
  intros k Hk. rw Ht'. destruct (decide (k = tid)) as [->|Hne].
  - rw list_lookup_insert_eq; [by eapply lookup_lt_Some|]. rw Hl // Ht. cbn. by rw Hs Hv.
  - rw list_lookup_insert_ne; [lia|]. by apply Hl.
Qed.

Lemma refines_view_owner a d o o' :
  refines (a <| owner := o |>) d → o = o' → refines (a <| owner := o' |>) d.
Proof. by intros ? <-. Qed.

(** ** The calls answer as specified *)

Definition answers (a : store) (c : call) (s : state) : Prop :=
  ∃ s', respond c s = Ret (fst (spec c a)) s' ∧ ready s' ∧ refines (snd (spec c a)) (shm s').

(** The calls [spec] describes: [uint32_t] tenant ids, and real pids. *)
Definition real (c : call) : Prop :=
  0 ≤ call_tid c ∧
  match c with
  | Bind pid _ | Unbind pid | GetProcessTenant pid _ => pid ≠ 0
  | ActiveList _ _ | PrintAll => False
  | _ => True
  end.

Lemma respond_code c s r s' x :
  (∀ s, respond c s = (r ← run_call c; mret (Code r)) s) →
  run_call c s = Ret r s' → x = Code r → respond c s = Ret x s'.
Proof. intros Hc Hr ->. rw Hc /mbind /M_bind Hr. done. Qed.

Section Answers.
Context (a : store) (s : state) (Hr : ready s) (Ha : refines a (shm s)).
Let Hd := ready_shm s Hr.
Let Hms := shm_ok_maps _ Hd.

(** A call that changes nothing. *)
Lemma answers_same c x :
  (∃ s', respond c s = Ret x s' ∧ settled s (shm s) s') → spec c a = (x, a) → answers a c s.
Proof using Hr Ha.
  intros (s' & Hc & Hs) Hspec. exists s'. rw Hspec. split_and!; [done|..].
  - eapply settled_ready; [done|apply Hd].
  - eapply refines_same; [apply Hs|done].
Qed.

Lemma answers_bad c x : respond c s = Ret x s → spec c a = (x, a) → answers a c s.
Proof using Hr Ha. intros Hc Hspec. exists s. by rw Hspec. Qed.

Lemma answers_to c x d a' :
  (∃ s', respond c s = Ret x s' ∧ settled s d s') → spec c a = (x, a') →
  shm_ok d → refines a' d → answers a c s.
Proof using Hr Ha.
  intros (s' & Hc & Hs) Hspec Hok Ha'. exists s'. rw Hspec. split_and!; [done|..].
  - by eapply settled_ready.
  - eapply refines_same; [apply Hs|done].
Qed.

Lemma live_out tid : MAX_TENANTS ≤ tid → live a tid = None.
Proof using Ha. intros. apply (ref_out _ _ Ha). lia. Qed.

Lemma live_in tid t :
  0 ≤ tid < MAX_TENANTS → tenants (shm s) !! Z.to_nat tid = Some t →
  live a tid = if decide (status t = TENANT_STATUS_INACTIVE) then None else Some (view t).
Proof using Ha. intros Hin Ht. rw (ref_live _ _ Ha _ Hin) Ht. done. Qed.

Lemma active_in tid t :
  0 ≤ tid < MAX_TENANTS → tenants (shm s) !! Z.to_nat tid = Some t →
  active a tid = if decide (status t = TENANT_STATUS_ACTIVE) then Some (view t) else None.
Proof using Ha.
  intros Hin Ht. unfold active. rw (live_in tid t) //. unfold is_active, view.
  by destruct (status t).
Qed.

Lemma owner_find pid :
  pid ≠ 0 →
  owner a !! pid =
    find_index (λ m, m_pid m =? pid) (pid_mappings (shm s)) ≫=
    λ i, m_tenant_id <$> pid_mappings (shm s) !! i.
Proof using Ha Hr. intros H0. rw (ref_owner _ _ Ha). by apply slots_map_lookup; [apply Hms|]. Qed.

(** The two kinds of argument of a call on one tenant. *)
Lemma tid_cases tid :
  0 ≤ tid →
  MAX_TENANTS ≤ tid ∧ (MAX_TENANTS <=? tid) = true ∧ live a tid = None ∨
  0 ≤ tid < MAX_TENANTS ∧ ∃ t, tenants (shm s) !! Z.to_nat tid = Some t.
Proof using Ha Hr.
  intros H0. destruct (Z.leb_spec MAX_TENANTS tid); [left|right].
  - split_and!; [done..|]. by apply live_out.
  - split; [lia|]. apply tenant_lookup; [done|lia].
Qed.

Lemma answer_code c r (Hc : ∀ s, respond c s = (r ← run_call c; mret (Code r)) s) d :
  (∃ s', run_call c s = Ret r s' ∧ settled s d s') →
  ∃ s', respond c s = Ret (Code r) s' ∧ settled s d s'.
Proof using. intros (s' & Hrun & ?). exists s'. split; [|done]. rw Hc /mbind /M_bind Hrun. done. Qed.

Lemma create_answers tid name q : 0 ≤ tid → answers a (Create tid name q) s.
Proof using Hr Ha.
  intros H0. destruct (tid_cases tid H0) as [(Hout & Hb & Hlive)|(Hin & t & Ht)].
  { eapply answers_bad; cbn [spec respond run_call]; [|by rw decide_True; [right; left|]].
    unfold tenant_create. rw Hb orb_true_r. done. }
  destruct (decide (tid = 0)) as [->|Hne].
  { eapply answers_bad; [done|]. unfold spec. case_decide as Hc; [done|]. destruct Hc. by left. }
  pose proof (live_in _ _ Hin Ht) as Hlive.
  destruct (decide (status t = TENANT_STATUS_INACTIVE)) as [Hst|Hst].
  - destruct (create_ready s Hr tid name q H0) as (r & s'' & Hrun' & Hr').
    destruct (create_new s Hr tid t Hin Ht name q Hne Hst) as (s' & Hrun & Hs).
    rw Hrun in Hrun'. injection Hrun' as <- <-.
    exists s'. cbn [spec]. rw decide_False; [rw Hlive; intros [?|[?|[? E]]]; [done|lia|done]|].
    split_and!; [by eapply respond_code|done|].
    eapply refines_same; [apply Hs|].
    eapply (refines_put a (shm s) _ tid _ _ (owner a)); try done; apply Ha.
  - eapply answers_same; [apply (answer_code (Create tid name q) (-1)); [done|]|].
    + by apply (create_taken s Hr tid t).
    + cbn [spec]. rw decide_True //. right. right. by rw Hlive.
Qed.

Lemma slots_map_unmap tid ms :
  maps_ok ms →
  slots_map m_pid m_tenant_id ((λ m, if m_tenant_id m =? tid then unmap m else m) <$> ms) =
  filter (λ x, x.2 ≠ tid) (slots_map m_pid m_tenant_id ms).
Proof using.
  intros Hm. apply map_eq. intros k. apply option_eq. intros v.
  rw slots_map_Some; [apply maps_ok_unmap, Hm|]. rw map_lookup_filter_Some slots_map_Some.
  { apply Hm. }
  cbn. split.
  - intros (Hk & i & x & (m & -> & Hi)%list_lookup_fmap_Some & Hx & Hv).
    destruct (Z.eqb_spec (m_tenant_id m) tid); cbn in *; [congruence|].
    split; [|congruence]. split; [done|]. by exists i, m.
  - intros ((Hk & i & m & Hi & Hx & Hv) & Hne). split; [done|].
    exists i, m. split_and!; [|done..]. rw list_lookup_fmap Hi. cbn.
    destruct (Z.eqb_spec (m_tenant_id m) tid); [congruence|done].
Qed.

Lemma delete_answers tid : 0 ≤ tid → answers a (Delete tid) s.
Proof using Hr Ha.
  intros H0. destruct (tid_cases tid H0) as [(Hout & Hb & Hlive)|(Hin & t & Ht)].
  { eapply answers_bad; [|cbn; by rw Hlive].
    cbn. unfold tenant_delete. rw Hb orb_true_r. done. }
  pose proof (live_in _ _ Hin Ht) as Hlive.
  destruct (decide (status t = TENANT_STATUS_INACTIVE)) as [Hst|Hst].
  - destruct (decide (tid = 0)) as [->|Hne].
    { eapply answers_bad; [done|]. cbn. by rw Hlive. }
    eapply answers_same; [apply (answer_code (Delete tid) (-1)); [done|]|].
    + by apply (delete_none s Hr tid t).
    + cbn. by rw Hlive.
  - destruct (live_tenant s Hr tid t Hin Ht Hst) as [Hne _].
    destruct (delete_ready s Hr tid H0) as (r & s'' & Hrun' & Hr').
    pose proof (unmap_all_spec tid (pid_mappings (shm s)) _ (ok_total _ Hd)) as Hun.
    destruct (delete_ok s Hr tid t Hin Ht _ _ Hne Hst Hun) as (s' & Hrun & Hs).
    rw Hrun in Hrun'. injection Hrun' as <- <-.
    exists s'. cbn [spec]. rw Hlive. split_and!; [by eapply respond_code|done|].
    eapply refines_same; [apply Hs|].
    eapply (refines_put a (shm s)); try done. cbn.
    by rw (ref_owner _ _ Ha) -slots_map_unmap.
Qed.

Lemma status_answers tid st : 0 ≤ tid → answers a (SetStatus tid st) s.
Proof using Hr Ha.
  intros H0. destruct (tid_cases tid H0) as [(Hout & Hb & Hlive)|(Hin & t & Ht)].
  { eapply answers_bad; [|cbn; by rw Hlive]. cbn. unfold tenant_set_status. by rw Hb. }
  pose proof (live_in _ _ Hin Ht) as Hlive.
  destruct (decide (status t = TENANT_STATUS_INACTIVE)) as [Hst|Hst].
  - eapply answers_same; [apply (answer_code (SetStatus tid st) (-1)); [done|]|].
    + by apply (set_status_none s Hr tid t).
    + cbn. by rw Hlive.
  - destruct (status_ready s Hr tid st H0) as (r & s'' & Hrun' & Hr').
    destruct (set_status_ok s Hr tid t Hin Ht st Hst) as (s' & Hrun & Hs).
    rw Hrun in Hrun'. injection Hrun' as <- <-.
    exists s'. cbn [spec]. rw Hlive. split_and!; [by eapply respond_code|done|].
    eapply refines_same; [apply Hs|].
    eapply (refines_put a (shm s) _ tid _ _ (owner a)); try done; apply Ha.
Qed.

Lemma quota_answers tid q : 0 ≤ tid → answers a (UpdateQuota tid (Some q)) s.
Proof using Hr Ha.
  intros H0. destruct (tid_cases tid H0) as [(Hout & Hb & Hlive)|(Hin & t & Ht)].
  { eapply answers_bad; [|cbn; by rw Hlive]. cbn. unfold tenant_update_quota. by rw Hb. }
  pose proof (live_in _ _ Hin Ht) as Hlive.
  destruct (decide (status t = TENANT_STATUS_INACTIVE)) as [Hst|Hst].
  - eapply answers_same; [apply (answer_code (UpdateQuota tid (Some q)) (-1)); [done|]|].
    + by apply (update_quota_none s Hr tid t).
    + cbn. by rw Hlive.
  - destruct (quota_ready s Hr tid (Some q) H0) as (r & s'' & Hrun' & Hr').
    destruct (update_quota_ok s Hr tid t Hin Ht q Hst) as (s' & Hrun & Hs).
    rw Hrun in Hrun'. injection Hrun' as <- <-.
    exists s'. cbn [spec]. rw Hlive. split_and!; [by eapply respond_code|done|].
    eapply refines_same; [apply Hs|].
    eapply (refines_put a (shm s) _ tid _ _ (owner a)); try done; [apply Ha|].
    cbn. by rw decide_False.
Qed.

Lemma usage_answers tid u : 0 ≤ tid → answers a (UpdateUsage tid (Some u)) s.
Proof using Hr Ha.
  intros H0. destruct (tid_cases tid H0) as [(Hout & Hb & Hlive)|(Hin & t & Ht)].
  { eapply answers_bad; [|cbn; unfold active; by rw Hlive].
    cbn. unfold tenant_update_resource_usage. by rw Hb. }
  pose proof (active_in _ _ Hin Ht) as Hact.
  destruct (decide (status t = TENANT_STATUS_ACTIVE)) as [Hst|Hst].
  - destruct (usage_ready s Hr tid (Some u) H0) as (r & s'' & Hrun' & Hr').
    destruct (update_usage_ok s Hr tid t Hin Ht u Hst) as (s' & Hrun & Hs).
    rw Hrun in Hrun'. injection Hrun' as <- <-.
    exists s'. cbn [spec]. rw Hact. split_and!; [by eapply respond_code|done|].
    eapply refines_same; [apply Hs|].
    eapply (refines_put a (shm s) _ tid _ _ (owner a)); try done; [apply Ha|].
    cbn. by rw Hst.
  - eapply answers_same; [apply (answer_code (UpdateUsage tid (Some u)) (-1)); [done|]|].
    + by apply (update_usage_none s Hr tid t).
    + cbn. by rw Hact.
Qed.

(** The queries. *)
Lemma answer_bind {A} c (m : M state A) (f : A → answer) x r :
  (∀ s, respond c s = (r ← m; mret (f r)) s) → f r = x →
  (∃ s', m s = Ret r s' ∧ settled s (shm s) s') →
  ∃ s', respond c s = Ret x s' ∧ settled s (shm s) s'.
Proof using. intros Hc <- (s' & Hrun & ?). exists s'. split; [|done]. by rw Hc /mbind /M_bind Hrun. Qed.

Lemma info_answers tid i : 0 ≤ tid → answers a (GetInfo tid (Some i)) s.
Proof using Hr Ha.
  intros H0. destruct (tid_cases tid H0) as [(Hout & Hb & Hlive)|(Hin & t & Ht)].
  { eapply answers_bad; [|cbn; by rw Hlive].
    cbn. unfold tenant_get_info. run. by rw Hb. }
  eapply answers_same; [|cbn; by rw (live_in tid t)].
  eapply answer_bind; [done| |by apply (get_info_run s Hr tid t)]. cbn.
  by destruct (status t).
Qed.

Lemma get_usage_answers tid u : 0 ≤ tid → answers a (GetUsage tid (Some u)) s.
Proof using Hr Ha.
  intros H0. destruct (tid_cases tid H0) as [(Hout & Hb & Hlive)|(Hin & t & Ht)].
  { eapply answers_bad; [|cbn; unfold active; by rw Hlive].
    cbn. unfold tenant_get_resource_usage. run. by rw Hb. }
  eapply answers_same; [|cbn; by rw (active_in tid t)].
  destruct (decide (status t = TENANT_STATUS_ACTIVE)) as [Hst|Hst].
  - eapply answer_bind; [done| |by apply (get_usage_ok s Hr tid t)]. done.
  - eapply answer_bind; [done| |by apply (get_usage_none s Hr tid t)]. done.
Qed.

Lemma stats_answers tid c r : 0 ≤ tid → answers a (Statistics tid (Some c) (Some r)) s.
Proof using Hr Ha.
  intros H0. destruct (tid_cases tid H0) as [(Hout & Hb & Hlive)|(Hin & t & Ht)].
  { eapply answers_bad; [|cbn; unfold active; by rw Hlive].
    cbn. unfold tenant_get_statistics. run. by rw Hb. }
  eapply answers_same; [|cbn; by rw (active_in tid t)].
  destruct (statistics_run s Hr tid t Hin Ht c r) as (v & s' & Hrun & Hs & ->).
  eapply answer_bind; [done| |by exists s']. by destruct (status t).
Qed.

Lemma check_answers tid rt n : 0 ≤ tid → answers a (CheckLimit tid rt n) s.
Proof using Hr Ha.
  intros H0. destruct (tid_cases tid H0) as [(Hout & Hb & Hlive)|(Hin & t & Ht)].
  { eapply answers_bad; cbn; unfold in_range.
    - unfold tenant_check_resource_limit. run. by rw Hb.
    - by rw (proj2 (Z.ltb_ge _ _) Hout) andb_false_r. }
  eapply answers_same.
  - eapply answer_bind; [done|reflexivity|by apply (check_limit_run s Hr tid t)].
  - cbn. unfold in_range. rw (proj2 (Z.leb_le _ _) H0).
    rw (proj2 (Z.ltb_lt tid MAX_TENANTS)); [lia|]. rw (active_in tid t) //. cbn.
    by destruct (status t).
Qed.

Lemma lookup_answers pid x : pid ≠ 0 → answers a (GetProcessTenant pid (Some x)) s.
Proof using Hr Ha.
  intros H0. eapply answers_same; [|cbn; by rw owner_find].
  eapply answer_bind; [done| |by apply (get_process_tenant_run s Hr)].
  destruct (find_index _ _) as [i|] eqn:Hf; cbn; [|done].
  by destruct (maps_find _ _ _ Hms Hf) as (m & -> & _).
Qed.

(** The update of the mapping table done by the two ways to bind. *)
Lemma bind_owner i m pid tid now :
  pid ≠ 0 → pid_mappings (shm s) !! i = Some m →
  m_pid m = pid ∨ m_pid m = 0 ∧ find_index (λ m, m_pid m =? pid) (pid_mappings (shm s)) = None →
  slots_map m_pid m_tenant_id (<[i := mk_mapping pid tid now]> (pid_mappings (shm s))) =
    <[pid := tid]> (owner a).
Proof using Ha Hr.
  intros H0 Hi Hcase.
  destruct (slots_map_insert m_pid m_tenant_id (pid_mappings (shm s)) i
    (mk_mapping pid tid now) m (maps_unique _ Hms) Hi H0 Hcase) as [Hmap _].
  by rw Hmap (ref_owner _ _ Ha).
Qed.

Lemma owner_full :
  size (owner a) = Z.to_nat MAX_PROCESSES ↔
  find_index (λ m, m_pid m =? 0) (pid_mappings (shm s)) = None.
Proof using Ha Hr.
  rw (ref_owner _ _ Ha) -(maps_length _ Hms). apply slots_map_full, Hms.
Qed.

Lemma bind_answers pid tid : 0 ≤ tid → pid ≠ 0 → answers a (Bind pid tid) s.
Proof using Hr Ha.
  intros H0 Hpid. destruct (tid_cases tid H0) as [(Hout & Hb & Hlive)|(Hin & t & Ht)].
  { eapply answers_bad; [|cbn; unfold active; by rw Hlive].
    cbn. unfold tenant_bind_process. by rw Hb. }
  pose proof (active_in _ _ Hin Ht) as Hact.
  destruct (decide (status t = TENANT_STATUS_ACTIVE)) as [Hst|Hst]; cycle 1.
  { eapply answers_same; [apply (answer_code (Bind pid tid) (-1)); [done|]|].
    - by apply (bind_inactive s Hr tid t).
    - cbn. by rw Hact. }
  pose proof (owner_find pid Hpid) as Hown.
  destruct (bind_ready s Hr pid tid H0) as (r & s'' & Hrun' & Hr').
  destruct (bind_cases (pid_mappings (shm s)) pid Hms)
    as [(i & m & e & Hscan & Hi & Hp & Hf)|[(i & m & Hscan & Hi & Hp & _ & Hf)|(Hscan & Hf & Hf0)]].
  - destruct (bind_again s Hr tid t Hin Ht pid i e Hst Hscan) as (s' & Hrun & Hs).
    rw Hrun in Hrun'. injection Hrun' as <- <-.
    rw Hf /= Hi /= in Hown.
    exists s'. cbn [spec]. rw Hact decide_False; [rw Hown; by intros []|].
    split_and!; [by eapply respond_code|done|].
    eapply refines_same; [apply Hs|]. 
    eapply refines_view_owner; [by eapply (refines_view a (shm s) _ tid t)|].
    apply (bind_owner i m); [done..|by left].
  - destruct (bind_fresh s Hr tid t Hin Ht pid i Hst Hscan) as (s' & Hrun & Hs).
    rw Hrun in Hrun'. injection Hrun' as <- <-.
    exists s'. cbn [spec]. rw Hact decide_False.
    { intros [_ Hfull%owner_full]. rw find_index_None in Hfull. specialize (Hfull _ _ Hi).
      lia. }
    split_and!; [by eapply respond_code|done|].
    eapply refines_same; [apply Hs|]. 
    eapply refines_view_owner; [by eapply (refines_view a (shm s) _ tid t)|].
    apply (bind_owner i m); [done..|by right].
  - eapply answers_same; [apply (answer_code (Bind pid tid) (-1)); [done|]|].
    + by apply (bind_full s Hr tid t).
    + cbn [spec]. rw Hact decide_True //. split; [by rw Hown Hf|by apply owner_full].
Qed.

Lemma unbind_answers pid : pid ≠ 0 → answers a (Unbind pid) s.
Proof using Hr Ha.
  intros Hpid. pose proof (owner_find pid Hpid) as Hown.
  destruct (find_index (λ m, m_pid m =? pid) (pid_mappings (shm s))) as [i|] eqn:Hf; cycle 1.
  { eapply answers_same; [apply (answer_code (Unbind pid) (-1)); [done|]|].
    - by apply (unbind_none s Hr).
    - cbn [spec]. by rw Hown. }
  destruct (maps_find _ _ _ Hms Hf) as (m & Hi & Hp & _).
  pose proof (maps_tids _ Hms _ _ Hi) as Htid.
  destruct (tenant_lookup _ _ Hd Htid) as [t Ht].
  destruct (unbind_ready s Hr pid) as (r & s'' & Hrun' & Hr').
  destruct (unbind_found s Hr pid i m t Hf Hi Ht) as (s' & Hrun & Hs).
  rw Hrun in Hrun'. injection Hrun' as <- <-.
  rw /= Hi /= in Hown. exists s'. cbn [spec]. rw Hown.
  split_and!; [by eapply respond_code|done|].
  eapply refines_same; [apply Hs|]. cbn.
  destruct (slots_map_clear m_pid m_tenant_id (pid_mappings (shm s)) i
    (unmap m) m (maps_unique _ Hms) Hi) as [Hmap _]; [congruence|done|].
  eapply refines_view_owner; [by eapply (refines_view a (shm s) _ (m_tenant_id m) t)|].
  by rw (ref_owner _ _ Ha) -Hp -Hmap.
Qed.

Lemma call_answers c : real c → answers a c s.
Proof using Hr Ha.
  intros [H0 Hc]. destruct c as [| |tid []|tid st|tid []| | |pid []|tid []|tid []| | | |tid [] []];
    cbn [call_tid] in H0; try done; try by eapply answers_bad.
  - by apply create_answers.
  - by apply delete_answers.
  - by apply info_answers.
  - by apply status_answers.
  - by apply quota_answers.
  - by apply bind_answers.
  - by apply unbind_answers.
  - by apply lookup_answers.
  - by apply usage_answers.
  - by apply get_usage_answers.
  - by apply check_answers.
  - by apply stats_answers.
Qed.
End Answers.

(** ** Traces *)

Fixpoint spec_run (cs : list call) (a : store) : list answer :=
  match cs with
  | [] => []
  | c :: cs' => (spec c a).1 :: spec_run cs' (spec c a).2
  end.

Fixpoint code_run (cs : list call) : M state (list answer) :=
  match cs with
  | [] => mret []
  | c :: cs' => x ← respond c; xs ← code_run cs'; mret (x :: xs)
  end.

Definition empty_store : store := mk_store (λ _, None) ∅.

Lemma fresh_refines : refines empty_store shm_zero.
Proof.
  split; cbn [live owner empty_store]; [|done|].
  - intros tid Hin. unfold shm_zero, tenants.
    rw lookup_replicate_2; [unfold MAX_TENANTS in *; lia|]. done.
  - unfold shm_zero, pid_mappings. by rw slots_map_replicate.
Qed.

(** C3: from a fresh object, any sequence of calls with real pids gets from the
    code exactly the answers (return codes and output parameters) the abstract
    store gives: tenants come and go by id, quota, usage and status are those
    last written, a pid belongs to the tenant it was last bound to until it is
    unbound or the tenant is deleted, and binding fails only on an inactive
    tenant or a full table. *)
Theorem tenant_store_refines_spec clk cs :
  Forall real cs → value (code_run cs (fresh clk)) = Some (spec_run cs empty_store).
Proof.
  intros Hcs. pose proof (fresh_ready clk) as Hr. pose proof fresh_refines as Ha.
  change shm_zero with (shm (fresh clk)) in Ha. revert Hr Ha.
  generalize (fresh clk), empty_store. induction Hcs as [|c cs Hc _ IH]; intros s a Hr Ha; [done|].
  destruct (call_answers a s Hr Ha c Hc) as (s' & Hrun & Hr' & Ha').
  specialize (IH s' _ Hr' Ha'). cbn. rw /mbind /M_bind Hrun.
  destruct (code_run cs s') as [xs s''| |]; [|done..]. cbn in *. congruence.
Qed.

Lemma tenant_store_refines_spec_witness :
  value (code_run [Create 3 None None; Bind 77 3; GetProcessTenant 77 (Some 0); Delete 3;
                   GetProcessTenant 77 (Some 0)] (fresh (λ _, 9))) =
    Some [Code 0; Code 0; OwnerOf (Some 3); Code 0; OwnerOf None].
Proof.
  refine (tenant_store_refines_spec (λ _, 9) _ _).
  repeat constructor; cbn; lia.
Defined.

End TenantSpec.
