(* ===== verification/TenantTools.v ===== *)
(** * The tools of the experiments on the tenant store

    Six small programs beside the experiments map the tenant shared memory and make one
    or two calls: [update_tenant], [check_tenants] (experiment 2), [check_tenant50],
    [delete_tenant50], [reset_tenant50] (experiment 5) and [create_tenant] (experiment
    9).  Each is shown to do on the abstract store what its calls are specified to do.
    What is printed is kept as lines: a text, and the figures in it. *)

From S2P Require Import Prelude CString SlotTable ShmTenant TenantProps TenantSpec.

Module TenantTools.
Import Tenant TenantProps TenantSpec.

Inductive line := Line (text : string) (figures : list Z).

(** The exit code, and what was printed. *)
Definition outcome : Type := Z * list line.

Definition status_code (st : tenant_status) : Z :=
  match st with
  | TENANT_STATUS_INACTIVE => 0
  | TENANT_STATUS_ACTIVE => 1
  | TENANT_STATUS_SUSPENDED => 2
  end.

(** An argument of the program; the missing ones are never looked at. *)
Definition arg (argv : list string) (i : nat) : string := default EmptyString (argv !! i).

Section Tools.
(** What the uninitialised variables of a program hold. *)
Context (junk_info : tenant_info_t) (junk_cq junk_pd : Z).

(** The limits on completion queues and protection domains are never set. *)
Definition new_quota (qp mr mem : Z) : tenant_quota_t := mk_quota qp mr mem junk_cq junk_pd.

(** [int] limits are stored in [uint32_t] fields, [atoll] in a [uint64_t]. *)
Definition update_tenant (argv : list string) : M state outcome :=
  if Z.of_nat (length argv) <? 5 then mret (1, [Line "Usage" []]) else
  let tenant_id := u32 (atoi (arg argv 1)) in
  let qp_limit := atoi (arg argv 2) in
  let mr_limit := atoi (arg argv 3) in
  let memory_limit := u64 (atoll (arg argv 4)) in
  r ← tenant_shm_init;
  if negb (r =? 0) then mret (1, [Line "Failed to init tenant shm" []]) else
  i ← tenant_get_info tenant_id (Some junk_info);
  if negb (fst i =? 0) then mret (1, [Line "Tenant not found" [tenant_id]]) else
  r ← tenant_update_quota tenant_id (Some (new_quota (u32 qp_limit) (u32 mr_limit) memory_limit));
  if r =? 0 then
    mret (0, [Line "Tenant updated successfully" [tenant_id]; Line "New QP limit" [qp_limit];
              Line "New MR limit" [mr_limit]; Line "New Memory limit" [memory_limit]])
  else mret (1, [Line "Failed to update tenant" [tenant_id]]).

Definition create_tenant (argv : list string) : M state outcome :=
  if Z.of_nat (length argv) <? 5 then mret (1, [Line "Usage" []]) else
  let tenant_id := u32 (atoi (arg argv 1)) in
  let max_qp := u32 (atoi (arg argv 2)) in
  let max_mr := u32 (atoi (arg argv 3)) in
  let max_memory := strtoull (arg argv 4) in
  let name := default "TestTenant"%string (argv !! 5%nat) in
  let said := [Line "Creating tenant" [tenant_id]; Line "QP limit" [max_qp]; Line "MR limit" [max_mr];
               Line "Memory limit" [max_memory]] in
  r ← tenant_shm_init;
  if negb (r =? 0) then mret (1, said ++ [Line "Failed to initialize tenant shared memory" []]) else
  ret ← tenant_create tenant_id (Some name) (Some (new_quota max_qp max_mr max_memory));
  if negb (ret =? 0) then mret (1, said ++ [Line "Failed to create tenant" [ret]]) else
  i ← tenant_get_info tenant_id (Some junk_info);
  let info := default junk_info (snd i) in
  mret (0, said ++ Line "Tenant created successfully" [tenant_id] ::
    (if fst i =? 0 then
       [Line "Current QP" [qp_count (usage info); i32 (max_qp_per_tenant (quota info))];
        Line "Current MR" [mr_count (usage info); i32 (max_mr_per_tenant (quota info))]]
     else [])).

(** The row of a tenant: the figures are printed with [%d]. *)
Definition tenant_row (tid : Z) : M state line :=
  i ← tenant_get_info tid (Some junk_info);
  let info := default junk_info (snd i) in
  mret (if fst i =? 0 then
          Line (tenant_name info)
            [tenant_id info; qp_count (usage info); i32 (max_qp_per_tenant (quota info));
             mr_count (usage info); i32 (max_mr_per_tenant (quota info)); status_code (status info)]
        else Line "NOT FOUND" [tid]).

Fixpoint tenant_rows (tids : list Z) : M state (list line) :=
  match tids with
  | [] => mret []
  | tid :: tids' => l ← tenant_row tid; ls ← tenant_rows tids'; mret (l :: ls)
  end.

Definition tenant_ids : list Z := [1; 100; 200; 300; 400].

Definition check_tenants : M state outcome :=
  r ← tenant_shm_init;
  if negb (r =? 0) then mret (1, [Line "Failed to initialize tenant shared memory" []]) else
  ls ← tenant_rows tenant_ids;
  mret (0, ls).

Definition check_tenant50 : M state outcome :=
  r ← tenant_shm_init;
  if negb (r =? 0) then mret (1, [Line "Failed to init tenant shm" []]) else
  i ← tenant_get_info 50 (Some junk_info);
  let info := default junk_info (snd i) in
  mret (0, if fst i =? 0 then
             [Line "Name" []; Line (tenant_name info) []; Line "Status" [status_code (status info)];
              Line "QP Quota" [i32 (max_qp_per_tenant (quota info))]; Line "QP Usage" [qp_count (usage info)];
              Line "MR Quota" [i32 (max_mr_per_tenant (quota info))]; Line "MR Usage" [mr_count (usage info)]]
           else [Line "Tenant 50 not found" []]).

(** The exit code does not say whether the tenant was there. *)
Definition delete_tenant50 : M state outcome :=
  r ← tenant_shm_init;
  if negb (r =? 0) then mret (1, [Line "Failed to init tenant shm" []]) else
  r ← tenant_delete 50;
  mret (0, [Line (if r =? 0 then "Tenant 50 deleted successfully" else "Failed to delete tenant 50") []]).

Definition reset_tenant50 : M state outcome :=
  r ← tenant_shm_init;
  if negb (r =? 0) then mret (1, [Line "Failed to init tenant shm" []]) else
  i ← tenant_get_info 50 (Some junk_info);
  if negb (fst i =? 0) then mret (1, [Line "Tenant not found" [50]]) else
  let info := default junk_info (snd i) in
  let before := Line "Before reset" [u32 (qp_count (usage info))] in
  r ← tenant_update_resource_usage 50 (Some usage_zero);
  if negb (r =? 0) then mret (1, [before; Line "Failed to reset resource usage" []]) else
  i ← tenant_get_info 50 (Some info);
  if negb (fst i =? 0) then mret (1, [before; Line "Failed to get info after reset" []]) else
  let info := default info (snd i) in
  mret (0, [before; Line "After reset" [u32 (qp_count (usage info))]]).

Inductive tool :=
| UpdateTenant (argv : list string)
| CreateTenant (argv : list string)
| CheckTenants
| CheckTenant50
| DeleteTenant50
| ResetTenant50.

Definition run_tool (p : tool) : M state outcome :=
  match p with
  | UpdateTenant argv => update_tenant argv
  | CreateTenant argv => create_tenant argv
  | CheckTenants => check_tenants
  | CheckTenant50 => check_tenant50
  | DeleteTenant50 => delete_tenant50
  | ResetTenant50 => reset_tenant50
  end.

(** ** What they do, on the abstract store *)

Definition shown_row (tid : Z) (o : option tview) : line :=
  match o with
  | Some v =>
      Line (v_name v) [tid; qp_count (v_usage v); i32 (max_qp_per_tenant (v_quota v));
        mr_count (v_usage v); i32 (max_mr_per_tenant (v_quota v)); status_code (v_status v)]
  | None => Line "NOT FOUND" [tid]
  end.

Definition code_of (x : answer * store) : Z := match fst x with Code r => r | _ => -1 end.

Definition tool_spec (p : tool) (a : store) : outcome * store :=
  match p with
  | UpdateTenant argv =>
      if Z.of_nat (length argv) <? 5 then ((1, [Line "Usage" []]), a) else
      let tid := u32 (atoi (arg argv 1)) in
      let qp := atoi (arg argv 2) in
      let mr := atoi (arg argv 3) in
      let mem := u64 (atoll (arg argv 4)) in
      match live a tid with
      | None => ((1, [Line "Tenant not found" [tid]]), a)
      | Some _ =>
          ((0, [Line "Tenant updated successfully" [tid]; Line "New QP limit" [qp];
                Line "New MR limit" [mr]; Line "New Memory limit" [mem]]),
           snd (spec (UpdateQuota tid (Some (new_quota (u32 qp) (u32 mr) mem))) a))
      end
  | CreateTenant argv =>
      if Z.of_nat (length argv) <? 5 then ((1, [Line "Usage" []]), a) else
      let tid := u32 (atoi (arg argv 1)) in
      let qp := u32 (atoi (arg argv 2)) in
      let mr := u32 (atoi (arg argv 3)) in
      let mem := strtoull (arg argv 4) in
      let name := default "TestTenant"%string (argv !! 5%nat) in
      let said := [Line "Creating tenant" [tid]; Line "QP limit" [qp]; Line "MR limit" [mr];
                   Line "Memory limit" [mem]] in
      let x := spec (Create tid (Some name) (Some (new_quota qp mr mem))) a in
      if code_of x =? 0 then
        ((0, said ++ [Line "Tenant created successfully" [tid]; Line "Current QP" [0; i32 qp];
                      Line "Current MR" [0; i32 mr]]), snd x)
      else ((1, said ++ [Line "Failed to create tenant" [-1]]), a)
  | CheckTenants => ((0, (λ tid, shown_row tid (live a tid)) <$> tenant_ids), a)
  | CheckTenant50 =>
      ((0, match live a 50 with
           | Some v =>
               [Line "Name" []; Line (v_name v) []; Line "Status" [status_code (v_status v)];
                Line "QP Quota" [i32 (max_qp_per_tenant (v_quota v))]; Line "QP Usage" [qp_count (v_usage v)];
                Line "MR Quota" [i32 (max_mr_per_tenant (v_quota v))]; Line "MR Usage" [mr_count (v_usage v)]]
           | None => [Line "Tenant 50 not found" []]
           end), a)
  | DeleteTenant50 =>
      ((0, [Line (if decide (is_Some (live a 50)) then "Tenant 50 deleted successfully"
                  else "Failed to delete tenant 50") []]), snd (spec (Delete 50) a))
  | ResetTenant50 =>
      match live a 50 with
      | None => ((1, [Line "Tenant not found" [50]]), a)
      | Some v =>
          let before := Line "Before reset" [u32 (qp_count (v_usage v))] in
          if decide (v_status v = TENANT_STATUS_ACTIVE)
          then ((0, [before; Line "After reset" [0]]), snd (spec (UpdateUsage 50 (Some usage_zero)) a))
          else ((1, [before; Line "Failed to reset resource usage" []]), a)
      end
  end.

(** ** They do *)

(** A process that has not mapped the object yet; an object of version 0 is new. *)
Record detached (a : store) (s : state) : Prop := {
  dt_ptr : g_tenant_shm s = false;
  dt_os : 0 ≤ os_shm_open (os s) ∧ 0 ≤ os_ftruncate (os s) ∧ os_mmap (os s) = true;
  dt_shm : shm_ok (shm s);
  dt_lock : lock (shm s) = 0;
  dt_store : refines a (shm s);
  dt_new : version (shm s) = 0 → refines a shm_zero;
}.

Definition attached (a : store) (s : state) : Prop := ready s ∧ refines a (shm s).

Lemma init_wp a (Q : outcome → state → Prop) (k : Z → M state outcome) s :
  detached a s → (∀ s', attached a s' → wp (k 0) Q s') → wp (tenant_shm_init ≫= k) Q s.
Proof.
  intros [Hp (Ho & Hf & Hm) Hs Hl Ha Hnew] Hk.
  assert (H : ∃ s', tenant_shm_init s = Ret 0 s' ∧ attached a s').
  { unfold tenant_shm_init, ShmTenant.Tenant.store, time. run. rw Hp.
    rw (proj2 (Z.ltb_ge _ _) Ho) (proj2 (Z.ltb_ge _ _) Hf) Hm. cbn.
    destruct (Z.eqb_spec (version (shm s)) 0) as [Hv|Hv].
    - rw andb_true_r. destruct (_ && _); cbn; eexists; (split; [reflexivity|]); (split; [split; [done..|]|]); try done.
      + by apply (shm_ok_same shm_zero); [|apply shm_zero_ok].
      + by apply (refines_same a shm_zero); [|apply Hnew].
    - rw andb_false_r. eexists. split; [reflexivity|]. by split. }
  destruct H as (s' & Hrun & Hs'). apply wp_bind. eapply wp_eq; [exact Hrun|]. by apply Hk.
Qed.

(** A call that changes the store. *)
Lemma call_wp a c (Q : outcome → state → Prop) (k : Z → M state outcome) s :
  attached a s → real c → (∀ s, respond c s = (r ← run_call c; mret (Code r)) s) →
  (∀ s', attached (snd (spec c a)) s' → wp (k (code_of (spec c a))) Q s') → wp (run_call c ≫= k) Q s.
Proof.
  intros [Hr Ha] Hc Hcode Hk. destruct (call_answers a s Hr Ha c Hc) as (s' & Hrun & Hr' & Ha').
  rw Hcode in Hrun. apply bind_inv in Hrun as (r & s1 & Hrun & [= Hx <-]).
  apply wp_bind. eapply wp_eq; [exact Hrun|]. unfold code_of in Hk. rw -Hx in Hk. by apply Hk.
Qed.

(** A query of a tenant. *)
Lemma info_wp a tid j (Q : outcome → state → Prop) (k : Z * option tenant_info_t → M state outcome) s :
  attached a s → 0 ≤ tid →
  (∀ s' i, attached a s' → live a tid = None → wp (k (-1, i)) Q s') →
  (∀ s' t, attached a s' → live a tid = Some (view t) → tenant_id t = tid → wp (k (0, Some t)) Q s') →
  wp (tenant_get_info tid (Some j) ≫= k) Q s.
Proof.
  intros [Hr Ha] H0 Hnone Hsome. apply wp_bind.
  destruct (tid_cases a s Hr Ha tid H0) as [(Hout & Hb & Hlive)|(Hin & t & Ht)].
  { eapply wp_eq; [unfold tenant_get_info; by rw Hb|]. by apply Hnone. }
  destruct (get_info_run s Hr tid t Hin Ht j) as (s' & Hrun & Hs).
  eapply wp_eq; [exact Hrun|]. pose proof (live_in a s Ha tid t Hin Ht) as Hlive.
  assert (Hatt : attached a s').
  { split; [by eapply settled_ready; [exact Hs|apply Hr]|].
    by eapply refines_same; [apply Hs|]. }
  destruct (decide (status t = TENANT_STATUS_INACTIVE)) as [Hst|Hst].
  - rw decide_False; [by intros []|]. by apply Hnone.
  - rw decide_True //. apply Hsome; [done..|]. by apply (live_tenant s Hr tid t Hin Ht Hst).
Qed.

Lemma row_wp a tid (Q : outcome → state → Prop) (k : line → M state outcome) s :
  attached a s → 0 ≤ tid → (∀ s', attached a s' → wp (k (shown_row tid (live a tid))) Q s') →
  wp (tenant_row tid ≫= k) Q s.
Proof.
  intros Ha H0 Hk. unfold tenant_row.
  assert (H : wp (i ← tenant_get_info tid (Some junk_info);
    let info := default junk_info (snd i) in
    k (if fst i =? 0 then
          Line (tenant_name info)
            [tenant_id info; qp_count (usage info); i32 (max_qp_per_tenant (quota info));
             mr_count (usage info); i32 (max_mr_per_tenant (quota info)); status_code (status info)]
        else Line "NOT FOUND" [tid])) Q s).
  { eapply info_wp; [exact Ha|done|..].
    - intros s' i Hs' Hl. cbn. rw Hl in Hk. by apply Hk.
    - intros s' t Hs' Hl Hid. cbn. rw Hl in Hk. rw Hid. by apply Hk. }
  destruct H as (b & s' & Hrun & HQ). exists b, s'. split; [|done]. by rw bind_assoc.
Qed.

Lemma rows_wp a tids : ∀ (Q : outcome → state → Prop) (k : list line → M state outcome) s,
  attached a s → Forall (λ tid, 0 ≤ tid) tids →
  (∀ s', attached a s' → wp (k ((λ tid, shown_row tid (live a tid)) <$> tids)) Q s') →
  wp (tenant_rows tids ≫= k) Q s.
Proof.
  induction tids as [|tid tids IH]; intros Q k s Ha H0 Hk; [by apply Hk|].
  apply Forall_cons in H0 as [H0 H1]. cbn [tenant_rows].
  assert (H : wp (l ← tenant_row tid; ls ← tenant_rows tids; k (l :: ls)) Q s).
  { eapply row_wp; [exact Ha|done|]. intros s1 H2. by eapply IH. }
  destruct H as (b & s' & Hrun & HQ). exists b, s'. split; [|done].
  rw bind_assoc. rw -Hrun. apply bind_same; [done|]. intros l u. rw bind_assoc. by apply bind_same.
Qed.

(** How a tool ends: it has said [o], and the object stands for [a]. *)
Definition leaves (x : outcome * store) (o : outcome) (s : state) : Prop :=
  o = fst x ∧ refines (snd x) (shm s) ∧ shm_ok (shm s) ∧ lock (shm s) = 0.

Lemma leaves_detached a o s : detached a s → wp (mret o) (leaves (o, a)) s.
Proof. intros []. by apply wp_ret. Qed.

Lemma leaves_attached a o s : attached a s → wp (mret o) (leaves (o, a)) s.
Proof. intros [[] ?]. by apply wp_ret. Qed.

Lemma update_tool_runs argv a s : detached a s → wp (update_tenant argv) (leaves (tool_spec (UpdateTenant argv) a)) s.
Proof.
  intros Hs. unfold update_tenant. cbn [tool_spec]. destruct (_ <? 5); [by apply leaves_detached|].
  cbv zeta. set (tid := u32 _). assert (H0 : 0 ≤ tid) by (unfold tid; width_lia).
  eapply init_wp; [done|]. intros s1 H1. cbn [Z.eqb negb].
  eapply info_wp; [exact H1|done|..].
  - intros s2 i H2 Hl. rw Hl. by apply leaves_attached.
  - intros s2 t H2 Hl Hid. rw Hl. cbn [fst Z.eqb negb].
    set (qt := new_quota _ _ _). apply (call_wp a (UpdateQuota tid (Some qt))); [done|by split|done|].
    intros s3 H3. unfold code_of. cbn [spec] in *. rw Hl. cbn [fst Z.eqb]. rw Hl in H3. by apply leaves_attached.
Qed.

Lemma create_runs argv a s : detached a s → wp (create_tenant argv) (leaves (tool_spec (CreateTenant argv) a)) s.
Proof.
  intros Hs. unfold create_tenant. cbn [tool_spec]. destruct (_ <? 5); [by apply leaves_detached|].
  cbv zeta. set (tid := u32 _). assert (H0 : 0 ≤ tid) by (unfold tid; width_lia).
  set (said := [_; _; _; _]). set (name := default _ _). set (qt := new_quota _ _ _).
  eapply init_wp; [done|]. intros s1 H1. cbn [Z.eqb negb].
  apply (call_wp a (Create tid (Some name) (Some qt))); [done|by split|done|].
  intros s2 H2. cbn [spec] in *. case_decide as Hd.
  - cbn [code_of fst Z.eqb negb]. by apply leaves_attached.
  - cbn [code_of fst snd Z.eqb negb] in *. eapply info_wp; [exact H2|done|..].
    + intros s3 i H3. cbn. by rw decide_True.
    + intros s3 t H3. cbn [live live_put update]. cbn. rw decide_True //. intros [= Hn Hst Hqt Hu] _.
      rw -Hqt -Hu. by apply leaves_attached.
Qed.

Lemma reset_runs a s : detached a s → wp reset_tenant50 (leaves (tool_spec ResetTenant50 a)) s.
Proof.
  intros Hs. unfold reset_tenant50. cbn [tool_spec]. eapply init_wp; [done|]. intros s1 H1. cbn [Z.eqb negb].
  eapply info_wp; [exact H1|done|..].
  { intros s2 i H2 Hl. rw Hl. by apply leaves_attached. }
  intros s2 t H2 Hl Hid. rw Hl. cbn [fst snd default Z.eqb negb view v_usage v_status].
  assert (Hspec : spec (UpdateUsage 50 (Some usage_zero)) a =
    if decide (status t = TENANT_STATUS_ACTIVE)
    then (Code 0, live_put 50 (Some ((view t) <| v_usage := usage_zero |>)) a) else (Code (-1), a)).
  { cbn [spec]. unfold active, is_active. rw Hl. cbn. by repeat case_decide. }
  apply (call_wp a (UpdateUsage 50 (Some usage_zero))); [done|by split|done|].
  intros s3 H3. rw Hspec in H3. rw Hspec. destruct (decide (status t = TENANT_STATUS_ACTIVE)) as [Hst|Hst];
    cbn [code_of fst snd Z.eqb negb] in *; [|by apply leaves_attached].
  eapply info_wp; [exact H3|done|..].
  - intros s4 i H4 Hn. by cbn in Hn.
  - intros s4 u H4 Hu _. cbn in Hu. injection Hu as _ _ _ Hu.
    cbn [fst snd default Z.eqb negb]. rw -Hu. by apply leaves_attached.
Qed.

(** Each of the tools does what its calls are specified to do: from an object that
    stands for [a], whoever has written it, it exits with the code and prints the lines
    of the abstract tool, and leaves an object that stands for the abstract result. *)
Theorem tools_follow_specification p a s :
  detached a s →
  ∃ o s', run_tool p s = Ret o s' ∧ o = fst (tool_spec p a) ∧
    refines (snd (tool_spec p a)) (shm s') ∧ shm_ok (shm s') ∧ lock (shm s') = 0.
Proof.
  intros Hs. change (wp (run_tool p) (leaves (tool_spec p a)) s).
  destruct p as [argv|argv| | | |]; cbn [run_tool].
  - by apply update_tool_runs.
  - by apply create_runs.
  - eapply init_wp; [done|]. intros s1 H1. cbn [Z.eqb negb].
    eapply rows_wp; [exact H1|by repeat constructor|]. intros s2 H2. by apply leaves_attached.
  - eapply init_wp; [done|]. intros s1 H1. cbn [Z.eqb negb tool_spec].
    eapply info_wp; [exact H1|done|..].
    + intros s2 i H2 Hl. rw Hl. by apply leaves_attached.
    + intros s2 t H2 Hl _. rw Hl. by apply leaves_attached.
  - eapply init_wp; [done|]. intros s1 H1. cbn [Z.eqb negb].
    apply (call_wp a (Delete 50)); [done|done|done|]. intros s2 H2.
    cbn [tool_spec spec] in *. destruct (live a 50); cbn [code_of fst snd Z.eqb] in *; by apply leaves_attached.
  - by apply reset_runs.
Qed.
End Tools.

(** Four of the five rows of [check_tenants] say [NOT FOUND], whatever the store holds:
    there are no tenants beyond [MAX_TENANTS]. *)
Lemma check_tenants_rows junk_cq junk_pd a d :
  refines a d →
  fst (tool_spec junk_cq junk_pd CheckTenants a) =
    (0, shown_row 1 (live a 1) :: ((λ tid, Line "NOT FOUND" [tid]) <$> [100; 200; 300; 400])).
Proof.
  intros Ha. unfold tool_spec, tenant_ids. cbn [fmap list_fmap fst].
  assert (H : ∀ tid, MAX_TENANTS ≤ tid → live a tid = None) by (intros; apply (ref_out _ _ Ha); lia).
  by rw (H 100) // (H 200) // (H 300) // (H 400).
Qed.

(** A new system: the object has been created and never used. *)
Definition new_process : state :=
  mk_state false (-1) shm_zero (mk_os 3 0 true 0 TENANT_SHM_SIZE) (λ n, Z.of_nat n).

Lemma new_detached : detached empty_store new_process.
Proof. split; try done; [apply shm_zero_ok|apply fresh_refines|intros _; apply fresh_refines]. Qed.

(** [create_tenant 10 100 20 1073741824 Test] *)
Lemma tools_follow_specification_witness :
  ∃ s', run_tool info_zero 0 0 (CreateTenant ["create_tenant"; "10"; "100"; "20"; "1073741824"; "Test"])
      new_process =
    Ret (0, [Line "Creating tenant" [10]; Line "QP limit" [100]; Line "MR limit" [20];
             Line "Memory limit" [1073741824]; Line "Tenant created successfully" [10];
             Line "Current QP" [0; 100]; Line "Current MR" [0; 20]]) s' ∧ shm_ok (shm s').
Proof.
  destruct (tools_follow_specification info_zero 0 0
    (CreateTenant ["create_tenant"; "10"; "100"; "20"; "1073741824"; "Test"]) empty_store new_process
    new_detached) as (o & s' & Hrun & -> & _ & Hok & _).
  exists s'. split; [exact Hrun|exact Hok].
Defined.
End TenantTools.
