(* ===== verification/TenantBooks.v ===== *)
(** * Bookkeeping of the tenant store

    The counters of [tenant_shared_memory_t] and of each tenant count what they
    name ([counts_ok]) as long as the callers are [disciplined]: pids are real,
    a bound pid is not bound again to another tenant, and [tenant_set_status]
    is not used to make a tenant inactive.  The code checks none of this; the
    last theorems run the calls that break each counter. *)

From S2P Require Import Prelude SlotTable ShmTenant TenantProps.

Module TenantBooks.
Import Tenant TenantProps.

#[local] Arguments Z.to_nat : simpl never.

Definition is_live (t : tenant_info_t) : bool := bool_decide (status t ≠ TENANT_STATUS_INACTIVE).

(** How many slots of the table name the tenant. *)
Definition bound (tid : Z) (ms : list pid_tenant_mapping_t) : Z :=
  countb (λ m, m_tenant_id m =? tid) ms.

Record counts_ok (d : tenant_shared_memory_t) : Prop := {
  co_active : active_tenant_count d = countb is_live (tenants d);
  co_total : total_process_count d = slots_used m_pid (pid_mappings d);
  co_free i m : pid_mappings d !! i = Some m → m_pid m = 0 → m_tenant_id m = 0;
  co_used i m : pid_mappings d !! i = Some m → m_pid m ≠ 0 →
    ∃ t, tenants d !! Z.to_nat (m_tenant_id m) = Some t ∧ is_live t = true;
  co_procs i t : tenants d !! i = Some t → is_live t = true →
    process_count t = bound (Z.of_nat i) (pid_mappings d);
}.

(** The discipline, judged in the state the call is made in. *)
Definition disciplined (c : call) (d : tenant_shared_memory_t) : Prop :=
  match c with
  | Bind pid tid => pid ≠ 0 ∧
      ∀ i m, pid_mappings d !! i = Some m → m_pid m = pid → m_tenant_id m = tid
  | Unbind pid => pid ≠ 0
  | SetStatus _ st => st ≠ TENANT_STATUS_INACTIVE
  | _ => True
  end.

Lemma counts_same d d' : same_content d d' → counts_ok d → counts_ok d'.
Proof. destruct d, d'. intros [Ht Hm Ha Hn] []. cbn in *. subst. by split. Qed.

Lemma shm_zero_counts : counts_ok shm_zero.
Proof.
  unfold shm_zero. split; cbn [active_tenant_count total_process_count tenants pid_mappings].
  - by rw countb_replicate.
  - unfold slots_used. by rw countb_replicate.
  - by intros i m [-> _]%lookup_replicate.
  - by intros i m [-> _]%lookup_replicate.
  - by intros i t [-> _]%lookup_replicate.
Qed.

Lemma is_live_spec t : is_live t = true ↔ status t ≠ TENANT_STATUS_INACTIVE.
Proof. unfold is_live. by rw bool_decide_eq_true. Qed.

Lemma bound_none tid ms :
  (∀ i m, ms !! i = Some m → m_tenant_id m ≠ tid) → bound tid ms = 0.
Proof. intros H. apply countb_zero. intros i m Hi. apply Z.eqb_neq. by apply (H i). Qed.

Lemma bound_insert tid i m m' ms :
  ms !! i = Some m →
  bound tid (<[i := m']> ms) =
    bound tid ms - Z.b2z (m_tenant_id m =? tid) + Z.b2z (m_tenant_id m' =? tid).
Proof. intros Hi. unfold bound. by rw (countb_insert _ _ _ m m' Hi). Qed.

Lemma used_insert i m m' ms :
  ms !! i = Some m →
  slots_used m_pid (<[i := m']> ms) =
    slots_used m_pid ms - Z.b2z (negb (m_pid m =? 0)) + Z.b2z (negb (m_pid m' =? 0)).
Proof. intros Hi. unfold slots_used. by rw (countb_insert _ _ _ m m' Hi). Qed.

Section Counts.
Context (d : tenant_shared_memory_t) (Hd : shm_ok d) (Hc : counts_ok d).

(** A live tenant is not tenant 0. *)
Lemma live_nonzero tid t :
  0 ≤ tid → tenants d !! Z.to_nat tid = Some t → is_live t = true → tid ≠ 0.
Proof using Hd.
  intros H0 Ht Hl ->. apply (ok_default d Hd) in Ht. unfold is_live in Hl. by rw Ht in Hl.
Qed.

(** A slot that names a tenant other than 0 holds a pid. *)
Lemma named_used i m :
  pid_mappings d !! i = Some m → m_tenant_id m ≠ 0 → m_pid m ≠ 0.
Proof using Hc. intros Hi H0 Hp. by eapply H0, (co_free d Hc). Qed.

Lemma counts_room :
  active_tenant_count d ≤ MAX_TENANTS ∧ total_process_count d ≤ MAX_PROCESSES ∧
  (∀ tid, 0 ≤ bound tid (pid_mappings d) ≤ MAX_PROCESSES) ∧ 0 ≤ total_process_count d ∧
  0 ≤ active_tenant_count d.
Proof using Hd Hc.
  rw (co_active d Hc) (co_total d Hc). unfold slots_used, bound.
  pose proof (countb_bounds is_live (tenants d)).
  pose proof (countb_bounds (λ m, negb (m_pid m =? 0)) (pid_mappings d)).
  rw (ok_tenants d Hd) in H. rw (ok_maps d Hd) in H0.
  split_and!; [unfold MAX_TENANTS in *; lia|unfold MAX_PROCESSES in *; lia| |lia..].
  intros tid. pose proof (countb_bounds (λ m, m_tenant_id m =? tid) (pid_mappings d)).
  rw (ok_maps d Hd) in H1. unfold MAX_PROCESSES in *. lia.
Qed.

(** A live tenant is rewritten and stays live, with its process count. *)
Lemma counts_put d' tid t t' :
  tenants d !! Z.to_nat tid = Some t → is_live t = true → is_live t' = true →
  process_count t' = process_count t →
  tenants d' = <[Z.to_nat tid := t']> (tenants d) →
  pid_mappings d' = pid_mappings d → active_tenant_count d' = active_tenant_count d →
  total_process_count d' = total_process_count d → counts_ok d'.
Proof using Hc Hd.
  intros Ht Hl Hl' Hp Hts Hm Ha Hn. pose proof (lookup_lt_Some _ _ _ Ht). split.
  - rw Ha (co_active d Hc) Hts (countb_insert _ _ _ t t' Ht) Hl Hl'. lia.
  - rw Hn Hm. apply (co_total d Hc).
  - rw Hm. apply (co_free d Hc).
  - rw Hm Hts. intros i m Hi Hm0. destruct (co_used d Hc i m Hi Hm0) as (u & Hu & Hlu).
    destruct (decide (Z.to_nat tid = Z.to_nat (m_tenant_id m))) as [E|Hne].
    + exists t'. rw -E. split; [|done]. by apply list_lookup_insert_eq.
    + exists u. by rw list_lookup_insert_ne.
  - rw Hm Hts. intros i u [(<- & -> & _)|[_ Hu]]%list_lookup_insert_Some Hlu.
    + rw Hp. by apply (co_procs d Hc).
    + by apply (co_procs d Hc).
Qed.

Lemma create_counts d' tid t t' :
  0 < tid → tenants d !! Z.to_nat tid = Some t → is_live t = false →
  is_live t' = true → process_count t' = 0 →
  tenants d' = <[Z.to_nat tid := t']> (tenants d) →
  pid_mappings d' = pid_mappings d →
  active_tenant_count d' = u32 (active_tenant_count d + 1) →
  total_process_count d' = total_process_count d → counts_ok d'.
Proof using Hc Hd.
  intros H0 Ht Hl Hl' Hp Hts Hm Ha Hn. pose proof (lookup_lt_Some _ _ _ Ht).
  destruct counts_room as (? & _ & _ & _ & ?).
  assert (Hother : ∀ i m, pid_mappings d !! i = Some m → m_tenant_id m ≠ tid).
  { intros i m Hi E. destruct (co_used d Hc i m Hi) as (u & Hu & Hlu).
    - eapply named_used; [done|lia].
    - congruence. }
  split.
  - rw Ha u32_small; [unfold is_u32, MAX_TENANTS in *; lia|].
    rw (co_active d Hc) Hts (countb_insert _ _ _ t t' Ht) Hl Hl'. cbn. lia.
  - rw Hn Hm. apply (co_total d Hc).
  - rw Hm. apply (co_free d Hc).
  - rw Hm Hts. intros i m Hi Hm0. destruct (co_used d Hc i m Hi Hm0) as (u & Hu & Hlu).
    exists u. rw list_lookup_insert_ne //. intros E. congruence.
  - rw Hm Hts. intros i u [(<- & -> & _)|[_ Hu]]%list_lookup_insert_Some Hlu.
    + rw Hp bound_none //. intros i m Hi. rw Z2Nat.id; [lia|by eapply Hother].
    + by apply (co_procs d Hc).
Qed.

Lemma used_unmap tid ms :
  (∀ i m, ms !! i = Some m → m_tenant_id m = tid → m_pid m ≠ 0) →
  slots_used m_pid ((λ m, if m_tenant_id m =? tid then unmap m else m) <$> ms) =
    slots_used m_pid ms - bound tid ms.
Proof using.
  unfold slots_used, bound. induction ms as [|m ms IH]; intros H; cbn; [done|].
  rw IH; [intros i x Hi; by apply (H (S i))|].
  destruct (Z.eqb_spec (m_tenant_id m) tid) as [E|E]; cbn; [|lia].
  rw (proj2 (Z.eqb_neq _ _) (H 0%nat m eq_refl E)). cbn. lia.
Qed.

Lemma bound_unmap tid k ms :
  k ≠ 0 → k ≠ tid →
  bound k ((λ m, if m_tenant_id m =? tid then unmap m else m) <$> ms) = bound k ms.
Proof using.
  intros H0 Hk. unfold bound. rw countb_map. apply countb_ext. intros i m _.
  destruct (Z.eqb_spec (m_tenant_id m) tid) as [E|E]; [|done].
  change (m_tenant_id (unmap m)) with 0. lia.
Qed.

Lemma delete_counts d' tid t t' :
  0 < tid → tenants d !! Z.to_nat tid = Some t → is_live t = true → is_live t' = false →
  tenants d' = <[Z.to_nat tid := t']> (tenants d) →
  pid_mappings d' = (λ m, if m_tenant_id m =? tid then unmap m else m) <$> pid_mappings d →
  active_tenant_count d' = u32 (active_tenant_count d - 1) →
  total_process_count d' = u32 (total_process_count d - bound tid (pid_mappings d)) →
  counts_ok d'.
Proof using Hc Hd.
  intros H0 Ht Hl Hl' Hts Hm Ha Hn. pose proof (lookup_lt_Some _ _ _ Ht).
  destruct counts_room as (? & ? & Hb & ? & ?). specialize (Hb tid).
  pose proof (countb_pos _ _ _ _ Ht Hl) as Hpos. rw -(co_active d Hc) in Hpos.
  assert (Hused : slots_used m_pid (pid_mappings d') =
    slots_used m_pid (pid_mappings d) - bound tid (pid_mappings d)).
  { rw Hm. apply used_unmap. intros i m Hi E. eapply named_used; [done|lia]. }
  pose proof (countb_bounds (λ m, negb (m_pid m =? 0)) (pid_mappings d')) as Hub.
  split.
  - rw Ha u32_small; [unfold is_u32, MAX_TENANTS in *; lia|].
    rw (co_active d Hc) Hts (countb_insert _ _ _ t t' Ht) Hl Hl'. cbn. lia.
  - rw Hn Hused (co_total d Hc). apply u32_small.
    unfold slots_used in Hused at 1. rw (co_total d Hc) in H2.
    unfold is_u32, MAX_PROCESSES in *. rw (co_total d Hc) in H3. lia.
  - rw Hm. intros i x (m & -> & Hi)%list_lookup_fmap_Some.
    destruct (m_tenant_id m =? tid); cbn; [done|by apply (co_free d Hc i)].
  - rw Hm Hts. intros i x (m & -> & Hi)%list_lookup_fmap_Some.
    destruct (Z.eqb_spec (m_tenant_id m) tid) as [E|E]; cbn; [done|]. intros Hm0.
    destruct (co_used d Hc i m Hi Hm0) as (u & Hu & Hlu). exists u.
    rw list_lookup_insert_ne //. pose proof (ok_map_tids d Hd i m Hi). lia.
  - rw Hm Hts. intros i u [(<- & -> & _)|[Hi Hu]]%list_lookup_insert_Some Hlu; [congruence|].
    assert (i ≠ 0%nat).
    { intros ->. eapply (live_nonzero 0); [done|exact Hu|done|done]. }
    rw bound_unmap; [lia..|]. by apply (co_procs d Hc).
Qed.

(** One slot passes from [m] to [m'], both of tenant [tid] or free, and the
    counters follow it. *)
Lemma counts_remap d' tid t t' i m m' :
  0 ≤ tid → tenants d !! Z.to_nat tid = Some t → is_live t = true → is_live t' = true →
  pid_mappings d !! i = Some m →
  (m_tenant_id m = tid ∨ m_tenant_id m = 0) →
  (m_pid m' = 0 → m_tenant_id m' = 0) → (m_pid m' ≠ 0 → m_tenant_id m' = tid) →
  tenants d' = <[Z.to_nat tid := t']> (tenants d) →
  pid_mappings d' = <[i := m']> (pid_mappings d) →
  active_tenant_count d' = active_tenant_count d →
  process_count t' =
    process_count t - Z.b2z (m_tenant_id m =? tid) + Z.b2z (m_tenant_id m' =? tid) →
  total_process_count d' =
    total_process_count d - Z.b2z (negb (m_pid m =? 0)) + Z.b2z (negb (m_pid m' =? 0)) →
  counts_ok d'.
Proof using Hc Hd.
  intros H0 Ht Hl Hl' Hi Hm Hfree' Hused' Hts Hms Ha Hp Hn.
  pose proof (lookup_lt_Some _ _ _ Ht). pose proof (live_nonzero tid t H0 Ht Hl).
  split.
  - rw Ha (co_active d Hc) Hts (countb_insert _ _ _ t t' Ht) Hl Hl'. lia.
  - by rw Hn Hms (used_insert _ _ _ _ Hi) (co_total d Hc).
  - rw Hms. intros j x [(_ & -> & _)|[_ Hj]]%list_lookup_insert_Some; [done|].
    by apply (co_free d Hc j).
  - rw Hms Hts. intros j x [(_ & -> & _)|[_ Hj]]%list_lookup_insert_Some Hx.
    + rw Hused' //. exists t'. split; [|done]. by apply list_lookup_insert_eq.
    + destruct (co_used d Hc j x Hj Hx) as (u & Hu & Hlu).
      destruct (decide (Z.to_nat tid = Z.to_nat (m_tenant_id x))) as [E|Hne].
      * exists t'. rw -E. split; [|done]. by apply list_lookup_insert_eq.
      * exists u. by rw list_lookup_insert_ne.
  - rw Hms Hts. intros j u [(<- & -> & _)|[Hj Hu]]%list_lookup_insert_Some Hlu;
      rw (bound_insert _ _ _ _ _ Hi).
    + by rw Z2Nat.id // Hp (co_procs d Hc _ _ Ht Hl) Z2Nat.id.
    + assert (j ≠ 0%nat) by (intros ->; by eapply (live_nonzero 0)).
      rw (co_procs d Hc _ _ Hu Hlu).
      assert (m_tenant_id m' = tid ∨ m_tenant_id m' = 0).
      { destruct (decide (m_pid m' = 0)); auto. }
      rw (proj2 (Z.eqb_neq (m_tenant_id m) _)); [lia|].
      rw (proj2 (Z.eqb_neq (m_tenant_id m') _)); [lia|]. cbn. lia.
Qed.
End Counts.

Section Calls.
Context (s : state) (Hr : ready s) (Hc : counts_ok (shm s)).
Let Hd := ready_shm s Hr.
Let Hms := shm_ok_maps _ Hd.

Lemma settled_counts d s' : settled s d s' → counts_ok d → counts_ok (shm s').
Proof using. intros Hs. eapply counts_same, Hs. Qed.

(** A call that failed or only read. *)
Lemma call_same c r :
  (∃ s', run_call c s = Ret r s' ∧ settled s (shm s) s') →
  ∃ r s', run_call c s = Ret r s' ∧ counts_ok (shm s').
Proof using Hc. intros (s' & Hrun & Hs). exists r, s'. split; [done|]. by eapply settled_counts. Qed.

Lemma call_bad c r : run_call c s = Ret r s → ∃ r s', run_call c s = Ret r s' ∧ counts_ok (shm s').
Proof using Hc. intros Hrun. by exists r, s. Qed.

Lemma call_to c r d :
  (∃ s', run_call c s = Ret r s' ∧ settled s d s') → counts_ok d →
  ∃ r s', run_call c s = Ret r s' ∧ counts_ok (shm s').
Proof using. intros (s' & Hrun & Hs) ?. exists r, s'. split; [done|]. by eapply settled_counts. Qed.

Lemma live_of t : status t ≠ TENANT_STATUS_INACTIVE → is_live t = true.
Proof using. by rw is_live_spec. Qed.

Lemma bind_counts pid tid :
  0 ≤ tid → disciplined (Bind pid tid) (shm s) →
  ∃ r s', run_call (Bind pid tid) s = Ret r s' ∧ counts_ok (shm s').
Proof using Hc Hr.
  intros H0 [Hpid Hsame]. cbn [run_call].
  destruct (Z.leb_spec MAX_TENANTS tid) as [Hout|Hin].
  { eapply (call_bad (Bind pid tid)). cbn. unfold tenant_bind_process.
    by rw (proj2 (Z.leb_le _ _) Hout). }
  destruct (tenant_lookup _ tid Hd ltac:(lia)) as [t Ht].
  destruct (decide (status t = TENANT_STATUS_ACTIVE)) as [Hst|Hst]; cycle 1.
  { eapply (call_same (Bind pid tid)). by apply (bind_inactive s Hr tid t). }
  assert (Hl : is_live t = true) by (apply live_of; congruence).
  destruct (bind_cases (pid_mappings (shm s)) pid Hms)
    as [(i & m & e & Hscan & Hi & Hp & Hf)|[(i & m & Hscan & Hi & Hp & _ & Hf)|(Hscan & _)]].
  - eapply (call_to (Bind pid tid)); [by apply (bind_again s Hr tid t ltac:(lia) Ht pid i e)|].
    pose proof (Hsame i m Hi Hp) as Hmt.
    eapply (counts_remap (shm s) Hd Hc _ tid t (t <| last_active_at := clock s 1%nat |>)
      i m (mk_mapping pid tid (clock s 0%nat))); try done; [by left|rw Hmt|rw Hp]; cbn -[Z.eqb]; lia.
  - eapply (call_to (Bind pid tid)); [by apply (bind_fresh s Hr tid t ltac:(lia) Ht pid i)|].
    pose proof (co_free _ Hc i m Hi Hp) as Hmt.
    pose proof (live_nonzero _ Hd tid t H0 Ht Hl).
    destruct (counts_room _ Hd Hc) as (_ & Htot & Hb & Htot0 & _). specialize (Hb tid).
    pose proof (co_procs _ Hc _ _ Ht Hl) as Hpc. rw Z2Nat.id // in Hpc.
    unfold MAX_PROCESSES in *.
    eapply (counts_remap (shm s) Hd Hc _ tid t _ i m (mk_mapping pid tid (clock s 0%nat)));
      [done|done|done| |done|by right|done|done|reflexivity|reflexivity|reflexivity|..];
      [exact Hl|..];
      cbn -[Z.eqb].
    + rw Hmt (proj2 (Z.eqb_neq 0 tid)); [lia|]. rw Z.eqb_refl u32_small; [unfold is_u32; lia|].
      cbn. lia.
    + rw Hp (proj2 (Z.eqb_neq pid 0)) // u32_small; [unfold is_u32; lia|]. cbn. lia.
  - eapply (call_same (Bind pid tid)). by apply (bind_full s Hr tid t).
Qed.

Lemma unbind_counts pid :
  pid ≠ 0 → ∃ r s', run_call (Unbind pid) s = Ret r s' ∧ counts_ok (shm s').
Proof using Hc Hr.
  intros Hpid.
  destruct (find_index (λ m, m_pid m =? pid) (pid_mappings (shm s))) as [i|] eqn:Hf; cycle 1.
  { eapply (call_same (Unbind pid)). by apply (unbind_none s Hr). }
  destruct (maps_find _ _ _ Hms Hf) as (m & Hi & Hp & _).
  pose proof (maps_tids _ Hms _ _ Hi) as Htid.
  destruct (co_used _ Hc i m Hi ltac:(congruence)) as (t & Ht & Hl).
  eapply (call_to (Unbind pid)); [by apply (unbind_found s Hr pid i m t)|].
  pose proof (live_nonzero _ Hd _ _ (proj1 Htid) Ht Hl).
  pose proof (co_procs _ Hc _ _ Ht Hl) as Hpc. rw Z2Nat.id in Hpc; [lia|].
  pose proof (countb_pos (λ x, m_tenant_id x =? m_tenant_id m) _ _ _ Hi (Z.eqb_refl _)) as Hb.
  pose proof (countb_pos (λ x, negb (m_pid x =? 0)) _ _ _ Hi) as Hu.
  cbn in Hu. rw (proj2 (Z.eqb_neq (m_pid m) 0)) in Hu; [congruence|]. specialize (Hu eq_refl).
  pose proof (co_total _ Hc) as Htot. unfold slots_used, bound in *.
  eapply (counts_remap (shm s) Hd Hc _ (m_tenant_id m) t _ i m (unmap m));
    [lia|done|done| |done|by left|done|done|reflexivity|reflexivity|reflexivity|..];
      [exact Hl|..];
      cbn -[Z.eqb].
  - rw Z.eqb_refl (proj2 (Z.ltb_lt _ _)); [lia|]. cbn -[Z.eqb].
    destruct (Z.eqb_spec 0 (m_tenant_id m)); cbn; lia.
  - rw (proj2 (Z.eqb_neq (m_pid m) 0)); [congruence|]. rw (proj2 (Z.ltb_lt _ _)); [lia|]. cbn; lia.
Qed.

Lemma not_live t : status t = TENANT_STATUS_INACTIVE → is_live t = false.
Proof using. intros H. unfold is_live. by rw H. Qed.

Lemma create_keeps_counts tid name q :
  0 ≤ tid → ∃ r s', run_call (Create tid name q) s = Ret r s' ∧ counts_ok (shm s').
Proof using Hc Hr.
  intros H0. destruct (decide (tid ≠ 0 ∧ tid < MAX_TENANTS)) as [[Hne Hin]|Hout]; cycle 1.
  { eapply (call_bad (Create tid name q)). cbn. unfold tenant_create.
    destruct (Z.eqb_spec tid 0), (Z.leb_spec MAX_TENANTS tid); cbn; try done. lia. }
  destruct (tenant_lookup _ tid Hd ltac:(lia)) as [t Ht].
  destruct (decide (status t = TENANT_STATUS_INACTIVE)) as [Hst|Hst]; cycle 1.
  { eapply (call_same (Create tid name q)). by apply (create_taken s Hr tid t). }
  eapply (call_to (Create tid name q)); [by apply (create_new s Hr tid t)|].
  eapply (create_counts (shm s) Hd Hc _ tid t);
    [lia|done|by apply not_live| | |reflexivity|done|done|done]; done.
Qed.

Lemma delete_keeps_counts tid :
  0 ≤ tid → ∃ r s', run_call (Delete tid) s = Ret r s' ∧ counts_ok (shm s').
Proof using Hc Hr.
  intros H0. destruct (decide (tid ≠ 0 ∧ tid < MAX_TENANTS)) as [[Hne Hin]|Hout]; cycle 1.
  { eapply (call_bad (Delete tid)). cbn. unfold tenant_delete.
    destruct (Z.eqb_spec tid 0), (Z.leb_spec MAX_TENANTS tid); cbn; try done. lia. }
  destruct (tenant_lookup _ tid Hd ltac:(lia)) as [t Ht].
  destruct (decide (status t = TENANT_STATUS_INACTIVE)) as [Hst|Hst].
  { eapply (call_same (Delete tid)). by apply (delete_none s Hr tid t). }
  pose proof (unmap_all_spec tid (pid_mappings (shm s)) _ (ok_total _ Hd)) as Hun.
  eapply (call_to (Delete tid)); [by eapply (delete_ok s Hr tid t)|].
  eapply (delete_counts (shm s) Hd Hc _ tid t);
    [lia|done|by apply live_of| |reflexivity|done|done|done]; done.
Qed.

(** A call that rewrites one live tenant and nothing else. *)
Lemma put_keeps_counts c r tid t t' :
  tenants (shm s) !! Z.to_nat tid = Some t → is_live t = true → is_live t' = true →
  process_count t' = process_count t →
  (∃ s', run_call c s = Ret r s' ∧
     settled s ((shm s) <| tenants ::= <[Z.to_nat tid := t']> |>) s') →
  ∃ r s', run_call c s = Ret r s' ∧ counts_ok (shm s').
Proof using Hc Hr. intros. eapply call_to; [done|]. by eapply (counts_put (shm s) Hd Hc _ tid t t'). Qed.

Lemma tid_split tid :
  0 ≤ tid →
  (MAX_TENANTS <=? tid) = true ∨
  0 ≤ tid < MAX_TENANTS ∧ ∃ t, tenants (shm s) !! Z.to_nat tid = Some t.
Proof using Hr.
  intros H0. destruct (Z.leb_spec MAX_TENANTS tid); [by left|right].
  split; [lia|]. apply tenant_lookup; [done|lia].
Qed.

Lemma status_counts tid st :
  0 ≤ tid → st ≠ TENANT_STATUS_INACTIVE →
  ∃ r s', run_call (SetStatus tid st) s = Ret r s' ∧ counts_ok (shm s').
Proof using Hc Hr.
  intros H0 Hst. destruct (tid_split tid H0) as [Hout|(Hin & t & Ht)].
  { eapply call_bad. cbn. unfold tenant_set_status. by rw Hout. }
  destruct (decide (status t = TENANT_STATUS_INACTIVE)).
  - eapply (call_same (SetStatus tid st)). by apply (set_status_none s Hr tid t).
  - eapply (put_keeps_counts (SetStatus tid st) 0 tid t); [done|by apply live_of| |
      |by apply (set_status_ok s Hr tid t)]; [by apply live_of|done].
Qed.

Lemma quota_counts tid q :
  0 ≤ tid → ∃ r s', run_call (UpdateQuota tid q) s = Ret r s' ∧ counts_ok (shm s').
Proof using Hc Hr.
  intros H0. destruct q as [q|]; [|by eapply call_bad].
  destruct (tid_split tid H0) as [Hout|(Hin & t & Ht)].
  { eapply call_bad. cbn. unfold tenant_update_quota. by rw Hout. }
  destruct (decide (status t = TENANT_STATUS_INACTIVE)).
  - eapply (call_same (UpdateQuota tid (Some q))). by apply (update_quota_none s Hr tid t).
  - eapply (put_keeps_counts (UpdateQuota tid (Some q)) 0 tid t); [done|by apply live_of| |
      |by apply (update_quota_ok s Hr tid t)]; [by apply live_of|done].
Qed.

Lemma usage_counts tid u :
  0 ≤ tid → ∃ r s', run_call (UpdateUsage tid u) s = Ret r s' ∧ counts_ok (shm s').
Proof using Hc Hr.
  intros H0. destruct u as [u|]; [|by eapply call_bad].
  destruct (tid_split tid H0) as [Hout|(Hin & t & Ht)].
  { eapply call_bad. cbn. unfold tenant_update_resource_usage. by rw Hout. }
  destruct (decide (status t = TENANT_STATUS_ACTIVE)) as [E|].
  - eapply (put_keeps_counts (UpdateUsage tid (Some u)) 0 tid t);
      [done| | | |by apply (update_usage_ok s Hr tid t)]; [| |done]; apply live_of; cbn; by rw E.
  - eapply (call_same (UpdateUsage tid (Some u))). by apply (update_usage_none s Hr tid t).
Qed.

(** The calls that only read. *)
Lemma read_counts c r s' :
  run_call c s = Ret r s' → same_content (shm s) (shm s') →
  ∃ r s', run_call c s = Ret r s' ∧ counts_ok (shm s').
Proof using Hc. intros Hrun Hs. exists r, s'. split; [done|]. by eapply counts_same. Qed.

Lemma run_call_counts c :
  0 ≤ call_tid c → disciplined c (shm s) →
  ∃ r s', run_call c s = Ret r s' ∧ counts_ok (shm s').
Proof using Hc Hr.
  intros H0 Hdisc. destruct (call_reads s Hr c H0) as [(r & s' & Hrun & Hs)|Hwrites].
  { by eapply read_counts. }
  destruct c; cbn [call_tid writes] in *; try done.
  - by apply create_keeps_counts.
  - by apply delete_keeps_counts.
  - by apply status_counts.
  - by apply quota_counts.
  - by apply bind_counts.
  - by apply unbind_counts.
  - by apply usage_counts.
Qed.
End Calls.

(** ** Properties *)

Inductive disciplined_step : state → state → Prop :=
| disciplined_call c r s s' :
    0 ≤ call_tid c → disciplined c (shm s) → run_call c s = Ret r s' → disciplined_step s s'.

Lemma disciplined_steps s s' :
  rtc disciplined_step s s' → ready s → counts_ok (shm s) → ready s' ∧ counts_ok (shm s').
Proof.
  induction 1 as [s|s t s' [c r ? ? Htid Hdisc Hrun] _ IH]; intros Hr Hc; [done|].
  destruct (run_call_ready _ Hr c Htid) as (r1 & t1 & Hrun1 & Hr').
  destruct (run_call_counts _ Hr Hc c Htid Hdisc) as (r2 & t2 & Hrun2 & Hc').
  apply IH; congruence.
Qed.

(** C7: along every run of disciplined callers from a fresh object the counters
    are exact: [active_tenant_count] is the number of live tenants,
    [total_process_count] the number of bound pids, the [process_count] of a
    live tenant the number of pids bound to it; and every bound pid belongs to a
    live tenant. *)
Theorem tenant_counters_exact clk s :
  rtc disciplined_step (fresh clk) s →
  active_tenant_count (shm s) = countb is_live (tenants (shm s)) ∧
  total_process_count (shm s) =
    Z.of_nat (size (slots_map m_pid m_tenant_id (pid_mappings (shm s)))) ∧
  (∀ i t, tenants (shm s) !! i = Some t → is_live t = true →
    process_count t = bound (Z.of_nat i) (pid_mappings (shm s))) ∧
  (∀ pid tid, slots_map m_pid m_tenant_id (pid_mappings (shm s)) !! pid = Some tid →
    ∃ t, tenants (shm s) !! Z.to_nat tid = Some t ∧ is_live t = true).
Proof.
  intros Hs. destruct (disciplined_steps _ _ Hs (fresh_ready clk) shm_zero_counts) as [Hr Hc].
  pose proof (maps_unique _ (shm_ok_maps _ (ready_shm _ Hr))) as Hu.
  split_and!; [apply Hc| |apply Hc|].
  - rw (slots_map_size _ _ _ Hu). apply Hc.
  - intros pid tid (Hpid & i & m & Hi & Hm & <-)%slots_map_Some; [|done].
    eapply (co_used _ Hc i m); congruence.
Qed.

Lemma tenant_counters_exact_witness :
  ∃ s, rtc disciplined_step (fresh (λ _, 9)) s ∧
    active_tenant_count (shm s) = countb is_live (tenants (shm s)).
Proof.
  exists (after (fresh (λ _, 9)) (tenant_create 3 None None (fresh (λ _, 9)))).
  assert (H : rtc disciplined_step (fresh (λ _, 9))
    (after (fresh (λ _, 9)) (tenant_create 3 None None (fresh (λ _, 9))))).
  { apply rtc_once. apply (disciplined_call (Create 3 None None) 0); [cbn; lia|exact I|reflexivity]. }
  split; [exact H|]. exact (proj1 (tenant_counters_exact _ _ H)).
Defined.

(** Binding a bound pid to another active tenant succeeds and moves the
    mapping, but neither tenant's [process_count] follows it: the old tenant now
    counts one process too many, the new one one too few. *)
Theorem rebind_leaves_counts s pid i m t1 tid2 t2 :
  ready s → counts_ok (shm s) →
  pid_mappings (shm s) !! i = Some m → m_pid m = pid → pid ≠ 0 →
  tenants (shm s) !! Z.to_nat (m_tenant_id m) = Some t1 →
  0 ≤ tid2 < MAX_TENANTS → tid2 ≠ m_tenant_id m →
  tenants (shm s) !! Z.to_nat tid2 = Some t2 → status t2 = TENANT_STATUS_ACTIVE →
  ∃ s' t1' t2', tenant_bind_process pid tid2 s = Ret 0 s' ∧
    tenants (shm s') !! Z.to_nat (m_tenant_id m) = Some t1' ∧
    tenants (shm s') !! Z.to_nat tid2 = Some t2' ∧
    process_count t1' = bound (m_tenant_id m) (pid_mappings (shm s')) + 1 ∧
    process_count t2' = bound tid2 (pid_mappings (shm s')) - 1.
Proof.
  intros Hr Hc Hi Hp H0 Ht1 Hin Hne Ht2 Hst.
  pose proof (shm_ok_maps _ (ready_shm _ Hr)) as Hms. pose proof (maps_tids _ Hms _ _ Hi) as Hin1.
  destruct (co_used _ Hc i m Hi) as (u & Hu & Hl); [congruence|]. simplify_eq.
  assert (Hf : find_index (λ x, m_pid x =? m_pid m) (pid_mappings (shm s)) = Some i).
  { apply (find_index_unique _ _ _ m); [done|apply Z.eqb_refl|].
    intros j y Hj Hy%Z.eqb_eq. by apply (maps_unique _ Hms j i y m); congruence. }
  destruct (bind_scan_found (m_pid m) _ 0 (-1) i Hf) as [e Hscan]. rw Z.add_0_l in Hscan.
  destruct (bind_again s Hr tid2 t2 Hin Ht2 (m_pid m) i e Hst Hscan) as (s' & Hrun & Hs).
  destruct Hs as [_ _ _ [Hts Hmaps _ _]]. cbn in Hts, Hmaps.
  pose proof (co_procs _ Hc _ _ Ht1 Hl) as Hp1.
  assert (Hl2 : is_live t2 = true) by (apply live_of; congruence).
  pose proof (co_procs _ Hc _ _ Ht2 Hl2) as Hp2.
  rw Z2Nat.id in Hp1; [lia|]. rw Z2Nat.id in Hp2; [lia|].
  exists s', t1, (t2 <| last_active_at := clock s 1%nat |>).
  rw Hts Hmaps !(bound_insert _ _ _ _ _ Hi).
  split_and!; [done| | | |]; cbn -[Z.eqb].
  - rw list_lookup_insert_ne //. lia.
  - apply list_lookup_insert_eq. by eapply lookup_lt_Some.
  - rw Z.eqb_refl (proj2 (Z.eqb_neq _ _) Hne). cbn. lia.
  - rw Z.eqb_refl (proj2 (Z.eqb_neq (m_tenant_id m) tid2)) //. cbn. lia.
Qed.

Lemma rebind_leaves_counts_witness :
  let s0 := fresh (λ _, 9) in
  let s := after s0 ((tenant_create 3 None None;; tenant_create 4 None None;;
                      tenant_bind_process 77 3) s0) in
  ∃ s' t2', tenant_bind_process 77 4 s = Ret 0 s' ∧
    tenants (shm s') !! 4%nat = Some t2' ∧
    process_count t2' = bound 4 (pid_mappings (shm s')) - 1.
Proof.
  intros s0 s.
  set (s1 := after s0 (tenant_create 3 None None s0)).
  set (s2 := after s1 (tenant_create 4 None None s1)).
  assert (H1 : disciplined_step s0 s1).
  { apply (disciplined_call (Create 3 None None) 0); [cbn; lia|exact I|reflexivity]. }
  assert (H2 : disciplined_step s1 s2).
  { apply (disciplined_call (Create 4 None None) 0); [cbn; lia|exact I|vm_compute; reflexivity]. }
  assert (H3 : disciplined_step s2 s).
  { apply (disciplined_call (Bind 77 3) 0); [cbn; lia|split; [lia|]|vm_compute; reflexivity].
    intros i m Hi Hm. change (pid_mappings (shm s2)) with
      (replicate (Z.to_nat MAX_PROCESSES) mapping_zero) in Hi.
    apply lookup_replicate in Hi as [-> _]. cbn in Hm. lia. }
  destruct (disciplined_steps s0 s) as [Hr Hc];
    [by repeat (econstructor; [eassumption|]); constructor|apply fresh_ready|apply shm_zero_counts|].
  edestruct (λ m t1, rebind_leaves_counts s 77 0%nat m t1 4) as (s' & t1' & t2' & Hrun & _ & Ht2 & _ & Hp2).
  - exact Hr.
  - exact Hc.
  - vm_compute. reflexivity.
  - reflexivity.
  - lia.
  - vm_compute. reflexivity.
  - split; [lia|reflexivity].
  - cbn. lia.
  - vm_compute. reflexivity.
  - reflexivity.
  - exists s', t2'. split; [exact Hrun|]. split; [exact Ht2|exact Hp2].
Defined.

(** Making a tenant inactive through [tenant_set_status] is not a deletion:
    [active_tenant_count] still counts it, its pids stay bound to it, and the id
    can be created again at once, counting the same slot twice. *)
Theorem set_inactive_leaves_books s tid t name q :
  ready s → counts_ok (shm s) → 0 ≤ tid < MAX_TENANTS →
  tenants (shm s) !! Z.to_nat tid = Some t → status t ≠ TENANT_STATUS_INACTIVE →
  ∃ s1 s2, tenant_set_status tid TENANT_STATUS_INACTIVE s = Ret 0 s1 ∧
    active_tenant_count (shm s1) = countb is_live (tenants (shm s1)) + 1 ∧
    pid_mappings (shm s1) = pid_mappings (shm s) ∧
    tenant_create tid name q s1 = Ret 0 s2 ∧
    active_tenant_count (shm s2) = countb is_live (tenants (shm s2)) + 1 ∧
    pid_mappings (shm s2) = pid_mappings (shm s).
Proof.
  intros Hr Hc Hin Ht Hst. pose proof (ready_shm s Hr) as Hd.
  destruct (live_tenant s Hr tid t Hin Ht Hst) as [Hne _].
  destruct (set_status_ok s Hr tid t Hin Ht TENANT_STATUS_INACTIVE Hst) as (s1 & Hrun1 & Hs1).
  destruct (status_ready s Hr tid TENANT_STATUS_INACTIVE ltac:(lia)) as (r & s1' & Hrun1' & Hr1).
  rw Hrun1 in Hrun1'. injection Hrun1' as <- <-.
  destruct Hs1 as [_ _ _ [Hts1 Hm1 Ha1 _]]. cbn in Hts1, Hm1, Ha1.
  assert (Hl1 : tenants (shm s1) !! Z.to_nat tid = Some (t <| status := TENANT_STATUS_INACTIVE |>
      <| last_active_at := clock s 0%nat |>)).
  { rw Hts1. apply list_lookup_insert_eq. by eapply lookup_lt_Some. }
  destruct (create_new s1 Hr1 tid _ Hin Hl1 name q Hne eq_refl) as (s2 & Hrun2 & Hs2).
  destruct Hs2 as [_ _ _ [Hts2 Hm2 Ha2 _]]. cbn in Hts2, Hm2, Ha2.
  destruct (counts_room _ Hd Hc) as (Hact & _ & _ & _ & Hact0).
  pose proof (co_active _ Hc) as Hca.
  assert (Hc1 : countb is_live (tenants (shm s1)) = active_tenant_count (shm s) - 1).
  { rw Hts1 (countb_insert _ _ _ t _ Ht) (live_of t Hst) -Hca not_live //. cbn. lia. }
  exists s1, s2. split_and!; [done|lia|done|done| |by rw Hm2].
  rw Hts2 (countb_insert _ _ _ _ _ Hl1) not_live // live_of // Hc1 Ha2 Ha1 u32_small.
  - unfold is_u32, MAX_TENANTS in *. lia.
  - cbn. lia.
Qed.

Lemma set_inactive_leaves_books_witness :
  let s0 := fresh (λ _, 9) in
  let s := after s0 (tenant_create 3 None None s0) in
  ∃ s1, tenant_set_status 3 TENANT_STATUS_INACTIVE s = Ret 0 s1 ∧
    active_tenant_count (shm s1) = countb is_live (tenants (shm s1)) + 1.
Proof.
  intros s0 s. destruct (disciplined_steps s0 s) as [Hr Hc].
  - apply rtc_once. apply (disciplined_call (Create 3 None None) 0); [cbn; lia|exact I|reflexivity].
  - apply fresh_ready.
  - apply shm_zero_counts.
  - edestruct (λ t, set_inactive_leaves_books s 3 t None None Hr Hc) as (s1 & s2 & H1 & H2 & _);
      [split; [lia|reflexivity]|vm_compute; reflexivity|discriminate|].
    exists s1. exact (conj H1 H2).
Defined.

(** Pid 0 marks a free slot, and [tenant_bind_process] does not reject it:
    it takes the first free slot for a slot that already holds the pid, so the
    mapping is stored but not counted.  Deleting the tenant then counts it down:
    [total_process_count] ends one below the number of bound pids, and wraps
    around to [UINT32_MAX] when no other process is bound. *)
Theorem bind_pid_zero_miscounts s tid t i m :
  ready s → counts_ok (shm s) → 0 ≤ tid < MAX_TENANTS →
  tenants (shm s) !! Z.to_nat tid = Some t → status t = TENANT_STATUS_ACTIVE →
  find_index (λ m, m_pid m =? 0) (pid_mappings (shm s)) = Some i →
  pid_mappings (shm s) !! i = Some m →
  ∃ s1 s2, tenant_bind_process 0 tid s = Ret 0 s1 ∧
    total_process_count (shm s1) = total_process_count (shm s) ∧
    tenant_delete tid s1 = Ret 0 s2 ∧
    total_process_count (shm s2) =
      u32 (slots_used m_pid (pid_mappings (shm s2)) - 1).
Proof.
  intros Hr Hc Hin Ht Hst Hf Hi. pose proof (ready_shm s Hr) as Hd.
  pose proof (shm_ok_maps _ Hd) as Hms.
  destruct (find_index_Some _ _ _ Hf) as (x & Hx & Hx0%Z.eqb_eq & _). simplify_eq.
  pose proof (co_free _ Hc i m Hi Hx0) as Hxt.
  assert (Hl : status t ≠ TENANT_STATUS_INACTIVE) by congruence.
  destruct (live_tenant s Hr tid t Hin Ht Hl) as [Hne _].
  destruct (bind_scan_found 0 _ 0 (-1) i Hf) as [e Hscan]. rw Z.add_0_l in Hscan.
  destruct (bind_again s Hr tid t Hin Ht 0 i e Hst Hscan) as (s1 & Hrun1 & Hs1).
  destruct (bind_ready s Hr 0 tid ltac:(lia)) as (r & s1' & Hrun1' & Hr1).
  rw Hrun1 in Hrun1'. injection Hrun1' as <- <-.
  destruct Hs1 as [_ _ _ [Hts1 Hm1 _ Hn1]]. cbn in Hts1, Hm1, Hn1.
  assert (Hl1 : tenants (shm s1) !! Z.to_nat tid =
      Some (t <| last_active_at := clock s 1%nat |>)).
  { rw Hts1. apply list_lookup_insert_eq. by eapply lookup_lt_Some. }
  pose proof (unmap_all_spec tid (pid_mappings (shm s1)) _ (ok_total _ (ready_shm _ Hr1))) as Hun.
  destruct (delete_ok s1 Hr1 tid _ Hin Hl1 _ _ Hne Hl Hun) as (s2 & Hrun2 & Hs2).
  destruct Hs2 as [_ _ _ [_ Hm2 _ Hn2]]. cbn in Hm2, Hn2.
  exists s1, s2. split_and!; [done..|].
  rw Hn2 Hm2 -/(bound tid _) Hn1 Hm1.
  assert (Hmap : (λ m, if m_tenant_id m =? tid then unmap m else m) <$>
      <[i := mk_mapping 0 tid (clock s 0%nat)]> (pid_mappings (shm s)) =
    <[i := mk_mapping 0 0 (clock s 0%nat)]>
      ((λ m, if m_tenant_id m =? tid then unmap m else m) <$> pid_mappings (shm s))).
  { rw list_fmap_insert. cbn -[Z.eqb]. by rw Z.eqb_refl. }
  assert (Hi' : ((λ m, if m_tenant_id m =? tid then unmap m else m) <$> pid_mappings (shm s)) !! i
    = Some m).
  { rw list_lookup_fmap Hi. cbn -[Z.eqb]. by rw Hxt (proj2 (Z.eqb_neq 0 tid)). }
  rw Hmap (used_insert _ _ _ _ Hi') (bound_insert _ _ _ _ _ Hi) used_unmap.
  { intros j y Hj Hy. eapply (named_used _ Hc j y Hj). lia. }
  cbn -[Z.eqb]. rw Hx0 Hxt Z.eqb_refl (proj2 (Z.eqb_neq 0 tid)) // (co_total _ Hc). cbn.
  f_equal. lia.
Qed.

Lemma bind_pid_zero_miscounts_witness :
  let s0 := fresh (λ _, 9) in
  let s := after s0 (tenant_create 3 None None s0) in
  ∃ s1 s2, tenant_bind_process 0 3 s = Ret 0 s1 ∧ tenant_delete 3 s1 = Ret 0 s2 ∧
    total_process_count (shm s2) = u32 (slots_used m_pid (pid_mappings (shm s2)) - 1).
Proof.
  intros s0 s. destruct (disciplined_steps s0 s) as [Hr Hc].
  - apply rtc_once. apply (disciplined_call (Create 3 None None) 0); [cbn; lia|exact I|reflexivity].
  - apply fresh_ready.
  - apply shm_zero_counts.
  - edestruct (λ t m, bind_pid_zero_miscounts s 3 t 0%nat m Hr Hc) as (s1 & s2 & H1 & _ & H2 & H3);
      [split; [lia|reflexivity]|vm_compute; reflexivity|reflexivity|vm_compute; reflexivity
      |vm_compute; reflexivity|].
    exists s1, s2. exact (conj H1 (conj H2 H3)).
Defined.

End TenantBooks.
