(* ===== verification/JsonC.v ===== *)
(** * The JSON library

    The tenant manager daemon and its client build, print and parse JSON with
    json-c, which is not in the repository.  Its operations are a class, over a
    type [J] of values in which [NULL] is both the null pointer and the JSON value
    null; its laws are what json-c documents for values built by the constructors.
    A concrete instance shows that the laws can hold. *)

From S2P Require Import Prelude CString.
From stdpp Require Import countable.
#[local] Open Scope Z_scope.

Class JsonC (J : Type) := {
  NULL : J;
  is_null : J → bool;
  json_tokener_parse : string → J;                  (* NULL: not JSON, or "null" *)
  json_object_to_json_string : J → string;
  json_object_new_object : J;
  json_object_new_array : J;
  json_object_new_int : Z → J;                      (* of an int32_t *)
  json_object_new_int64 : Z → J;                    (* of an int64_t *)
  json_object_new_string : string → J;
  json_object_new_boolean : Z → J;
  json_object_object_add : J → string → J → J;
  json_object_array_add : J → J → J;
  json_object_object_get_ex : J → string → option J;  (* None: returns false *)
  json_object_get_int : J → Z;
  json_object_get_int64 : J → Z;
  json_object_get_string : J → option string;       (* None: NULL *)
  json_object_get_boolean : J → Z;
  json_is_object : J → bool;                        (* json_type_object *)
  json_elements : J → option (list J);              (* the elements of a json_type_array *)
}.

Section Build.
Context {J : Type} `{!JsonC J}.

(** An object built by successive [json_object_object_add], and an array built by
    successive [json_object_array_add]. *)
Definition json_obj (kvs : list (string * J)) : J :=
  foldl (λ o kv, json_object_object_add o (fst kv) (snd kv)) json_object_new_object kvs.
Definition json_arr (js : list J) : J := foldl json_object_array_add json_object_new_array js.
End Build.

(** The value of the first field with a key. *)
Fixpoint assoc {A} (k : string) (kvs : list (string * A)) : option A :=
  match kvs with
  | [] => None
  | (k', v) :: kvs' => if String.eqb k' k then Some v else assoc k kvs'
  end.

(** No key twice, by computation on the keys. *)
Definition distinct {A} (kvs : list (string * A)) : bool := bool_decide (NoDup kvs.*1).

(** Values built by the constructors, with at most [n] objects and arrays inside each
    other. *)
Section Nested.
Context {J : Type} `{!JsonC J}.

Definition scalar (j : J) : Prop :=
  (∃ z, is_i32 z ∧ j = json_object_new_int z) ∨
  (∃ z, - 2 ^ 63 ≤ z < 2 ^ 63 ∧ j = json_object_new_int64 z) ∨
  (∃ s, j = json_object_new_string s) ∨ ∃ z, j = json_object_new_boolean z.

Fixpoint nested (n : nat) (j : J) : Prop :=
  scalar j ∨
  match n with
  | O => False
  | S n' =>
      (∃ kvs, distinct kvs = true ∧ j = json_obj kvs ∧ Forall (λ kv, nested n' (snd kv)) kvs) ∨
      ∃ js, j = json_arr js ∧ Forall (nested n') js
  end.

Lemma nested_scalar n j : scalar j → nested n j.
Proof. destruct n; by left. Qed.

Lemma nested_int n z : is_i32 z → nested n (json_object_new_int z).
Proof. intros Hz. apply nested_scalar. left. by exists z. Qed.

Lemma nested_int64 n z : - 2 ^ 63 ≤ z < 2 ^ 63 → nested n (json_object_new_int64 z).
Proof. intros Hz. apply nested_scalar. right. left. by exists z. Qed.

Lemma nested_string n s : nested n (json_object_new_string s).
Proof. apply nested_scalar. do 2 right. left. by exists s. Qed.

Lemma nested_boolean n z : nested n (json_object_new_boolean z).
Proof. apply nested_scalar. do 3 right. by exists z. Qed.

Lemma nested_obj n kvs :
  distinct kvs = true → Forall (λ kv, nested n (snd kv)) kvs → nested (S n) (json_obj kvs).
Proof. intros Hd Hv. right. left. by exists kvs. Qed.
End Nested.

(** The parser gives up on values nested more deeply than 32 levels. *)
Definition PARSED_DEPTH : nat := 30.

(** Documented behaviour; a printed value may be followed by a newline. *)
Class JsonLaws (J : Type) `{!JsonC J} : Prop := {
  json_parse_print j t : nested PARSED_DEPTH j → is_null j = false → t = EmptyString ∨ t = newline →
    json_tokener_parse (json_object_to_json_string j +:+ t) = j;
  json_get_obj (kvs : list (string * J)) k :
    distinct kvs = true → json_object_object_get_ex (json_obj kvs) k = assoc k kvs;
  json_get_null k : json_object_object_get_ex NULL k = None;
  json_obj_object (kvs : list (string * J)) : json_is_object (json_obj kvs) = true;
  json_obj_elements (kvs : list (string * J)) : json_elements (json_obj kvs) = None;
  json_obj_not_null (kvs : list (string * J)) : is_null (json_obj kvs) = false;
  json_arr_elements (js : list J) : json_elements (json_arr js) = Some js;
  json_arr_object (js : list J) : json_is_object (json_arr js) = false;
  json_null_object : json_is_object NULL = false;
  json_int (z : Z) : is_i32 z → json_object_get_int (json_object_new_int z) = z;
  json_int64 (z : Z) : - 2 ^ 63 ≤ z < 2 ^ 63 → json_object_get_int64 (json_object_new_int64 z) = z;
  json_string s : json_object_get_string (json_object_new_string s) = Some s;
  json_string_null : json_object_get_string NULL = None;
  json_boolean (z : Z) : json_object_get_boolean (json_object_new_boolean z) = (if z =? 0 then 0 else 1);
  json_null : is_null NULL = true;
  json_null_only j : is_null j = true → j = NULL;
}.

(** ** An instance

    Values as labelled trees; the text of a value is the decimal numeral of its
    code. *)
Module JsonTree.

Definition json : Type := gen_tree (Z + string).

Definition Null : json := GenNode 0 [].
Definition Int (z : Z) : json := GenLeaf (inl z).
Definition Str (s : string) : json := GenLeaf (inr s).

(** The fields of an object are nodes with the key and the value. *)
Definition Obj (fields : list json) : json := GenNode 1 fields.
Definition Arr (js : list json) : json := GenNode 2 js.
Definition Field (k : string) (j : json) : json := GenNode 3 [Str k; j].

Definition key_is (k : string) (f : json) : bool :=
  match f with GenNode 3 [GenLeaf (inr s); _] => String.eqb s k | _ => false end.
Definition field_value (f : json) : option json :=
  match f with GenNode 3 [_; j] => Some j | _ => None end.

Definition get_field (o : json) (k : string) : option json :=
  match o with
  | GenNode 1 fs => i ← find_index (key_is k) fs; f ← fs !! i; field_value f
  | _ => None
  end.

#[export] Instance json_tree : JsonC json := {
  NULL := Null;
  is_null j := bool_decide (j = Null);
  json_tokener_parse s := default Null (decode (Z.to_pos (digits 0 s)));
  json_object_to_json_string j := print_dec (Z.pos (encode j));
  json_object_new_object := Obj [];
  json_object_new_array := Arr [];
  json_object_new_int := Int;
  json_object_new_int64 := Int;
  json_object_new_string := Str;
  json_object_new_boolean z := Int (if z =? 0 then 0 else 1);
  json_object_object_add o k j :=
    match o with
    | GenNode 1 fs =>
        match find_index (key_is k) fs with
        | Some i => Obj (<[i := Field k j]> fs)
        | None => Obj (fs ++ [Field k j])
        end
    | _ => o
    end;
  json_object_array_add a j := match a with GenNode 2 js => Arr (js ++ [j]) | _ => a end;
  json_object_object_get_ex := get_field;
  json_object_get_int j := match j with GenLeaf (inl z) => z | _ => 0 end;
  json_object_get_int64 j := match j with GenLeaf (inl z) => z | _ => 0 end;
  json_object_get_string j := match j with GenLeaf (inr s) => Some s | _ => None end;
  json_object_get_boolean j := match j with GenLeaf (inl z) => z | _ => 0 end;
  json_is_object j := match j with GenNode 1 _ => true | _ => false end;
  json_elements j := match j with GenNode 2 js => Some js | _ => None end;
}.

Lemma find_field_app (k : string) fs (kvs : list (string * json)) :
  (∀ i f, fs !! i = Some f → key_is k f = false) →
  find_index (key_is k) (fs ++ ((λ kv, Field (fst kv) (snd kv)) <$> kvs)) =
    (λ i, length fs + i)%nat <$> find_index (λ kv, String.eqb (fst kv) k) kvs.
Proof.
  intros Hfs. induction fs as [|f fs IH]; cbn.
  - clear Hfs. rw option_fmap_id. induction kvs as [|kv kvs IH]; cbn; [done|].
    destruct (String.eqb (fst kv) k); [done|]. by rw IH.
  - rw (Hfs 0%nat f eq_refl) IH; [intros i g Hg; by apply (Hfs (S i))|].
    by destruct (find_index _ kvs).
Qed.

(** Adding fields with new keys appends them. *)
Lemma obj_fields (kvs : list (string * json)) :
  NoDup kvs.*1 → json_obj kvs = Obj ((λ kv, Field (fst kv) (snd kv)) <$> kvs).
Proof.
  intros Hnd. unfold json_obj. induction kvs as [|[k j] kvs IH] using rev_ind; [done|].
  rw fmap_app in Hnd. apply list.NoDup_app in Hnd as (Hnd & Hnew & _).
  rw foldl_app fmap_app (IH Hnd). cbn.
  rw (find_field_app k []); [done|].
  destruct (find_index (λ kv, String.eqb (fst kv) k) kvs) as [i|] eqn:Hf; [|done].
  destruct (find_index_Some _ _ _ Hf) as (kv & Hi & Hk%String.eqb_eq & _).
  exfalso. apply (Hnew k); [|by apply list_elem_of_singleton].
  rw -Hk. apply list_elem_of_fmap. exists kv. split; [done|]. by eapply list_elem_of_lookup_2.
Qed.

Lemma obj_always (kvs : list (string * json)) : ∃ fs, json_obj kvs = Obj fs.
Proof.
  unfold json_obj. induction kvs as [|[k j] kvs IH] using rev_ind; [by eexists|].
  rw foldl_app. destruct IH as [fs ->]. cbn. destruct (find_index _ _); by eexists.
Qed.

Lemma arr_always (js : list json) : json_arr js = Arr js.
Proof.
  unfold json_arr. induction js as [|j js IH] using rev_ind; [done|].
  by rw foldl_app IH.
Qed.

#[export] Instance json_tree_laws : JsonLaws json.
Proof.
  split.
  - intros j t _ _ Ht.
    change (default Null (decode (Z.to_pos (digits 0 (print_dec (Z.pos (encode j)) +:+ t)))) = j).
    destruct (print_dec_digits (Z.pos (encode j)) t) as [-> _]; [done|by destruct Ht as [->| ->]|].
    cbn. by rw decode_encode.
  - intros kvs k Hnd%bool_decide_eq_true. rw (obj_fields kvs Hnd). cbn.
    rw (find_field_app k []); [done|]. clear Hnd. rw option_fmap_id.
    induction kvs as [|[k' j] kvs IH]; [done|]. cbn [fst find_index assoc].
    destruct (String.eqb_spec k' k) as [->|Hne]; [done|]. rw -IH. by destruct (find_index _ kvs).
  - done.
  - intros kvs. by destruct (obj_always kvs) as [fs ->].
  - intros kvs. by destruct (obj_always kvs) as [fs ->].
  - intros kvs. destruct (obj_always kvs) as [fs ->]. by apply bool_decide_eq_false.
  - intros js. by rw arr_always.
  - intros js. by rw arr_always.
  - done.
  - done.
  - done.
  - done.
  - done.
  - intros z. cbn. by destruct (z =? 0).
  - by apply bool_decide_eq_true.
  - intros j Hj. by apply bool_decide_eq_true in Hj.
Qed.
End JsonTree.
