(* ===== verification/TenantDaemon.v ===== *)
(** * The tenant manager daemon ([src/tenant_manager_daemon.c])

    The daemon answers JSON commands with the calls of [ShmTenant].  JSON values
    are of any type with the operations of [JsonC].  Connections come one after
    the other as events of the main loop, with what one [recv] returns and what becomes of
    the two [send]s of the answer. *)

From S2P Require Import Prelude CString JsonC ShmTenant.

Module Daemon.
#[local] Existing Instances Tenant.expand_state Tenant.expand_shm Tenant.tenant_status_eq_dec.

Definition BUFFER_SIZE : Z := 4096.
Definition SIGINT : Z := 2.
Definition SIGTERM : Z := 15.

(** What the operating system answers at start-up. *)
Record os_answers := mk_os {
  os_daemon : Z;        (* daemon (0, 0) *)
  os_pid_file : bool;   (* fopen (PID_FILE, "w") succeeds *)
  os_socket : Z;
  os_bind : Z;
  os_listen : Z;
}.

(** The statics, the tenant store, the readings of [CLOCK_MONOTONIC] as
    (seconds, nanoseconds), whether the pid file and the socket file exist, and
    what was sent to the clients, piece by piece. *)
Record daemon := mk_daemon {
  running : Z;
  server_fd : Z;
  store : Tenant.state;
  monotonic : nat → Z * Z;
  os : os_answers;
  pid_file : bool;
  socket_file : bool;
  sent : list string;
}.
#[export] Instance expand_daemon : Expand daemon := λ r,
  mk_daemon (running r) (server_fd r) (store r) (monotonic r) (os r) (pid_file r)
    (socket_file r) (sent r).

(** [tv_sec * 1000000000ULL + tv_nsec] of [clock_gettime]. *)
Definition monotonic_ns : M daemon Z := λ s,
  let '(tv_sec, tv_nsec) := monotonic s 0%nat in
  Ret (u64 (u64 (tv_sec * 1000000000) + tv_nsec)) (s <| monotonic := λ n, monotonic s (S n) |>).

Definition status_code (st : Tenant.tenant_status) : Z :=
  match st with
  | Tenant.TENANT_STATUS_INACTIVE => 0
  | Tenant.TENANT_STATUS_ACTIVE => 1
  | Tenant.TENANT_STATUS_SUSPENDED => 2
  end.

Section Commands.
Context {J : Type} `{!JsonC J}.

(** ** Answers *)

(** [data]: [None] is the null pointer. *)
Definition build_response (success : Z) (message : string) (data : option J) : string :=
  json_object_to_json_string (json_obj
    ([("success", json_object_new_boolean success);
      ("message", json_object_new_string message)] ++
     match data with Some d => [("data", d)] | None => [] end)).

(** The figures of a tenant that [LIST_TENANTS], [STATUS] of all, and [STATUS] of
    one tenant report. *)
Definition json_u32 (z : Z) : J := json_object_new_int (i32 z).
Definition json_u64 (z : Z) : J := json_object_new_int64 (i64 z).

Definition identity_json (t : Tenant.tenant_info_t) : list (string * J) :=
  [("id", json_u32 (Tenant.tenant_id t));
   ("name", json_object_new_string (Tenant.tenant_name t))].
Definition counts_json (t : Tenant.tenant_info_t) : list (string * J) :=
  [("qp_used", json_u32 (Tenant.qp_count (Tenant.usage t)));
   ("qp_limit", json_u32 (Tenant.max_qp_per_tenant (Tenant.quota t)));
   ("mr_used", json_u32 (Tenant.mr_count (Tenant.usage t)));
   ("mr_limit", json_u32 (Tenant.max_mr_per_tenant (Tenant.quota t)))].
Definition memory_json (t : Tenant.tenant_info_t) : list (string * J) :=
  [("memory_used", json_u64 (Tenant.memory_used (Tenant.usage t)));
   ("memory_limit", json_u64 (Tenant.max_memory_per_tenant (Tenant.quota t)))].
Definition state_json (t : Tenant.tenant_info_t) : list (string * J) :=
  [("status", json_object_new_int (status_code (Tenant.status t)))].
Definition totals_json (t : Tenant.tenant_info_t) : list (string * J) :=
  [("total_qp_creates", json_u64 (Tenant.total_qp_creates (Tenant.usage t)));
   ("total_mr_regs", json_u64 (Tenant.total_mr_regs (Tenant.usage t)))].

(** The loops over the tenants that are not inactive, read without the lock. *)
Definition known_tenants (s : daemon) : list Tenant.tenant_info_t :=
  if Tenant.g_tenant_shm (store s)
  then filter (λ t, Tenant.status t ≠ Tenant.TENANT_STATUS_INACTIVE)
         (Tenant.tenants (Tenant.shm (store s)))
  else [].

(** ** Fields of a command *)

Definition get_ex (cmd : J) (k : string) : option J := json_object_object_get_ex cmd k.
Definition int_field (cmd : J) (k : string) (missing : Z) : Z :=
  match get_ex cmd k with Some j => json_object_get_int j | None => missing end.
Definition memory_field (cmd : J) : Z :=
  match get_ex cmd "memory" with Some j => u64 (json_object_get_int64 j) | None => 1073741824 end.

(** The quota of [UPDATE_QUOTA] and [CREATE]: the signed numbers of the command
    are stored into unsigned fields. *)
Definition quota_of (qp mr mem : Z) : Tenant.tenant_quota_t :=
  Tenant.mk_quota (u32 qp) (u32 mr) mem (u32 qp) 10.

(** ** Handlers *)

Definition handle_update_quota (cmd_obj : J) : M daemon string :=
  match get_ex cmd_obj "tenant", get_ex cmd_obj "qp" with
  | Some tenant_obj, Some qp_obj =>
      let tenant_id := u32 (json_object_get_int tenant_obj) in
      let qp := json_object_get_int qp_obj in
      let mr := int_field cmd_obj "mr" qp in
      r ← zoom store (Tenant.tenant_update_quota tenant_id (Some (quota_of qp mr (memory_field cmd_obj))));
      if negb (r =? 0) then mret (build_response 0 "Failed to update quota" None) else
      ptr ← zoom store Tenant.tenant_shm_get_ptr;
      (if ptr : bool then
         now ← monotonic_ns;
         zoom store (Tenant.store (λ d, d <| Tenant.last_update_time := now |>
                                          <| Tenant.version ::= λ v, u64 (v + 1) |>))
       else mret tt);;
      mret (build_response 1 ("Quota updated for tenant " +:+ print_dec tenant_id) None)
  | _, _ => mret (build_response 0 "Missing required fields: tenant, qp" None)
  end.

Definition handle_create (cmd_obj : J) : M daemon string :=
  match get_ex cmd_obj "tenant" with
  | None => mret (build_response 0 "Missing required field: tenant" None)
  | Some tenant_obj =>
      let tenant_id := u32 (json_object_get_int tenant_obj) in
      let name :=
        match get_ex cmd_obj "name" with
        | Some j => json_object_get_string j
        | None => Some "unnamed"
        end in
      let qp := int_field cmd_obj "qp" 100 in
      let mr := int_field cmd_obj "mr" 100 in
      r ← zoom store (Tenant.tenant_create tenant_id name (Some (quota_of qp mr (memory_field cmd_obj))));
      if negb (r =? 0) then mret (build_response 0 "Failed to create tenant" None) else
      mret (build_response 1 ("Tenant " +:+ print_dec tenant_id +:+ " created") None)
  end.

Definition handle_delete (cmd_obj : J) : M daemon string :=
  match get_ex cmd_obj "tenant" with
  | None => mret (build_response 0 "Missing required field: tenant" None)
  | Some tenant_obj =>
      let tenant_id := u32 (json_object_get_int tenant_obj) in
      r ← zoom store (Tenant.tenant_delete tenant_id);
      if negb (r =? 0) then mret (build_response 0 "Failed to delete tenant" None) else
      mret (build_response 1 ("Tenant " +:+ print_dec tenant_id +:+ " deleted") None)
  end.

Definition handle_status (cmd_obj : J) : M daemon string :=
  match get_ex cmd_obj "tenant" with
  | None =>
      zoom store Tenant.tenant_shm_get_ptr;;
      s ← get;
      let each t := json_obj (identity_json t ++ state_json t ++ counts_json t ++ memory_json t) in
      mret (build_response 1 "All tenants status" (Some (json_arr (each <$> known_tenants s))))
  | Some tenant_obj =>
      let tenant_id := u32 (json_object_get_int tenant_obj) in
      r ← zoom store (Tenant.tenant_get_info tenant_id (Some Tenant.info_zero));
      match r with
      | (0, Some info) =>
          mret (build_response 1 "Tenant status" (Some (json_obj
            (identity_json info ++ state_json info ++ counts_json info ++ memory_json info ++
             totals_json info))))
      | _ => mret (build_response 0 "Tenant not found" None)
      end
  end.

Definition handle_list_tenants : M daemon string :=
  ptr ← zoom store Tenant.tenant_shm_get_ptr;
  s ← get;
  let tenants_array := (λ t, json_obj (identity_json t ++ counts_json t)) <$> known_tenants s in
  let version := if ptr : bool then Tenant.version (Tenant.shm (store s)) else 0 in
  mret (build_response 1 "Tenant list" (Some (json_obj
    [("count", json_u32 (Z.of_nat (length tenants_array)));
     ("version", json_u64 version);
     ("tenants", json_arr tenants_array)]))).

(** [strcmp] of a null pointer is undefined: a command that is null. *)
Definition process_command (json_str : string) : M daemon string :=
  let cmd_obj := json_tokener_parse json_str in
  if is_null cmd_obj then mret (build_response 0 "Invalid JSON" None) else
  match get_ex cmd_obj "cmd" with
  | None => mret (build_response 0 "Missing 'cmd' field" None)
  | Some cmd_type_obj =>
      match json_object_get_string cmd_type_obj with
      | None => crash
      | Some cmd =>
          if String.eqb cmd "UPDATE_QUOTA" then handle_update_quota cmd_obj
          else if String.eqb cmd "CREATE" then handle_create cmd_obj
          else if String.eqb cmd "DELETE" then handle_delete cmd_obj
          else if String.eqb cmd "STATUS" then handle_status cmd_obj
          else if String.eqb cmd "LIST_TENANTS" then handle_list_tenants
          else mret (build_response 0 "Unknown command" None)
      end
  end.

(** ** Connections *)

(** What becomes of a [send] with flags 0.  [Peer_gone]: the client has closed its end, and
    the call raises SIGPIPE, which the program does not handle. *)
Inductive send_result := Sent | Send_fails | Peer_gone.

(** The two calls that answer a command. *)
Record delivery := mk_delivery { of_answer : send_result; of_newline : send_result }.
Definition whole : delivery := mk_delivery Sent Sent.

(** The result says whether the process survives it. *)
Definition send (out : send_result) (text : string) : M daemon bool :=
  match out with
  | Sent => modify (λ s, s <| sent ::= λ l, l ++ [text] |>);; mret true
  | Send_fails => mret true
  | Peer_gone => mret false
  end.

Definition reply (out : delivery) (response : string) : M daemon bool :=
  alive ← send (of_answer out) response;
  if negb alive then mret false else send (of_newline out) newline.

(** [msg]: what the client sent before the call of [recv], at least one byte ([None]: it
    closed the connection, or the call failed). *)
Definition handle_client (msg : option string) (out : delivery) : M daemon bool :=
  match msg with
  | None => mret true
  | Some text =>
      let buffer := String.substring 0 (Z.to_nat (BUFFER_SIZE - 1)) text in
      response ← process_command buffer;
      reply out response
  end.

Definition signal_handler (sig : Z) : M daemon unit :=
  if (sig =? SIGTERM) || (sig =? SIGINT) then
    modify (λ s, s <| running := 0 |> <| server_fd ::= λ fd, if 0 <=? fd then -1 else fd |>)
  else mret tt.

(** What happens between two tests of [running]. *)
Inductive event :=
| Signalled (sig : Z)
| SelectTimeout
| SelectInterrupted
| SelectFailed
| AcceptFailed
| Client (msg : option string) (out : delivery).

(** The result says whether the process is still there. *)
Fixpoint main_loop (evs : list event) : M daemon bool :=
  s ← get;
  if running s =? 0 then mret true else
  match evs with
  | [] => mret true
  | e :: evs' =>
      match e with
      | Signalled sig => signal_handler sig;; main_loop evs'
      | SelectTimeout | SelectInterrupted | AcceptFailed => main_loop evs'
      | SelectFailed => mret true
      | Client msg out =>
          alive ← handle_client msg out;
          if negb alive then mret false else main_loop evs'
      end
  end.

(** ** Start and end *)

Definition cleanup : M daemon unit :=
  modify (λ s, s <| socket_file := false |> <| pid_file := false |>).

Definition write_pid_file : M daemon Z :=
  s ← get;
  if os_pid_file (os s) then modify (λ s, s <| pid_file := true |>);; mret 0 else mret (-1).

Definition create_server_socket : M daemon Z :=
  s ← get;
  let fd := os_socket (os s) in
  if fd <? 0 then mret (-1) else
  modify (λ s, s <| socket_file := false |>);;
  if os_bind (os s) <? 0 then mret (-1) else
  modify (λ s, s <| socket_file := true |>);;
  if os_listen (os s) <? 0 then mret (-1) else
  mret fd.

(** The options before a [--help]; [None]: it was given. *)
Fixpoint parse_options (argv : list string) (daemon_mode foreground : bool) : option (bool * bool) :=
  match argv with
  | [] => Some (daemon_mode, foreground)
  | a :: argv' =>
      if String.eqb a "--daemon" then parse_options argv' true foreground
      else if String.eqb a "--foreground" then parse_options argv' daemon_mode true
      else if String.eqb a "--help" then None
      else parse_options argv' daemon_mode foreground
  end.

(** [Killed]: by SIGPIPE, without the exit handler. *)
Inductive ending := Exit (code : Z) | Killed.

(** [argv] without the program's name; the exit handler runs [cleanup] once it
    has been registered. *)
Definition main (argv : list string) (evs : list event) : M daemon ending :=
  match parse_options argv false false with
  | None => mret (Exit 0)
  | Some (daemon_mode, foreground) =>
      r ← zoom store Tenant.tenant_shm_init;
      if negb (r =? 0) then mret (Exit 1) else
      s ← get;
      let background := daemon_mode && negb foreground in
      if background && negb (os_daemon (os s) =? 0) then mret (Exit 1) else
      w ← (if background then write_pid_file else mret 0);
      if negb (w =? 0) then mret (Exit 1) else
      fd ← create_server_socket;
      modify (λ s, s <| server_fd := fd |>);;
      if fd <? 0 then cleanup;; mret (Exit 1) else
      alive ← main_loop evs;
      if negb alive then mret Killed else
      cleanup;;
      mret (Exit 0)
  end.
End Commands.

End Daemon.
