(* ===== verification/TenantClient.v ===== *)
(** * The tenant manager's command-line client ([src/tenant_manager_client.c])

    It builds one JSON command from its arguments, sends it to the daemon and
    prints the answer.  The other end of the socket is an arbitrary function from
    the text sent to the text received. *)

From S2P Require Import Prelude CString JsonC.

Module TenantClient.

Section Client.
Context {J : Type} `{!JsonC J}.

(** ** Commands.  [argv !! 0] is the program's name. *)

Definition BUFFER_SIZE : Z := 4096.
Definition DEFAULT_MEMORY : Z := 1073741824.

Definition arg (argv : list string) (i : nat) : string := default EmptyString (argv !! i).

Definition tenant_json (text : string) : J := json_object_new_int (i32 (u32 (atoi text))).
Definition memory_json (argv : list string) : J :=
  json_object_new_int64 (i64 (if (5 <? length argv)%nat then u64 (atoll (arg argv 5))
                              else DEFAULT_MEMORY)).

Definition build_create_cmd (argv : list string) : option string :=
  if (length argv <? 5)%nat then None else
  let name := if (6 <? length argv)%nat then arg argv 6 else "unnamed" in
  Some (json_object_to_json_string (json_obj
    [("cmd", json_object_new_string "CREATE");
     ("tenant", tenant_json (arg argv 2));
     ("name", json_object_new_string name);
     ("qp", json_object_new_int (atoi (arg argv 3)));
     ("mr", json_object_new_int (atoi (arg argv 4)));
     ("memory", memory_json argv)])).

Definition build_delete_cmd (argv : list string) : option string :=
  if (length argv <? 3)%nat then None else
  Some (json_object_to_json_string (json_obj
    [("cmd", json_object_new_string "DELETE"); ("tenant", tenant_json (arg argv 2))])).

Definition build_update_cmd (argv : list string) : option string :=
  if (length argv <? 5)%nat then None else
  Some (json_object_to_json_string (json_obj
    [("cmd", json_object_new_string "UPDATE_QUOTA");
     ("tenant", tenant_json (arg argv 2));
     ("qp", json_object_new_int (atoi (arg argv 3)));
     ("mr", json_object_new_int (atoi (arg argv 4)));
     ("memory", memory_json argv)])).

Definition build_status_cmd (argv : list string) : option string :=
  Some (json_object_to_json_string (json_obj
    (("cmd", json_object_new_string "STATUS") ::
     if (2 <? length argv)%nat then [("tenant", tenant_json (arg argv 2))] else []))).

Definition build_list_cmd : option string :=
  Some (json_object_to_json_string (json_obj [("cmd", json_object_new_string "LIST_TENANTS")])).

(** ** Answers *)

Definition get_ex (o : J) (k : string) : option J := json_object_object_get_ex o k.

(** A line that is printed when a field is there. *)
Definition when (o : option J) (line : J → string) : list string :=
  match o with Some j => [line j] | None => [] end.
Definition when2 (a b : option J) (line : J → J → string) : list string :=
  match a, b with Some x, Some y => [line x y] | _, _ => [] end.

(** "%s" of what may be a null pointer, "%d" of an [int], "%lu" of an [int64_t]. *)
Definition print_s (j : J) : string := default "(null)" (json_object_get_string j).
Definition print_d (j : J) : string := print_dec (json_object_get_int j).
Definition print_lu (j : J) : string := print_dec (u64 (json_object_get_int64 j)).
(** "%u" of a [uint32_t] read with [json_object_get_int]. *)
Definition print_u (j : J) : string := print_dec (u32 (json_object_get_int j)).

Definition name_of (t : J) : string :=
  match get_ex t "name" with Some j => print_s j | None => "?" end.
Definition int_of (t : J) (k : string) : string :=
  match get_ex t k with Some j => print_d j | None => "0" end.
(** [json_object_get_int] of the pointer [json_object_object_get_ex] stores, which
    is null when the field is missing. *)
Definition int_or_null (t : J) (k : string) : string :=
  print_d (default NULL (get_ex t k)).

(** An element of an array answer. *)
Definition print_item (item : J) : list string :=
  match get_ex item "id", get_ex item "qp_used" with
  | Some id, Some qp =>
      ["  Tenant " +:+ print_u id +:+ " (" +:+ name_of item +:+ "): QP=" +:+ print_d qp +:+ "/" +:+
       int_or_null item "qp_limit" +:+
       match get_ex item "mr_used" with
       | Some mr => ", MR=" +:+ print_d mr +:+ "/" +:+ int_or_null item "mr_limit"
       | None => ""
       end]
  | _, _ => []
  end.

(** An element of the "tenants" of a list answer. *)
Definition print_tenant (t : J) : list string :=
  match get_ex t "id" with
  | Some id =>
      ["    [" +:+ print_u id +:+ "] " +:+ name_of t +:+ ": QP=" +:+ int_of t "qp_used" +:+ "/" +:+
       int_of t "qp_limit" +:+ ", MR=" +:+ int_of t "mr_used" +:+ "/" +:+ int_of t "mr_limit"]
  | None => []
  end.

Definition status_name (st : Z) : string :=
  if st =? 1 then "ACTIVE" else if st =? 2 then "SUSPENDED" else "INACTIVE".

(** The answer about one tenant. *)
Definition print_status (d : J) : list string :=
  when (get_ex d "id") (λ j, "  Tenant ID: " +:+ print_d j) ++
  when (get_ex d "name") (λ j, "  Name: " +:+ print_s j) ++
  when (get_ex d "status") (λ j, "  Status: " +:+ status_name (json_object_get_int j)) ++
  when2 (get_ex d "qp_used") (get_ex d "qp_limit")
    (λ a b, "  QP: " +:+ print_d a +:+ "/" +:+ print_d b) ++
  when2 (get_ex d "mr_used") (get_ex d "mr_limit")
    (λ a b, "  MR: " +:+ print_d a +:+ "/" +:+ print_d b) ++
  when2 (get_ex d "memory_used") (get_ex d "memory_limit")
    (λ a b, "  Memory: " +:+ print_lu a +:+ "/" +:+ print_lu b +:+ " bytes") ++
  when (get_ex d "total_qp_creates") (λ j, "  Total QP creates: " +:+ print_lu j) ++
  when (get_ex d "total_mr_regs") (λ j, "  Total MR registers: " +:+ print_lu j).

Definition print_data (d : J) : list string :=
  match json_elements d with
  | Some items => concat (print_item <$> items)
  | None =>
      if json_is_object d then
        when (get_ex d "count") (λ j, "  Active tenants: " +:+ print_d j) ++
        when (get_ex d "version") (λ j, "  Policy version: " +:+ print_lu j) ++
        match get_ex d "tenants" ≫= json_elements with
        | Some ts => "  Tenants:" :: concat (print_tenant <$> ts)
        | None => print_status d
        end
      else []
  end.

(** The lines [print_response] writes (blank lines left out). *)
Definition print_response (response : string) : list string :=
  let obj := json_tokener_parse response in
  if is_null obj then ["Response: " +:+ response] else
  when (get_ex obj "success")
    (λ j, if negb (json_object_get_boolean j =? 0) then "Success" else "Failed") ++
  when (get_ex obj "message") (λ j, "Message: " +:+ print_s j) ++
  match get_ex obj "data" with
  | Some d => "Data:" :: print_data d
  | None => []
  end.

(** ** The program *)

(** The command [main] builds: [None] for an unknown one, [Some None] when
    arguments are missing. *)
Definition command_of (argv : list string) : option (option string) :=
  let a := arg argv 1 in
  if String.eqb a "create" then Some (build_create_cmd argv)
  else if String.eqb a "delete" then Some (build_delete_cmd argv)
  else if String.eqb a "update" || String.eqb a "set-quota" then Some (build_update_cmd argv)
  else if String.eqb a "status" then Some (build_status_cmd argv)
  else if String.eqb a "list" then Some build_list_cmd
  else None.

(** [exchange] is the other end: [None] when it cannot be reached or closes the
    connection without an answer; the first [BUFFER_SIZE - 1] bytes are read. *)
Definition send_command {Srv} (exchange : string → Srv → option string * Srv) (cmd : string) (w : Srv) :
    option string * Srv :=
  let '(r, w') := exchange cmd w in (String.substring 0 (Z.to_nat (BUFFER_SIZE - 1)) <$> r, w').

(** The exit code, what is printed of the answer, and the other end. *)
Definition main {Srv} (exchange : string → Srv → option string * Srv) (argv : list string) (w : Srv) :
    Z * list string * Srv :=
  if (length argv <? 2)%nat then (1, [], w) else
  match command_of argv with
  | None | Some None => (1, [], w)
  | Some (Some cmd) =>
      match send_command exchange cmd w with
      | (None, w') => (1, [], w')
      | (Some response, w') => (0, print_response response, w')
      end
  end.
End Client.

End TenantClient.
