(* ===== verification/TenantRequests.v ===== *)
(** * Requests to the tenant manager

    What the daemon makes of a command, and what the client makes of its answer:
    the commands of the client reach the store as the calls they stand for, bad
    requests change nothing, the daemon answers until a command is null or a client
    leaves before its answer, and the status the client shows is that of the store. *)

From S2P Require Import Prelude CString JsonC ShmTenant TenantProps TenantDaemon TenantClient.

Module TenantRequests.
Import Daemon.
#[local] Existing Instances Tenant.expand_state Tenant.expand_shm Tenant.expand_info
  Tenant.tenant_status_eq_dec.

Section Requests.
Context {J : Type} `{!JsonC J, !JsonLaws J}.

(** ** JSON objects with known keys *)

Lemma get_field (kvs : list (string * J)) k v :
  distinct kvs = true → assoc k kvs = Some v → json_object_object_get_ex (json_obj kvs) k = Some v.
Proof. intros Hd Hv. by rw json_get_obj. Qed.

(** An object that the parser reads back. *)
Definition readable (kvs : list (string * J)) : Prop :=
  distinct kvs = true ∧ Forall (λ kv, nested 29 (snd kv)) kvs.

Lemma parse_obj (kvs : list (string * J)) t :
  readable kvs → t = EmptyString ∨ t = newline →
  json_tokener_parse (json_object_to_json_string (json_obj kvs) +:+ t) = json_obj kvs.
Proof.
  intros [Hd Hv] Ht. apply json_parse_print; [|apply json_obj_not_null|done].
  by apply (nested_obj 29).
Qed.

Lemma parse_plain (kvs : list (string * J)) :
  readable kvs → json_tokener_parse (json_object_to_json_string (json_obj kvs)) = json_obj kvs.
Proof. intros Hr. rw -(app_empty_r (json_object_to_json_string _)). apply parse_obj; [done|by left]. Qed.

Lemma nested_u32 n z : nested n (json_u32 (J := J) z).
Proof. apply nested_int, i32_range. Qed.

Lemma nested_u64 n z : nested n (json_u64 (J := J) z).
Proof. apply nested_int64. width_lia. Qed.

Lemma nested_tenant n text : nested n (TenantClient.tenant_json (J := J) text).
Proof. apply nested_int, i32_range. Qed.

Lemma nested_memory n argv : nested n (TenantClient.memory_json (J := J) argv).
Proof. apply nested_int64. width_lia. Qed.

Lemma nested_atoi n text : nested n (json_object_new_int (J := J) (atoi text)).
Proof. apply nested_int, i32_range. Qed.

(** Objects whose keys are known and whose values are scalars, or such objects. *)
Ltac readable :=
  repeat first
    [ apply Forall_nil_2 | apply Forall_cons_2 | progress cbn [fst snd app]
    | apply nested_string | apply nested_boolean | apply nested_u32 | apply nested_u64
    | apply nested_tenant | apply nested_memory | apply nested_atoi
    | apply nested_int; by split | apply nested_obj; [by vm_compute|] | split; [by vm_compute|] ].

(** ** What a command stands for *)

Inductive request :=
| Create (tid : Z) (name : string) (qp mr mem : Z)
| Update (tid qp mr mem : Z)
| Delete (tid : Z)
| Status (tid : option Z)
| ListTenants.

(** The arguments as the client's user writes them. *)
Definition request_of (argv : list string) : option request :=
  let a := TenantClient.arg argv in
  let tid := u32 (atoi (a 2%nat)) in
  let mem := if (5 <? length argv)%nat then u64 (atoll (a 5%nat)) else 1073741824 in
  if String.eqb (a 1%nat) "create" then
    if (length argv <? 5)%nat then None else
    Some (Create tid (if (6 <? length argv)%nat then a 6%nat else "unnamed")
            (atoi (a 3%nat)) (atoi (a 4%nat)) mem)
  else if String.eqb (a 1%nat) "delete" then
    if (length argv <? 3)%nat then None else Some (Delete tid)
  else if String.eqb (a 1%nat) "update" || String.eqb (a 1%nat) "set-quota" then
    if (length argv <? 5)%nat then None else Some (Update tid (atoi (a 3%nat)) (atoi (a 4%nat)) mem)
  else if String.eqb (a 1%nat) "status" then
    Some (Status (if (2 <? length argv)%nat then Some tid else None))
  else if String.eqb (a 1%nat) "list" then Some ListTenants
  else None.

(** An answer without data. *)
Definition answer (ok : bool) (message : string) : string :=
  build_response (if ok then 1 else 0) message None.

Definition tenant_figures (t : Tenant.tenant_info_t) : list (string * J) :=
  identity_json t ++ state_json t ++ counts_json t ++ memory_json t.

(** What the daemon does for a request, in terms of the calls of the store. *)
Definition perform (r : request) : M daemon string :=
  match r with
  | Create tid name qp mr mem =>
      r ← zoom store (Tenant.tenant_create tid (Some name) (Some (quota_of qp mr mem)));
      mret (if r =? 0 then answer true ("Tenant " +:+ print_dec tid +:+ " created")
            else answer false "Failed to create tenant")
  | Update tid qp mr mem =>
      r ← zoom store (Tenant.tenant_update_quota tid (Some (quota_of qp mr mem)));
      if negb (r =? 0) then mret (answer false "Failed to update quota") else
      ptr ← zoom store Tenant.tenant_shm_get_ptr;
      (if ptr : bool then
         now ← monotonic_ns;
         zoom store (Tenant.store (λ d, d <| Tenant.last_update_time := now |>
                                          <| Tenant.version ::= λ v, u64 (v + 1) |>))
       else mret tt);;
      mret (answer true ("Quota updated for tenant " +:+ print_dec tid))
  | Delete tid =>
      r ← zoom store (Tenant.tenant_delete tid);
      mret (if r =? 0 then answer true ("Tenant " +:+ print_dec tid +:+ " deleted")
            else answer false "Failed to delete tenant")
  | Status (Some tid) =>
      r ← zoom store (Tenant.tenant_get_info tid (Some Tenant.info_zero));
      mret match r with
           | (0, Some info) =>
               build_response 1 "Tenant status"
                 (Some (json_obj (tenant_figures info ++ totals_json info)))
           | _ => answer false "Tenant not found"
           end
  | Status None =>
      zoom store Tenant.tenant_shm_get_ptr;;
      s ← get;
      mret (build_response 1 "All tenants status"
        (Some (json_arr ((λ t, json_obj (tenant_figures t)) <$> known_tenants s))))
  | ListTenants => handle_list_tenants
  end.

Lemma bind_ext {S A B} (m : M S A) (k k' : A → M S B) s :
  (∀ a t, k a t = k' a t) → (m ≫= k) s = (m ≫= k') s.
Proof. intros H. unfold mbind, M_bind. destruct (m s); auto. Qed.

(** ** From the client's command to the calls *)

(** What [process_command] does with an object whose "cmd" is [cmd]. *)
Definition dispatch (cmd : string) (o : J) : M daemon string :=
  if String.eqb cmd "UPDATE_QUOTA" then handle_update_quota o
  else if String.eqb cmd "CREATE" then handle_create o
  else if String.eqb cmd "DELETE" then handle_delete o
  else if String.eqb cmd "STATUS" then handle_status o
  else if String.eqb cmd "LIST_TENANTS" then handle_list_tenants
  else mret (build_response 0 "Unknown command" None).

Lemma process_obj (kvs : list (string * J)) cmd :
  readable kvs → assoc "cmd" kvs = Some (json_object_new_string cmd) →
  process_command (json_object_to_json_string (json_obj kvs)) = dispatch cmd (json_obj kvs).
Proof.
  intros Hr Hc. unfold process_command, get_ex.
  by rw parse_plain // json_obj_not_null (get_field kvs _ _ (proj1 Hr) Hc) json_string.
Qed.

(** Numbers that survive the trip. *)
Lemma tenant_number text :
  u32 (json_object_get_int (TenantClient.tenant_json text)) = u32 (atoi text).
Proof.
  unfold TenantClient.tenant_json. rw json_int; [apply i32_range|]. rw u32_i32. width_lia.
Qed.

Lemma int_number text : json_object_get_int (json_object_new_int (atoi text)) = atoi text.
Proof. apply json_int, i32_range. Qed.

Lemma memory_number argv :
  u64 (json_object_get_int64 (TenantClient.memory_json argv)) =
    if (5 <? length argv)%nat then u64 (atoll (TenantClient.arg argv 5)) else 1073741824.
Proof.
  unfold TenantClient.memory_json, TenantClient.DEFAULT_MEMORY.
  set (m := if (5 <? length argv)%nat then _ else _). rw json_int64; [width_lia|].
  assert (Hm : is_u64 m) by (unfold m; destruct (_ <? _)%nat; [apply u64_range|width_lia]).
  width_lia.
Qed.

(** The value of a field of an object whose keys are known. *)
Ltac fields :=
  unfold get_ex, int_field, memory_field, get_ex;
  repeat (rw json_get_obj; [by vm_compute|]); cbn [assoc fst snd];
  repeat match goal with |- context [String.eqb ?a ?b] =>
    let v := eval vm_compute in (String.eqb a b) in change (String.eqb a b) with v end;
  cbn iota; rw ?tenant_number ?int_number ?memory_number ?json_string.

Lemma create_request argv text d :
  TenantClient.build_create_cmd argv = Some text →
  process_command text d =
    perform (Create (u32 (atoi (TenantClient.arg argv 2)))
      (if (6 <? length argv)%nat then TenantClient.arg argv 6 else "unnamed")
      (atoi (TenantClient.arg argv 3)) (atoi (TenantClient.arg argv 4))
      (if (5 <? length argv)%nat then u64 (atoll (TenantClient.arg argv 5)) else 1073741824)) d.
Proof.
  unfold TenantClient.build_create_cmd. destruct (_ <? _)%nat; [done|]. intros [= <-].
  rw (process_obj _ "CREATE"); [readable|done|].
  change (dispatch "CREATE") with handle_create. unfold handle_create. fields.
  apply bind_ext. intros r t. by destruct (r =? 0).
Qed.
Lemma delete_request argv text d :
  TenantClient.build_delete_cmd argv = Some text →
  process_command text d = perform (Delete (u32 (atoi (TenantClient.arg argv 2)))) d.
Proof.
  unfold TenantClient.build_delete_cmd. destruct (_ <? _)%nat; [done|]. intros [= <-].
  rw (process_obj _ "DELETE"); [readable|done|].
  change (dispatch "DELETE") with handle_delete. unfold handle_delete. fields.
  apply bind_ext. intros r t. by destruct (r =? 0).
Qed.

Lemma update_request argv text d :
  TenantClient.build_update_cmd argv = Some text →
  process_command text d =
    perform (Update (u32 (atoi (TenantClient.arg argv 2)))
      (atoi (TenantClient.arg argv 3)) (atoi (TenantClient.arg argv 4))
      (if (5 <? length argv)%nat then u64 (atoll (TenantClient.arg argv 5)) else 1073741824)) d.
Proof.
  unfold TenantClient.build_update_cmd. destruct (_ <? _)%nat; [done|]. intros [= <-].
  rw (process_obj _ "UPDATE_QUOTA"); [readable|done|].
  change (dispatch "UPDATE_QUOTA") with handle_update_quota. unfold handle_update_quota. fields.
  done.
Qed.

Lemma status_request argv text d :
  TenantClient.build_status_cmd argv = Some text →
  process_command text d =
    perform (Status (if (2 <? length argv)%nat then Some (u32 (atoi (TenantClient.arg argv 2)))
                     else None)) d.
Proof.
  unfold TenantClient.build_status_cmd. intros [= <-]. destruct (2 <? length argv)%nat.
  - rw (process_obj _ "STATUS"); [readable|done|].
    change (dispatch "STATUS") with handle_status. unfold handle_status. fields.
    apply bind_ext. intros [r [info|]] t; by destruct r.
  - rw (process_obj _ "STATUS"); [readable|done|].
    change (dispatch "STATUS") with handle_status. unfold handle_status. fields. done.
Qed.

Lemma list_request text d :
  TenantClient.build_list_cmd = Some text → process_command text d = perform ListTenants d.
Proof.
  unfold TenantClient.build_list_cmd. intros [= <-].
  by rw (process_obj _ "LIST_TENANTS"); [readable|done|].
Qed.

(** C37: a command of the client reaches the store as the call it stands for.
    Whatever the arguments, the command the client builds is one the daemon
    understands, and serving it is exactly the call of the tenant store with the
    numbers the user wrote (each reduced to the width of its field) followed by
    the answer, whatever becomes of its delivery: numbers survive the encoding, missing
    arguments get the documented defaults, and no command does anything else to the
    store. *)
Theorem client_commands_reach_store argv text d :
  TenantClient.command_of argv = Some (Some text) → (String.length text < 4096)%nat →
  ∃ req, request_of argv = Some req ∧
    ∀ out, handle_client (Some text) out d = (response ← perform req; reply out response) d.
Proof.
  intros Hcmd Hlen. unfold handle_client. rw substring_all; [unfold BUFFER_SIZE; lia|].
  assert (∃ req, request_of argv = Some req ∧ process_command text d = perform req d)
    as (req & Hreq & Hrun); [|exists req; split; [done|]; intros out; unfold mbind, M_bind; by rw Hrun].
  revert Hcmd. unfold TenantClient.command_of, request_of. cbv zeta.
  destruct (String.eqb _ "create").
  { intros [= Hcmd]. pose proof (create_request argv text d Hcmd) as Hrun.
    unfold TenantClient.build_create_cmd in Hcmd. destruct (_ <? 5)%nat; [done|]. by eexists. }
  destruct (String.eqb _ "delete").
  { intros [= Hcmd]. pose proof (delete_request argv text d Hcmd) as Hrun.
    unfold TenantClient.build_delete_cmd in Hcmd. destruct (_ <? 3)%nat; [done|]. by eexists. }
  destruct (String.eqb _ "update" || _).
  { intros [= Hcmd]. pose proof (update_request argv text d Hcmd) as Hrun.
    unfold TenantClient.build_update_cmd in Hcmd. destruct (_ <? 5)%nat; [done|]. by eexists. }
  destruct (String.eqb _ "status").
  { intros Hcmd. eexists. split; [done|]. apply status_request. congruence. }
  destruct (String.eqb _ "list"); [|done].
  intros Hcmd. eexists. split; [done|]. apply list_request. congruence.
Qed.
(** ** Serving *)

(** A part of the daemon's work: the store stays usable, nothing is sent. *)
Definition at_work (d d' : daemon) : Prop :=
  TenantProps.ready (store d') ∧ running d' = running d ∧ sent d' = sent d.

Lemma at_work_trans d1 d2 d3 : at_work d1 d2 → at_work d2 d3 → at_work d1 d3.
Proof. intros (_ & ? & ?) (? & ? & ?). split_and!; [done|congruence|congruence]. Qed.

Lemma store_call {A} (m : M Tenant.state A) d :
  TenantProps.keeps_ready (store d) m → wp (zoom store m) (λ _, at_work d) d.
Proof.
  intros (a & s' & Hm & Hr). exists a, (d <| store := s' |>). unfold zoom. rw Hm. done.
Qed.

Lemma get_ptr_ready s : TenantProps.ready s → Tenant.tenant_shm_get_ptr s = Ret true s.
Proof. intros [Hp _ _]. unfold Tenant.tenant_shm_get_ptr. run. rw Hp. cbn. by rw Hp. Qed.

Lemma store_ptr d :
  TenantProps.ready (store d) → zoom store Tenant.tenant_shm_get_ptr d = Ret true d.
Proof. intros Hr. unfold zoom. rw (get_ptr_ready _ Hr). by destruct d. Qed.

(** An answer is one of [build_response]. *)
Definition answered (response : string) : Prop :=
  ∃ ok m data, response = build_response ok m data.

Definition serves (m : M daemon string) (d : daemon) : Prop :=
  wp m (λ r d', answered r ∧ at_work d d') d.

Lemma serves_answer ok m data d d' :
  at_work d d' → wp (mret (build_response ok m data)) (λ r d', answered r ∧ at_work d d') d'.
Proof. intros Hw. apply wp_ret. split; [by eexists _, _, _|done]. Qed.

Lemma serves_call {A} (m : M Tenant.state A) (k : A → M daemon string) d :
  TenantProps.keeps_ready (store d) m →
  (∀ a d', at_work d d' → wp (k a) (λ r d'', answered r ∧ at_work d d'') d') →
  serves (zoom store m ≫= k) d.
Proof.
  intros Hm Hk. apply wp_bind. eapply wp_mono; [|by apply store_call]. cbn beta. auto.
Qed.

Lemma stamp_ready d now :
  TenantProps.ready (store d) →
  wp (zoom store (Tenant.store (λ d, d <| Tenant.last_update_time := now |>
                                       <| Tenant.version ::= λ v, u64 (v + 1) |>)))
    (λ _, at_work d) d.
Proof.
  intros [Hp Hl Hs]. apply store_call. eexists _, _. split; [reflexivity|].
  split; [done..|]. by apply (TenantProps.shm_ok_same (Tenant.shm (store d))).
Qed.

Lemma update_serves o d : TenantProps.ready (store d) → serves (handle_update_quota o) d.
Proof.
  intros Hr. unfold handle_update_quota. destruct (get_ex o "tenant") as [t|]; [|by apply serves_answer].
  destruct (get_ex o "qp") as [q|]; [|by apply serves_answer].
  apply serves_call; [apply TenantProps.quota_ready; [done|apply u32_range]|].
  intros r d1 Hd1. destruct (r =? 0); cbn [negb]; [|by apply serves_answer].
  apply wp_bind. eapply wp_eq; [apply store_ptr, Hd1|]. apply wp_bind.
  eapply wp_mono; [|apply (wp_bind _ _ (λ _, at_work d))].
  { intros u d2 Hd2. by apply serves_answer. }
  unfold monotonic_ns. destruct (monotonic d1 0%nat) as [sec nsec] eqn:Hc.
  eapply wp_eq; [by rw Hc|]. set (d2 := d1 <| monotonic := _ |>).
  eapply wp_mono; [|apply stamp_ready; apply Hd1]. intros u d3 Hd3.
  eapply (at_work_trans d d2); [exact Hd1|exact Hd3].
Qed.

Lemma create_serves o d : TenantProps.ready (store d) → serves (handle_create o) d.
Proof.
  intros Hr. unfold handle_create. destruct (get_ex o "tenant") as [t|]; [|by apply serves_answer].
  apply serves_call; [apply TenantProps.create_ready; [done|apply u32_range]|].
  intros r d1 Hd1. destruct (r =? 0); by apply serves_answer.
Qed.

Lemma delete_serves o d : TenantProps.ready (store d) → serves (handle_delete o) d.
Proof.
  intros Hr. unfold handle_delete. destruct (get_ex o "tenant") as [t|]; [|by apply serves_answer].
  apply serves_call; [apply TenantProps.delete_ready; [done|apply u32_range]|].
  intros r d1 Hd1. destruct (r =? 0); by apply serves_answer.
Qed.

Lemma status_serves o d : TenantProps.ready (store d) → serves (handle_status o) d.
Proof.
  intros Hr. unfold handle_status. destruct (get_ex o "tenant") as [t|].
  - apply serves_call; [apply TenantProps.get_info_ready; [done|apply u32_range]|].
    intros [r [info|]] d1 Hd1; destruct r; by apply serves_answer.
  - apply wp_bind. eapply wp_eq; [by apply store_ptr|]. apply wp_get. by apply serves_answer.
Qed.

Lemma list_serves d : TenantProps.ready (store d) → serves handle_list_tenants d.
Proof.
  intros Hr. unfold handle_list_tenants. apply wp_bind. eapply wp_eq; [by apply store_ptr|].
  apply wp_get. by apply serves_answer.
Qed.

(** A command whose "cmd" is null (or anything json-c has no text for). *)
Definition null_command (text : string) : bool :=
  let j := json_tokener_parse (String.substring 0 (Z.to_nat (BUFFER_SIZE - 1)) text) in
  negb (is_null j) &&
  match get_ex j "cmd" with
  | Some c => match json_object_get_string c with None => true | Some _ => false end
  | None => false
  end.

Lemma command_serves text d :
  TenantProps.ready (store d) →
  let buffer := String.substring 0 (Z.to_nat (BUFFER_SIZE - 1)) text in
  if null_command text then process_command buffer d = Crash else serves (process_command buffer) d.
Proof.
  intros Hr buffer. unfold null_command, process_command. fold buffer.
  set (j := json_tokener_parse buffer). destruct (is_null j); cbn [negb andb]; [by apply serves_answer|].
  destruct (get_ex j "cmd") as [c|]; [|by apply serves_answer].
  destruct (json_object_get_string c) as [cmd|]; [|done].
  repeat (destruct (String.eqb cmd _);
    [first [by apply update_serves|by apply create_serves|by apply delete_serves
           |by apply status_serves|by apply list_serves]|]).
  by apply serves_answer.
Qed.

(** The process survives both [send]s; and what they deliver. *)
Definition survives (out : delivery) : bool :=
  match of_answer out, of_newline out with Peer_gone, _ | _, Peer_gone => false | _, _ => true end.

Definition delivered (out : delivery) (response : string) : list string :=
  match of_answer out with
  | Peer_gone => []
  | a => (match a with Sent => [response] | _ => [] end) ++
         (match of_newline out with Sent => [newline] | _ => [] end)
  end.

Lemma reply_run out response d :
  reply out response d = Ret (survives out) (d <| sent := sent d ++ delivered out response |>).
Proof.
  unfold reply, survives, delivered, send. destruct out as [[] []]; destruct d; run;
    unfold update, expand_daemon; cbn; by rw ?app_nil_r -?app_assoc.
Qed.

(** Events that neither stop the loop, nor carry a null command, nor kill the process. *)
Definition harmless (e : event) : bool :=
  match e with
  | Signalled sig => negb ((sig =? SIGTERM) || (sig =? SIGINT))
  | SelectFailed => false
  | Client (Some text) out => negb (null_command text) && survives out
  | _ => true
  end.

(** How the answers to the messages among some events are delivered. *)
Definition deliveries (evs : list event) : list delivery :=
  omap (λ e, match e with Client (Some _) out => Some out | _ => None end) evs.

Lemma client_run text out d :
  TenantProps.ready (store d) → null_command text = false →
  ∃ d' r, handle_client (Some text) out d = Ret (survives out) d' ∧ TenantProps.ready (store d') ∧
    running d' = running d ∧ answered r ∧ sent d' = sent d ++ delivered out r.
Proof.
  intros Hr Hn. pose proof (command_serves text d Hr) as Hs. cbv zeta in Hs. rw Hn in Hs.
  destruct Hs as (r & d1 & Hrun & Hans & Hr1 & Hrunning & Hsent).
  exists (d1 <| sent := sent d ++ delivered out r |>), r.
  unfold handle_client. by rw (bind_Ret _ _ _ _ _ Hrun) reply_run Hsent.
Qed.

(** One harmless event. *)
Lemma event_run e d :
  TenantProps.ready (store d) → running d ≠ 0 → harmless e = true →
  ∃ d' answers, (∀ evs, main_loop (e :: evs) d = main_loop evs d') ∧
    TenantProps.ready (store d') ∧ running d' = running d ∧
    length answers = length (deliveries [e]) ∧ Forall answered answers ∧
    sent d' = sent d ++ concat (zip_with delivered (deliveries [e]) answers).
Proof.
  intros Hr Hrunning He.
  assert (Hsame : (∀ evs, main_loop (e :: evs) d = main_loop evs d) → deliveries [e] = [] →
    ∃ d' answers, (∀ evs, main_loop (e :: evs) d = main_loop evs d') ∧
      TenantProps.ready (store d') ∧ running d' = running d ∧
      length answers = length (deliveries [e]) ∧ Forall answered answers ∧
      sent d' = sent d ++ concat (zip_with delivered (deliveries [e]) answers)).
  { intros Hloop ->. exists d, []. by rw app_nil_r. }
  destruct e as [sig| | | | |[text|] out]; try done;
    try (apply Hsame; [|done]; intros evs; cbn [main_loop]; run;
         by rw (proj2 (Z.eqb_neq _ _) Hrunning)).
  - apply Hsame; [|done]. intros evs. cbn [main_loop]. unfold signal_handler.
    apply negb_true_iff in He. rw He. run. by rw (proj2 (Z.eqb_neq _ _) Hrunning).
  - apply andb_prop in He as [He%negb_true_iff Hout].
    destruct (client_run text out d Hr He) as (d' & r & Hrun & Hr' & Hg & Ha & Hs).
    exists d', [r]. split_and!; [|done..| |].
    + intros evs. cbn [main_loop]. rw (bind_Ret _ _ d d d); [done|].
      rw (proj2 (Z.eqb_neq _ _) Hrunning). by rw (bind_Ret _ _ _ _ _ Hrun) Hout.
    + by apply Forall_singleton.
    + cbn [deliveries omap list_omap zip_with concat]. by rw app_nil_r.
Qed.

(** How the loop ends from a usable state, at the latest when the events end. *)
Lemma null_command_crashes text out evs d :
  TenantProps.ready (store d) → running d ≠ 0 → null_command text = true →
  main_loop (Client (Some text) out :: evs) d = Crash.
Proof.
  intros Hr Hrunning Ht. pose proof (command_serves text d Hr) as Hc. cbv zeta in Hc. rw Ht in Hc.
  cbn [main_loop]. rw (bind_Ret _ _ d d d); [done|]. rw (proj2 (Z.eqb_neq _ _) Hrunning).
  unfold handle_client. unfold mbind, M_bind. by rw Hc.
Qed.

Lemma leaving_client_kills text out evs d :
  TenantProps.ready (store d) → running d ≠ 0 → null_command text = false → survives out = false →
  ∃ r d', process_command (String.substring 0 (Z.to_nat (BUFFER_SIZE - 1)) text) d = Ret r d' ∧
    main_loop (Client (Some text) out :: evs) d = Ret false (d' <| sent := sent d' ++ delivered out r |>) ∧
    TenantProps.ready (store d').
Proof.
  intros Hr Hrunning Hn Hout. pose proof (command_serves text d Hr) as Hs. cbv zeta in Hs. rw Hn in Hs.
  destruct Hs as (r & d' & Hrun & _ & Hr' & _). exists r, d'. split_and!; [done| |done].
  cbn [main_loop]. rw (bind_Ret _ _ d d d); [done|]. rw (proj2 (Z.eqb_neq _ _) Hrunning).
  rw (bind_Ret _ _ d (survives out) (d' <| sent := sent d' ++ delivered out r |>)); [|by rw Hout].
  unfold handle_client. by rw (bind_Ret _ _ _ _ _ Hrun) reply_run.
Qed.

Lemma select_failure_ends evs d : running d ≠ 0 → main_loop (SelectFailed :: evs) d = Ret true d.
Proof.
  intros Hrunning. cbn [main_loop]. rw (bind_Ret _ _ d d d); [done|].
  by rw (proj2 (Z.eqb_neq _ _) Hrunning).
Qed.

Lemma signal_ends sig evs d :
  running d ≠ 0 → sig = SIGTERM ∨ sig = SIGINT →
  ∃ d', main_loop (Signalled sig :: evs) d = Ret true d' ∧ running d' = 0 ∧ store d' = store d ∧
    sent d' = sent d.
Proof.
  intros Hrunning Hsig.
  set (d' := d <| running := 0 |> <| server_fd ::= λ fd, if 0 <=? fd then -1 else fd |>).
  exists d'. split_and!; [|done..]. cbn [main_loop]. rw (bind_Ret _ _ d d d); [done|].
  rw (proj2 (Z.eqb_neq _ _) Hrunning) (bind_Ret _ _ d tt d').
  - unfold signal_handler. by destruct Hsig as [-> | ->].
  - by destruct evs.
Qed.

(** Serving some events and going on. *)
Lemma loop_serves evs d :
  TenantProps.ready (store d) → running d ≠ 0 → forallb harmless evs = true →
  ∃ d' answers, (∀ evs', main_loop (evs ++ evs') d = main_loop evs' d') ∧
    TenantProps.ready (store d') ∧ running d' = running d ∧
    length answers = length (deliveries evs) ∧ Forall answered answers ∧
    sent d' = sent d ++ concat (zip_with delivered (deliveries evs) answers).
Proof.
  revert d. induction evs as [|e evs IH]; intros d Hr Hrunning Hevs.
  { exists d, []. by rw app_nil_r. }
  cbn [forallb] in Hevs. apply andb_prop in Hevs as [He Hevs].
  destruct (event_run e d Hr Hrunning He) as (d1 & a1 & Hloop & Hr1 & Hg1 & Hn1 & Ha1 & Hs1).
  destruct (IH d1 Hr1 ltac:(congruence) Hevs) as (d2 & a2 & Hrun & Hr2 & Hg2 & Hn2 & Ha2 & Hs2).
  assert (Hsplit : deliveries (e :: evs) = deliveries [e] ++ deliveries evs).
  { unfold deliveries. by rw -(omap_app _ [e] evs). }
  exists d2, (a1 ++ a2). rw Hsplit. split_and!; [|done|congruence|by rw !length_app Hn1 Hn2|by apply Forall_app|].
  - intros evs'. by rw -app_comm_cons Hloop Hrun.
  - by rw zip_with_app // concat_app Hs2 Hs1 app_assoc.
Qed.

(** C38: the daemon serves until it is stopped, misled, or left alone.  From a usable store,
    whatever the clients send (bytes that are not JSON, unknown commands, missing or wrong
    fields, closed connections), whatever [accept] does and whatever other signals arrive,
    the loop goes on, the store stays usable, and every message gets one answer, of which
    that much is delivered as [send] takes.  What ends it: SIGTERM or SIGINT, a failure of
    [select] other than an interruption, and two things that should not: a message whose
    "cmd" is the JSON null makes the daemon dereference a null pointer, and a client that
    closes its connection before either part of the answer is sent kills it by SIGPIPE,
    with the command carried out. *)
Theorem daemon_serves_until_null_command evs d :
  TenantProps.ready (store d) → running d ≠ 0 → forallb harmless evs = true →
  ∃ d' answers, main_loop evs d = Ret true d' ∧ TenantProps.ready (store d') ∧
    running d' = running d ∧ length answers = length (deliveries evs) ∧ Forall answered answers ∧
    sent d' = sent d ++ concat (zip_with delivered (deliveries evs) answers) ∧
    ∀ evs',
      (∀ sig, sig = SIGTERM ∨ sig = SIGINT →
         ∃ d'', main_loop (evs ++ Signalled sig :: evs') d = Ret true d'' ∧ running d'' = 0 ∧
           store d'' = store d' ∧ sent d'' = sent d') ∧
      main_loop (evs ++ SelectFailed :: evs') d = Ret true d' ∧
      (∀ text out, null_command text = true →
         main_loop (evs ++ Client (Some text) out :: evs') d = Crash) ∧
      (∀ text out, null_command text = false → survives out = false →
         ∃ r d'', process_command (String.substring 0 (Z.to_nat (BUFFER_SIZE - 1)) text) d' = Ret r d'' ∧
           main_loop (evs ++ Client (Some text) out :: evs') d =
             Ret false (d'' <| sent := sent d'' ++ delivered out r |>) ∧
           TenantProps.ready (store d'')).
Proof.
  intros Hr Hrunning Hevs.
  destruct (loop_serves evs d Hr Hrunning Hevs) as (d' & answers & Hrun & Hr' & Hg & Hn & Ha & Hs).
  assert (Hrunning' : running d' ≠ 0) by congruence.
  exists d', answers. split_and!; try done.
  - pose proof (Hrun []) as H. rw app_nil_r in H. rw H. cbn [main_loop]. run.
    by rw (proj2 (Z.eqb_neq _ _) Hrunning').
  - intros evs'. split_and!.
    + intros sig Hsig. rw Hrun. by apply signal_ends.
    + rw Hrun. by apply select_failure_ends.
    + intros text out Ht. rw Hrun. by apply null_command_crashes.
    + intros text out Ht Hout. rw Hrun. by apply leaving_client_kills.
Qed.

(** ** Refusals *)

(** Why a command is refused without looking at the store. *)
Definition refusal (j : J) : option string :=
  let needs k message := match get_ex j k with Some _ => None | None => Some message end in
  if is_null j then Some "Invalid JSON" else
  match get_ex j "cmd" with
  | None => Some "Missing 'cmd' field"
  | Some c =>
      cmd ← json_object_get_string c;
      if String.eqb cmd "UPDATE_QUOTA" then
        match get_ex j "tenant" with
        | Some _ => needs "qp" "Missing required fields: tenant, qp"
        | None => Some "Missing required fields: tenant, qp"
        end
      else if String.eqb cmd "CREATE" || String.eqb cmd "DELETE" then
        needs "tenant" "Missing required field: tenant"
      else if String.eqb cmd "STATUS" || String.eqb cmd "LIST_TENANTS" then None
      else Some "Unknown command"
  end.

Lemma print_refusal message t :
  t = EmptyString ∨ t = newline →
  TenantClient.print_response (build_response 0 message None +:+ t) =
    ["Failed"; "Message: " +:+ message].
Proof.
  intros Ht. unfold TenantClient.print_response, build_response. rw parse_obj //; [readable|].
  rw json_obj_not_null.
  unfold TenantClient.get_ex. rw !json_get_obj; [by vm_compute..|].
  cbn. unfold TenantClient.print_s. by rw json_boolean json_string.
Qed.

(** C40: a malformed command (not JSON, no "cmd", an unknown one, a required field
    missing) changes nothing: the daemon's state is what it was but for the answer,
    whatever becomes of its delivery, and a client that receives it shows the failure with
    the reason. *)
Theorem malformed_commands_change_nothing text message d :
  refusal (json_tokener_parse (String.substring 0 (Z.to_nat (BUFFER_SIZE - 1)) text)) = Some message →
  ∃ r, (∀ out, handle_client (Some text) out d =
      Ret (survives out) (d <| sent := sent d ++ delivered out r |>)) ∧
    ∀ t, t = EmptyString ∨ t = newline →
      TenantClient.print_response (r +:+ t) = ["Failed"; "Message: " +:+ message].
Proof.
  intros Href. exists (build_response 0 message None).
  split; [|by apply print_refusal]. intros out.
  unfold handle_client. rw (bind_Ret _ _ d (build_response 0 message None) d); [|by rw reply_run].
  revert Href. unfold refusal, process_command. set (j := json_tokener_parse _).
  destruct (is_null j); [by intros [= <-]|]. destruct (get_ex j "cmd") as [c|]; [|by intros [= <-]].
  destruct (json_object_get_string c) as [cmd|]; [|done]. cbn [mbind option_bind].
  destruct (String.eqb cmd "UPDATE_QUOTA") eqn:Hu.
  { unfold handle_update_quota. destruct (get_ex j "tenant"); [|by intros [= <-]].
    destruct (get_ex j "qp"); [done|by intros [= <-]]. }
  destruct (String.eqb cmd "CREATE") eqn:Hcr; cbn [orb].
  { unfold handle_create. destruct (get_ex j "tenant"); [done|by intros [= <-]]. }
  destruct (String.eqb cmd "DELETE") eqn:Hde; cbn [orb].
  { unfold handle_delete. destruct (get_ex j "tenant"); [done|by intros [= <-]]. }
  destruct (String.eqb cmd "STATUS"); [done|]. destruct (String.eqb cmd "LIST_TENANTS"); [done|].
  by intros [= <-].
Qed.

(** ** What the client shows *)

(** What one [recv] of the client finds when [n] pieces of the answer have arrived. *)
Definition received (n : nat) (d d' : daemon) : option string :=
  match take n (drop (length (sent d)) (sent d')) with
  | [] => None
  | pieces => Some (String.concat EmptyString pieces)
  end.

Lemma received_delivered n out r (d d' : daemon) :
  sent d' = sent d ++ delivered out r → of_answer out = Sent → (0 < n)%nat →
  ∃ t, (t = EmptyString ∨ t = newline) ∧ received n d d' = Some (r +:+ t).
Proof.
  intros Hs Ha Hn. unfold received, delivered in *. rw Ha in Hs. rw Hs drop_app_length.
  destruct n as [|n]; [lia|]. destruct (of_newline out), n as [|n]; cbn;
    first [by exists newline; split; [right|]|by exists EmptyString; rw app_empty_r; split; [left|]
          |exists newline; split; [by right|]; by rw take_nil].
Qed.

(** The other end of the client's socket is the daemon: of its answer [n] pieces, then
    what it has become.  A daemon that crashes or hangs gives none. *)
Definition daemon_exchange (out : delivery) (n : nat) (text : string) (d : daemon) :
    option string * daemon :=
  match handle_client (Some text) out d with
  | Ret _ d' => (received n d d', d')
  | _ => (None, d)
  end.

Definition status_answer (t : Tenant.tenant_info_t) : string :=
  build_response 1 "Tenant status" (Some (json_obj (tenant_figures t ++ totals_json t))).

(** The figures as the client prints them: counts and limits go through a signed
    32-bit number, memory and totals come back unsigned. *)
Definition status_lines (t : Tenant.tenant_info_t) : list string :=
  let u := Tenant.usage t in
  let q := Tenant.quota t in
  let count z := print_dec (i32 z) in
  let total z := print_dec (u64 z) in
  ["Success"; "Message: Tenant status"; "Data:";
   "  Tenant ID: " +:+ count (Tenant.tenant_id t);
   "  Name: " +:+ Tenant.tenant_name t;
   "  Status: " +:+ TenantClient.status_name (status_code (Tenant.status t));
   "  QP: " +:+ count (Tenant.qp_count u) +:+ "/" +:+ count (Tenant.max_qp_per_tenant q);
   "  MR: " +:+ count (Tenant.mr_count u) +:+ "/" +:+ count (Tenant.max_mr_per_tenant q);
   "  Memory: " +:+ total (Tenant.memory_used u) +:+ "/" +:+
     total (Tenant.max_memory_per_tenant q) +:+ " bytes";
   "  Total QP creates: " +:+ total (Tenant.total_qp_creates u);
   "  Total MR registers: " +:+ total (Tenant.total_mr_regs u)].

Lemma print_d_u32 z : TenantClient.print_d (json_u32 z) = print_dec (i32 z).
Proof. unfold TenantClient.print_d, json_u32. by rw json_int; [apply i32_range|]. Qed.

Lemma print_lu_u64 z : TenantClient.print_lu (json_u64 z) = print_dec (u64 z).
Proof.
  unfold TenantClient.print_lu, json_u64. rw json_int64; [width_lia|]. f_equal. width_lia.
Qed.

Lemma print_status_answer t e :
  e = EmptyString ∨ e = newline →
  TenantClient.print_response (status_answer t +:+ e) = status_lines t.
Proof.
  intros He. unfold TenantClient.print_response, status_answer, build_response.
  rw parse_obj //; [unfold tenant_figures, identity_json, state_json, counts_json, memory_json, totals_json;
    readable; apply nested_int; by destruct (Tenant.status t)|].
  rw json_obj_not_null. unfold TenantClient.get_ex. rw !json_get_obj; [by vm_compute..|].
  cbn -[json_obj]. rw json_boolean. cbn -[json_obj]. unfold TenantClient.print_s. rw json_string.
  unfold TenantClient.print_data. rw json_obj_elements json_obj_object.
  unfold TenantClient.get_ex. rw !json_get_obj; [by vm_compute..|]. cbn -[json_obj].
  unfold TenantClient.print_status, TenantClient.get_ex. rw !json_get_obj; [by vm_compute..|]. cbn -[json_obj].
  unfold TenantClient.print_s. rw !print_d_u32 !print_lu_u64 json_string json_int; [|done].
  by destruct (Tenant.status t).
Qed.

(** C39: the status the client prints is that of the store: for a tenant that is
    not inactive, [status <id>] through the daemon prints its name, status, counts,
    limits, memory and totals as the store holds them at that moment (as long as
    the command and the answer fit the buffers, and the answer arrives, with the newline
    behind it or before the newline is sent). *)
Theorem client_shows_tenant argv text t out n d :
  let tid := u32 (atoi (TenantClient.arg argv 2)) in
  TenantProps.ready (store d) → tid < Tenant.MAX_TENANTS →
  Tenant.tenants (Tenant.shm (store d)) !! Z.to_nat tid = Some t →
  Tenant.status t ≠ Tenant.TENANT_STATUS_INACTIVE →
  (2 < length argv)%nat → TenantClient.arg argv 1 = "status" →
  TenantClient.command_of argv = Some (Some text) → (String.length text < 4096)%nat →
  (String.length (status_answer t +:+ newline) < 4096)%nat → of_answer out = Sent → (0 < n)%nat →
  ∃ d', TenantClient.main (daemon_exchange out n) argv d = (0, status_lines t, d') ∧
    TenantProps.ready (store d') ∧
    TenantProps.same_content (Tenant.shm (store d)) (Tenant.shm (store d')).
Proof.
  intros tid Hr Hlt Ht Hst Hargc Hcmd Htext Hlen Hans Hout Hn.
  destruct (client_commands_reach_store argv text d Htext Hlen) as (req & Hreq & Hrun).
  assert (req = Status (Some tid)) as ->.
  { revert Hreq. unfold request_of. rw Hcmd. cbv zeta.
    rw (proj2 (Nat.ltb_lt _ _) Hargc). by intros [= <-]. }
  destruct (TenantProps.get_info_run (store d) Hr tid t ltac:(split; [apply u32_range|done]) Ht
    Tenant.info_zero) as (s' & Hget & Hset).
  rw decide_True // in Hget.
  assert (Hperf : perform (Status (Some tid)) d = Ret (status_answer t) (d <| store := s' |>)).
  { cbn [perform]. erewrite bind_Ret; [|unfold zoom; by rw Hget]. done. }
  set (d' := (d <| store := s' |>) <| sent := sent d ++ delivered out (status_answer t) |>).
  assert (Hhc : handle_client (Some text) out d = Ret (survives out) d').
  { by rw Hrun (bind_Ret _ _ _ _ _ Hperf) reply_run. }
  destruct (received_delivered n out (status_answer t) d d') as (e & He & Hrecv); [done..|].
  exists d'. unfold TenantClient.main, TenantClient.send_command, daemon_exchange.
  rw (proj2 (Nat.ltb_ge _ _)); [lia|]. rw Htext Hhc. cbn -[d' received]. rw Hrecv. cbn -[d'].
  assert (Hle : (String.length (status_answer t +:+ e) < 4096)%nat).
  { rw !length_app_string in Hans |- *. destruct He as [-> | ->]; cbn in *; lia. }
  rw substring_all; [unfold TenantClient.BUFFER_SIZE; lia|]. rw print_status_answer //.
  split; [reflexivity|]. split; [eapply TenantProps.settled_ready; [exact Hset|apply Hr]|apply Hset].
Qed.

(** What a quota update does to the store: the tenant gets exactly the new
    quota, every other tenant and the pid table stay, the version moves on twice
    (once outside the lock) and the time stamp is the monotonic clock.  The counts
    of the command are signed and the quota's fields are not: a negative count
    becomes a quota of at least 2^31, which no tenant ever reaches. *)
Theorem update_quota_effect tid qp mr mem t d :
  TenantProps.ready (store d) → 0 ≤ tid < Tenant.MAX_TENANTS →
  Tenant.tenants (Tenant.shm (store d)) !! Z.to_nat tid = Some t →
  Tenant.status t ≠ Tenant.TENANT_STATUS_INACTIVE → is_i32 qp → is_i32 mr →
  ∃ d', perform (Update tid qp mr mem) d =
      Ret (answer true ("Quota updated for tenant " +:+ print_dec tid)) d' ∧
    TenantProps.ready (store d') ∧
    Tenant.tenants (Tenant.shm (store d')) =
      <[Z.to_nat tid := t <| Tenant.quota := quota_of qp mr mem |>
                          <| Tenant.last_active_at := Tenant.clock (store d) 0%nat |>]>
        (Tenant.tenants (Tenant.shm (store d))) ∧
    Tenant.pid_mappings (Tenant.shm (store d')) = Tenant.pid_mappings (Tenant.shm (store d)) ∧
    Tenant.version (Tenant.shm (store d')) = u64 (Tenant.version (Tenant.shm (store d)) + 2) ∧
    (let '(sec, nsec) := monotonic d 0%nat in
     Tenant.last_update_time (Tenant.shm (store d')) = u64 (sec * 1000000000 + nsec)) ∧
    (qp < 0 → Tenant.max_qp_per_tenant (quota_of qp mr mem) = 2 ^ 32 + qp) ∧
    (0 ≤ qp → Tenant.max_qp_per_tenant (quota_of qp mr mem) = qp).
Proof.
  intros Hr Htid Ht Hst Hqp Hmr.
  destruct (TenantProps.update_quota_ok (store d) Hr tid t Htid Ht (quota_of qp mr mem) Hst)
    as (s1 & Hrun & Hset).
  assert (Hr1 : TenantProps.ready s1).
  { destruct (TenantProps.quota_ready (store d) Hr tid (Some (quota_of qp mr mem)))
      as (r & s1' & Hrun' & Hr1); [lia|]. rw Hrun in Hrun'. by injection Hrun' as _ <-. }
  set (d1 := d <| store := s1 |>).
  assert (Hz : zoom store (Tenant.tenant_update_quota tid (Some (quota_of qp mr mem))) d = Ret 0 d1).
  { unfold zoom. by rw Hrun. }
  cbn [perform]. rw (bind_Ret _ _ _ _ _ Hz). cbn [negb Z.eqb].
  rw (bind_Ret _ _ _ _ _ (store_ptr d1 Hr1)).
  unfold monotonic_ns. unfold mbind at 1, M_bind at 1. unfold mbind at 1, M_bind at 1.
  change (monotonic d1 0%nat) with (monotonic d 0%nat).
  destruct (monotonic d 0%nat) as [sec nsec]. eexists. split; [reflexivity|].
  pose proof (TenantProps.settled_content _ _ _ Hset) as [Hts Hms _ _].
  pose proof (TenantProps.settled_version _ _ _ Hset) as Hv. cbn in Hts, Hms, Hv |- *.
  split_and!; [|done..| | | |].
  - destruct Hr1 as [Hp Hl Hs]. split; [done..|].
    by apply (TenantProps.shm_ok_same (Tenant.shm s1)).
  - rw Hv. width_lia.
  - width_lia.
  - width_lia.
  - width_lia.
Qed.

End Requests.
(** ** Examples *)

Import JsonTree.

Definition clock_ex : nat → Z := λ _, 1700000000.

(** A store in which tenant 5 has been created, and a daemon on it. *)
Definition store_ex : Tenant.state :=
  after (TenantProps.fresh clock_ex)
    (Tenant.tenant_create 5 (Some "five") None (TenantProps.fresh clock_ex)).
Definition daemon_ex : daemon :=
  mk_daemon 1 4 store_ex (λ _, (12, 34)) (mk_os 0 true 4 0 0) false true [].

Definition tenant_ex : Tenant.tenant_info_t :=
  default Tenant.info_zero (Tenant.tenants (Tenant.shm store_ex) !! 5%nat).

Lemma store_ex_ready : TenantProps.ready store_ex.
Proof.
  destruct (TenantProps.create_ready _ (TenantProps.fresh_ready clock_ex) 5 (Some "five") None)
    as (r & s' & Hrun & Hr); [lia|].
  unfold store_ex. by rw Hrun.
Qed.

Definition update_argv : list string := ["client"; "update"; "5"; "-1"; "7"].
Definition update_text : string := default "" (TenantClient.build_update_cmd (J:=json) update_argv).

Lemma client_commands_reach_store_witness :
  ∃ req, request_of update_argv = Some req ∧ req = Update 5 (-1) 7 1073741824 ∧
    handle_client (J:=json) (Some update_text) whole daemon_ex =
      (response ← perform (J:=json) req; reply whole response) daemon_ex.
Proof.
  destruct (client_commands_reach_store (J:=json) update_argv update_text daemon_ex)
    as (req & Hreq & Hrun); [by vm_compute|apply Nat.ltb_lt; by vm_compute|].
  exists req. split_and!; [exact Hreq| |exact (Hrun whole)].
  assert (Hv : request_of update_argv = Some (Update 5 (-1) 7 1073741824)) by by vm_compute.
  rw Hv in Hreq. by injection Hreq.
Defined.

Lemma update_quota_effect_witness :
  let q := quota_of (-1) 7 1073741824 in
  Tenant.max_qp_per_tenant q = 4294967295 ∧
  ∃ d', perform (J:=json) (Update 5 (-1) 7 1073741824) daemon_ex =
      Ret (answer (J:=json) true "Quota updated for tenant 5") d' ∧ TenantProps.ready (store d').
Proof.
  intros q.
  destruct (update_quota_effect (J:=json) 5 (-1) 7 1073741824 tenant_ex daemon_ex)
    as (d' & Hrun & Hr & _ & _ & _ & _ & Hneg & _);
    [exact store_ex_ready|by split|by vm_compute|by vm_compute|by split|by split|].
  split; [exact (Hneg eq_refl)|]. exists d'. exact (conj Hrun Hr).
Defined.

(** A message {"cmd": null}. *)
Definition null_text : string :=
  json_object_to_json_string (J:=json) (json_obj [("cmd", Null)]).

Lemma daemon_serves_until_null_command_witness :
  let evs := [Client (Some "not JSON") whole; SelectTimeout; Client None whole;
              Client (Some update_text) (mk_delivery Send_fails Sent)] in
  (∃ d' r1 r2, main_loop (J:=json) evs daemon_ex = Ret true d' ∧ sent d' = [r1; newline; newline] ∧
     answered (J:=json) r2) ∧
  main_loop (J:=json) (evs ++ [Client (Some null_text) whole]) daemon_ex = Crash ∧
  ∃ d', main_loop (J:=json) (evs ++ [Client (Some update_text) (mk_delivery Sent Peer_gone); SelectTimeout])
    daemon_ex = Ret false d'.
Proof.
  intros evs. destruct (daemon_serves_until_null_command (J:=json) evs daemon_ex)
    as (d' & answers & Hrun & _ & _ & Hn & Ha & Hs & Hmore);
    [exact store_ex_ready|done|by vm_compute|].
  split; [|split].
  - destruct answers as [|r1 [|r2 [|? ?]]]; try discriminate Hn.
    exists d', r1, r2. split_and!; [exact Hrun|exact Hs|].
    exact (Forall_inv (Forall_inv_tail Ha)).
  - apply (Hmore []). by vm_compute.
  - destruct (proj2 (proj2 (proj2 (Hmore [SelectTimeout]))) update_text (mk_delivery Sent Peer_gone))
      as (r & d'' & _ & H & _); [by vm_compute|reflexivity|].
    eexists. exact H.
Defined.

Definition delete_text : string :=
  json_object_to_json_string (J:=json) (json_obj [("cmd", json_object_new_string "DELETE")]).

Lemma malformed_commands_change_nothing_witness :
  ∃ r, handle_client (J:=json) (Some delete_text) whole daemon_ex =
      Ret true (daemon_ex <| sent := [r; newline] |>) ∧
    TenantClient.print_response (J:=json) r =
      ["Failed"; "Message: Missing required field: tenant"].
Proof.
  destruct (malformed_commands_change_nothing (J:=json) delete_text
    "Missing required field: tenant" daemon_ex) as (r & Hrun & Hp); [by vm_compute|].
  exists r. split; [exact (Hrun whole)|]. rw -(app_empty_r r). apply Hp. by left.
Defined.

Definition status_argv : list string := ["client"; "status"; "5"].
Definition status_text : string := default "" (TenantClient.build_status_cmd (J:=json) status_argv).

Lemma client_shows_tenant_witness :
  ∃ d', TenantClient.main (J:=json) (daemon_exchange (J:=json) whole 2) status_argv daemon_ex =
    (0, ["Success"; "Message: Tenant status"; "Data:"; "  Tenant ID: 5"; "  Name: five";
         "  Status: ACTIVE"; "  QP: 0/100"; "  MR: 0/1000"; "  Memory: 0/1073741824 bytes";
         "  Total QP creates: 0"; "  Total MR registers: 0"], d').
Proof.
  destruct (client_shows_tenant (J:=json) status_argv status_text tenant_ex whole 2 daemon_ex)
    as (d' & Hrun & _);
    [exact store_ex_ready|by vm_compute|by vm_compute|by vm_compute|cbn; lia|done|by vm_compute
    |apply Nat.ltb_lt; by vm_compute|apply Nat.ltb_lt; by vm_compute|done|lia|].
  exists d'. rw Hrun. by vm_compute.
Defined.

End TenantRequests.
