(* ===== verification/TenantCli.v ===== *)
(** * The tenant management tool ([src/tenant_manager.c])

    A command-line program over the tenant store of [ShmTenant] and the policy
    manager of [PolicyManager].  The options come as [getopt_long] returns them;
    what is printed is kept as a list of lines. *)

From S2P Require Import Prelude CString ShmProcess ShmTenant TenantProps PolicyManager PolicyProps.

Module TenantCli.
#[local] Existing Instances Tenant.expand_state Tenant.expand_info Policy.expand_state
  Policy.expand_tenant_policy Policy.expand_config Policy.expand_rule Policy.expand_limit
  Tenant.tenant_status_eq_dec.

Record tool := mk_tool {
  g_running : Z;
  policy : Policy.state;
  store : Tenant.state;
  stdout : list string;
}.
#[export] Instance expand_tool : Expand tool := λ r,
  mk_tool (g_running r) (policy r) (store r) (stdout r).

Section Tool.
(** [ctime], in the time zone of the machine. *)
Context (ctime : Z → string).

Definition printf (lines : list string) : M tool unit :=
  modify (λ s, s <| stdout ::= λ l, l ++ lines |>).

(** ** Commands *)

(** ["%u,%u,%u"], when all three conversions succeed. *)
Definition scan_quota (s : string) : option (Z * Z * Z) :=
  '(qp, s) ← scan_uint s;
  s ← scan_char "," s;
  '(mr, s) ← scan_uint s;
  s ← scan_char "," s;
  '(mem_mb, _) ← scan_uint s;
  Some (qp, mr, mem_mb).

Definition default_quota : Tenant.tenant_quota_t :=
  Tenant.mk_quota 100 1000 (1024 * 1024 * 1024) 100 100.

(** [None]: the string has the wrong format. *)
Definition quota_of (quota_str : option string) : option Tenant.tenant_quota_t :=
  match quota_str with
  | None => Some default_quota
  | Some str =>
      '(qp, mr, mem_mb) ← scan_quota str;
      Some (Tenant.mk_quota qp mr (u64 (u64 (mem_mb * 1024) * 1024)) 100 100)
  end.

(** The policy that goes with a quota. *)
Definition policy_for (tid : Z) (name : option string) (q : Tenant.tenant_quota_t) :
    Policy.tenant_policy_t :=
  let qp := Tenant.max_qp_per_tenant q in
  let mr := Tenant.max_mr_per_tenant q in
  Policy.mk_tenant_policy tid (String.substring 0 63 (default "unnamed" name))
    (Policy.config_zero
       <| Policy.qp_policy := Policy.rule_zero <| Policy.limit := Policy.mk_limit qp qp 0 |> |>
       <| Policy.mr_policy := Policy.rule_zero <| Policy.limit := Policy.mk_limit mr mr 0 |> |>
       <| Policy.memory_policy := Policy.rule_zero
            <| Policy.limit := Policy.mk_limit 0 0 (Tenant.max_memory_per_tenant q) |> |>) 0.

Definition cmd_create_tenant (tid : Z) (name quota_str : option string) : M tool Z :=
  match quota_of quota_str with
  | None => mret (-1)
  | Some quota =>
      zoom policy (Policy.dynamic_policy_set_tenant_policy tid (Some (policy_for tid name quota)));;
      zoom store (Tenant.tenant_create tid name (Some quota))
  end.

Definition cmd_delete_tenant (tid : Z) : M tool Z :=
  zoom policy (Policy.dynamic_policy_delete_tenant_policy tid);;
  zoom store (Tenant.tenant_delete tid).

Definition MB : Z := 1024 * 1024.
Definition status_name (st : Tenant.tenant_status) : string :=
  match st with
  | Tenant.TENANT_STATUS_ACTIVE => "ACTIVE"
  | Tenant.TENANT_STATUS_SUSPENDED => "SUSPENDED"
  | Tenant.TENANT_STATUS_INACTIVE => "INACTIVE"
  end.

Definition status_lines (tid : Z) (info : Tenant.tenant_info_t) : list string :=
  let u := Tenant.usage info in
  let q := Tenant.quota info in
  let row name used limit := "  " +:+ name +:+ ": " +:+ print_dec used +:+ " / " +:+ print_dec limit in
  ["========== Tenant " +:+ print_dec tid +:+ " ==========";
   "Name: " +:+ Tenant.tenant_name info;
   "Status: " +:+ status_name (Tenant.status info);
   "Resource Quota:";
   row "QP" (Tenant.qp_count u) (Tenant.max_qp_per_tenant q);
   row "MR" (Tenant.mr_count u) (Tenant.max_mr_per_tenant q);
   row "CQ" (Tenant.cq_count u) (Tenant.max_cq_per_tenant q);
   row "PD" (Tenant.pd_count u) (Tenant.max_pd_per_tenant q);
   row "Memory" (Tenant.memory_used u / MB) (Tenant.max_memory_per_tenant q / MB) +:+ " MB";
   "Process Count: " +:+ print_dec (Tenant.process_count info);
   "Total QP Creates: " +:+ print_dec (Tenant.total_qp_creates u);
   "Total MR Registrations: " +:+ print_dec (Tenant.total_mr_regs u);
   "Created At: " +:+ ctime (Tenant.created_at info);
   "Last Active: " +:+ ctime (Tenant.last_active_at info)].

Definition cmd_show_status (tid : Z) : M tool Z :=
  r ← zoom store (Tenant.tenant_get_info tid (Some Tenant.info_zero));
  match r with
  | (0, Some info) => printf (status_lines tid info);; mret 0
  | _ => mret (-1)
  end.

(** ["%-*s"]. *)
Fixpoint pad (width : nat) (s : string) : string :=
  match width, s with
  | O, _ => s
  | S w, EmptyString => String " " (pad w EmptyString)
  | S w, String c s' => String c (pad w s')
  end.

Definition used_of (w1 w2 : nat) (used limit : Z) : string :=
  pad w1 (print_dec used) +:+ "/" +:+ pad w2 (print_dec limit).

Definition list_line (t : Tenant.tenant_info_t) : string :=
  let u := Tenant.usage t in
  let q := Tenant.quota t in
  pad 8 (print_dec (Tenant.tenant_id t)) +:+ " " +:+ pad 20 (Tenant.tenant_name t) +:+ " " +:+
  pad 10 (if decide (Tenant.status t = Tenant.TENANT_STATUS_ACTIVE) then "ACTIVE" else "SUSPENDED") +:+
  " " +:+ used_of 3 6 (Tenant.qp_count u) (Tenant.max_qp_per_tenant q) +:+ " " +:+
  used_of 3 6 (Tenant.mr_count u) (Tenant.max_mr_per_tenant q) +:+ " " +:+
  pad 12 (print_dec (Tenant.process_count t)).

Definition cmd_list_tenants : M tool Z :=
  r ← zoom store (Tenant.tenant_get_active_list true Tenant.MAX_TENANTS);
  let '(count, tenants) := r in
  if count <=? 0 then printf ["No active tenants found."];; mret 0 else
  printf (["========== Active Tenants =========="] ++ (list_line <$> tenants) ++
          ["Total: " +:+ print_dec count +:+ " active tenants"]);;
  mret 0.

Definition cmd_bind_process (pid tid : Z) : M tool Z := zoom store (Tenant.tenant_bind_process pid tid).
Definition cmd_unbind_process (pid : Z) : M tool Z := zoom store (Tenant.tenant_unbind_process pid).

Definition signal_handler : M tool unit := modify (λ s, s <| g_running := 0 |>).

Definition monitor_line (t : Tenant.tenant_info_t) : string :=
  let u := Tenant.usage t in
  let q := Tenant.quota t in
  pad 8 (print_dec (Tenant.tenant_id t)) +:+ " " +:+ pad 20 (Tenant.tenant_name t) +:+ " " +:+
  used_of 3 4 (Tenant.qp_count u) (Tenant.max_qp_per_tenant q) +:+ " " +:+
  used_of 3 4 (Tenant.mr_count u) (Tenant.max_mr_per_tenant q) +:+ " " +:+
  used_of 6 5 (Tenant.memory_used u / MB) (Tenant.max_memory_per_tenant q / MB) +:+ " " +:+
  pad 10 (print_dec (Tenant.process_count t)).

(** The rounds of [cmd_monitor]: [true] when a signal arrives during the round;
    after the last round of the list the program is still asleep. *)
Fixpoint monitor_rounds (signals : list bool) : M tool unit :=
  s ← get;
  if g_running s =? 0 then mret tt else
  match signals with
  | [] => mret tt
  | signalled :: signals' =>
      r ← zoom store (Tenant.tenant_get_active_list true Tenant.MAX_TENANTS);
      let '(count, tenants) := r in
      printf (monitor_line <$> tenants);;
      (if count =? 0 then printf ["No active tenants."] else mret tt);;
      (if signalled : bool then signal_handler else mret tt);;
      monitor_rounds signals'
  end.

Definition cmd_monitor (signals : list bool) : M tool Z :=
  monitor_rounds signals;;
  printf ["Monitoring stopped."];;
  mret 0.

(** ** Options *)

(** What one call of [getopt_long] returns: the letter and [optarg]. *)
Definition option_t : Type := ascii * string.

Record options := mk_options {
  tenant_id : Z;           (* uint32_t *)
  pid : Z;
  name : option string;
  quota_str : option string;
  create_flag : bool;
  delete_flag : bool;
  status_flag : bool;
  list_flag : bool;
  bind_flag : bool;
  unbind_flag : bool;
  monitor_flag : bool;
}.
#[export] Instance expand_options : Expand options := λ r,
  mk_options (tenant_id r) (pid r) (name r) (quota_str r) (create_flag r) (delete_flag r)
    (status_flag r) (list_flag r) (bind_flag r) (unbind_flag r) (monitor_flag r).

Definition no_options : options :=
  mk_options 0 0 None None false false false false false false false.

(** One turn of the switch; [inr] is the exit code of [main]. *)
Definition apply_option (o : options) (c : option_t) : options + Z :=
  let '(letter, optarg) := c in
  let id := u32 (atoi optarg) in
  match letter with
  | "c"%char => inl (o <| create_flag := true |> <| tenant_id := id |>)
  | "n"%char => inl (o <| name := Some optarg |>)
  | "d"%char => inl (o <| delete_flag := true |> <| tenant_id := id |>)
  | "s"%char => inl (o <| status_flag := true |> <| tenant_id := id |>)
  | "l"%char => inl (o <| list_flag := true |>)
  | "b"%char => inl (o <| bind_flag := true |> <| pid := atoi optarg |>)
  | "u"%char => inl (o <| unbind_flag := true |> <| pid := atoi optarg |>)
  | "t"%char => inl (o <| tenant_id := id |>)
  | "q"%char => inl (o <| quota_str := Some optarg |>)
  | "m"%char => inl (o <| monitor_flag := true |>)
  | "i"%char => inl o     (* the interval only matters to sleep () *)
  | "h"%char => inr 0
  | _ => inr 1
  end.

Fixpoint parse_options (cs : list option_t) (o : options) : options + Z :=
  match cs with
  | [] => inl o
  | c :: cs' => match apply_option o c with inl o' => parse_options cs' o' | inr e => inr e end
  end.

(** The first flag, in the order of the source, decides. *)
Definition dispatch (o : options) (signals : list bool) : M tool Z :=
  if create_flag o then
    if tenant_id o =? 0 then mret 1 else cmd_create_tenant (tenant_id o) (name o) (quota_str o)
  else if delete_flag o then cmd_delete_tenant (tenant_id o)
  else if status_flag o then cmd_show_status (tenant_id o)
  else if list_flag o then cmd_list_tenants
  else if bind_flag o then
    if tenant_id o =? 0 then mret 1 else cmd_bind_process (pid o) (tenant_id o)
  else if unbind_flag o then cmd_unbind_process (pid o)
  else if monitor_flag o then cmd_monitor signals
  else mret 0.

Definition main (cs : list option_t) (signals : list bool) : M tool Z :=
  r ← zoom store Tenant.tenant_shm_init;
  if negb (r =? 0) then mret 1 else
  r ← zoom policy Policy.dynamic_policy_init;
  if negb (r =? 0) then mret 1 else
  match parse_options cs no_options with
  | inl o => dispatch o signals
  | inr e => mret e
  end.
End Tool.


(** ** The commands keep the store usable *)

Definition limits_of (s : tool) : Z * Z * Z := PolicyProps.shared_limits (Policy.shm (policy s)).

Record in_order (L : Z * Z * Z) (s : tool) : Prop := {
  order_store : TenantProps.ready (store s);
  order_tenants : PolicyProps.tenants_ok (policy s);
  order_limits : limits_of s = L;
}.

Section Commands.
Context (ctime : Z → string) (L : Z * Z * Z).

Definition ok {A} (m : M tool A) (s : tool) : Prop := wp m (λ _, in_order L) s.

Lemma ok_ret {A} (a : A) s : in_order L s → ok (mret a) s.
Proof. intros Hs. by exists a, s. Qed.

Lemma ok_modify f s : in_order L (f s) → ok (modify f) s.
Proof. intros Hs. by exists tt, (f s). Qed.

Lemma ok_bind {A B} (m : M tool A) (k : A → M tool B) s :
  ok m s → (∀ a t, in_order L t → ok (k a) t) → ok (m ≫= k) s.
Proof. intros Hm Hk. apply wp_bind. eapply wp_mono; [|exact Hm]. cbn beta. auto. Qed.

Lemma ok_printf lines s : in_order L s → ok (printf lines) s.
Proof. intros []. by apply ok_modify. Qed.

Lemma ok_store {A} (m : M Tenant.state A) s :
  (∀ t, TenantProps.ready t → TenantProps.keeps_ready t m) → in_order L s → ok (zoom store m) s.
Proof.
  intros Hm [Hs Ht Hl]. destruct (Hm _ Hs) as (a & t & Hrun & Hr).
  exists a, (s <| store := t |>). unfold zoom. by rw Hrun.
Qed.

(** The tenant policies of a tool in order. *)
Lemma ok_set_policy tid p s :
  in_order L s → ok (zoom policy (Policy.dynamic_policy_set_tenant_policy tid (Some p))) s.
Proof.
  intros [Hs Ht Hl]. destruct (Z.ltb_spec tid Policy.MAX_TENANTS) as [Hlt|Hge].
  - eapply wp_eq; [unfold zoom; by rw (PolicyProps.set_tenant_run _ _ _ Ht Hlt)|].
    split; [done|by apply PolicyProps.put_tenant_ok|done].
  - eapply wp_eq; [unfold zoom, Policy.dynamic_policy_set_tenant_policy; by rw (proj2 (Z.leb_le _ _) Hge)|].
    by split.
Qed.

Lemma ok_delete_policy tid s :
  in_order L s → ok (zoom policy (Policy.dynamic_policy_delete_tenant_policy tid)) s.
Proof.
  intros [Hs Ht Hl]. destruct (Z.ltb_spec tid Policy.MAX_TENANTS) as [Hlt|Hge].
  - eapply wp_eq; [unfold zoom; by rw (PolicyProps.delete_tenant_run _ _ Ht Hlt)|].
    split; [done|by apply PolicyProps.put_tenant_ok|done].
  - eapply wp_eq; [unfold zoom, Policy.dynamic_policy_delete_tenant_policy; by rw (proj2 (Z.leb_le _ _) Hge)|].
    by split.
Qed.

Lemma ok_active s :
  in_order L s → ok (zoom store (Tenant.tenant_get_active_list true Tenant.MAX_TENANTS)) s.
Proof. apply ok_store. intros t Ht. by apply TenantProps.list_ready. Qed.

Lemma ok_monitor signals s : in_order L s → ok (monitor_rounds signals) s.
Proof.
  revert s. induction signals as [|b signals IH]; intros s Hs; cbn [monitor_rounds]; apply wp_get;
    (destruct (g_running s =? 0); [by apply ok_ret|]); [by apply ok_ret|].
  apply ok_bind; [by apply ok_active|]. intros [count ts] t Ht.
  apply ok_bind; [by apply ok_printf|]. intros _ t1 Ht1.
  apply ok_bind; [destruct (count =? 0); [by apply ok_printf|by apply ok_ret]|]. intros _ t2 Ht2.
  apply ok_bind; [|intros _ t3; apply IH].
  destruct b; [destruct Ht2; by apply ok_modify|by apply ok_ret].
Qed.

(** An option value that names a tenant or a process is of the right type. *)
Lemma ok_dispatch o signals s :
  0 ≤ tenant_id o → in_order L s → ok (dispatch ctime o signals) s.
Proof.
  intros Hid Hs. unfold dispatch.
  destruct (create_flag o).
  { destruct (tenant_id o =? 0); [by apply ok_ret|]. unfold cmd_create_tenant.
    destruct (quota_of (quota_str o)) as [q|]; [|by apply ok_ret].
    apply ok_bind; [by apply ok_set_policy|]. intros _ t.
    apply ok_store. intros ??. by apply TenantProps.create_ready. }
  destruct (delete_flag o).
  { apply ok_bind; [by apply ok_delete_policy|]. intros _ t.
    apply ok_store. intros ??. by apply TenantProps.delete_ready. }
  destruct (status_flag o).
  { apply ok_bind; [apply ok_store; [|done]; intros ??; by apply TenantProps.get_info_ready|].
    intros [r [info|]] t Ht; [|by destruct r; apply ok_ret].
    destruct r; [|by apply ok_ret..]. apply ok_bind; [by apply ok_printf|]. intros _ t'. apply ok_ret. }
  destruct (list_flag o).
  { apply ok_bind; [by apply ok_active|]. intros [count ts] t Ht.
    destruct (count <=? 0); (apply ok_bind; [by apply ok_printf|]); intros _ t'; apply ok_ret. }
  destruct (bind_flag o).
  { destruct (tenant_id o =? 0); [by apply ok_ret|]. revert Hs.
    apply ok_store. intros ??. by apply TenantProps.bind_ready. }
  destruct (unbind_flag o).
  { revert Hs. apply ok_store. intros ??. by apply TenantProps.unbind_ready. }
  destruct (monitor_flag o); [|by apply ok_ret].
  apply ok_bind; [by apply ok_monitor|]. intros _ t Ht.
  apply ok_bind; [by apply ok_printf|]. intros _ t'. apply ok_ret.
Qed.
End Commands.

Lemma parse_options_id cs o o' :
  0 ≤ tenant_id o → parse_options cs o = inl o' → 0 ≤ tenant_id o'.
Proof.
  revert o. induction cs as [|c cs IH]; intros o Ho; [by intros [= <-]|]. cbn [parse_options].
  destruct (apply_option o c) as [o1|e] eqn:Hc; [|done]. apply IH. revert Hc.
  destruct c as [x arg]. pose proof (u32_range (atoi arg)) as [Hu _]. unfold apply_option.
  destruct x as [[] [] [] [] [] [] [] []]; try discriminate; by intros [= <-].
Qed.

(** ** Start-up *)

(** What a run needs: both objects can be opened and mapped and are not locked,
    the manager's mutexes are free, and the thread starts. *)
Record startable (s : tool) : Prop := {
  start_tenants : Tenant.g_tenant_shm (store s) = false ∧
    0 ≤ Tenant.os_shm_open (Tenant.os (store s)) ∧
    0 ≤ Tenant.os_ftruncate (Tenant.os (store s)) ∧ Tenant.os_mmap (Tenant.os (store s)) = true;
  start_store : TenantProps.shm_ok (Tenant.shm (store s)) ∧ Tenant.lock (Tenant.shm (store s)) = 0;
  start_processes : let m := Policy.shm (policy s) in
    0 ≤ Shm.os_shm_open (Shm.os m) ∧ Shm.os_ftruncate (Shm.os m) = 0 ∧ Shm.os_mmap (Shm.os m) = true ∧
    Shm.data_ok (Shm.shm m) ∧ Shm.lock (Shm.shm m) = 0;
  start_policy : Policy.g_policy_mutex (policy s) = false ∧ Policy.os_thread (policy s) = 0;
  start_policies : PolicyProps.tenants_ok (policy s);
}.

(** [tenant_shm_init] makes the store usable, whether or not it is new. *)
Lemma tenant_init_run t :
  Tenant.g_tenant_shm t = false ∧ 0 ≤ Tenant.os_shm_open (Tenant.os t) ∧
  0 ≤ Tenant.os_ftruncate (Tenant.os t) ∧ Tenant.os_mmap (Tenant.os t) = true →
  TenantProps.shm_ok (Tenant.shm t) ∧ Tenant.lock (Tenant.shm t) = 0 →
  ∃ t', Tenant.tenant_shm_init t = Ret 0 t' ∧ TenantProps.ready t'.
Proof.
  intros (Hp & Ho & Hf & Hm) (Hs & Hl).
  unfold Tenant.tenant_shm_init, Tenant.store, Tenant.time. run. rw Hp.
  rw (proj2 (Z.ltb_ge _ _) Ho) (proj2 (Z.ltb_ge _ _) Hf) Hm. cbn.
  destruct ((_ =? 0) && _ && _); cbn; eexists; (split; [reflexivity|]); (split; [done..|]).
  - by apply (TenantProps.shm_ok_same Tenant.shm_zero); [|apply TenantProps.shm_zero_ok].
  - done.
Qed.

(** The limits [dynamic_policy_init] publishes. *)
Definition default_limits : Z * Z * Z := (1000, 10000, 10737418240).

Lemma policy_init_run p :
  Policy.g_policy_mutex p = false ∧ Policy.os_thread p = 0 →
  (let m := Policy.shm p in
   0 ≤ Shm.os_shm_open (Shm.os m) ∧ Shm.os_ftruncate (Shm.os m) = 0 ∧ Shm.os_mmap (Shm.os m) = true ∧
   Shm.data_ok (Shm.shm m) ∧ Shm.lock (Shm.shm m) = 0) →
  PolicyProps.tenants_ok p →
  ∃ p', Policy.dynamic_policy_init p = Ret 0 p' ∧ PolicyProps.tenants_ok p' ∧
    PolicyProps.shared_limits (Policy.shm p') = default_limits.
Proof.
  intros (Hm & Hth) (Ho & Hf & Hmm & Hd & Hl) [Ht Htm].
  destruct (Shm.shm_init_ready (Policy.shm p) Ho Hf Hmm Hd Hl) as (m1 & H1 & Hr1).
  unfold Policy.dynamic_policy_init.
  rw (bind_Ret _ _ _ _ _ (PolicyProps.lock_policy_run p Hm)).
  set (p1 := p <| Policy.g_policy_mutex := true |>).
  destruct (Policy.set_default_config p1) as [[] p2| |] eqn:Hdef; [|discriminate Hdef..].
  assert (Hp2 : Policy.shm p2 = Policy.shm p ∧ Policy.os_thread p2 = Policy.os_thread p ∧
    Policy.g_tenant_policies p2 = Policy.g_tenant_policies p ∧
    Policy.g_tenant_mutex p2 = Policy.g_tenant_mutex p ∧
    PolicyProps.configured_limits (Policy.g_policy_config p2) = default_limits).
  { by injection Hdef as <-. }
  destruct Hp2 as (Hs2 & Ho2 & Ht2 & Hm2 & Hc2). rw (bind_Ret _ _ _ _ _ Hdef). clear Hdef.
  rewrite -Hs2 in H1. rw (bind_Ret _ _ p2 0 (p2 <| Policy.shm := m1 |>)); [by unfold zoom; rw H1|].
  cbn [negb Z.eqb]. set (p3 := p2 <| Policy.shm := m1 |>).
  destruct (PolicyProps.publish_limits_run p3 Hr1) as (p4 & H4 & _ & Hl4).
  pose proof (PolicyProps.publish_keeps p3 p4 H4) as (Hk1 & Hk2 & Hk3 & Hk4).
  rw (bind_Ret _ _ _ _ _ H4). run. cbn. rw Hk1. change (Policy.os_thread p3) with (Policy.os_thread p2).
  rw Ho2 Hth. cbn. eexists. split; [reflexivity|]. split.
  - split; cbn; [rw Hk2|rw Hk3]; [change (Policy.g_tenant_policies p3) with (Policy.g_tenant_policies p2)
      |change (Policy.g_tenant_mutex p3) with (Policy.g_tenant_mutex p2)]; congruence.
  - cbn. rw Hl4 Hk4. done.
Qed.

(** Every run of the tool, whatever it is asked to do (list, an unknown option,
    help), returns, leaves the tenant store usable, and leaves the process-level
    global limits at the policy manager's defaults: start-up publishes them over
    whatever limits the collector or another manager had set. *)
Theorem cli_resets_limits ctime cs signals s :
  startable s →
  ∃ r s', main ctime cs signals s = Ret r s' ∧ TenantProps.ready (store s') ∧
    limits_of s' = default_limits.
Proof.
  intros [Ht Hst Hp Hpol Htp]. unfold main.
  destruct (tenant_init_run _ Ht Hst) as (t1 & H1 & Hr1).
  rw (bind_Ret _ _ s 0 (s <| store := t1 |>)); [by unfold zoom; rw H1|]. cbn [negb Z.eqb].
  set (s1 := s <| store := t1 |>).
  destruct (policy_init_run (policy s1) Hpol Hp Htp) as (p2 & H2 & Htp2 & Hl2).
  rw (bind_Ret _ _ s1 0 (s1 <| policy := p2 |>)); [by unfold zoom; rw H2|]. cbn [negb Z.eqb].
  set (s2 := s1 <| policy := p2 |>). assert (Hs2 : in_order default_limits s2) by by split.
  destruct (parse_options cs no_options) as [o|e] eqn:Ho; [|by exists e, s2].
  assert (Hid : 0 ≤ tenant_id o) by (eapply parse_options_id; [|exact Ho]; done).
  destruct (ok_dispatch ctime default_limits o signals s2 Hid Hs2) as (r & s3 & Hrun & [Hr3 _ Hl3]).
  by exists r, s3.
Qed.

(** ** Creating a tenant *)

(** The quota as the usage text asks for it. *)
Definition quota_text (qp mr mem_mb : Z) : string :=
  print_dec qp +:+ "," +:+ print_dec mr +:+ "," +:+ print_dec mem_mb.

Lemma scan_quota_text qp mr mem_mb :
  is_u32 qp → is_u32 mr → is_u32 mem_mb →
  scan_quota (quota_text qp mr mem_mb) = Some (qp, mr, mem_mb).
Proof.
  intros Hq Hr Hm. unfold scan_quota, quota_text.
  rw scan_uint_print //. cbn [mbind option_bind].
  change ("," +:+ ?t) with (String "," t). cbn [scan_char Ascii.eqb Bool.eqb mbind option_bind].
  rw scan_uint_print //. cbn [mbind option_bind].
  change ("," +:+ ?t) with (String "," t). cbn [scan_char Ascii.eqb Bool.eqb mbind option_bind].
  rw -(app_empty_r (print_dec mem_mb)) scan_uint_print //.
Qed.

(** [--create <id> --quota qp,mr,mb] stores what it says: for an id that is
    free, the tenant appears in the store with exactly those counts and [mb]
    megabytes, nothing else of the store's tenants changes, and the tenant policy
    recorded beside it carries the same limits; a quota that does not read as three
    numbers is refused before anything is written. *)
Theorem create_tenant_quota L tid name qp mr mem_mb t s :
  in_order L s → 0 < tid < Tenant.MAX_TENANTS →
  Tenant.tenants (Tenant.shm (store s)) !! Z.to_nat tid = Some t →
  Tenant.status t = Tenant.TENANT_STATUS_INACTIVE →
  is_u32 qp → is_u32 mr → is_u32 mem_mb →
  let q := Tenant.mk_quota qp mr (mem_mb * 2 ^ 20) 100 100 in
  let now := Tenant.clock (store s) 0%nat in
  (∃ s', cmd_create_tenant tid name (Some (quota_text qp mr mem_mb)) s = Ret 0 s' ∧ in_order L s' ∧
     Tenant.tenants (Tenant.shm (store s')) =
       <[Z.to_nat tid := Tenant.info_zero <| Tenant.tenant_id := tid |>
           <| Tenant.tenant_name := Tenant.name_of name |>
           <| Tenant.status := Tenant.TENANT_STATUS_ACTIVE |>
           <| Tenant.created_at := now |> <| Tenant.last_active_at := now |>
           <| Tenant.quota := q |>]> (Tenant.tenants (Tenant.shm (store s))) ∧
     PolicyProps.tenant_policy_of (policy s') tid =
       (policy_for tid name q) <| Policy.last_updated := Policy.clock (policy s) 0%nat |>) ∧
  ∀ str, scan_quota str = None → cmd_create_tenant tid name (Some str) s = Ret (-1) s.
Proof.
  intros [Hr Htp Hl] Htid Ht Hst Hqp Hmr Hmem q now. split; cycle 1.
  { intros str Hstr. unfold cmd_create_tenant, quota_of. by rw Hstr. }
  assert (Hq : quota_of (Some (quota_text qp mr mem_mb)) = Some q).
  { unfold quota_of. rw scan_quota_text //. cbn [mbind option_bind]. unfold q.
    do 2 f_equal. rw !u64_small; width_lia. }
  unfold cmd_create_tenant. rw Hq.
  assert (Hlt : tid < Policy.MAX_TENANTS) by (unfold Policy.MAX_TENANTS, Tenant.MAX_TENANTS in *; lia).
  pose proof (PolicyProps.set_tenant_run (policy s) tid (policy_for tid name q) Htp Hlt) as Hset.
  set (p' := _ <| Policy.clock := _ |>) in Hset. set (s1 := s <| policy := p' |>).
  rw (bind_Ret _ _ s 0 s1); [by unfold zoom; rw Hset|].
  destruct (TenantProps.create_new (store s) Hr tid t ltac:(lia) Ht name (Some q) ltac:(lia) Hst)
    as (t' & Hc & Hset').
  destruct (TenantProps.create_ready (store s) Hr tid name (Some q) ltac:(lia)) as (r & t'' & Hc' & Hr').
  rw Hc in Hc'. injection Hc' as _ <-.
  exists (s1 <| store := t' |>). split; [unfold zoom; by rw Hc|]. split.
  { split; [done|by apply PolicyProps.put_tenant_ok|done]. }
  split; [apply Hset'|]. unfold s1, p'. cbn [policy].
  change (policy (_ <| store := _ |>)) with p'.
  unfold p'. rw PolicyProps.put_tenant_of; [done|unfold Policy.MAX_TENANTS in *; lia|lia|].
  by rw decide_True.
Qed.

(** ** Examples *)

Definition tool_ex : tool :=
  mk_tool 1 (PolicyProps.at_start)
    (Tenant.mk_state false (-1) Tenant.shm_zero (Tenant.mk_os 3 0 true 0 0) (λ _, 1700000000)) [].

Lemma tool_ex_startable : startable tool_ex.
Proof.
  split; [done| |split_and!; try done; apply Shm.data_zero_ok|done|by split].
  split; [apply TenantProps.shm_zero_ok|done].
Qed.

(** [tenant_manager --list], over an object whose limits are 0. *)
Lemma cli_resets_limits_witness :
  limits_of tool_ex = (0, 0, 0) ∧
  ∃ r s', main (λ _, "") [("l"%char, "")] [] tool_ex = Ret r s' ∧ limits_of s' = (1000, 10000, 10737418240).
Proof.
  split; [reflexivity|].
  destruct (cli_resets_limits (λ _, "") [("l"%char, "")] [] tool_ex tool_ex_startable)
    as (r & s' & Hrun & _ & Hl).
  by exists r, s'.
Defined.

Definition tool_run : tool :=
  mk_tool 1 PolicyProps.at_start (TenantProps.fresh (λ _, 1700000000)) [].

Lemma create_tenant_quota_witness :
  quota_text 50 100 2048 = "50,100,2048" ∧
  ∃ s', cmd_create_tenant 3 (Some "three") (Some "50,100,2048") tool_run = Ret 0 s' ∧
    (Tenant.quota <$> Tenant.tenants (Tenant.shm (store s')) !! 3%nat) =
      Some (Tenant.mk_quota 50 100 2147483648 100 100).
Proof.
  split; [by vm_compute|].
  destruct (create_tenant_quota (limits_of tool_run) 3 (Some "three") 50 100 2048
    Tenant.info_zero tool_run) as [(s' & Hrun & _ & Hts & _) _];
    [split; [apply TenantProps.fresh_ready|by split|done]|by split|by vm_compute|done|by split|by split|by split|].
  exists s'. split; [exact Hrun|]. rw Hts. by vm_compute.
Defined.

End TenantCli.
