(* ===== verification/Intercept.v ===== *)
(** * State of the interception library and its logger

    The configuration and the state every hook works on
    ([include/rdma_intercept.h], with the initial values of
    [src/intercept_core.c]), and the logger ([src/logger.c]): level gating, the
    log file, rotation and statistics.  Files are handles: writing to a handle
    that has been closed, or closing it again, is an error ([Crash]). *)

From S2P Require Import Prelude CString.

Module Intercept.

(** ** Data ([rdma_intercept.h]) *)

Definition MAX_LOG_BUFFER_SIZE : Z := 4096.
Definition MAX_CONFIG_FILE_PATH : Z := 256.

(** [log_level_t] is an enum whose variables may hold any int. *)
Definition LOG_LEVEL_DEBUG : Z := 0.
Definition LOG_LEVEL_INFO : Z := 1.
Definition LOG_LEVEL_WARN : Z := 2.
Definition LOG_LEVEL_ERROR : Z := 3.
Definition LOG_LEVEL_FATAL : Z := 4.

Record intercept_config_t := mk_config {
  enable_intercept : bool;
  log_qp_creation : bool;
  log_all_operations : bool;
  log_level : Z;
  log_file_path : string;
  enable_qp_control : bool;
  max_qp_per_process : Z;      (* uint32_t *)
  max_send_wr_limit : Z;       (* uint32_t *)
  max_recv_wr_limit : Z;       (* uint32_t *)
  allow_rc_qp : bool;
  allow_uc_qp : bool;
  allow_ud_qp : bool;
  allow_rq_qp : bool;
  max_global_qp : Z;           (* uint32_t *)
  enable_mr_control : bool;
  max_mr_per_process : Z;      (* uint32_t *)
  max_memory_per_process : Z;  (* uint64_t *)
}.
#[export] Instance expand_config : Expand intercept_config_t := λ r,
  mk_config (enable_intercept r) (log_qp_creation r) (log_all_operations r) (log_level r)
    (log_file_path r) (enable_qp_control r) (max_qp_per_process r) (max_send_wr_limit r)
    (max_recv_wr_limit r) (allow_rc_qp r) (allow_uc_qp r) (allow_ud_qp r) (allow_rq_qp r)
    (max_global_qp r) (enable_mr_control r) (max_mr_per_process r) (max_memory_per_process r).

(** A file handle; [stdout] is always open. *)
Definition file := Z.
Definition stdout : file := 0.

(** [original_functions], [qp_list] and [mr_list] are never used. *)
Record intercept_state_t := mk_state {
  initialized : bool;
  config : intercept_config_t;
  log_file : option file;      (* None: NULL *)
  log_mutex : bool;            (* held *)
  resource_mutex : bool;       (* held *)
  qp_count : Z;                (* uint32_t *)
  mr_count : Z;                (* uint32_t *)
  memory_used : Z;             (* uint64_t *)
}.
#[export] Instance expand_state : Expand intercept_state_t := λ r,
  mk_state (initialized r) (config r) (log_file r) (log_mutex r) (resource_mutex r)
    (qp_count r) (mr_count r) (memory_used r).

(** The fields of [qp_creation_info_t] the log shows. *)
Record qp_creation_info_t := mk_qp_info {
  timestamp : Z;
  info_pid : Z;
  qp_type : Z;
  max_send_wr : Z;
  max_recv_wr : Z;
}.

Definition default_config : intercept_config_t :=
  mk_config true true false LOG_LEVEL_INFO "/tmp/rdma_intercept.log"
    false 100 1024 1024 true true true true 1000 false 1000 (1024 * 1024 * 1024 * 10).

Definition g_intercept_state : intercept_state_t :=
  mk_state false default_config None false false 0 0 0.

(** What a log line holds besides the time. *)
Inductive entry :=
| Line (level : Z) (message : string)
| LineAt (level : Z) (file : string) (line : Z) (func : string) (message : string)
| QpEvent (info : qp_creation_info_t).

(** What the system around the process answers. *)
Record system := mk_system {
  sys_getenv : string → option string;
  sys_read : string → option string;      (* contents of a readable file *)
  sys_append : string → bool;             (* [fopen (path, "a")] succeeds *)
  sys_stat : string → bool;               (* the directory exists *)
  sys_mkdir : string → bool;              (* created, or EEXIST *)
  sys_dlopen : bool;                      (* libibverbs.so can be opened *)
  sys_dlsym : string → bool;              (* and defines the symbol *)
}.

#[export] Instance expand_system : Expand system := λ r,
  mk_system (sys_getenv r) (sys_read r) (sys_append r) (sys_stat r) (sys_mkdir r) (sys_dlopen r)
    (sys_dlsym r).

(** The process: the library's globals, its open files, and what it has written. *)
Record process := mk_process {
  g : intercept_state_t;
  open_files : list file;
  next_file : file;
  written : list (file * entry);   (* most recent first *)
  err_out : list string;
  log_file_mutex : bool;           (* held *)
  log_start_time : Z;              (* static of rdma_intercept_get_log_stats *)
  errno : Z;
  sys : system;
}.
#[export] Instance expand_process : Expand process := λ r,
  mk_process (g r) (open_files r) (next_file r) (written r) (err_out r) (log_file_mutex r)
    (log_start_time r) (errno r) (sys r).

Definition start (y : system) : process :=
  mk_process g_intercept_state [stdout] 1 [] [] false 0 0 y.

Definition gcfg (p : process) : intercept_config_t := config (g p).

(** ** The C library *)

Definition fopen_append (path : string) : M process (option file) := λ p,
  if sys_append (sys p) path
  then Ret (Some (next_file p))
         (p <| open_files ::= cons (next_file p) |> <| next_file ::= Z.succ |>)
  else Ret None p.

Definition fclose (f : file) : M process unit := λ p,
  if bool_decide (f ∈ open_files p)
  then Ret tt (p <| open_files ::= filter (λ f', f' ≠ f) |>)
  else Crash.

Definition fprintf (f : file) (e : entry) : M process unit := λ p,
  if bool_decide (f ∈ open_files p) then Ret tt (p <| written ::= cons (f, e) |>) else Crash.

(** A mutex nobody else holds: locking it again never returns. *)
Definition lock_log_file : M process unit := λ p,
  if log_file_mutex p then Hang else Ret tt (p <| log_file_mutex := true |>).
Definition unlock_log_file : M process unit := modify (λ p, p <| log_file_mutex := false |>).

(** ** Logger ([logger.c]) *)

Definition get_log_level_string (level : Z) : string :=
  match level with
  | 0 => "DEBUG" | 1 => "INFO" | 2 => "WARN" | 3 => "ERROR" | 4 => "FATAL" | _ => "UNKNOWN"
  end.

(** The directory part of a path: up to the last '/' of its first 255 bytes,
    when that is not the first byte. *)
Fixpoint last_slash (i : nat) (s : string) (best : option nat) : option nat :=
  match s with
  | EmptyString => best
  | String c s' => last_slash (S i) s' (if Ascii.eqb c "/"%char then Some i else best)
  end.

Definition ensure_log_directory (log_path : string) : M process Z :=
  p ← get;
  let path := String.substring 0 (Z.to_nat (MAX_CONFIG_FILE_PATH - 1)) log_path in
  match last_slash 0 path None with
  | Some (S n) =>
      let dir := String.substring 0 (S n) path in
      if sys_stat (sys p) dir then mret 0
      else if sys_mkdir (sys p) dir then mret 0 else mret (-1)
  | _ => mret 0
  end.

(** [vsnprintf] into the local buffer. *)
Definition clip (msg : string) : string :=
  String.substring 0 (Z.to_nat (MAX_LOG_BUFFER_SIZE - 1)) msg.

(** Write an entry under [log_file_mutex], if there is a log file. *)
Definition write_log (e : entry) : M process unit :=
  p ← get;
  match log_file (g p) with
  | None => mret tt
  | Some _ =>
      lock_log_file;;
      p' ← get;
      match log_file (g p') with
      | Some f => fprintf f e
      | None => mret tt
      end;;
      unlock_log_file
  end.

Definition rdma_intercept_log_internal (level : Z) (file : string) (line : Z)
    (func msg : string) : M process unit :=
  p ← get;
  if negb (initialized (g p)) || (level <? log_level (gcfg p)) then mret tt else
  write_log (if log_level (gcfg p) <=? LOG_LEVEL_DEBUG
             then LineAt level file line func (clip msg)
             else Line level (clip msg));;
  if level =? LOG_LEVEL_FATAL then modify (λ p, p <| err_out ::= cons (clip msg) |>) else mret tt.

Definition rdma_intercept_log (level : Z) (msg : string) : M process unit :=
  p ← get;
  if negb (initialized (g p)) || (level <? log_level (gcfg p)) then mret tt else
  write_log (Line level (clip msg)).

Definition set_gconfig (f : intercept_config_t → intercept_config_t) : M process unit :=
  modify (λ p, p <| g := (g p) <| config ::= f |> |>).

Definition rdma_intercept_set_log_level (level : Z) : M process Z :=
  if (level <? LOG_LEVEL_DEBUG) || (LOG_LEVEL_FATAL <? level) then mret (-1) else
  set_gconfig (λ c, c <| log_level := level |>);;
  rdma_intercept_log LOG_LEVEL_INFO ("Log level changed to " +:+ get_log_level_string level);;
  mret 0.

Definition rdma_intercept_get_log_level : M process Z := gets (λ p, log_level (gcfg p)).

Definition set_log_handle (f : option file) : M process unit :=
  modify (λ p, p <| g := (g p) <| log_file := f |> |>).

(** The old file is closed before the new one is known to open. *)
Definition rdma_intercept_set_log_file (path : option string) : M process Z :=
  match path with
  | None => mret (-1)
  | Some path =>
      if MAX_CONFIG_FILE_PATH <=? Z.of_nat (String.length path) then mret (-1) else
      r ← ensure_log_directory path;
      if negb (r =? 0) then mret (-1) else
      lock_log_file;;
      p ← get;
      (match log_file (g p) with
       | Some f => if f =? stdout then mret tt else fclose f
       | None => mret tt
       end);;
      new_file ← fopen_append path;
      match new_file with
      | None => unlock_log_file;; mret (-1)
      | Some f =>
          set_gconfig (λ c, c <| log_file_path := path |>);;
          set_log_handle (Some f);;
          unlock_log_file;;
          rdma_intercept_log LOG_LEVEL_INFO ("Log file changed to " +:+ path);;
          mret 0
      end
  end.

(** The renaming of the file is outside the model: only whether the path can be
    opened again matters to the process. [backup] is the name it gets. *)
Definition rdma_intercept_rotate_log (backup : string) : M process Z :=
  p ← get;
  match log_file (g p) with
  | None => mret (-1)
  | Some f =>
      if String.eqb (log_file_path (gcfg p)) "" then mret (-1) else
      lock_log_file;;
      fclose f;;
      new_file ← fopen_append (log_file_path (gcfg p));
      match new_file with
      | None => unlock_log_file;; mret (-1)
      | Some f' =>
          set_log_handle (Some f');;
          unlock_log_file;;
          rdma_intercept_log LOG_LEVEL_INFO ("Log rotated to " +:+ backup);;
          mret 0
      end
  end.

(** The three counters are static variables that no code writes to: what the
    caller gets is (total, errors, warnings, start time). *)
Definition rdma_intercept_get_log_stats (now : Z) : M process (Z * Z * Z * Z) :=
  p ← get;
  (if log_start_time p =? 0 then modify (λ p, p <| log_start_time := now |>) else mret tt);;
  start_time ← gets log_start_time;
  mret (0, 0, 0, start_time).

Definition rdma_intercept_log_qp_creation (info : option qp_creation_info_t) : M process unit :=
  p ← get;
  if negb (initialized (g p)) || negb (log_qp_creation (gcfg p)) then mret tt else
  match info with
  | None => mret tt
  | Some i => write_log (QpEvent i)
  end.

(** ** The log handle *)

(** The library may log: its handle, if any, is open, and the mutex is free. *)
Record log_ok (p : process) : Prop := {
  log_open f : log_file (g p) = Some f → f ∈ open_files p;
  log_free : log_file_mutex p = false;
  log_stdout : stdout ∈ open_files p;
  log_next f : f ∈ open_files p → f < next_file p;
}.

Lemma write_log_run e p :
  log_ok p →
  write_log e p = Ret tt (match log_file (g p) with
                          | Some f => p <| log_file_mutex := false |> <| written ::= cons (f, e) |>
                          | None => p
                          end).
Proof.
  intros [Ho Hm _ _]. unfold write_log, lock_log_file, unlock_log_file, fprintf. run.
  destruct (log_file (g p)) as [f|] eqn:Hf; [|done]. rw Hm. cbn. rw Hf. cbn.
  by rw bool_decide_eq_true_2; [apply Ho|].
Qed.

Definition gated (level : Z) (p : process) : bool :=
  negb (initialized (g p)) || (level <? log_level (gcfg p)).

(** What one call of [rdma_intercept_log] appends to what the process has written. *)
Definition logged (level : Z) (msg : string) (p : process) : list (file * entry) :=
  if gated level p then []
  else match log_file (g p) with Some f => [(f, Line level (clip msg))] | None => [] end.

Lemma log_run level msg p :
  log_ok p →
  ∃ p', rdma_intercept_log level msg p = Ret tt p' ∧
    written p' = logged level msg p ++ written p ∧ g p' = g p ∧ log_ok p' ∧
    open_files p' = open_files p ∧ sys p' = sys p ∧ errno p' = errno p.
Proof.
  intros Hok. unfold rdma_intercept_log, logged, gated. run.
  destruct (negb _ || _); [by exists p|].
  rw write_log_run //. eexists. split; [reflexivity|].
  destruct (log_file (g p)) as [f|]; [|done]. split_and!; try done.
  destruct Hok. by split.
Qed.

(** ** Properties *)

(** A message is written exactly when the library is initialised, has a log
    file, and the message's level reaches the configured one; it is cut to the
    buffer, goes to the current handle, and nothing else changes. *)
Theorem log_respects_level level msg p :
  log_ok p →
  ∃ p', rdma_intercept_log level msg p = Ret tt p' ∧ g p' = g p ∧ log_ok p' ∧
    written p' =
      match initialized (g p), log_file (g p) with
      | true, Some f =>
          if log_level (gcfg p) <=? level then (f, Line level (clip msg)) :: written p
          else written p
      | _, _ => written p
      end.
Proof.
  intros Hok. destruct (log_run level msg p Hok) as (p' & Hrun & Hw & Hg & Hok' & _).
  exists p'. split_and!; [done..|]. rw Hw. unfold logged, gated.
  destruct (initialized (g p)); cbn; [|done].
  rw Z.ltb_antisym. destruct (log_level (gcfg p) <=? level), (log_file (g p)); done.
Qed.

Definition example_system : system :=
  mk_system (λ _, None) (λ _, None) (λ path, negb (String.eqb path "/nowhere")) (λ _, true)
    (λ _, true) true (λ _, true).

Lemma start_ok y : log_ok (start y).
Proof.
  unfold start, g_intercept_state. split; cbn; [done|done|by left|].
  intros f Hf. apply list_elem_of_In in Hf. cbn in Hf. unfold stdout in Hf. lia.
Qed.

(** An initialised library that logs to handle 1. *)
Definition logging_process : process :=
  (start example_system) <| g := g_intercept_state <| initialized := true |>
     <| log_file := Some 1 |> |> <| open_files := [1; 0] |> <| next_file := 2 |>.

Lemma logging_process_ok : log_ok logging_process.
Proof.
  split; cbn; [by intros f [= <-]; left|done|by right; left|].
  intros f Hf. apply list_elem_of_In in Hf. cbn in Hf. lia.
Qed.

Lemma log_respects_level_witness :
  ∃ p', rdma_intercept_log LOG_LEVEL_WARN "hello" logging_process = Ret tt p' ∧
    written p' = [(1, Line LOG_LEVEL_WARN "hello")].
Proof.
  destruct (log_respects_level LOG_LEVEL_WARN "hello" logging_process logging_process_ok)
    as (p' & H & _ & _ & Hw). exists p'. split; [exact H|]. rw Hw. reflexivity.
Defined.

(** When the new log file cannot be opened, [rdma_intercept_set_log_file]
    reports failure but has already closed the old file and keeps its handle: the
    next message that passes the level gate is written to a closed file. *)
Theorem set_log_file_dangles path f level msg p :
  log_ok p → initialized (g p) = true → log_file (g p) = Some f → f ≠ stdout →
  Z.of_nat (String.length path) < MAX_CONFIG_FILE_PATH →
  ensure_log_directory path p = Ret 0 p → sys_append (sys p) path = false →
  log_level (gcfg p) ≤ level →
  ∃ p', rdma_intercept_set_log_file (Some path) p = Ret (-1) p' ∧
    log_file_path (gcfg p') = log_file_path (gcfg p) ∧
    rdma_intercept_log level msg p' = Crash.
Proof.
  intros [Ho Hm _ _] Hi Hf Hne Hlen Hdir Happ Hlev.
  unfold rdma_intercept_set_log_file, lock_log_file, unlock_log_file, fclose, fopen_append.
  rw (proj2 (Z.leb_gt _ _) Hlen). run. rw Hdir. cbn. rw Hm. cbn. rw Hf.
  rw (proj2 (Z.eqb_neq _ _) Hne). cbn. rw bool_decide_eq_true_2; [by apply Ho|].
  cbn. rw Happ. cbn. eexists. split_and!; [reflexivity|done|].
  unfold rdma_intercept_log, write_log, lock_log_file, fprintf. run. cbn. rw Hi.
  unfold gcfg in *. cbn. rw (proj2 (Z.ltb_ge _ _) Hlev). cbn. rw Hf. cbn. rw Hf.
  by rw bool_decide_eq_false_2; [rw list_elem_of_filter; intros []|].
Qed.

Lemma set_log_file_dangles_witness :
  ∃ p', rdma_intercept_set_log_file (Some "/nowhere") logging_process = Ret (-1) p' ∧
    rdma_intercept_log LOG_LEVEL_ERROR "lost" p' = Crash.
Proof.
  destruct (set_log_file_dangles "/nowhere" 1 LOG_LEVEL_ERROR "lost" logging_process
    logging_process_ok eq_refl eq_refl ltac:(discriminate) ltac:(reflexivity) eq_refl eq_refl
    ltac:(discriminate)) as (p' & H1 & _ & H2).
  exists p'. exact (conj H1 H2).
Defined.

(** When it does open, logging goes to the new file. *)
Lemma set_log_file_run path p :
  log_ok p → Z.of_nat (String.length path) < MAX_CONFIG_FILE_PATH →
  ensure_log_directory path p = Ret 0 p → sys_append (sys p) path = true →
  ∃ p', rdma_intercept_set_log_file (Some path) p = Ret 0 p' ∧ log_ok p' ∧
    gcfg p' = (gcfg p) <| log_file_path := path |> ∧ log_file (g p') = Some (next_file p) ∧
    initialized (g p') = initialized (g p).
Proof.
  intros [Ho Hm Hs Hn] Hlen Hdir Happ.
  unfold rdma_intercept_set_log_file, lock_log_file, unlock_log_file, fclose, fopen_append,
    set_gconfig, set_log_handle.
  rw (proj2 (Z.leb_gt _ _) Hlen). run. rw Hdir. cbn. rw Hm. cbn.
  set (q := match log_file (g p) with Some f => _ | None => _ end).
  assert (∃ fs, q (p <| log_file_mutex := true |>) = Ret tt (p <| log_file_mutex := true |> <| open_files := fs |>) ∧
    stdout ∈ fs ∧ ∀ f, f ∈ fs → f ∈ open_files p) as (fs & Hq & Hstd & Hsub).
  { subst q. destruct (log_file (g p)) as [f|] eqn:Hf; [|by exists (open_files p)].
    destruct (Z.eqb_spec f stdout) as [->|Hne]; [by exists (open_files p)|].
    cbn. rw bool_decide_eq_true_2; [by apply Ho|]. eexists. split; [reflexivity|].
    split; [by rw list_elem_of_filter; split; [apply not_eq_sym|]|].
    intros f'. rw list_elem_of_filter. tauto. }
  rw Hq. cbn. rw Happ. cbn.
  match goal with |- context [rdma_intercept_log _ _ ?s] =>
    destruct (log_run LOG_LEVEL_INFO ("Log file changed to " +:+ path) s)
      as (p' & Hrun & _ & Hg & Hok & _) end.
  { split; cbn; [by intros f [= <-]; left|done|by right|].
    intros f [->|Hf]%elem_of_cons; [lia|]. specialize (Hn f (Hsub f Hf)). lia. }
  rw Hrun. exists p'. unfold gcfg. rw Hg. by split_and!.
Qed.

End Intercept.
