(* ===== verification/Config.v ===== *)
(** * Configuration ([src/config.c])

    Parsing of booleans, log levels, numbers and strings, of configuration lines
    and files, the environment variables, and the calls that load, set and get
    the configuration of the library. *)

From S2P Require Import Prelude CString Intercept.

Module Config.
Import Intercept.

Definition DEFAULT_CONFIG_FILE : string := "/etc/rdma_intercept.conf".
Definition ENV_CONFIG_FILE : string := "RDMA_INTERCEPT_CONFIG".

(** ** Values.  [None] is the return code -1. *)

Definition parse_bool (value : string) : option bool :=
  let v := skip is_space value in
  if strcase_eq v "true" || strcase_eq v "yes" || strcase_eq v "on" || strcase_eq v "1"
  then Some true
  else if strcase_eq v "false" || strcase_eq v "no" || strcase_eq v "off" || strcase_eq v "0"
  then Some false
  else None.

Definition parse_log_level_value (value : string) : option Z :=
  let v := skip is_space value in
  if strcase_eq v "debug" then Some LOG_LEVEL_DEBUG
  else if strcase_eq v "info" then Some LOG_LEVEL_INFO
  else if strcase_eq v "warn" || strcase_eq v "warning" then Some LOG_LEVEL_WARN
  else if strcase_eq v "error" then Some LOG_LEVEL_ERROR
  else if strcase_eq v "fatal" then Some LOG_LEVEL_FATAL
  else None.

Definition is_quote (c : ascii) : bool :=
  (nat_of_ascii c =? 34)%nat || (nat_of_ascii c =? 39)%nat.
Definition space_or_quote (c : ascii) : bool := is_space c || is_quote c.

Definition parse_string (value : string) (max_len : Z) : option string :=
  if max_len =? 0 then None else
  let v := rskip space_or_quote (skip space_or_quote value) in
  if max_len <=? Z.of_nat (String.length v) then None else Some v.

(** The four [uint32_t] limits share this body. *)
Definition parse_u32 (value : string) : option Z :=
  let val := strtol value in
  if (val <=? 0) || (UINT32_MAX <? val) then None else Some (u32 val).

Section Parsers.
Context (value : string) (config : intercept_config_t).

Definition parse_enable_intercept : option intercept_config_t :=
  b ← parse_bool value; Some (config <| enable_intercept := b |>).
Definition parse_log_qp_creation : option intercept_config_t :=
  b ← parse_bool value; Some (config <| log_qp_creation := b |>).
Definition parse_log_all_operations : option intercept_config_t :=
  b ← parse_bool value; Some (config <| log_all_operations := b |>).
Definition parse_log_level_config : option intercept_config_t :=
  l ← parse_log_level_value value; Some (config <| log_level := l |>).
Definition parse_log_file_path : option intercept_config_t :=
  s ← parse_string value MAX_CONFIG_FILE_PATH; Some (config <| log_file_path := s |>).
Definition parse_enable_qp_control : option intercept_config_t :=
  b ← parse_bool value; Some (config <| enable_qp_control := b |>).
Definition parse_max_qp_per_process : option intercept_config_t :=
  n ← parse_u32 value; Some (config <| max_qp_per_process := n |>).
Definition parse_max_send_wr_limit : option intercept_config_t :=
  n ← parse_u32 value; Some (config <| max_send_wr_limit := n |>).
Definition parse_max_recv_wr_limit : option intercept_config_t :=
  n ← parse_u32 value; Some (config <| max_recv_wr_limit := n |>).
Definition parse_allow_rc_qp : option intercept_config_t :=
  b ← parse_bool value; Some (config <| allow_rc_qp := b |>).
Definition parse_allow_uc_qp : option intercept_config_t :=
  b ← parse_bool value; Some (config <| allow_uc_qp := b |>).
Definition parse_allow_ud_qp : option intercept_config_t :=
  b ← parse_bool value; Some (config <| allow_ud_qp := b |>).
Definition parse_max_global_qp : option intercept_config_t :=
  n ← parse_u32 value; Some (config <| max_global_qp := n |>).
End Parsers.

Definition parser := string → intercept_config_t → option intercept_config_t.

Definition config_table : list (string * parser) :=
  [("enable_intercept", parse_enable_intercept);
   ("log_qp_creation", parse_log_qp_creation);
   ("log_all_operations", parse_log_all_operations);
   ("log_level", parse_log_level_config);
   ("log_file_path", parse_log_file_path);
   ("enable_qp_control", parse_enable_qp_control);
   ("max_qp_per_process", parse_max_qp_per_process);
   ("max_send_wr_limit", parse_max_send_wr_limit);
   ("max_recv_wr_limit", parse_max_recv_wr_limit);
   ("allow_rc_qp", parse_allow_rc_qp);
   ("allow_uc_qp", parse_allow_uc_qp);
   ("allow_ud_qp", parse_allow_ud_qp);
   ("max_global_qp", parse_max_global_qp)].

(** ** Lines *)

Definition trim_whitespace (str : string) : string := rskip is_space (skip is_space str).

Definition is_equals (c : ascii) : bool := Ascii.eqb c "="%char.

Fixpoint lookup_parser (key : string) (table : list (string * parser)) : option parser :=
  match table with
  | [] => None
  | (k, p) :: table' => if strcase_eq key k then Some p else lookup_parser key table'
  end.

(** [None] is -1; a blank line or a comment changes nothing. *)
Definition parse_config_line (line : string) (config : intercept_config_t) :
    option intercept_config_t :=
  let line := trim_whitespace line in
  match line with
  | EmptyString => Some config
  | String c _ =>
      if Ascii.eqb c "#"%char || Ascii.eqb c ";"%char then Some config else
      match break_at is_equals line with
      | (_, EmptyString) => None
      | (lhs, String _ rhs) =>
          match lookup_parser (trim_whitespace lhs) config_table with
          | Some p => p (trim_whitespace rhs) config
          | None => None
          end
      end
  end.

(** ** Environment *)

Definition load_env (getenv : string → option string) (name : string)
    (f : string → intercept_config_t → intercept_config_t) (config : intercept_config_t) :
    intercept_config_t :=
  match getenv name with Some v => f v config | None => config end.

(** A parser that fails leaves the configuration as it was. *)
Definition or_keep (p : parser) (v : string) (config : intercept_config_t) : intercept_config_t :=
  default config (p v config).

Definition parse_enable_mr_control (v : string) (config : intercept_config_t) :
    option intercept_config_t :=
  b ← parse_bool v; Some (config <| enable_mr_control := b |>).
Definition parse_max_mr_per_process (v : string) (config : intercept_config_t) :
    option intercept_config_t :=
  n ← parse_u32 v; Some (config <| max_mr_per_process := n |>).
Definition parse_max_memory_per_process (v : string) (config : intercept_config_t) :
    option intercept_config_t :=
  if 0 <? strtoull v then Some (config <| max_memory_per_process := strtoull v |>) else None.

Definition load_config_from_env (getenv : string → option string) (config : intercept_config_t) :
    intercept_config_t :=
  let get name p := load_env getenv name (or_keep p) in
  let config := get "RDMA_INTERCEPT_ENABLE_QP_CONTROL" parse_enable_qp_control config in
  let config := get "RDMA_INTERCEPT_MAX_QP_PER_PROCESS" parse_max_qp_per_process config in
  let config := get "RDMA_INTERCEPT_MAX_GLOBAL_QP" parse_max_global_qp config in
  let config := get "RDMA_INTERCEPT_MAX_SEND_WR_LIMIT" parse_max_send_wr_limit config in
  let config := get "RDMA_INTERCEPT_MAX_RECV_WR_LIMIT" parse_max_recv_wr_limit config in
  let config := get "RDMA_INTERCEPT_ALLOW_RC_QP" parse_allow_rc_qp config in
  let config := get "RDMA_INTERCEPT_ALLOW_UC_QP" parse_allow_uc_qp config in
  let config := get "RDMA_INTERCEPT_ALLOW_UD_QP" parse_allow_ud_qp config in
  let config := get "RDMA_INTERCEPT_ENABLE_MR_CONTROL" parse_enable_mr_control config in
  let config := get "RDMA_INTERCEPT_MAX_MR_PER_PROCESS" parse_max_mr_per_process config in
  let config := get "RDMA_INTERCEPT_MAX_MEMORY_PER_PROCESS" parse_max_memory_per_process config in
  get "RDMA_INTERCEPT_LOG_FILE_PATH" parse_log_file_path config.

(** ** Files *)

Definition is_eol (c : ascii) : bool := is_newline c || (nat_of_ascii c =? 13)%nat.

(** One round of the loop of [rdma_intercept_load_config]: the configuration and
    the error count so far. *)
Fixpoint parse_lines (lines : list string) (line_num errors : Z) (config : intercept_config_t) :
    M process (Z * intercept_config_t) :=
  match lines with
  | [] => mret (errors, config)
  | l :: lines' =>
      let line := fst (break_at is_eol l) in
      match parse_config_line line config with
      | Some config' => parse_lines lines' (line_num + 1) errors config'
      | None =>
          rdma_intercept_log LOG_LEVEL_WARN
            ("Invalid config line " +:+ print_dec (line_num + 1) +:+ ": " +:+ line);;
          parse_lines lines' (line_num + 1) (errors + 1) config
      end
  end.

Definition open_config (y : system) (path : string) : option (string * string) :=
  match sys_read y path with
  | Some text => Some (path, text)
  | None =>
      e ← sys_getenv y ENV_CONFIG_FILE; text ← sys_read y e; Some (e, text)
  end.

Definition rdma_intercept_load_config (config_file : option string) : M process Z :=
  p ← get;
  let path := default DEFAULT_CONFIG_FILE config_file in
  let temp_config := load_config_from_env (sys_getenv (sys p)) (gcfg p) in
  match open_config (sys p) path with
  | None =>
      rdma_intercept_log LOG_LEVEL_INFO "Config file not found, using defaults + env";;
      set_gconfig (λ _, temp_config);;
      mret 0
  | Some (path, text) =>
      rdma_intercept_log LOG_LEVEL_INFO ("Loading config from: " +:+ path);;
      r ← parse_lines (fgets_lines 1024 text) 0 0 temp_config;
      let '(errors, temp_config) := r in
      (if 0 <? errors
       then rdma_intercept_log LOG_LEVEL_WARN
              ("Config parsing completed with " +:+ print_dec errors +:+ " errors")
       else mret tt);;
      set_gconfig (λ _, temp_config);;
      rdma_intercept_log LOG_LEVEL_INFO "Config loaded successfully";;
      mret 0
  end.

(** ** Setting and getting *)

Definition lock_log : M process unit := λ p,
  if log_mutex (g p) then Hang else Ret tt (p <| g := (g p) <| log_mutex := true |> |>).
Definition unlock_log : M process unit := modify (λ p, p <| g := (g p) <| log_mutex := false |> |>).

Definition rdma_intercept_set_config (config : option intercept_config_t) : M process Z :=
  match config with
  | None => mret (-1)
  | Some c =>
      if (log_level c <? LOG_LEVEL_DEBUG) || (LOG_LEVEL_FATAL <? log_level c) then mret (-1) else
      if MAX_CONFIG_FILE_PATH <=? Z.of_nat (String.length (log_file_path c)) then mret (-1) else
      lock_log;;
      set_gconfig (λ _, c);;
      unlock_log;;
      (if 0 <? Z.of_nat (String.length (log_file_path c))
       then rdma_intercept_set_log_file (Some (log_file_path c));; mret tt
       else mret tt);;
      rdma_intercept_log LOG_LEVEL_INFO "Configuration updated";;
      mret 0
  end.

Definition rdma_intercept_get_config (out : option intercept_config_t) :
    M process (option intercept_config_t) :=
  match out with
  | None => mret None
  | Some _ => lock_log;; p ← get; unlock_log;; mret (Some (gcfg p))
  end.

Definition bool_string (b : bool) : string := if b then "true" else "false".

Definition rdma_intercept_print_config : M process unit :=
  r ← rdma_intercept_get_config (Some default_config);
  let config := default default_config r in
  let info := rdma_intercept_log LOG_LEVEL_INFO in
  info "Current Configuration:";;
  info ("  enable_intercept: " +:+ bool_string (enable_intercept config));;
  info ("  log_qp_creation: " +:+ bool_string (log_qp_creation config));;
  info ("  log_all_operations: " +:+ bool_string (log_all_operations config));;
  info ("  log_level: " +:+ print_dec (log_level config));;
  info ("  log_file_path: " +:+ log_file_path config).

(** ** Lines of the form key=value *)

Lemma parse_line_key key value p config :
  lookup_parser key config_table = Some p →
  free_of is_space key = true → free_of is_equals key = true →
  match key with
  | String c _ => negb (Ascii.eqb c "#"%char || Ascii.eqb c ";"%char)
  | EmptyString => false
  end = true →
  skip is_space value = value → rskip is_space value = value →
  parse_config_line (key +:+ "=" +:+ value) config = p value config.
Proof.
  intros Hp Hsp Heq Hc Hs Hr. unfold parse_config_line, trim_whitespace.
  destruct key as [|c key]; [done|].
  assert (Hc' : is_space c = false) by (cbn in Hsp; by destruct (is_space c)).
  assert (Hskip : skip is_space (String c key +:+ "=" +:+ value) = String c key +:+ "=" +:+ value).
  { rw append_cons. cbn [skip]. by rw Hc'. }
  assert (Hv : rskip is_space ("=" +:+ value) = "=" +:+ value).
  { change ("=" +:+ value) with (String "="%char value). cbn [rskip]. rw Hr. by destruct value. }
  rw Hskip rskip_app Hv; [done|]. apply negb_true_iff in Hc.
  rw append_cons Hc -append_cons.
  rw (break_at_app is_equals (String c key) "="%char value Heq eq_refl).
  rw (skip_free is_space (String c key) Hsp) (rskip_free _ _ Hsp) Hp Hs Hr. done.
Qed.

Lemma parse_u32_print n : 0 < n ≤ UINT32_MAX → parse_u32 (print_dec n) = Some n.
Proof.
  intros Hn. unfold parse_u32. rw -(app_empty_r (print_dec n)) strtol_print //.
  - unfold UINT32_MAX, LONG_MAX in *. lia.
  - rw (proj2 (Z.leb_gt _ _)); [lia|]. rw (proj2 (Z.ltb_ge _ _)); [lia|]. cbn.
    by rw u32_small; [width_lia|].
Qed.

Lemma digit_not_space c : is_digit c = true → is_space c = false.
Proof. destruct c as [[] [] [] [] [] [] [] []]; by vm_compute. Qed.

Lemma print_trimmed n :
  0 ≤ n → skip is_space (print_dec n) = print_dec n ∧ rskip is_space (print_dec n) = print_dec n.
Proof.
  intros Hn. pose proof (print_dec_free n is_space Hn digit_not_space).
  by rw skip_free // rskip_free.
Qed.

(** ** Whole files *)

Lemma cut_eol l : free_of is_eol l = true → fst (break_at is_eol (l +:+ newline)) = l.
Proof. intros Hl. unfold newline. by rw (break_at_app is_eol l (ascii_of_nat 10) "" Hl eq_refl). Qed.

(** What a list of lines makes of a configuration: a bad line changes nothing. *)
Definition apply_line (config : intercept_config_t) (l : string) : intercept_config_t :=
  default config (parse_config_line (fst (break_at is_eol l)) config).
Definition apply_lines (lines : list string) (config : intercept_config_t) : intercept_config_t :=
  foldl apply_line config lines.

Lemma parse_lines_run lines k e config p :
  log_ok p →
  ∃ n p', parse_lines lines k e config p = Ret (n, apply_lines lines config) p' ∧
    log_ok p' ∧ g p' = g p ∧ sys p' = sys p.
Proof.
  revert k e config p. induction lines as [|l lines IH]; intros k e config p Hok.
  - by exists e, p.
  - cbn [parse_lines apply_lines foldl]. unfold apply_line at 2.
    destruct (parse_config_line _ config) as [config'|]; cbn [default].
    + by apply IH.
    + destruct (log_run LOG_LEVEL_WARN ("Invalid config line " +:+ print_dec (k + 1) +:+ ": " +:+
        fst (break_at is_eol l)) p Hok) as (p1 & Hrun & _ & Hg & Hok1 & _ & Hsys & _).
      destruct (IH (k + 1) (e + 1) config p1 Hok1) as (n & p2 & Hp2 & Hok2 & Hg2 & Hsys2).
      exists n, p2. rw /mbind /M_bind Hrun Hp2. split_and!; [done..|congruence|congruence].
Qed.

(** The configuration [rdma_intercept_load_config] installs. *)
Definition loaded (y : system) (path : string) (base : intercept_config_t) : intercept_config_t :=
  let env := load_config_from_env (sys_getenv y) base in
  match open_config y path with
  | Some (_, text) => apply_lines (fgets_lines 1024 text) env
  | None => env
  end.

Lemma log_ok_config c p : log_ok p → log_ok (p <| g := (g p) <| config := c |> |>).
Proof. intros []. by split. Qed.

Lemma load_run file p :
  log_ok p →
  ∃ p', rdma_intercept_load_config file p = Ret 0 p' ∧ log_ok p' ∧ sys p' = sys p ∧
    g p' = (g p) <| config := loaded (sys p) (default DEFAULT_CONFIG_FILE file) (gcfg p) |>.
Proof.
  intros Hok. unfold rdma_intercept_load_config, loaded, set_gconfig.
  rw (bind_Ret _ _ p p p); [done|].
  destruct (open_config _ _) as [[path text]|].
  - edestruct (log_run LOG_LEVEL_INFO ("Loading config from: " +:+ path) p Hok)
      as (p1 & H1 & _ & Hg1 & Hok1 & _ & Hs1 & _).
    edestruct (parse_lines_run (fgets_lines 1024 text) 0 0
      (load_config_from_env (sys_getenv (sys p)) (gcfg p)) p1 Hok1) as (n & p2 & H2 & Hok2 & Hg2 & Hs2).
    rw (bind_Ret _ _ _ _ _ H1) (bind_Ret _ _ _ _ _ H2).
    set (c := apply_lines _ _) in *.
    assert (∃ p3, (if 0 <? n then rdma_intercept_log LOG_LEVEL_WARN
        ("Config parsing completed with " +:+ print_dec n +:+ " errors") else mret tt) p2 = Ret tt p3 ∧
      log_ok p3 ∧ g p3 = g p2 ∧ sys p3 = sys p2) as (p3 & H3 & Hok3 & Hg3 & Hs3).
    { destruct (0 <? n); [|by exists p2].
      edestruct (log_run LOG_LEVEL_WARN ("Config parsing completed with " +:+ print_dec n +:+ " errors")
        p2 Hok2) as (p3 & H3 & _ & ? & ? & _ & ? & _). by exists p3. }
    rw (bind_Ret _ _ _ _ _ H3).
    edestruct (log_run LOG_LEVEL_INFO "Config loaded successfully"
      (p3 <| g := (g p3) <| config := c |> |>)) as (p4 & H4 & _ & Hg4 & Hok4 & _ & Hs4 & _).
    { by apply log_ok_config. }
    run. rw H4. exists p4. split_and!; [done..|cbn in Hs4; congruence|].
    cbn in Hg4. rw Hg4. do 2 (f_equal; try congruence).
  - edestruct (log_run LOG_LEVEL_INFO "Config file not found, using defaults + env" p Hok)
      as (p1 & H1 & _ & Hg1 & Hok1 & _ & Hs1 & _).
    rw (bind_Ret _ _ _ _ _ H1). run. eexists. split_and!; [reflexivity| |done|].
    + by apply log_ok_config.
    + cbn. by rw Hg1.
Qed.

(** ** Properties *)

Definition level_string (l : Z) : string :=
  match l with 0 => "debug" | 1 => "info" | 2 => "warn" | 3 => "error" | _ => "fatal" end.

(** The (key, value) pairs of a file that sets everything a file can set. *)
Definition settings (c : intercept_config_t) : list (string * string) :=
  [("enable_intercept", bool_string (enable_intercept c));
   ("log_qp_creation", bool_string (log_qp_creation c));
   ("log_all_operations", bool_string (log_all_operations c));
   ("log_level", level_string (log_level c));
   ("log_file_path", log_file_path c);
   ("enable_qp_control", bool_string (enable_qp_control c));
   ("max_qp_per_process", print_dec (max_qp_per_process c));
   ("max_send_wr_limit", print_dec (max_send_wr_limit c));
   ("max_recv_wr_limit", print_dec (max_recv_wr_limit c));
   ("allow_rc_qp", bool_string (allow_rc_qp c));
   ("allow_uc_qp", bool_string (allow_uc_qp c));
   ("allow_ud_qp", bool_string (allow_ud_qp c));
   ("max_global_qp", print_dec (max_global_qp c))].

Definition render_line (kv : string * string) : string := fst kv +:+ "=" +:+ snd kv.
Definition render (kvs : list (string * string)) : string :=
  foldr (λ kv t, render_line kv +:+ newline +:+ t) EmptyString kvs.

(** A configuration a file can express: limits in range and a plain path. *)
Record expressible (c : intercept_config_t) : Prop := {
  ex_qp : 0 < max_qp_per_process c ≤ UINT32_MAX;
  ex_send : 0 < max_send_wr_limit c ≤ UINT32_MAX;
  ex_recv : 0 < max_recv_wr_limit c ≤ UINT32_MAX;
  ex_global : 0 < max_global_qp c ≤ UINT32_MAX;
  ex_level : LOG_LEVEL_DEBUG ≤ log_level c ≤ LOG_LEVEL_FATAL;
  ex_path : free_of space_or_quote (log_file_path c) = true;
  ex_path_length : Z.of_nat (String.length (log_file_path c)) < MAX_CONFIG_FILE_PATH;
}.

(** One line of the file: what it needs and what it does. *)
Record good_line (kv : string * string) (p : parser) : Prop := {
  gl_parse config : parse_config_line (render_line kv) config = p (snd kv) config;
  gl_eol : free_of is_eol (render_line kv) = true;
  gl_length : (String.length (render_line kv) < 1023)%nat;
}.

Lemma eol_space c : is_space c = false → is_eol c = false.
Proof. destruct c as [[] [] [] [] [] [] [] []]; by vm_compute. Qed.

Lemma free_space_eol s : free_of is_space s = true → free_of is_eol s = true.
Proof.
  apply all_chars_impl. intros c Hc. apply negb_true_iff in Hc. by rw eol_space.
Qed.

(** The keys of the table, with a value free of white space. *)
Lemma good_line_intro key value p :
  lookup_parser key config_table = Some p →
  free_of is_space key = true → free_of is_equals key = true →
  match key with
  | String c _ => negb (Ascii.eqb c "#"%char || Ascii.eqb c ";"%char)
  | EmptyString => false
  end = true →
  (String.length key < 100)%nat → (String.length value < 900)%nat →
  free_of is_space value = true → good_line (key, value) p.
Proof.
  intros Hp Hsp Heq Hc Hk Hv Hfree. split; unfold render_line; cbn [fst snd].
  - intros config. by apply parse_line_key; [..|apply skip_free|apply rskip_free].
  - unfold free_of. rw !all_chars_app. rewrite -!/(free_of _ _) !free_space_eol //.
  - rw !length_app_string. change (String.length "=") with 1%nat. lia.
Qed.

Lemma good_settings c : expressible c →
  Forall2 good_line (settings c) (snd <$> config_table).
Proof.
  intros [].
  assert (Hb : ∀ b, free_of is_space (bool_string b) = true) by by intros [].
  assert (Hbl : ∀ b, (String.length (bool_string b) < 900)%nat) by (intros []; cbn; lia).
  assert (Hn : ∀ n, 0 < n ≤ UINT32_MAX → free_of is_space (print_dec n) = true).
  { intros n ?. apply print_dec_free; [lia|apply digit_not_space]. }
  assert (Hnl : ∀ n, 0 < n ≤ UINT32_MAX → (String.length (print_dec n) < 900)%nat).
  { intros n ?. pose proof (length_print 10 n). unfold UINT32_MAX in *. lia. }
  assert (Hlev : ∀ l, free_of is_space (level_string l) = true ∧
    (String.length (level_string l) < 900)%nat).
  { intros l. unfold level_string. repeat case_match; cbn; split; done || lia. }
  assert (Hpath : free_of is_space (log_file_path c) = true).
  { eapply all_chars_impl, ex_path0. intros x. unfold space_or_quote. by destruct (is_space x). }
  unfold MAX_CONFIG_FILE_PATH in *.
  repeat (constructor; [apply good_line_intro; cbn [settings]; first [done|apply Hlev|by auto|cbn; lia|unfold lt; cbn -[level_string]; apply Hlev|lia]|]);
    constructor.
Qed.

Lemma fgets_render kvs ps :
  Forall2 good_line kvs ps →
  fgets_lines 1024 (render kvs) = (λ kv, render_line kv +:+ newline) <$> kvs.
Proof.
  induction 1 as [|kv p kvs ps [_ He Hl] _ IH]; [done|].
  cbn [render foldr]. fold (render kvs). rw fgets_line; [done| |].
  - eapply all_chars_impl, He. intros x. rw !negb_true_iff. unfold is_eol.
    by destruct (is_newline x).
  - by rw IH.
Qed.

(** Reading the rendered lines runs the parsers on the values, in order. *)
Lemma apply_render kvs ps config :
  Forall2 good_line kvs ps →
  apply_lines (fgets_lines 1024 (render kvs)) config =
    foldl (λ config vp, default config ((snd vp) (fst vp) config)) config
      (zip (snd <$> kvs) ps).
Proof.
  intros H. rw (fgets_render _ _ H). revert config.
  induction H as [|kv p kvs ps [Hp He Hl] _ IH]; intros config; [done|].
  unfold apply_lines in *. cbn [fmap list_fmap foldl zip zip_with fst snd].
  rw IH. unfold apply_line. by rw cut_eol // Hp.
Qed.

Lemma parse_bool_string b : parse_bool (bool_string b) = Some b.
Proof. by destruct b. Qed.

Lemma parse_level_string l :
  LOG_LEVEL_DEBUG ≤ l ≤ LOG_LEVEL_FATAL → parse_log_level_value (level_string l) = Some l.
Proof.
  unfold LOG_LEVEL_DEBUG, LOG_LEVEL_FATAL. intros Hl.
  assert (l = 0 ∨ l = 1 ∨ l = 2 ∨ l = 3 ∨ l = 4) as Hc by lia.
  by repeat (destruct Hc as [->|Hc]; [done|]); subst.
Qed.

Lemma parse_path s :
  free_of space_or_quote s = true → Z.of_nat (String.length s) < MAX_CONFIG_FILE_PATH →
  parse_string s MAX_CONFIG_FILE_PATH = Some s.
Proof.
  intros Hf Hl. unfold parse_string. cbn [Z.eqb MAX_CONFIG_FILE_PATH].
  rw (skip_free _ _ Hf) (rskip_free _ _ Hf) (proj2 (Z.leb_gt _ _) Hl). done.
Qed.

(** The configuration [c] where a file decides, and [b] elsewhere. *)
Definition merge (c b : intercept_config_t) : intercept_config_t :=
  c <| allow_rq_qp := allow_rq_qp b |> <| enable_mr_control := enable_mr_control b |>
    <| max_mr_per_process := max_mr_per_process b |>
    <| max_memory_per_process := max_memory_per_process b |>.

Lemma foldl_cons {A B} (f : A → B → A) a x l : foldl f a (x :: l) = foldl f (f a x) l.
Proof. done. Qed.

Lemma apply_settings c b :
  expressible c → apply_lines (fgets_lines 1024 (render (settings c))) b = merge c b.
Proof.
  intros He. rw (apply_render _ _ _ (good_settings c He)). destruct He.
  cbn [settings config_table fmap list_fmap zip zip_with fst snd].
  unfold parse_enable_intercept, parse_log_qp_creation, parse_log_all_operations,
    parse_log_level_config, parse_log_file_path, parse_enable_qp_control,
    parse_max_qp_per_process, parse_max_send_wr_limit, parse_max_recv_wr_limit,
    parse_allow_rc_qp, parse_allow_uc_qp, parse_allow_ud_qp, parse_max_global_qp.
  repeat (rewrite foldl_cons; cbn beta; cbn [fst snd];
    first [rw parse_bool_string|rw parse_level_string //|rw parse_path //|rw parse_u32_print //];
    cbn [mbind option_bind default from_option id]).
Qed.

(** C6: a configuration file round-trips: loading a file that holds the thirteen
    settings of [c], one per line as key=value, installs exactly [c] in the
    fields a file can set, whatever the configuration was before and whatever the
    environment variables of those settings say; the four other fields come from
    the environment or stay. (A comment of the source gives the environment
    priority.) *)
Theorem config_file_roundtrip c path p :
  log_ok p → expressible c → sys_read (sys p) path = Some (render (settings c)) →
  ∃ p', rdma_intercept_load_config (Some path) p = Ret 0 p' ∧ log_ok p' ∧
    gcfg p' = merge c (load_config_from_env (sys_getenv (sys p)) (gcfg p)).
Proof.
  intros Hok He Hread. destruct (load_run (Some path) p Hok) as (p' & Hrun & Hok' & _ & Hg).
  exists p'. split_and!; [done..|]. unfold gcfg at 1. rw Hg. cbn [config default].
  unfold loaded, open_config. cbn [default]. rw Hread. by apply apply_settings.
Qed.

(** An environment that asks for 7 QPs and a file that asks for 25. *)
Definition contested : process :=
  start (example_system <| sys_getenv := λ v,
    if String.eqb v "RDMA_INTERCEPT_MAX_QP_PER_PROCESS" then Some "7" else None |>
    <| sys_read := λ _, Some (render (settings (default_config <| max_qp_per_process := 25 |>))) |>).

Lemma config_file_roundtrip_witness :
  let c := default_config <| max_qp_per_process := 25 |> in
  ∃ p', rdma_intercept_load_config (Some "/etc/x.conf") contested = Ret 0 p' ∧
    load_config_from_env (sys_getenv (sys contested)) default_config
      = default_config <| max_qp_per_process := 7 |> ∧
    max_qp_per_process (gcfg p') = 25.
Proof.
  intros c. destruct (config_file_roundtrip c "/etc/x.conf" contested) as (p' & H & _ & Hg).
  - apply start_ok.
  - split; vm_compute; try split; congruence.
  - reflexivity.
  - exists p'. split; [exact H|]. split; [vm_compute; reflexivity|]. rw Hg. reflexivity.
Defined.

(** Limits are positive and fit their types, the level is one of the five, the
    path fits its array. *)
Record config_ok (c : intercept_config_t) : Prop := {
  cfg_qp : 0 < max_qp_per_process c ≤ UINT32_MAX;
  cfg_send : 0 < max_send_wr_limit c ≤ UINT32_MAX;
  cfg_recv : 0 < max_recv_wr_limit c ≤ UINT32_MAX;
  cfg_global : 0 < max_global_qp c ≤ UINT32_MAX;
  cfg_mr : 0 < max_mr_per_process c ≤ UINT32_MAX;
  cfg_memory : 0 < max_memory_per_process c ≤ UINT64_MAX;
  cfg_level : LOG_LEVEL_DEBUG ≤ log_level c ≤ LOG_LEVEL_FATAL;
  cfg_path : Z.of_nat (String.length (log_file_path c)) < MAX_CONFIG_FILE_PATH;
}.

Definition keeps_ok (p : parser) : Prop :=
  ∀ v c c', config_ok c → p v c = Some c' → config_ok c'.

Lemma parse_u32_range v n : parse_u32 v = Some n → 0 < n ≤ UINT32_MAX.
Proof.
  unfold parse_u32. destruct (Z.leb_spec (strtol v) 0); [done|].
  destruct (Z.ltb_spec UINT32_MAX (strtol v)); [done|]. cbn.
  intros [= <-]. rw u32_small; [width_lia|lia].
Qed.

Lemma parse_level_range v l :
  parse_log_level_value v = Some l → LOG_LEVEL_DEBUG ≤ l ≤ LOG_LEVEL_FATAL.
Proof.
  unfold parse_log_level_value, LOG_LEVEL_DEBUG, LOG_LEVEL_INFO, LOG_LEVEL_WARN,
    LOG_LEVEL_ERROR, LOG_LEVEL_FATAL.
  repeat case_match; intros [= <-]; lia.
Qed.

Lemma parse_string_length v n s :
  parse_string v n = Some s → Z.of_nat (String.length s) < n.
Proof.
  unfold parse_string. destruct (n =? 0); [done|].
  destruct (Z.leb_spec n (Z.of_nat (String.length (rskip space_or_quote (skip space_or_quote v)))));
    [done|]. by intros [= <-].
Qed.

Lemma strtoull_range v : 0 ≤ strtoull v ≤ UINT64_MAX.
Proof.
  unfold strtoull. destruct (sign _) as [neg t].
  assert (0 ≤ digits 0 t).
  { clear. assert (H : ∀ acc, 0 ≤ acc → 0 ≤ digits acc t); [|by apply H].
    induction t as [|c t IH]; intros acc Ha; cbn; [done|].
    destruct (digit c) as [d|] eqn:Hd; [|done]. apply IH. unfold digit in Hd.
    repeat case_match; simplify_eq.
    apply andb_prop in H as [H%Nat.leb_le _]. lia. }
  destruct (Z.ltb_spec UINT64_MAX (digits 0 t)); [unfold UINT64_MAX; lia|].
  destruct neg; [|lia]. pose proof (u64_range (- digits 0 t)). unfold is_u64, UINT64_MAX in *. lia.
Qed.

(** Every parser of the table, and those only the environment reaches. *)
Ltac keeps :=
  intros v c c' [];
  match goal with |- ?f _ _ = _ → _ => unfold f end;
  match goal with |- (?m ≫= _) = _ → _ => destruct m eqn:?; cbn; [|done] end;
  intros [= <-]; split; cbn;
  eauto using parse_u32_range, parse_level_range, parse_string_length.

Lemma env_parsers_ok :
  keeps_ok parse_enable_mr_control ∧ keeps_ok parse_max_mr_per_process ∧
  keeps_ok parse_max_memory_per_process.
Proof.
  split_and!; [keeps..|].
  intros v c c' []. unfold parse_max_memory_per_process.
  destruct (Z.ltb_spec 0 (strtoull v)); [|done]. intros [= <-].
  split; cbn; try done. pose proof (strtoull_range v). lia.
Qed.

Lemma table_ok : Forall (λ kp, keeps_ok (snd kp)) config_table.
Proof. repeat (constructor; [cbn; keeps|]). constructor. Qed.

Lemma lookup_parser_ok key table p :
  Forall (λ kp, keeps_ok (snd kp)) table → lookup_parser key table = Some p → keeps_ok p.
Proof.
  induction 1 as [|[k q] table Hq _ IH]; cbn; [done|].
  destruct (strcase_eq key k); [by intros [= <-]|done].
Qed.

Lemma parse_config_line_ok line : keeps_ok (λ _, parse_config_line line).
Proof.
  intros v c c' Hc. unfold parse_config_line.
  destruct (trim_whitespace line) as [|x t]; [by intros [= <-]|].
  destruct (_ || _); [by intros [= <-]|].
  destruct (break_at _ _) as [lhs [|y rhs]]; [done|].
  destruct (lookup_parser _ config_table) as [p|] eqn:Hp; [|done].
  by apply (lookup_parser_ok _ _ _ table_ok Hp).
Qed.

Lemma apply_lines_ok lines c : config_ok c → config_ok (apply_lines lines c).
Proof.
  unfold apply_lines. revert c. induction lines as [|l lines IH]; intros c Hc; [done|].
  rw foldl_cons. apply IH. unfold apply_line.
  destruct (parse_config_line _ c) as [c'|] eqn:E; [|done].
  by apply (parse_config_line_ok (fst (break_at is_eol l)) "" c c').
Qed.

Lemma load_env_ok getenv name p c :
  keeps_ok p → config_ok c → config_ok (load_env getenv name (or_keep p) c).
Proof.
  intros Hp Hc. unfold load_env, or_keep. destruct (getenv name) as [v|]; [|done].
  destruct (p v c) as [c'|] eqn:E; [|done]. by apply (Hp v c).
Qed.

Lemma load_config_from_env_ok getenv c :
  config_ok c → config_ok (load_config_from_env getenv c).
Proof.
  intros Hc. unfold load_config_from_env. destruct env_parsers_ok as (H1 & H2 & H3).
  pose proof table_ok as Ht. unfold config_table in Ht.
  repeat match type of Ht with
  | Forall _ (_ :: _) => apply Forall_cons in Ht as [? Ht]; cbn [snd] in *
  end.
  cbv zeta. repeat (apply load_env_ok; [assumption|]). done.
Qed.

(** C33: whatever the environment, the configuration file and the name of the
    file, loading succeeds and leaves a valid configuration: no limit is zero or
    out of its type's range, the level is one of the five, the log path fits;
    bad lines and bad values are skipped. *)
Theorem load_config_valid file p :
  log_ok p → config_ok (gcfg p) →
  ∃ p', rdma_intercept_load_config file p = Ret 0 p' ∧ log_ok p' ∧ config_ok (gcfg p').
Proof.
  intros Hok Hc. destruct (load_run file p Hok) as (p' & Hrun & Hok' & _ & Hg).
  exists p'. split_and!; [done..|]. unfold gcfg. rw Hg. cbn [config]. unfold loaded.
  destruct (open_config _ _) as [[path text]|]; [apply apply_lines_ok|];
    by apply load_config_from_env_ok.
Qed.

Lemma default_config_ok : config_ok default_config.
Proof. split; vm_compute; try split; congruence. Qed.

Lemma load_config_valid_witness :
  ∃ p', rdma_intercept_load_config None contested = Ret 0 p' ∧ config_ok (gcfg p').
Proof.
  destruct (load_config_valid None contested) as (p' & H & _ & Hc);
    [apply start_ok|apply default_config_ok|]. exists p'. exact (conj H Hc).
Defined.

End Config.
