(* ===== verification/Core.v ===== *)
(** * Initialisation of the library ([src/intercept_core.c])

    [init_if_needed], [rdma_intercept_init], [rdma_intercept_cleanup] and the
    enable switch, over the process of [Intercept.v].  The function pointers this
    file resolves are not used by any code; only whether they resolve matters. *)

From S2P Require Import Prelude CString Intercept Config.

Module Core.
Import Intercept Config.

Definition EIO : Z := 5.
Definition EPERM : Z := 1.
Definition EACCES : Z := 13.
Definition ENOSYS : Z := 38.

Definition set_errno (e : Z) : M process unit := modify (λ p, p <| errno := e |>).

(** [log_file] is assigned the result of [fopen], NULL included. *)
Definition open_log : M process (option file) :=
  p ← get;
  f ← fopen_append (log_file_path (gcfg p));
  set_log_handle f;;
  mret f.

(** The failure exits after the log file is open: it is closed, but the handle
    stays in [log_file]. *)
Definition init_failed (f : file) : M process Z := fclose f;; set_errno ENOSYS;; mret (-1).

Definition rdma_intercept_init : M process Z :=
  p ← get;
  if initialized (g p) then mret 0 else
  set_errno 0;;
  rdma_intercept_load_config None;;
  f ← open_log;
  match f with
  | None => set_errno EIO;; mret (-1)
  | Some f =>
      p ← get;
      if negb (sys_dlopen (sys p)) then init_failed f
      else if negb (sys_dlsym (sys p) "ibv_create_qp") then init_failed f
      else if negb (sys_dlsym (sys p) "ibv_reg_mr") then init_failed f
      else if negb (sys_dlsym (sys p) "ibv_dereg_mr") then init_failed f
      else
        fprintf f (Line LOG_LEVEL_INFO "RDMA Intercept initialized successfully");;
        fprintf f (Line LOG_LEVEL_INFO "ibv_create_qp");;
        fprintf f (Line LOG_LEVEL_INFO "ibv_create_qp_ex");;
        fprintf f (Line LOG_LEVEL_INFO "ibv_reg_mr");;
        fprintf f (Line LOG_LEVEL_INFO "ibv_dereg_mr");;
        modify (λ p, p <| g := (g p) <| initialized := true |> |>);;
        mret 0
  end.

Definition init_if_needed : M process unit :=
  p ← get;
  match sys_getenv (sys p) "RDMA_INTERCEPT_ENABLE" with
  | Some v =>
      if String.eqb v "1" then
        r ← rdma_intercept_init;
        if r =? 0 then mret tt
        else modify (λ p, p <| err_out ::= cons "init failed" |>)
      else mret tt
  | None => mret tt
  end.

Definition rdma_intercept_cleanup : M process unit :=
  p ← get;
  if negb (initialized (g p)) then mret tt else
  match log_file (g p) with
  | Some f =>
      fprintf f (Line LOG_LEVEL_INFO "RDMA Intercept cleanup");;
      fclose f;;
      set_log_handle None
  | None => mret tt
  end;;
  modify (λ p, p <| g := (g p) <| initialized := false |> |>).

Definition rdma_intercept_version : string := "1.0.0".

Definition rdma_intercept_is_enabled (p : process) : bool :=
  initialized (g p) && enable_intercept (gcfg p).

(** ** Running the calls *)

(** The configuration a start-up installs. *)
Definition boot_config (p : process) : intercept_config_t :=
  loaded (sys p) DEFAULT_CONFIG_FILE (gcfg p).

Definition resolvable (y : system) : bool :=
  sys_dlopen y && sys_dlsym y "ibv_create_qp" && sys_dlsym y "ibv_reg_mr"
    && sys_dlsym y "ibv_dereg_mr".

Lemma log_ok_errno e p : log_ok p → log_ok (p <| errno := e |>).
Proof. intros []. by split. Qed.

(** The part of [rdma_intercept_init] before the library is looked up. *)
Lemma init_prefix {A} p (k : option file → M process A) :
  log_ok p →
  ∃ p1, log_ok p1 ∧ sys p1 = sys p ∧ g p1 = (g p) <| config := boot_config p |> ∧
    (set_errno 0;; rdma_intercept_load_config None;; f ← open_log; k f) p =
      if sys_append (sys p) (log_file_path (boot_config p))
      then k (Some (next_file p1))
             (p1 <| open_files ::= cons (next_file p1) |> <| next_file ::= Z.succ |>
                 <| g := (g p1) <| log_file := Some (next_file p1) |> |>)
      else k None (p1 <| g := (g p1) <| log_file := None |> |>).
Proof.
  intros Hok. destruct (load_run None _ (log_ok_errno 0 p Hok)) as (p1 & Hrun & Hok1 & Hs1 & Hg1).
  cbn in Hs1. assert (Hc1 : gcfg p1 = boot_config p) by (unfold gcfg; by rw Hg1).
  exists p1. split_and!; [done|done|done|].
  unfold set_errno, open_log, fopen_append, set_log_handle. run.
  rw Hrun. cbn. rw Hs1 Hc1. by destruct (sys_append _ _).
Qed.

Lemma init_ok p :
  log_ok p → initialized (g p) = false → resolvable (sys p) = true →
  sys_append (sys p) (log_file_path (boot_config p)) = true →
  ∃ p' f, rdma_intercept_init p = Ret 0 p' ∧ log_ok p' ∧ sys p' = sys p ∧
    g p' = (g p) <| config := boot_config p |> <| log_file := Some f |> <| initialized := true |>.
Proof.
  intros Hok Hi Hres Happ. unfold rdma_intercept_init. rw (bind_Ret _ _ p p p); [done|]. rw Hi.
  match goal with |- context [open_log ≫= ?k] => destruct (init_prefix p k Hok)
    as (p1 & Hok1 & Hs1 & Hg1 & ->) end.
  rw Happ. unfold resolvable in Hres.
  repeat (apply andb_prop in Hres as [Hres ?]). unfold fprintf. run. cbn. rw Hs1 Hres H H0 H1. cbn.
  repeat (rw bool_decide_eq_true_2; [by left|]; cbn). eexists _, _. split; [reflexivity|]. cbn.
  split_and!; [|done|by rw Hg1].
  destruct Hok1 as [Ho Hm Hstd Hn]. split; cbn; [by intros f [= <-]; left|done|by right|].
  intros f [->|Hf]%elem_of_cons; [lia|]. specialize (Hn f Hf). lia.
Qed.

(** The log file cannot be opened. *)
Lemma init_no_log p :
  log_ok p → initialized (g p) = false → sys_append (sys p) (log_file_path (boot_config p)) = false →
  ∃ p', rdma_intercept_init p = Ret (-1) p' ∧ log_ok p' ∧ sys p' = sys p ∧
    g p' = (g p) <| config := boot_config p |> <| log_file := None |> ∧ errno p' = EIO.
Proof.
  intros Hok Hi Happ. unfold rdma_intercept_init. rw (bind_Ret _ _ p p p); [done|]. rw Hi.
  match goal with |- context [open_log ≫= ?k] => destruct (init_prefix p k Hok)
    as (p1 & Hok1 & Hs1 & Hg1 & ->) end.
  rw Happ. eexists. split; [reflexivity|]. cbn. rw Hg1. split_and!; [|done..].
  destruct Hok1 as [Ho Hm Hstd Hn]. by split.
Qed.

Lemma init_unresolved p :
  log_ok p → initialized (g p) = false → resolvable (sys p) = false →
  sys_append (sys p) (log_file_path (boot_config p)) = true →
  ∃ p' f, rdma_intercept_init p = Ret (-1) p' ∧ initialized (g p') = false ∧
    log_file (g p') = Some f ∧ f ∉ open_files p' ∧ f ≠ stdout ∧ log_file_mutex p' = false ∧
    sys p' = sys p ∧ errno p' = ENOSYS.
Proof.
  intros Hok Hi Hres Happ. unfold rdma_intercept_init. rw (bind_Ret _ _ p p p); [done|]. rw Hi.
  match goal with |- context [open_log ≫= ?k] => destruct (init_prefix p k Hok)
    as (p1 & Hok1 & Hs1 & Hg1 & ->) end.
  rw Happ. set (q := p1 <| open_files ::= _ |> <| next_file ::= _ |> <| g := _ |>).
  assert (Hfail : ∃ p' f, init_failed (next_file p1) q = (Ret (-1) p') ∧
    initialized (g p') = false ∧ log_file (g p') = Some f ∧ f ∉ open_files p' ∧ f ≠ stdout ∧
    log_file_mutex p' = false ∧ sys p' = sys p ∧ errno p' = ENOSYS).
  { unfold init_failed, fclose, set_errno, q. run. cbn.
    rw bool_decide_eq_true_2; [by left|]. do 2 eexists. split; [reflexivity|].
    destruct Hok1 as [_ Hm Hstd Hn]. specialize (Hn _ Hstd). unfold stdout in *.
    split_and!; [cbn; rw Hg1; exact Hi|done| |lia|done|done|done].
    intros [Hx _]%(list_elem_of_filter (λ f, f ≠ next_file p1)). done. }
  rw (bind_Ret _ _ q q q); [done|]. subst q. cbn [sys]. unfold resolvable in Hres.
  change (sys (p1 <| open_files ::= _ |> <| next_file ::= _ |> <| g := _ |>)) with (sys p1).
  rw Hs1. destruct (sys_dlopen (sys p)); cbn [negb]; [|exact Hfail].
  destruct (sys_dlsym (sys p) "ibv_create_qp"); cbn [negb]; [|exact Hfail].
  destruct (sys_dlsym (sys p) "ibv_reg_mr"); cbn [negb]; [|exact Hfail].
  destruct (sys_dlsym (sys p) "ibv_dereg_mr"); cbn [negb]; [done|exact Hfail].
Qed.

Lemma cleanup_run p :
  log_ok p → initialized (g p) = true → log_file (g p) ≠ Some stdout →
  ∃ p', rdma_intercept_cleanup p = Ret tt p' ∧ log_ok p' ∧ initialized (g p') = false ∧
    log_file (g p') = None ∧ gcfg p' = gcfg p ∧ sys p' = sys p.
Proof.
  intros [Ho Hm Hstd Hn] Hi Hne. unfold rdma_intercept_cleanup, fprintf, fclose, set_log_handle.
  run. rw Hi. cbn. destruct (log_file (g p)) as [f|] eqn:Hf; cbn.
  - rw bool_decide_eq_true_2; [by apply Ho|]. cbn. rw bool_decide_eq_true_2; [by apply Ho|]. cbn.
    eexists. split; [reflexivity|]. split_and!; try done. split; cbn; [done|done| |].
    + rw list_elem_of_filter. split; [congruence|done].
    + intros f' [_ Hf']%list_elem_of_filter. by apply Hn.
  - eexists. split; [reflexivity|]. split_and!; try done. split; cbn; try done.
    intros f ?. congruence.
Qed.

(** ** Properties *)

(** The life cycle of the library: when the log file opens and libibverbs
    resolves, initialisation succeeds with the configuration of the environment
    and the file, the hooks are enabled exactly as that configuration says, a
    second initialisation changes nothing, and cleaning up closes the log,
    disables the hooks and leaves a process that can be initialised again. *)
Theorem init_cleanup_cycle p :
  log_ok p → initialized (g p) = false → resolvable (sys p) = true →
  sys_append (sys p) (log_file_path (boot_config p)) = true →
  ∃ p1, rdma_intercept_init p = Ret 0 p1 ∧ log_ok p1 ∧
    rdma_intercept_is_enabled p1 = enable_intercept (boot_config p) ∧
    rdma_intercept_init p1 = Ret 0 p1 ∧
    (log_file (g p1) ≠ Some stdout →
     ∃ p2, rdma_intercept_cleanup p1 = Ret tt p2 ∧ log_ok p2 ∧
       rdma_intercept_is_enabled p2 = false ∧ log_file (g p2) = None ∧
       initialized (g p2) = false ∧ sys p2 = sys p).
Proof.
  intros Hok Hi Hres Happ.
  destruct (init_ok p Hok Hi Hres Happ) as (p1 & f & Hrun & Hok1 & Hs1 & Hg1).
  assert (Hi1 : initialized (g p1) = true) by by rw Hg1.
  assert (Hc1 : gcfg p1 = boot_config p) by (unfold gcfg; by rw Hg1).
  exists p1. split_and!; [done|done| | |].
  - unfold rdma_intercept_is_enabled. by rw Hi1 Hc1.
  - unfold rdma_intercept_init. run. by rw Hi1.
  - intros Hne. destruct (cleanup_run p1 Hok1 Hi1 Hne) as (p2 & H2 & Hok2 & Hi2 & Hf2 & _ & Hs2).
    exists p2. split_and!; [done..| |done|done|congruence].
    unfold rdma_intercept_is_enabled. by rw Hi2.
Qed.

Lemma init_cleanup_cycle_witness :
  ∃ p1, rdma_intercept_init contested = Ret 0 p1 ∧ rdma_intercept_is_enabled p1 = true.
Proof.
  destruct (init_cleanup_cycle contested) as (p1 & H & _ & He & _);
    [apply start_ok|reflexivity|reflexivity|vm_compute; reflexivity|].
  exists p1. split; [exact H|]. rw He. vm_compute. reflexivity.
Defined.

(** When libibverbs or one of its functions cannot be resolved,
    initialisation fails with ENOSYS and the hooks stay disabled, but
    [log_file] still holds the handle it has closed: the next
    [rdma_intercept_set_log_file] closes it a second time. *)
Theorem failed_init_closes_log_twice p path :
  log_ok p → initialized (g p) = false → resolvable (sys p) = false →
  sys_append (sys p) (log_file_path (boot_config p)) = true →
  Z.of_nat (String.length path) < MAX_CONFIG_FILE_PATH →
  (∀ q, sys q = sys p → ensure_log_directory path q = Ret 0 q) →
  ∃ p', rdma_intercept_init p = Ret (-1) p' ∧ errno p' = ENOSYS ∧
    rdma_intercept_is_enabled p' = false ∧ rdma_intercept_set_log_file (Some path) p' = Crash.
Proof.
  intros Hok Hi Hres Happ Hlen Hdir.
  destruct (init_unresolved p Hok Hi Hres Happ)
    as (p' & f & Hrun & Hi' & Hf & Hout & Hne & Hm & Hs & He).
  exists p'. split_and!; [done|done|unfold rdma_intercept_is_enabled; by rw Hi'|].
  unfold rdma_intercept_set_log_file, lock_log_file, fclose.
  rw (proj2 (Z.leb_gt _ _) Hlen). run. rw (Hdir p' Hs). cbn. rw Hm. cbn. rw Hf.
  rw (proj2 (Z.eqb_neq _ _) Hne). cbn. by rw bool_decide_eq_false_2.
Qed.

Definition no_verbs : system := example_system <| sys_dlopen := false |>.

Lemma failed_init_closes_log_twice_witness :
  ∃ p', rdma_intercept_init (start no_verbs) = Ret (-1) p' ∧
    rdma_intercept_set_log_file (Some "/tmp/new.log") p' = Crash.
Proof.
  destruct (failed_init_closes_log_twice (start no_verbs) "/tmp/new.log") as (p' & H1 & _ & _ & H2).
  - apply start_ok.
  - reflexivity.
  - reflexivity.
  - vm_compute. reflexivity.
  - reflexivity.
  - intros q Hq. unfold ensure_log_directory. run. rw Hq. reflexivity.
  - exists p'. exact (conj H1 H2).
Defined.

End Core.
