(* ===== verification/CollectorServer.v ===== *)
(** * Collector server ([src/collector_server.c])

    The service that keeps the global counts and limits: its requests, the hash
    table of per-process usage, the synchronisation with the eBPF maps and the
    start-up from the environment; its sockets and threads are in
    [CollectorService].  The server is single-threaded apart from the
    synchronisation thread, whose rounds take the mutexes one after the other;
    a round is one [sync_ebpf_data].  The contents of the two eBPF maps belong to
    the kernel and are part of the state. *)

From S2P Require Import Prelude CString.

Module CollectorServer.

(** ** Data *)

Record resource_usage_t := mk_usage {
  qp_count : Z;       (* int *)
  mr_count : Z;       (* int *)
  memory_used : Z;    (* uint64_t *)
}.

Record process_resource_usage_t := mk_pusage {
  p_qp_count : Z;     (* uint32_t *)
  p_mr_count : Z;     (* uint32_t *)
  p_memory_used : Z;  (* uint64_t *)
}.

(** A chain of [process_node_t]: pid and usage of each node. *)
Definition chain : Type := list (Z * process_resource_usage_t).
Definition HASH_SIZE : Z := 1024.

Record state := mk_state {
  global_qp_count : Z;                (* uint32_t *)
  max_global_qp : Z;                  (* uint32_t *)
  global_mr_count : Z;                (* uint32_t *)
  global_memory_used : Z;             (* uint64_t *)
  max_global_memory : Z;              (* uint64_t *)
  process_resources : list chain;     (* process_node_t *[1024] *)
  (* what the kernel's maps hold; None: the map could not be opened *)
  ebpf_processes : option (list (Z * resource_usage_t));
  ebpf_global : option (option resource_usage_t);
}.
#[export] Instance expand_state : Expand state := λ r,
  mk_state (global_qp_count r) (max_global_qp r) (global_mr_count r) (global_memory_used r)
    (max_global_memory r) (process_resources r) (ebpf_processes r) (ebpf_global r).

(** The initial values of the statics. *)
Definition boot (procs : option (list (Z * resource_usage_t)))
    (glob : option (option resource_usage_t)) : state :=
  mk_state 0 10 0 0 (1024 * 1024 * 1024 * 10) (replicate (Z.to_nat HASH_SIZE) []) procs glob.

(** ** Limits from the environment *)

Definition update_max_global_qp (max_qp_str : option string) (s : state) : state :=
  match max_qp_str with
  | Some v =>
      let new_max := u32 (atoi v) in
      if 0 <? new_max then s <| max_global_qp := new_max |> else s
  | None => s
  end.

Definition update_max_global_memory (max_memory_str : option string) (s : state) : state :=
  match max_memory_str with
  | Some v =>
      let new_max := u64 (atoll v) in
      if 0 <? new_max then s <| max_global_memory := new_max |> else s
  | None => s
  end.

(** ** The process table *)

Definition hash_index (pid : Z) : nat := Z.to_nat (pid mod HASH_SIZE).

(** Update the node of the pid, if the chain has one. *)
Fixpoint chain_update (pid : Z) (u : process_resource_usage_t) (c : chain) : option chain :=
  match c with
  | [] => None
  | (q, v) :: c' =>
      if q =? pid then Some ((q, u) :: c') else cons (q, v) <$> chain_update pid u c'
  end.

Definition chain_put (pid : Z) (u : process_resource_usage_t) (c : chain) : chain :=
  default ((pid, u) :: c) (chain_update pid u c).

Definition as_process_usage (u : resource_usage_t) : process_resource_usage_t :=
  mk_pusage (u32 (qp_count u)) (u32 (mr_count u)) (memory_used u).

(** The body of the loop over the eBPF map; [malloc] succeeds. *)
Definition sync_process (t : list chain) (e : Z * resource_usage_t) : list chain :=
  let '(pid, u) := e in
  <[hash_index pid := chain_put pid (as_process_usage u) (default [] (t !! hash_index pid))]> t.

Definition sync_ebpf_data (s : state) : state :=
  let s :=
    match ebpf_processes s with
    | Some m => s <| process_resources ::= λ t, foldl sync_process t m |>
    | None => s
    end in
  match ebpf_global s with
  | Some (Some u) =>
      s <| global_qp_count := u32 (qp_count u) |> <| global_mr_count := u32 (mr_count u) |>
        <| global_memory_used := memory_used u |>
  | _ => s
  end.

Fixpoint chain_find (pid : Z) (c : chain) : option process_resource_usage_t :=
  match c with
  | [] => None
  | (q, u) :: c' => if q =? pid then Some u else chain_find pid c'
  end.

Definition get_process_resource_usage (pid : Z) (s : state) : process_resource_usage_t :=
  default (mk_pusage 0 0 0) (chain_find pid (default [] (process_resources s !! hash_index pid))).

Definition initialize_service (qp_env mem_env : option string) (s : state) : state :=
  let s := s <| global_qp_count := 0 |> <| global_mr_count := 0 |> <| global_memory_used := 0 |>
             <| process_resources := replicate (Z.to_nat HASH_SIZE) [] |> in
  update_max_global_memory mem_env (update_max_global_qp qp_env s).

(** What [main] does with the limits it read from the environment at its start. *)
Definition apply_env (qp_env mem_env : option string) (s : state) : state :=
  let env_max_global_qp := match qp_env with Some v => u32 (atoi v) | None => 0 end in
  let env_max_global_memory := match mem_env with Some v => u64 (atoll v) | None => 0 end in
  let s := if 0 <? env_max_global_qp then s <| max_global_qp := env_max_global_qp |> else s in
  if 0 <? env_max_global_memory then s <| max_global_memory := env_max_global_memory |> else s.

(** The part of [main] before the server starts: the environment is read before
    and after [initialize_service]. *)
Definition start_up (qp_env mem_env : option string) (s : state) : state :=
  apply_env qp_env mem_env (initialize_service qp_env mem_env s).

(** ** Requests *)

(** [sscanf (s, "%zu", &length) == 1]. *)
Definition sscanf_zu (s : string) : option Z :=
  let '(_, t) := sign (skip is_space s) in
  if starts_digit t then Some (strtoull s) else None.

Definition nl : string := String (ascii_of_nat 10) EmptyString.

Definition proc_response (u : process_resource_usage_t) : string :=
  "QP:" +:+ print_dec (p_qp_count u) +:+ ",MR:" +:+ print_dec (p_mr_count u)
    +:+ ",Memory:" +:+ print_dec (p_memory_used u).

Definition stats_response (s : state) : string :=
  "Total QP: " +:+ print_dec (global_qp_count s) +:+ nl +:+
  "Max QP: " +:+ print_dec (max_global_qp s) +:+ nl +:+
  "Total MR: " +:+ print_dec (global_mr_count s) +:+ nl +:+
  "Total Memory Used: " +:+ print_dec (global_memory_used s) +:+ " bytes" +:+ nl +:+
  "Max Memory: " +:+ print_dec (max_global_memory s) +:+ " bytes" +:+ nl.

Definition over_memory (s : state) (length : Z) : bool :=
  max_global_memory s <? u64 (global_memory_used s + length).

(** One request: the body of [main_loop] between [read] and [write].  The buffer
    holds at most 1023 bytes of text (no NUL byte) and is cut at the first newline. *)
Definition handle (request : string) (s : state) : string * state :=
  let buffer := fst (break_at (λ c, (nat_of_ascii c =? 10)%nat) request) in
  match strip_prefix "GET_PROC_STATS:" buffer with
  | Some arg =>
      let s := sync_ebpf_data s in
      (proc_response (get_process_resource_usage (u32 (atoi arg)) s), s)
  | None =>
  if String.eqb buffer "GET_STATS" then
    let s := sync_ebpf_data s in (stats_response s, s)
  else if String.eqb buffer "QP_CREATE" then
    if max_global_qp s <=? global_qp_count s then ("Error: QP limit reached" +:+ nl, s)
    else ("Success: QP created" +:+ nl, s <| global_qp_count ::= λ n, u32 (n + 1) |>)
  else if String.eqb buffer "QP_DESTROY" then
    ("Success: QP destroyed" +:+ nl,
     s <| global_qp_count ::= λ n, if 0 <? n then n - 1 else n |>)
  else match strip_prefix "MR_CREATE " buffer with
  | Some arg =>
      match sscanf_zu arg with
      | Some length =>
          if over_memory s length then ("Error: Memory limit reached" +:+ nl, s)
          else ("Success: MR created" +:+ nl,
                s <| global_mr_count ::= λ n, u32 (n + 1) |>
                  <| global_memory_used ::= λ n, u64 (n + length) |>)
      | None => ("Error: Invalid MR_CREATE request" +:+ nl, s)
      end
  | None =>
  match strip_prefix "CHECK_MEMORY " buffer with
  | Some arg =>
      match sscanf_zu arg with
      | Some length =>
          if over_memory s length then ("Error: Memory limit reached" +:+ nl, s)
          else ("Success: Memory check passed" +:+ nl, s)
      | None => ("Error: Invalid CHECK_MEMORY request" +:+ nl, s)
      end
  | None =>
  match strip_prefix "MR_DESTROY " buffer with
  | Some arg =>
      match sscanf_zu arg with
      | Some length =>
          ("Success: MR destroyed" +:+ nl,
           s <| global_mr_count ::= λ n, if 0 <? n then n - 1 else n |>
             <| global_memory_used ::= λ n,
                  if (0 <? length) && (length <=? n) then n - length else n |>)
      | None => ("Error: Invalid MR_DESTROY request" +:+ nl, s)
      end
  | None => ("Error: Unknown request" +:+ nl, s)
  end end end end.

(** ** Lemmas *)

#[local] Arguments Z.to_nat : simpl never.

Definition find (pid : Z) (t : list chain) : option process_resource_usage_t :=
  chain_find pid (default [] (t !! hash_index pid)).

Lemma chain_find_put pid q u c :
  chain_find pid (chain_put q u c) = if q =? pid then Some u else chain_find pid c.
Proof.
  unfold chain_put.
  assert (H : match chain_update q u c with
    | Some c' => chain_find pid c' = if q =? pid then Some u else chain_find pid c
    | None => chain_find q c = None
    end).
  { induction c as [|[r v] c IH]; cbn; [done|].
    destruct (Z.eqb_spec r q) as [->|Hrq]; cbn.
    - by destruct (q =? pid).
    - destruct (chain_update q u c); cbn; [|done].
      rw IH. destruct (Z.eqb_spec r pid), (Z.eqb_spec q pid); congruence. }
  by destruct (chain_update q u c).
Qed.

Lemma hash_lt pid : (hash_index pid < Z.to_nat HASH_SIZE)%nat.
Proof. unfold hash_index, HASH_SIZE. pose proof (Z.mod_pos_bound pid 1024). lia. Qed.

Lemma find_sync pid t q u :
  length t = Z.to_nat HASH_SIZE →
  find pid (sync_process t (q, u)) = if q =? pid then Some (as_process_usage u) else find pid t.
Proof.
  intros Hl. pose proof (hash_lt q). unfold find, sync_process.
  destruct (decide (hash_index q = hash_index pid)) as [E|Hne].
  - rw -E list_lookup_insert_eq; [by rw Hl|]. cbn [default]. rw chain_find_put. by rw E.
  - rw list_lookup_insert_ne //. destruct (Z.eqb_spec q pid); [congruence|done].
Qed.

Lemma length_sync t m : length (foldl sync_process t m) = length t.
Proof.
  revert t. induction m as [|[q u] m IH]; intros t; cbn; [done|].
  rw IH. apply length_insert.
Qed.

(** The map the kernel's entries stand for, the later ones winning. *)
Definition kernel_map (m : list (Z * resource_usage_t)) : gmap Z process_resource_usage_t :=
  foldl (λ M e, <[fst e := as_process_usage (snd e)]> M) ∅ m.

Lemma find_sync_all pid t m :
  length t = Z.to_nat HASH_SIZE →
  find pid (foldl sync_process t m) =
    match kernel_map m !! pid with Some u => Some u | None => find pid t end.
Proof.
  intros Hl. induction m as [|[q u] m IH] using rev_ind; [done|].
  unfold kernel_map. rw !foldl_app. cbn [foldl fst snd]. fold (kernel_map m).
  rw find_sync; [by rw length_sync|]. rw lookup_insert IH.
  destruct (Z.eqb_spec q pid); by case_decide.
Qed.

(** Counts and limits within the types and the counts within the limits. *)
Record limits_ok (s : state) : Prop := {
  lo_qp : 0 ≤ global_qp_count s ≤ max_global_qp s;
  lo_max_qp : max_global_qp s ≤ UINT32_MAX;
  lo_memory : 0 ≤ global_memory_used s ≤ max_global_memory s;
  lo_max_memory : max_global_memory s ≤ UINT64_MAX;
  lo_global : ebpf_global s = None;
  lo_table : length (process_resources s) = Z.to_nat HASH_SIZE;
}.

Lemma sync_limits s : limits_ok s → limits_ok (sync_ebpf_data s).
Proof.
  intros []. unfold sync_ebpf_data. destruct (ebpf_processes s) as [m|]; cbn; rw lo_global0.
  - split; cbn; try done. by rw length_sync.
  - by split.
Qed.

Lemma qp_create_limits s :
  limits_ok s → (max_global_qp s <=? global_qp_count s) = false →
  limits_ok (s <| global_qp_count := u32 (global_qp_count s + 1) |>).
Proof.
  intros [] Hlt%Z.leb_gt. split; cbn; try done.
  rw u32_small; [unfold is_u32, UINT32_MAX in *; lia|]. lia.
Qed.

Lemma handle_limits r s : limits_ok s → limits_ok (snd (handle r s)).
Proof.
  intros Hok. unfold handle.
  destruct (strip_prefix "GET_PROC_STATS:" _); [by apply sync_limits|].
  destruct (String.eqb _ "GET_STATS"); [by apply sync_limits|].
  destruct (String.eqb _ "QP_CREATE").
  { destruct (_ <=? _) eqn:E; [done|]. by apply (qp_create_limits s). }
  destruct (String.eqb _ "QP_DESTROY").
  { destruct Hok. split; cbn; try done. destruct (Z.ltb_spec 0 (global_qp_count s)); lia. }
  destruct (strip_prefix "MR_CREATE " _) as [arg|].
  { destruct (sscanf_zu arg) as [n|]; [|done].
    destruct (over_memory s n) eqn:E; [done|]. apply Z.ltb_ge in E. destruct Hok.
    split; cbn; try done. pose proof (u64_range (global_memory_used s + n)).
    unfold is_u64 in *. lia. }
  destruct (strip_prefix "CHECK_MEMORY " _) as [arg|].
  { destruct (sscanf_zu arg) as [n|]; [|done]. by destruct (over_memory s n). }
  destruct (strip_prefix "MR_DESTROY " _) as [arg|]; [|done].
  destruct (sscanf_zu arg) as [n|]; [|done]. destruct Hok. split; cbn; try done.
  destruct (Z.ltb_spec 0 n), (Z.leb_spec n (global_memory_used s)); cbn; lia.
Qed.

Lemma start_up_limits qp_env mem_env procs :
  limits_ok (start_up qp_env mem_env (boot procs None)).
Proof.
  unfold start_up, apply_env, initialize_service, update_max_global_qp, update_max_global_memory.
  assert (H32 : ∀ v, 0 ≤ u32 v ≤ UINT32_MAX) by (intros v; pose proof (u32_range v); unfold is_u32, UINT32_MAX in *; lia).
  assert (H64 : ∀ v, 0 ≤ u64 v ≤ UINT64_MAX) by (intros v; pose proof (u64_range v); unfold is_u64, UINT64_MAX in *; lia).
  destruct qp_env as [q|], mem_env as [m|]; cbn;
    repeat match goal with |- context [0 <? ?x] => destruct (Z.ltb_spec 0 x); cbn end;
    split; cbn; try done; try (by rw length_replicate);
    repeat match goal with
    | |- context [u32 ?x] => pose proof (H32 x); generalize dependent (u32 x); intros
    | |- context [u64 ?x] => pose proof (H64 x); generalize dependent (u64 x); intros
    end; lia.
Qed.

(** A sequence of requests, with the answers. *)
Fixpoint serve (rs : list string) (s : state) : list string * state :=
  match rs with
  | [] => ([], s)
  | r :: rs' =>
      let '(a, s1) := handle r s in let '(as', s2) := serve rs' s1 in (a :: as', s2)
  end.

Lemma serve_limits rs s : limits_ok s → limits_ok (snd (serve rs s)).
Proof.
  revert s. induction rs as [|r rs IH]; intros s Hok; cbn; [done|].
  pose proof (handle_limits r s Hok). destruct (handle r s) as [a s1].
  specialize (IH s1 H). by destruct (serve rs s1).
Qed.

(** ** Reading the requests back *)

Lemma buffer_free r :
  free_of (λ c, (nat_of_ascii c =? 10)%nat) r = true →
  fst (break_at (λ c, (nat_of_ascii c =? 10)%nat) r) = r.
Proof. intros H. by rw break_at_free. Qed.

Lemma digit_not_newline c : is_digit c = true → (nat_of_ascii c =? 10)%nat = false.
Proof. destruct c as [[] [] [] [] [] [] [] []]; by vm_compute. Qed.

Lemma request_buffer head z :
  0 ≤ z → free_of (λ c, (nat_of_ascii c =? 10)%nat) head = true →
  fst (break_at (λ c, (nat_of_ascii c =? 10)%nat) (head +:+ print_dec z)) = head +:+ print_dec z.
Proof.
  intros Hz Hh. apply buffer_free. unfold free_of in *. rw all_chars_app Hh.
  by apply (print_dec_free z (λ c, (nat_of_ascii c =? 10)%nat) Hz digit_not_newline).
Qed.

Lemma sscanf_print z : is_u64 z → sscanf_zu (print_dec z) = Some z.
Proof.
  intros Hz. destruct (print_dec_digits z "" (proj1 Hz) eq_refl) as [_ Hs].
  rw app_empty_r in Hs. destruct (starts_digit_plain _ Hs) as [Hsk Hsg].
  unfold sscanf_zu. rw Hsk Hsg Hs. f_equal.
  rw -(app_empty_r (print_dec z)). by apply strtoull_print.
Qed.

Lemma atoi_print z : 0 ≤ z < 2 ^ 31 → atoi (print_dec z) = z.
Proof.
  intros Hz. unfold atoi. rw -(app_empty_r (print_dec z)) strtol_print //.
  - unfold LONG_MAX. lia.
  - apply i32_small. unfold is_i32. lia.
Qed.

(** Every request with a number in it, as the server reads it. *)
Definition numbered (z : Z) (s : state) : Prop :=
  handle ("GET_PROC_STATS:" +:+ print_dec z) s =
    (let s := sync_ebpf_data s in
     (proc_response (get_process_resource_usage (u32 (atoi (print_dec z))) s), s)) ∧
  handle ("MR_CREATE " +:+ print_dec z) s =
    (if over_memory s z then ("Error: Memory limit reached" +:+ nl, s)
     else ("Success: MR created" +:+ nl,
           s <| global_mr_count ::= λ n, u32 (n + 1) |>
             <| global_memory_used ::= λ n, u64 (n + z) |>)) ∧
  handle ("CHECK_MEMORY " +:+ print_dec z) s =
    (if over_memory s z then ("Error: Memory limit reached" +:+ nl, s)
     else ("Success: Memory check passed" +:+ nl, s)) ∧
  handle ("MR_DESTROY " +:+ print_dec z) s =
    ("Success: MR destroyed" +:+ nl,
     s <| global_mr_count ::= λ n, if 0 <? n then n - 1 else n |>
       <| global_memory_used ::= λ n, if (0 <? z) && (z <=? n) then n - z else n |>).

Lemma handle_numbered z s : is_u64 z → numbered z s.
Proof.
  intros Hz. pose proof (sscanf_print z Hz) as Hscan. destruct Hz as [H0 _].
  unfold numbered, handle. rw !request_buffer //.
  split_and!.
  - done.
  - transitivity (match sscanf_zu (print_dec z) with
      | Some length =>
          if over_memory s length then ("Error: Memory limit reached" +:+ nl, s)
          else ("Success: MR created" +:+ nl,
                s <| global_mr_count ::= λ n, u32 (n + 1) |>
                  <| global_memory_used ::= λ n, u64 (n + length) |>)
      | None => ("Error: Invalid MR_CREATE request" +:+ nl, s)
      end); [reflexivity|by rw Hscan].
  - transitivity (match sscanf_zu (print_dec z) with
      | Some length =>
          if over_memory s length then ("Error: Memory limit reached" +:+ nl, s)
          else ("Success: Memory check passed" +:+ nl, s)
      | None => ("Error: Invalid CHECK_MEMORY request" +:+ nl, s)
      end); [reflexivity|by rw Hscan].
  - transitivity (match sscanf_zu (print_dec z) with
      | Some length =>
          ("Success: MR destroyed" +:+ nl,
           s <| global_mr_count ::= λ n, if 0 <? n then n - 1 else n |>
             <| global_memory_used ::= λ n,
                  if (0 <? length) && (length <=? n) then n - length else n |>)
      | None => ("Error: Invalid MR_DESTROY request" +:+ nl, s)
      end); [reflexivity|by rw Hscan].
Qed.

(** ** Properties *)

(** C30: with no global eBPF map to overwrite its counts, the server never lets
    them past its limits: after any start-up environment and any sequence of
    requests, well formed or not, the QP count is at most [max_global_qp] and the
    memory in use at most [max_global_memory]. *)
Theorem server_respects_limits qp_env mem_env procs rs :
  let s := snd (serve rs (start_up qp_env mem_env (boot procs None))) in
  0 ≤ global_qp_count s ≤ max_global_qp s ∧ 0 ≤ global_memory_used s ≤ max_global_memory s.
Proof.
  intros s. destruct (serve_limits rs _ (start_up_limits qp_env mem_env procs)). by split.
Qed.

(** A query about a process is answered from the kernel's figures of that
    moment: the usage the eBPF map holds for the pid, converted to the unsigned
    counters, whatever the hash table held before. *)
Theorem process_query_reports_kernel s m pid u :
  ebpf_processes s = Some m → NoDup (fst <$> m) → (pid, u) ∈ m →
  0 ≤ pid < 2 ^ 31 → length (process_resources s) = Z.to_nat HASH_SIZE →
  fst (handle ("GET_PROC_STATS:" +:+ print_dec pid) s) = proc_response (as_process_usage u).
Proof.
  intros Hm Hnd Hin Hpid Hl.
  destruct (handle_numbered pid s) as [-> _]; [unfold is_u64; lia|]. cbn [fst].
  rw atoi_print // u32_small; [unfold is_u32; lia|]. f_equal.
  unfold get_process_resource_usage, sync_ebpf_data. rw Hm.
  assert (Hk : kernel_map m !! pid = Some (as_process_usage u)).
  { clear Hm. induction m as [|[q v] m IH] using rev_ind; [by apply not_elem_of_nil in Hin|].
    unfold kernel_map. rw foldl_app. cbn [foldl fst snd]. fold (kernel_map m).
    rw fmap_app in Hnd. apply NoDup_app in Hnd as (Hnd & Hdis & _).
    apply elem_of_app in Hin as [Hin|Hin%list_elem_of_singleton].
    - rw lookup_insert_ne; [|by apply IH]. intros ->.
      apply (Hdis pid); [by apply (list_elem_of_fmap_2 fst m (pid, u))|by left].
    - injection Hin as <- <-. apply lookup_insert_eq. }
  pose proof (find_sync_all pid (process_resources s) m Hl) as Hf. rw Hk in Hf.
  set (s1 := s <| process_resources ::= _ |>).
  destruct (ebpf_global s1) as [[g|]|]; exact (f_equal (default (mk_pusage 0 0 0)) Hf).
Qed.

Lemma process_query_reports_kernel_witness :
  fst (handle ("GET_PROC_STATS:" +:+ print_dec 77)
    (boot (Some [(5, mk_usage 1 1 1); (77, mk_usage 3 2 4096)]) None)) =
  "QP:3,MR:2,Memory:4096".
Proof.
  etransitivity; [apply (process_query_reports_kernel (boot (Some [(5, mk_usage 1 1 1); (77, mk_usage 3 2 4096)]) None)
    [(5, mk_usage 1 1 1); (77, mk_usage 3 2 4096)] 77 (mk_usage 3 2 4096))|vm_compute; reflexivity].
  - reflexivity.
  - exact (bool_decide_unpack (NoDup [5; 77]) I).
  - right. left.
  - lia.
  - reflexivity.
Defined.

(** The memory check adds the request to the memory in use at 64 bits: a
    request that makes the sum wrap around is granted whatever the limit, and
    resets the recorded usage. *)
Theorem memory_check_wraps s :
  0 < global_memory_used s ≤ max_global_memory s → max_global_memory s ≤ UINT64_MAX →
  let length := 2 ^ 64 - global_memory_used s in
  fst (handle ("CHECK_MEMORY " +:+ print_dec length) s) = "Success: Memory check passed" +:+ nl ∧
  fst (handle ("MR_CREATE " +:+ print_dec length) s) = "Success: MR created" +:+ nl ∧
  global_memory_used (snd (handle ("MR_CREATE " +:+ print_dec length) s)) = 0.
Proof.
  intros Hu Hmax length.
  destruct (handle_numbered length s) as (_ & -> & -> & _); [unfold is_u64, UINT64_MAX, length in *; lia|].
  assert (Hw : u64 (global_memory_used s + length) = 0).
  { replace (global_memory_used s + length) with (2 ^ 64) by (unfold length; lia). done. }
  unfold over_memory. rw Hw. rw (proj2 (Z.ltb_ge _ _)); [lia|]. split_and!; [done..|].
  cbn. exact Hw.
Qed.

Lemma memory_check_wraps_witness :
  let s := (boot None None) <| global_memory_used := 4096 |> in
  fst (handle ("CHECK_MEMORY " +:+ print_dec (2 ^ 64 - 4096)) s) =
    "Success: Memory check passed" +:+ nl.
Proof.
  intros s. refine (proj1 (memory_check_wraps s _ _)); [split; reflexivity || discriminate|discriminate].
Defined.

End CollectorServer.
