(* ===== verification/CollectorService.v ===== *)
(** * The collector as a service ([src/collector_server.c])

    The program around the requests of [CollectorServer]: the socket, the loop of
    [select], [accept], [read], [write] and [close], the synchronisation thread,
    the signal handler, start-up and cleanup.  What the operating system answers
    at start-up is a record; what happens while the loop runs is a list of events,
    which includes the rounds of the thread, the signals, and the kernel's writes
    to its maps. *)

From S2P Require Import Prelude CString CollectorServer.

Module CollectorService.
Import CollectorServer.

(** ** State *)

Inductive thread := Not_started | Started | Joined.

Record service := mk_service {
  core : state;                  (* counts, limits, hash table, contents of the maps *)
  running : bool;
  server_fd : Z;
  process_resources_map_fd : Z;
  global_resources_map_fd : Z;
  sync_thread : thread;
  destroyed : bool;              (* the mutexes, by pthread_mutex_destroy *)
  socket_path : bool;            (* /tmp/rdma_collector.sock exists *)
  open_fds : gset Z;
  sent : list string;            (* answers handed to a connection *)
}.
#[export] Instance expand_service : Expand service := λ r,
  mk_service (core r) (running r) (server_fd r) (process_resources_map_fd r)
    (global_resources_map_fd r) (sync_thread r) (destroyed r) (socket_path r) (open_fds r) (sent r).

(** The process when [main] is entered. *)
Definition power_on (stale_socket : bool) : service :=
  mk_service (boot None None) true (-1) (-1) (-1) Not_started false stale_socket ∅ [].

(** The answers to the calls made once: descriptors are negative on failure.
    [late_round]: the thread, having seen [running] set, starts a round while
    [cleanup] is between destroying the mutexes and joining it. *)
Record os := mk_os {
  os_process_map : Z;            (* bpf_obj_get *)
  os_global_map : Z;
  os_processes : list (Z * resource_usage_t);
  os_global_usage : option resource_usage_t;
  os_thread : bool;              (* pthread_create succeeds *)
  os_socket : Z;
  os_bind : bool;
  os_listen : bool;
  late_round : bool;
}.

(** What a connection brings.  [Silent]: the peer neither sends nor closes.
    [Text]: what one [read] returns, empty when the peer has closed. *)
Inductive incoming := Silent | Read_fails | Text (t : string).
(** [Peer_gone]: the peer has closed its end, and [write] raises SIGPIPE, which
    the program does not handle. *)
Inductive write_result := Written | Write_fails | Peer_gone.

Record connection := mk_connection {
  c_fd : Z;
  c_in : incoming;
  c_out : write_result;
  c_signal : bool;               (* SIGINT or SIGTERM while it is served *)
}.

(** What happens while the program is in [select]. *)
Inductive event :=
| Round                          (* of the synchronisation thread *)
| Kernel_writes (m : list (Z * resource_usage_t)) (g : option resource_usage_t)
| Late_signal                    (* after [running] was tested, before [select] blocks *)
| Interrupted (signal : bool)    (* [select] fails, with or without a signal to the handler *)
| Accept_fails
| Connect (c : connection).

Inductive ending := Exit (code : Z) | Killed.

(** ** Operations *)

Definition close_fd (fd : Z) : M service unit := modify (λ s, s <| open_fds ::= λ f, f ∖ {[fd]} |>).
Definition open_fd (fd : Z) : M service unit :=
  if 0 <=? fd then modify (λ s, s <| open_fds ::= λ f, {[fd]} ∪ f |>) else mret tt.

Definition signal_handler : M service unit := modify (λ s, s <| running := false |>).

(** One turn of [sync_thread_func]: the mutexes of [sync_ebpf_data] must exist. *)
Definition sync_round : M service unit :=
  s ← get;
  if destroyed s then crash else modify (λ s, s <| core ::= sync_ebpf_data |>).

Definition kernel_writes (m : list (Z * resource_usage_t)) (g : option resource_usage_t)
    (st : state) : state :=
  st <| ebpf_processes ::= fmap (λ _, m) |> <| ebpf_global ::= fmap (λ _, g) |>.

Definition initialize_service (qp_env mem_env : option string) (x : os) : M service Z :=
  modify (λ s, s <| core ::= CollectorServer.initialize_service qp_env mem_env |>);;
  open_fd (os_process_map x);;
  modify (λ s, s <| process_resources_map_fd := os_process_map x |>
    <| core ::= λ st, st <| ebpf_processes :=
         if 0 <=? os_process_map x then Some (os_processes x) else None |> |>);;
  open_fd (os_global_map x);;
  modify (λ s, s <| global_resources_map_fd := os_global_map x |>
    <| core ::= λ st, st <| ebpf_global :=
         if 0 <=? os_global_map x then Some (os_global_usage x) else None |> |>);;
  if negb (os_thread x) then mret (-1) else
  modify (λ s, s <| sync_thread := Started |>);;
  mret 0.

Definition start_server (x : os) : M service Z :=
  open_fd (os_socket x);;
  modify (λ s, s <| server_fd := os_socket x |>);;
  if os_socket x <? 0 then mret (-1) else
  modify (λ s, s <| socket_path := false |>);;
  if negb (os_bind x) then
    close_fd (os_socket x);; modify (λ s, s <| server_fd := -1 |>);; mret (-1)
  else
  modify (λ s, s <| socket_path := true |>);;
  if negb (os_listen x) then
    close_fd (os_socket x);; modify (λ s, s <| socket_path := false |> <| server_fd := -1 |>);;
    mret (-1)
  else mret 0.

(** The request [handle] sees: 1023 bytes of what was read, up to a NUL. *)
Definition request_text (t : string) : string :=
  fst (break_at (λ c, (nat_of_ascii c =? 0)%nat) (String.substring 0 1023 t)).

(** [write]; the result says whether the process survives it. *)
Definition send (out : write_result) (response : string) : M service bool :=
  match out with
  | Written => modify (λ s, s <| sent ::= λ l, l ++ [response] |>);; mret true
  | Write_fails => mret true
  | Peer_gone => mret false
  end.

Definition answer_client (c : connection) : M service bool :=
  match c_in c with
  | Silent => hang
  | Read_fails => mret true
  | Text t =>
      if String.eqb t EmptyString then mret true else
      s ← get;
      let '(response, st) := handle (request_text t) (core s) in
      modify (λ s, s <| core := st |>);;
      send (c_out c) response
  end.

Definition serve_client (c : connection) : M service bool :=
  open_fd (c_fd c);;
  alive ← answer_client c;
  if negb alive then mret false else
  (if c_signal c then signal_handler else mret tt);;
  close_fd (c_fd c);;
  mret true.

(** The test at the top of the loop. *)
Definition while_running (body : M service bool) : M service bool :=
  s ← get; if running s then body else mret true.

(** From [select] on; with no event left, [select] never returns. *)
Fixpoint select_loop (evs : list event) : M service bool :=
  match evs with
  | [] => hang
  | Round :: evs' => sync_round;; select_loop evs'
  | Kernel_writes m g :: evs' =>
      modify (λ s, s <| core ::= kernel_writes m g |>);; select_loop evs'
  | Late_signal :: evs' => signal_handler;; select_loop evs'
  | Interrupted signal :: evs' =>
      (if signal : bool then signal_handler else mret tt);; while_running (select_loop evs')
  | Accept_fails :: evs' => while_running (select_loop evs')
  | Connect c :: evs' =>
      alive ← serve_client c;
      if negb alive then mret false else while_running (select_loop evs')
  end.
Definition main_loop (evs : list event) : M service bool := while_running (select_loop evs).

Definition join_thread : M service unit :=
  s ← get;
  match sync_thread s with
  | Started => modify (λ s, s <| sync_thread := Joined |>)
  | _ => crash
  end.

Definition cleanup (x : os) : M service unit :=
  s ← get;
  (if 0 <=? server_fd s then
     close_fd (server_fd s);; modify (λ s, s <| socket_path := false |>)
   else mret tt);;
  modify (λ s, s <| destroyed := true |>);;
  (if late_round x then sync_round else mret tt);;
  modify (λ s, s <| running := false |>);;
  join_thread;;
  (if 0 <=? process_resources_map_fd s then close_fd (process_resources_map_fd s) else mret tt);;
  if 0 <=? global_resources_map_fd s then close_fd (global_resources_map_fd s) else mret tt.

Definition main (qp_env mem_env : option string) (x : os) (evs : list event) : M service ending :=
  err ← initialize_service qp_env mem_env x;
  if negb (err =? 0) then mret (Exit 1) else
  modify (λ s, s <| core ::= apply_env qp_env mem_env |>);;
  err ← start_server x;
  if negb (err =? 0) then cleanup x;; mret (Exit 1) else
  alive ← main_loop evs;
  if negb (alive : bool) then mret Killed else
  cleanup x;; mret (Exit 0).

(** ** The loop *)

(** What an event does to the counts, and the answers it hands out. *)
Definition react (e : event) (st : state) : list string * state :=
  match e with
  | Round => ([], sync_ebpf_data st)
  | Kernel_writes m g => ([], kernel_writes m g st)
  | Connect c =>
      match c_in c with
      | Text t =>
          if String.eqb t EmptyString then ([], st) else
          let '(response, st') := handle (request_text t) st in
          (match c_out c with Written => [response] | _ => [] end, st')
      | _ => ([], st)
      end
  | _ => ([], st)
  end.

Fixpoint script (evs : list event) (st : state) : list string * state :=
  match evs with
  | [] => ([], st)
  | e :: evs' =>
      let '(l, st1) := react e st in let '(l', st2) := script evs' st1 in (l ++ l', st2)
  end.

(** A connection whose peer sends or closes, and stays for the answer; its
    descriptor is not one of the open ones [F], as [accept] promises. *)
Definition polite (F : gset Z) (c : connection) : Prop :=
  0 ≤ c_fd c ∧ (c_fd c ∉ F) ∧ c_signal c = false ∧ c_in c ≠ Silent ∧ c_out c ≠ Peer_gone.

Definition calm (F : gset Z) (e : event) : Prop :=
  match e with
  | Late_signal | Interrupted true => False
  | Connect c => polite F c
  | _ => True
  end.

Definition progress (l : list string) (st : state) (s : service) : service :=
  s <| core := st |> <| sent ::= λ l', l' ++ l |>.

Lemma progress_nil st s : progress [] st s = s <| core := st |>.
Proof. destruct s. unfold progress, update. cbn. by rw app_nil_r. Qed.
Lemma progress_id s : progress [] (core s) s = s.
Proof. rw progress_nil. by destruct s. Qed.
Lemma progress_app l l' st st' s : progress l' st' (progress l st s) = progress (l ++ l') st' s.
Proof. unfold progress, update. cbn. by rw assoc_L. Qed.

Lemma while_running_on (m : M service bool) s : running s = true → while_running m s = m s.
Proof. intros Hr. unfold while_running, get, mbind, M_bind. by rw Hr. Qed.

(** A polite connection: its descriptor is closed again, its answer is sent. *)
Lemma serve_polite c s :
  polite (open_fds s) c →
  serve_client c s = Ret true (progress (fst (react (Connect c) (core s))) (snd (react (Connect c) (core s))) s).
Proof.
  intros (Hfd & Hnew & Hsig & Hin & Hout). unfold serve_client, open_fd.
  rw (proj2 (Z.leb_le _ _) Hfd) Hsig. destruct s as [st ? ? ? ? ? ? ? F l]. cbn in Hnew.
  assert (({[c_fd c]} ∪ F) ∖ {[c_fd c]} = F) as HF by set_solver.
  unfold answer_client, send, react, progress, close_fd, get, modify, mbind, M_bind, mret, M_ret, update.
  destruct (c_in c) as [| |t]; [done| |].
  { cbn. by rw HF app_nil_r. }
  destruct (String.eqb t EmptyString); [cbn; by rw HF app_nil_r|].
  cbn -[handle].
  destruct (handle _ st) as [r st']. destruct (c_out c); cbn.
  3: done.
  all: by rw HF ?app_nil_r.
Qed.

Lemma select_step e rest s :
  running s = true → destroyed s = false → calm (open_fds s) e →
  select_loop (e :: rest) s =
    select_loop rest (progress (fst (react e (core s))) (snd (react e (core s))) s).
Proof.
  intros Hr Hd Hc. destruct e as [|m g| |[]| |c]; cbn [select_loop]; try done.
  - unfold sync_round, get, mbind, M_bind. rw Hd. cbn [react fst snd]. by rw progress_nil.
  - cbn [react fst snd]. by rw progress_nil.
  - cbn [react fst snd]. rw progress_id. by rw /mbind /M_bind /mret /M_ret while_running_on.
  - cbn [react fst snd]. by rw progress_id while_running_on.
  - rw (bind_Ret _ _ _ _ _ (serve_polite c s Hc)). cbn [negb].
    by rw while_running_on.
Qed.

(** Calm events one after the other: the loop goes on with what follows them. *)
Lemma select_calm evs rest s :
  running s = true → destroyed s = false → Forall (calm (open_fds s)) evs →
  select_loop (evs ++ rest) s =
    select_loop rest (progress (fst (script evs (core s))) (snd (script evs (core s))) s).
Proof.
  intros Hr Hd Hall. revert s Hr Hd Hall. induction evs as [|e evs IH]; intros s Hr Hd Hall.
  { cbn. by rw progress_id. }
  inversion_clear Hall as [|? ? Hc Hall']. cbn [script]. change ((e :: evs) ++ rest) with (e :: (evs ++ rest)).
  rw select_step //. destruct (react e (core s)) as [l st]. cbn [fst snd].
  rw (IH (progress l st s)) //. cbn [core progress]. rw progress_app.
  change (core (progress l st s)) with st. by destruct (script evs st).
Qed.

(** ** Against the requests of [CollectorServer] *)

(** The requests of the connections, each with what becomes of its answer. *)
Definition asked (e : event) : option (string * write_result) :=
  match e with
  | Connect c =>
      match c_in c with
      | Text t => if String.eqb t EmptyString then None else Some (request_text t, c_out c)
      | _ => None
      end
  | _ => None
  end.
Definition requests (evs : list event) : list (string * write_result) := omap asked evs.

(** The answers that could be written, in order. *)
Fixpoint delivered (answers : list string) (reqs : list (string * write_result)) : list string :=
  match answers, reqs with
  | a :: answers', (_, Written) :: reqs' => a :: delivered answers' reqs'
  | _ :: answers', _ :: reqs' => delivered answers' reqs'
  | _, _ => []
  end.

Definition no_maps (st : state) : Prop := ebpf_processes st = None ∧ ebpf_global st = None.

Lemma sync_no_maps st : no_maps st → sync_ebpf_data st = st.
Proof. intros [Hp Hg]. unfold sync_ebpf_data. by rw Hp Hg. Qed.

Lemma kernel_no_maps m g st : no_maps st → kernel_writes m g st = st.
Proof. destruct st. by intros [[= ->] [= ->]]. Qed.

Lemma handle_no_maps r st : no_maps st → no_maps (snd (handle r st)).
Proof.
  intros H. unfold handle. repeat case_match; cbn; rw ?sync_no_maps //.
Qed.

Lemma script_serve evs st :
  no_maps st →
  script evs st = (delivered (fst (serve (fst <$> requests evs) st)) (requests evs),
                   snd (serve (fst <$> requests evs) st)).
Proof.
  revert st. induction evs as [|e evs IH]; intros st Hn; [done|].
  cbn [script]. destruct e as [|m g| |sig| |c]; cbn [react]; rw ?(sync_no_maps st Hn) ?(kernel_no_maps m g st Hn);
    try (rw (IH st Hn); done).
  unfold requests. cbn [omap list_omap asked].
  destruct (c_in c) as [| |t]; try (rw (IH st Hn); done).
  destruct (String.eqb t EmptyString); [rw (IH st Hn); done|].
  pose proof (handle_no_maps (request_text t) st Hn) as Hn'. cbn.
  destruct (handle (request_text t) st) as [r st']. cbn in Hn'. rw (IH st' Hn').
  fold (requests evs). destruct (serve _ st') as [as' st'']. by destruct (c_out c).
Qed.

(** ** The whole program *)

(** The socket can be opened and listened on, the thread can be started, and the
    eBPF maps are not there. *)
Record serviceable (x : os) : Prop := {
  sv_thread : os_thread x = true;
  sv_socket : 0 ≤ os_socket x;
  sv_bind : os_bind x = true;
  sv_listen : os_listen x = true;
  sv_process_map : os_process_map x < 0;
  sv_global_map : os_global_map x < 0;
}.

(** The process when the loop is entered, with the counts [st]. *)
Definition listening (st : state) (x : os) : service :=
  mk_service st true (os_socket x) (os_process_map x) (os_global_map x) Started false true
    {[os_socket x]} [].

Lemma start_no_maps qp_env mem_env : no_maps (start_up qp_env mem_env (boot None None)).
Proof.
  unfold start_up, apply_env, CollectorServer.initialize_service, update_max_global_qp,
    update_max_global_memory, boot, no_maps.
  generalize (replicate (Z.to_nat HASH_SIZE) ([] : chain)). intros table.
  destruct qp_env as [q|], mem_env as [m|];
    try generalize (u32 (atoi q)); try generalize (u64 (atoll m)); intros; cbn;
    repeat case_match; done.
Qed.

(** Setting limits does not touch the maps. *)
Lemma apply_env_maps qp_env mem_env st :
  apply_env qp_env mem_env (st <| ebpf_processes := None |> <| ebpf_global := None |>) =
    (apply_env qp_env mem_env st) <| ebpf_processes := None |> <| ebpf_global := None |>.
Proof.
  unfold apply_env. destruct st.
  generalize (match qp_env with Some v => u32 (atoi v) | None => 0 end).
  generalize (match mem_env with Some v => u64 (atoll v) | None => 0 end).
  intros. by repeat case_match.
Qed.

Lemma no_maps_set st : no_maps st → st <| ebpf_processes := None |> <| ebpf_global := None |> = st.
Proof. destruct st. by intros [[= ->] [= ->]]. Qed.

Lemma main_runs qp_env mem_env x evs st stale :
  serviceable x →
  main qp_env mem_env x evs (mk_service st true (-1) (-1) (-1) Not_started false stale ∅ []) =
    (alive ← main_loop evs;
     if negb (alive : bool) then mret Killed else cleanup x;; mret (Exit 0))
      (listening (apply_env qp_env mem_env
         ((CollectorServer.initialize_service qp_env mem_env st)
            <| ebpf_processes := None |> <| ebpf_global := None |>)) x).
Proof.
  intros []. unfold main, initialize_service, start_server, open_fd.
  rw (proj2 (Z.leb_gt _ _) sv_process_map0) (proj2 (Z.leb_gt _ _) sv_global_map0)
    (proj2 (Z.leb_le _ _) sv_socket0) (proj2 (Z.ltb_ge _ _) sv_socket0)
    sv_thread0 sv_bind0 sv_listen0.
  assert (∀ st', listening st' x = mk_service st' true (os_socket x) (os_process_map x)
    (os_global_map x) Started false true ({[os_socket x]} ∪ ∅) []) as ->
    by (intros st'; by rw /listening union_empty_r_L).
  generalize (CollectorServer.initialize_service qp_env mem_env) as f. intros f.
  generalize (apply_env qp_env mem_env) as g. intros g.
  generalize (main_loop evs) (cleanup x). intros ml cl. reflexivity.
Qed.

Lemma main_listening qp_env mem_env x evs stale :
  serviceable x →
  main qp_env mem_env x evs (power_on stale) =
    (alive ← main_loop evs;
     if negb (alive : bool) then mret Killed else cleanup x;; mret (Exit 0))
      (listening (start_up qp_env mem_env (boot None None)) x).
Proof.
  intros Hx. unfold power_on. rw main_runs //.
  rw apply_env_maps no_maps_set //. apply start_no_maps.
Qed.

(** The way out: every descriptor is closed, the socket file is gone, the thread
    is joined; a round between the destruction and the join is undefined. *)
Lemma cleanup_served x s :
  sync_thread s = Started → 0 ≤ server_fd s → process_resources_map_fd s < 0 →
  global_resources_map_fd s < 0 →
  cleanup x s =
    if late_round x then Crash else
    Ret tt (s <| open_fds ::= (λ f, f ∖ {[server_fd s]}) |> <| socket_path := false |>
              <| destroyed := true |> <| running := false |> <| sync_thread := Joined |>).
Proof.
  intros Ht Hs Hp Hg. destruct s as [st r sfd p g t d sp f l]. cbn in Ht, Hs, Hp, Hg. subst t.
  apply Z.leb_le in Hs. apply Z.leb_gt in Hp, Hg.
  unfold cleanup, get, mbind, M_bind. cbn [server_fd process_resources_map_fd global_resources_map_fd].
  rw Hs Hp Hg. by destruct (late_round x).
Qed.

(** What follows the loop, and the loop up to the first event that is not calm. *)
Definition finish (x : os) (alive : bool) : M service ending :=
  if negb alive then mret Killed else cleanup x;; mret (Exit 0).

Lemma main_calm qp_env mem_env x evs rest stale :
  serviceable x → Forall (calm {[os_socket x]}) evs →
  let st := start_up qp_env mem_env (boot None None) in
  main qp_env mem_env x (evs ++ rest) (power_on stale) =
    (select_loop rest ≫= finish x)
      (progress (delivered (fst (serve (fst <$> requests evs) st)) (requests evs))
         (snd (serve (fst <$> requests evs) st)) (listening st x)).
Proof.
  intros Hx Hall st. rw main_listening //. set (s := listening _ x).
  unfold main_loop. rw /mbind /M_bind while_running_on // select_calm //.
  by rw (script_serve evs (core s)); [apply start_no_maps|].
Qed.

Lemma interrupted_exit x s :
  (select_loop [Interrupted true] ≫= finish x) s = (cleanup x;; mret (Exit 0)) (s <| running := false |>).
Proof. by destruct s. Qed.

(** C31: the collector, from [main] to its exit: whatever connections come, as long
    as each peer sends or closes and waits for its answer, the answers handed out
    are those of [serve] to the requests in their order, up to the writes that
    fail; the counts end where [serve] leaves them, within the limits; and after a
    signal [main] returns 0 with every descriptor closed, the socket file removed
    and the thread joined. *)
Theorem collector_serves_in_order qp_env mem_env x stale evs :
  serviceable x → late_round x = false → Forall (calm {[os_socket x]}) evs →
  let reqs := requests evs in
  let answers := fst (serve (fst <$> reqs) (start_up qp_env mem_env (boot None None))) in
  let final := snd (serve (fst <$> reqs) (start_up qp_env mem_env (boot None None))) in
  ∃ s', main qp_env mem_env x (evs ++ [Interrupted true]) (power_on stale) = Ret (Exit 0) s' ∧
    sent s' = delivered answers reqs ∧ core s' = final ∧
    0 ≤ global_qp_count final ≤ max_global_qp final ∧
    0 ≤ global_memory_used final ≤ max_global_memory final ∧
    open_fds s' = ∅ ∧ socket_path s' = false ∧ sync_thread s' = Joined.
Proof.
  intros Hx Hlate Hall reqs answers final. eexists. split.
  { rw main_calm // interrupted_exit. unfold mbind, M_bind.
    rw cleanup_served //; try apply Hx. rw Hlate. reflexivity. }
  destruct (serve_limits (fst <$> reqs) _ (start_up_limits qp_env mem_env None)).
  split_and!; try done.
  all: cbn; set_solver.
Qed.

Definition plain_os : os := mk_os (-1) (-1) [] None true 3 true true false.
Definition asking (t : string) (out : write_result) : event :=
  Connect (mk_connection 4 (Text t) out false).

Lemma plain_serviceable : serviceable plain_os.
Proof. by split. Qed.

Lemma collector_serves_in_order_witness :
  ∃ s', main (Some "1") None plain_os
      ([asking "QP_CREATE" Written; Round; Accept_fails; asking "QP_CREATE" Written;
        asking "QP_DESTROY" Write_fails; asking "QP_CREATE" Written] ++ [Interrupted true])
      (power_on true) = Ret (Exit 0) s' ∧
    sent s' = ["Success: QP created" +:+ nl; "Error: QP limit reached" +:+ nl;
               "Success: QP created" +:+ nl].
Proof.
  destruct (collector_serves_in_order (Some "1") None plain_os true
    [asking "QP_CREATE" Written; Round; Accept_fails; asking "QP_CREATE" Written;
     asking "QP_DESTROY" Write_fails; asking "QP_CREATE" Written]) as (s' & Hrun & Hsent & _).
  - exact plain_serviceable.
  - reflexivity.
  - repeat constructor; cbn; try done; set_solver.
  - exists s'. split; [exact Hrun|]. rw Hsent. vm_compute. reflexivity.
Defined.

(** One client is enough to stop the collector for everyone, at any moment of
    its service: a connection on which nothing arrives blocks it for ever in
    [read]; one whose peer is gone when the answer is written kills it with
    SIGPIPE, before [cleanup], so that the socket file stays; and a signal that
    arrives between the test of [running] and [select] leaves it waiting. *)
Theorem one_client_stops_collector qp_env mem_env x stale evs :
  serviceable x → Forall (calm {[os_socket x]}) evs →
  (∀ c rest, c_in c = Silent →
     main qp_env mem_env x (evs ++ Connect c :: rest) (power_on stale) = Hang) ∧
  (∀ c rest t, 0 ≤ c_fd c → c_in c = Text t → t ≠ EmptyString → c_out c = Peer_gone →
     ∃ s', main qp_env mem_env x (evs ++ Connect c :: rest) (power_on stale) = Ret Killed s' ∧
       socket_path s' = true ∧
       sent s' = delivered (fst (serve (fst <$> requests evs)
                                   (start_up qp_env mem_env (boot None None)))) (requests evs)) ∧
  main qp_env mem_env x (evs ++ [Late_signal]) (power_on stale) = Hang.
Proof.
  intros Hx Hall. split_and!.
  - intros c rest Hin. rw main_calm //. cbn [select_loop]. unfold serve_client, answer_client, open_fd.
    rw Hin. by destruct (0 <=? c_fd c).
  - intros c rest t Hfd Hin Hne Hout. apply String.eqb_neq in Hne. rw main_calm //.
    set (s := progress _ _ _). cbn [select_loop]. unfold serve_client, answer_client, open_fd.
    rw Hin Hne Hout (proj2 (Z.leb_le _ _) Hfd). unfold get, modify, mbind, M_bind.
    set (h := handle _ _). destruct h. eexists. split; [reflexivity|]. by split.
  - by rw main_calm.
Qed.

Lemma one_client_stops_collector_witness :
  main None None plain_os ([asking "GET_STATS" Written] ++
    Connect (mk_connection 4 Silent Written false) :: [Interrupted true]) (power_on false) = Hang ∧
  ∃ s', main None None plain_os ([asking "QP_CREATE" Written] ++
    asking "QP_DESTROY" Peer_gone :: [Interrupted true]) (power_on false) = Ret Killed s' ∧
    socket_path s' = true ∧ sent s' = ["Success: QP created" +:+ nl].
Proof.
  split.
  - destruct (one_client_stops_collector None None plain_os false [asking "GET_STATS" Written])
      as (Hsilent & _ & _); [exact plain_serviceable|repeat constructor; cbn; try done; set_solver|].
    by apply Hsilent.
  - destruct (one_client_stops_collector None None plain_os false [asking "QP_CREATE" Written])
      as (_ & Hgone & _); [exact plain_serviceable|repeat constructor; cbn; try done; set_solver|].
    destruct (Hgone (mk_connection 4 (Text "QP_DESTROY") Peer_gone false) [Interrupted true]
      "QP_DESTROY") as (s' & Hrun & Hpath & Hsent); try done.
    exists s'. split_and!; [exact Hrun|exact Hpath|]. rw Hsent. vm_compute. reflexivity.
Defined.

(** The process after a start that failed at the socket, and its cleanup. *)
Definition failed (st : state) (x : os) : service :=
  mk_service st true (-1) (os_process_map x) (os_global_map x) Started false false
    (({[os_socket x]} ∪ ∅) ∖ {[os_socket x]}) [].

Lemma cleanup_unopened x s :
  sync_thread s = Started → server_fd s = -1 → process_resources_map_fd s < 0 →
  global_resources_map_fd s < 0 →
  cleanup x s =
    if late_round x then Crash else
    Ret tt (s <| destroyed := true |> <| running := false |> <| sync_thread := Joined |>).
Proof.
  intros Ht Hs Hp Hg. destruct s as [st r sfd p g t d sp f l]. cbn in Ht, Hs, Hp, Hg. subst.
  apply Z.leb_gt in Hp, Hg. unfold cleanup, get, mbind, M_bind.
  cbn [server_fd process_resources_map_fd global_resources_map_fd].
  rw Hp Hg. by destruct (late_round x).
Qed.

(** A start that fails at the socket: with no thread in the way, [main] returns 1
    and leaves nothing behind; but the thread runs already, and [cleanup] destroys
    the mutexes before it stops the thread. *)
Theorem failed_start_cleans_up qp_env mem_env x stale evs :
  os_thread x = true → 0 ≤ os_socket x → os_bind x && os_listen x = false →
  os_process_map x < 0 → os_global_map x < 0 →
  (late_round x = false →
     ∃ s', main qp_env mem_env x evs (power_on stale) = Ret (Exit 1) s' ∧
       open_fds s' = ∅ ∧ socket_path s' = false ∧ sync_thread s' = Joined) ∧
  (late_round x = true → main qp_env mem_env x evs (power_on stale) = Crash).
Proof.
  intros Ht Hs Hbl Hp Hg. apply Z.leb_le in Hs as Hs1. apply Z.ltb_ge in Hs as Hs2.
  apply Z.leb_gt in Hp, Hg. unfold power_on. generalize (boot None None) as st. intros st.
  assert (main qp_env mem_env x evs (mk_service st true (-1) (-1) (-1) Not_started false stale ∅ []) =
    (cleanup x;; mret (Exit 1))
      (failed (apply_env qp_env mem_env
         ((CollectorServer.initialize_service qp_env mem_env st)
            <| ebpf_processes := None |> <| ebpf_global := None |>)) x)) as ->.
  { unfold main, initialize_service, start_server, open_fd. rw Hp Hg Hs1 Hs2 Ht.
    generalize (CollectorServer.initialize_service qp_env mem_env) as f. intros f.
    generalize (apply_env qp_env mem_env) as g. intros g.
    generalize (cleanup x). intros cl. by destruct (os_bind x), (os_listen x). }
  unfold mbind, M_bind. rw cleanup_unopened //; try by apply Z.leb_gt. split; intros ->; [|done].
  eexists. split; [reflexivity|]. split_and!; try done. cbn. set_solver.
Qed.

End CollectorService.
