(* ===== verification/CollectorClient.v ===== *)
(** * Collector client ([src/collector_client.c])

    The calls the library makes to the collector: one connection, one request,
    one response each.  The other end of the socket is a parameter ([exchange]);
    the theorems connect the client to the server of [CollectorServer.v].  Log
    messages are rendered in English. *)

From S2P Require Import Prelude CString Intercept CollectorServer.

Module CollectorClient.
Import Intercept.

(** How one connection ends: which system call failed, or what [read] returned
    (the server writes its response at once, and it arrives in one read). *)
Inductive reply :=
| NoSocket
| NoConnect
| NoWrite
| NoRead
| Reply (response : string).

Section Client.
Context {Srv : Type} (exchange : string → Srv → reply * Srv).

Record client := mk_client {
  proc : process;
  global_qp_count : Z;     (* uint32_t *)
  max_global_qp : Z;       (* uint32_t *)
  srv : Srv;
}.
#[export] Instance expand_client : Expand client := λ r,
  mk_client (proc r) (global_qp_count r) (max_global_qp r) (srv r).

(** The values of the statics at start-up. *)
Definition client_start (p : process) (s : Srv) : client := mk_client p 0 1000 s.

Definition log (level : Z) (msg : string) : M client unit := zoom proc (rdma_intercept_log level msg).

(** Connect, send, and read at most [size - 1] bytes; [None]: some step failed,
    and was logged. *)
Definition ask (request : string) (size : nat) : M client (option string) :=
  c ← get;
  let '(r, s) := exchange request (srv c) in
  modify (λ c, c <| srv := s |>);;
  match r with
  | NoSocket => log LOG_LEVEL_ERROR "cannot create collector socket";; mret None
  | NoConnect => log LOG_LEVEL_WARN "cannot connect to the collector";; mret None
  | NoWrite => log LOG_LEVEL_ERROR "cannot send the request";; mret None
  | NoRead => log LOG_LEVEL_ERROR "cannot read the response";; mret None
  | Reply b => mret (Some (String.substring 0 (size - 1) b))
  end.

(** [sscanf (line, fmt " %u", &x)] on a line that starts with [fmt]. *)
Definition sscanf_u (fmt line : string) : option Z :=
  rest ← strip_prefix fmt line;
  let '(_, t) := sign (skip is_space rest) in
  if starts_digit t then Some (u32 (strtoull rest)) else None.

Definition get_global_qp_stats : M client Z :=
  r ← ask "GET_STATS" 1024;
  match r with
  | None => mret (-1)
  | Some buffer =>
      (match strstr "Total QP:" buffer with
       | Some total_line =>
           (match sscanf_u "Total QP:" total_line with
            | Some n => modify (λ c, c <| global_qp_count := n |>)
            | None => mret tt
            end);;
           c ← get;
           log LOG_LEVEL_INFO ("global QP count: " +:+ print_dec (global_qp_count c))
       | None => mret tt
       end);;
      (match strstr "Max QP:" buffer with
       | Some max_line =>
           match sscanf_u "Max QP:" max_line with
           | Some new_max_global =>
               if 0 <? new_max_global then
                 modify (λ c, c <| max_global_qp := new_max_global |>);;
                 log LOG_LEVEL_INFO ("global QP limit: " +:+ print_dec new_max_global)
               else mret tt
           | None => crash     (* [new_max_global] is read uninitialised *)
           end
       | None => mret tt
       end);;
      mret 0
  end.

Definition collector_get_global_qp_count : M client Z :=
  r ← get_global_qp_stats;
  (if r <? 0 then log LOG_LEVEL_WARN "using the cached global QP count" else mret tt);;
  gets global_qp_count.

Definition collector_get_max_global_qp : M client Z :=
  r ← get_global_qp_stats;
  (if r <? 0 then log LOG_LEVEL_WARN "using the cached global QP limit" else mret tt);;
  gets max_global_qp.

Definition success (buffer : string) : bool :=
  match strstr "Success" buffer with Some _ => true | None => false end.

Definition collector_send_qp_create_event : M client bool :=
  r ← ask "QP_CREATE" 64;
  match r with
  | None => mret false
  | Some buffer =>
      (if success buffer then mret tt
       else log LOG_LEVEL_ERROR ("QP_CREATE refused: " +:+ buffer));;
      mret (success buffer)
  end.

Definition collector_send_qp_destroy_event : M client unit := ask "QP_DESTROY" 64;; mret tt.

Definition collector_check_global_qp_limit : M client bool :=
  log LOG_LEVEL_INFO "checking the global QP limit";;
  global_count ← collector_get_global_qp_count;
  max_global ← collector_get_max_global_qp;
  log LOG_LEVEL_INFO "checking the global QP limit";;
  if max_global =? 0 then
    log LOG_LEVEL_INFO "no global QP limit: allowed";; mret false
  else if (global_count =? 0) && (0 <? max_global) then
    log LOG_LEVEL_INFO "no QP yet: allowed";; mret false
  else if global_count <? max_global then
    log LOG_LEVEL_INFO "below the global QP limit: allowed";; mret false
  else
    log LOG_LEVEL_ERROR "QP creation denied: global QP limit reached";; mret true.

Definition collector_send_mr_create_event (length : Z) : M client bool :=
  r ← ask ("MR_CREATE " +:+ print_dec length) 64;
  match r with
  | None => mret false
  | Some buffer =>
      (if success buffer then mret tt
       else log LOG_LEVEL_ERROR ("MR_CREATE refused: " +:+ buffer));;
      mret (success buffer)
  end.

Definition collector_send_mr_destroy_event (length : Z) : M client unit :=
  ask ("MR_DESTROY " +:+ print_dec length) 64;; mret tt.

(** Returns true when the limit is reached. *)
Definition collector_check_global_memory_limit (requested_size : Z) : M client bool :=
  log LOG_LEVEL_INFO ("checking the global memory limit: " +:+ print_dec requested_size);;
  r ← ask ("CHECK_MEMORY " +:+ print_dec requested_size) 64;
  match r with
  | None => mret false
  | Some buffer =>
      (if success buffer then mret tt
       else log LOG_LEVEL_ERROR ("memory registration refused: " +:+ buffer));;
      mret (negb (success buffer))
  end.
End Client.

Arguments client Srv : clear implicits.

(** ** Running the client *)

(** The client's process may log. *)
Definition client_ok {Srv} (c : client Srv) : Prop := log_ok (proc c).

(** The client's statics and the server, apart from what was logged. *)
Definition same_client {Srv} (c c' : client Srv) : Prop :=
  g (proc c') = g (proc c) ∧ sys (proc c') = sys (proc c) ∧
  global_qp_count c' = global_qp_count c ∧ max_global_qp c' = max_global_qp c ∧ srv c' = srv c.

Lemma log_client {Srv} (c : client Srv) level msg :
  client_ok c → ∃ c', log level msg c = Ret tt c' ∧ client_ok c' ∧ same_client c c'.
Proof.
  intros Hok. destruct (log_run level msg (proc c) Hok) as (p' & Hrun & _ & Hg & Hok' & _ & Hs & _).
  unfold log, zoom. rw Hrun. eexists. by split_and!.
Qed.

(** Whatever the other end answers, a request returns, and so does the memory
    check. *)
Lemma ask_returns {Srv} (exchange : string → Srv → reply * Srv) request size (c : client Srv) :
  client_ok c →
  ∃ r c', ask exchange request size c = Ret r c' ∧ client_ok c' ∧
    g (proc c') = g (proc c) ∧ sys (proc c') = sys (proc c).
Proof.
  intros Hok. unfold ask. run. destruct (exchange request (srv c)) as [[]  s]; cbn;
    try (match goal with |- context [log ?l ?m ?c1] =>
      destruct (log_client c1 l m Hok) as (c' & Hrun & Hok' & Hg & Hs & _); rw Hrun end;
      eexists _, c'; by split_and!).
  eexists _, _. by split_and!.
Qed.

Lemma memory_check_returns {Srv} (exchange : string → Srv → reply * Srv) n (c : client Srv) :
  client_ok c →
  ∃ b c', collector_check_global_memory_limit exchange n c = Ret b c' ∧ client_ok c' ∧
    g (proc c') = g (proc c) ∧ sys (proc c') = sys (proc c).
Proof.
  intros Hok. unfold collector_check_global_memory_limit.
  destruct (log_client c LOG_LEVEL_INFO ("checking the global memory limit: " +:+ print_dec n) Hok)
    as (c1 & Hrun1 & Hok1 & Hg1 & Hs1 & _).
  rw (bind_Ret _ _ _ _ _ Hrun1).
  destruct (ask_returns exchange ("CHECK_MEMORY " +:+ print_dec n) 64 c1 Hok1)
    as (r & c2 & Hrun2 & Hok2 & Hg2 & Hs2).
  rw (bind_Ret _ _ _ _ _ Hrun2). destruct r as [buffer|].
  - destruct (success buffer).
    + exists false, c2. by rw Hg2 Hs2.
    + destruct (log_client c2 LOG_LEVEL_ERROR ("memory registration refused: " +:+ buffer) Hok2)
        as (c3 & Hrun3 & Hok3 & Hg3 & Hs3 & _).
      rw (bind_Ret _ _ _ _ _ Hrun3). exists true, c3. by rw Hg3 Hs3 Hg2 Hs2.
  - exists false, c2. by rw Hg2 Hs2.
Qed.

(** ** The client and the server *)

(** The server at the other end of the socket. *)
Definition connect (request : string) (s : CollectorServer.state) : reply * CollectorServer.state :=
  let '(a, s') := CollectorServer.handle request s in (Reply a, s').

(** The server's figures fit their types. *)
Record wide (s : CollectorServer.state) : Prop := {
  wide_qp : is_u32 (CollectorServer.global_qp_count s);
  wide_max_qp : is_u32 (CollectorServer.max_global_qp s);
  wide_mr : is_u32 (CollectorServer.global_mr_count s);
  wide_memory : is_u64 (CollectorServer.global_memory_used s);
  wide_max_memory : is_u64 (CollectorServer.max_global_memory s);
  wide_kernel u : CollectorServer.ebpf_global s = Some (Some u) →
    is_u64 (CollectorServer.memory_used u);
}.

Lemma wide_sync s : wide s → wide (CollectorServer.sync_ebpf_data s).
Proof.
  intros []. unfold CollectorServer.sync_ebpf_data.
  destruct (CollectorServer.ebpf_processes s); cbn;
    destruct (CollectorServer.ebpf_global s) as [[u|]|] eqn:E; cbn; split; cbn;
    try done; try apply u32_range; eauto; intros u'; rw E; try done; intros [= <-]; eauto.
Qed.

(** Synchronising twice is the same as once, for the counts. *)
Lemma sync_twice s :
  let s1 := CollectorServer.sync_ebpf_data s in
  CollectorServer.global_qp_count (CollectorServer.sync_ebpf_data s1) =
    CollectorServer.global_qp_count s1 ∧
  CollectorServer.max_global_qp (CollectorServer.sync_ebpf_data s1) =
    CollectorServer.max_global_qp s1.
Proof.
  unfold CollectorServer.sync_ebpf_data.
  destruct (CollectorServer.ebpf_processes s) eqn:Hp; cbn;
    destruct (CollectorServer.ebpf_global s) as [[u|]|] eqn:E; cbn; rw ?Hp ?E; cbn; rw ?E //.
Qed.

Lemma sscanf_u_print fmt n rest :
  is_u32 n → starts_digit rest = false →
  sscanf_u fmt (fmt +:+ " " +:+ print_dec n +:+ rest) = Some n.
Proof.
  intros Hn Hr. unfold sscanf_u. rw strip_prefix_app. cbn [mbind option_bind].
  destruct (print_dec_digits n rest (proj1 Hn) Hr) as [_ Hs].
  destruct (starts_digit_plain _ Hs) as [Hsk Hsg].
  assert (Hsp : skip is_space (" " +:+ print_dec n +:+ rest) = print_dec n +:+ rest) by exact Hsk.
  rw Hsp Hsg Hs. f_equal.
  transitivity (u32 (strtoull (print_dec n +:+ rest))).
  - unfold strtoull. by rw Hsp Hsk.
  - rw strtoull_print //; [unfold is_u32, is_u64 in *; lia|]. by apply u32_small.
Qed.

Lemma stats_fits s :
  wide s → (String.length (CollectorServer.stats_response s) ≤ 1023)%nat.
Proof.
  intros []. unfold CollectorServer.stats_response. rw !length_app_string.
  pose proof (length_print 10 (CollectorServer.global_qp_count s)).
  pose proof (length_print 10 (CollectorServer.max_global_qp s)).
  pose proof (length_print 10 (CollectorServer.global_mr_count s)).
  pose proof (length_print 20 (CollectorServer.global_memory_used s)).
  pose proof (length_print 20 (CollectorServer.max_global_memory s)).
  unfold is_u32, is_u64 in *.
  change (String.length "Total QP: ") with 10%nat. change (String.length "Max QP: ") with 8%nat.
  change (String.length "Total MR: ") with 10%nat.
  change (String.length "Total Memory Used: ") with 19%nat.
  change (String.length "Max Memory: ") with 12%nat. change (String.length " bytes") with 6%nat.
  change (String.length CollectorServer.nl) with 1%nat. lia.
Qed.

(** What the client reads out of the server's response. *)
Lemma read_stats s :
  wide s →
  (∃ l, strstr "Total QP:" (CollectorServer.stats_response s) = Some l ∧
     sscanf_u "Total QP:" l = Some (CollectorServer.global_qp_count s)) ∧
  (∃ l, strstr "Max QP:" (CollectorServer.stats_response s) = Some l ∧
     sscanf_u "Max QP:" l = Some (CollectorServer.max_global_qp s)).
Proof.
  intros Hw. unfold CollectorServer.stats_response.
  set (tail1 := "Total MR: " +:+ _). set (tail2 := "Max QP: " +:+ _). split.
  - exists ("Total QP:" +:+ " " +:+ print_dec (CollectorServer.global_qp_count s) +:+
      CollectorServer.nl +:+ tail2). split; [apply (strstr_here "Total QP:")|].
    by apply sscanf_u_print; [apply Hw|].
  - exists ("Max QP:" +:+ " " +:+ print_dec (CollectorServer.max_global_qp s) +:+
      CollectorServer.nl +:+ tail1). split; [|by apply sscanf_u_print; [apply Hw|]].
    transitivity (strstr "Max QP:" tail2); [|apply (strstr_here "Max QP:")].
    assert (Hassoc : "Total QP: " +:+ print_dec (CollectorServer.global_qp_count s) +:+
        CollectorServer.nl +:+ tail2 =
      ("Total QP: " +:+ print_dec (CollectorServer.global_qp_count s) +:+ CollectorServer.nl)
        +:+ tail2).
    { by rw -!string_app_assoc. }
    rw Hassoc. apply strstr_skip. rw !free_of_app.
    rw print_dec_free //; [apply Hw|].
    intros c. destruct c as [[] [] [] [] [] [] [] []]; by vm_compute.
Qed.

Abbreviation linked := (client CollectorServer.state).

(** One round trip that gets through. *)
Lemma ask_run request size (c : linked) :
  (String.length (fst (CollectorServer.handle request (srv c))) ≤ size - 1)%nat →
  ask connect request size c =
    Ret (Some (fst (CollectorServer.handle request (srv c))))
        (c <| srv := snd (CollectorServer.handle request (srv c)) |>).
Proof.
  intros Hl. unfold ask, connect. run. destruct (CollectorServer.handle request (srv c)) as [a s'].
  cbn in *. by rw substring_all.
Qed.

Lemma get_stats_run (c : linked) :
  client_ok c → wide (srv c) →
  let s' := CollectorServer.sync_ebpf_data (srv c) in
  ∃ c', get_global_qp_stats connect c = Ret 0 c' ∧ client_ok c' ∧ srv c' = s' ∧
    g (proc c') = g (proc c) ∧ sys (proc c') = sys (proc c) ∧
    global_qp_count c' = CollectorServer.global_qp_count s' ∧
    (0 < CollectorServer.max_global_qp s' → max_global_qp c' = CollectorServer.max_global_qp s').
Proof.
  intros Hok Hw s'. pose proof (wide_sync _ Hw) as Hw'.
  assert (Hh : CollectorServer.handle "GET_STATS" (srv c) = (CollectorServer.stats_response s', s'))
    by done.
  destruct (read_stats s' Hw') as [(l1 & Hl1 & Hs1) (l2 & Hl2 & Hs2)].
  unfold get_global_qp_stats.
  rw (bind_Ret _ _ _ _ _ (ask_run "GET_STATS" 1024 c (stats_fits _ Hw'))). rw Hh. cbn [fst snd].
  rw Hl1 Hs1.
  set (c1 := (c <| srv := s' |>) <| global_qp_count := CollectorServer.global_qp_count s' |>).
  destruct (log_client c1 LOG_LEVEL_INFO ("global QP count: " +:+ print_dec (global_qp_count c1)))
    as (c2 & Hr2 & Hok2 & Hg2 & Hy2 & Hq2 & Hm2 & Hsrv2); [done|].
  assert (Hfirst : ((modify (λ c, c <| global_qp_count := CollectorServer.global_qp_count s' |>));;
    c ← get; log LOG_LEVEL_INFO ("global QP count: " +:+ print_dec (global_qp_count c)))
      (c <| srv := s' |>) = Ret tt c2) by exact Hr2.
  rw (bind_Ret _ _ _ _ _ Hfirst). rw Hl2 Hs2.
  destruct (Z.ltb_spec 0 (CollectorServer.max_global_qp s')) as [Hpos|Hpos].
  - set (c3 := c2 <| max_global_qp := CollectorServer.max_global_qp s' |>).
    destruct (log_client c3 LOG_LEVEL_INFO
      ("global QP limit: " +:+ print_dec (CollectorServer.max_global_qp s')))
      as (c4 & Hr4 & Hok4 & Hg4 & Hy4 & Hq4 & Hm4 & Hsrv4); [done|].
    assert (Hsecond : (modify (λ c : linked, c <| max_global_qp := CollectorServer.max_global_qp s' |>);;
      log LOG_LEVEL_INFO ("global QP limit: " +:+ print_dec (CollectorServer.max_global_qp s'))) c2
        = Ret tt c4) by exact Hr4.
    rw (bind_Ret _ _ _ _ _ Hsecond). exists c4.
    split_and!; [done|done|by rw Hsrv4|by rw Hg4|by rw Hy4|by rw Hq4|done].
  - exists c2. split_and!; [done|done|done|by rw Hg2|by rw Hy2|done|lia].
Qed.

Lemma get_count_run (c : linked) :
  client_ok c → wide (srv c) →
  let s' := CollectorServer.sync_ebpf_data (srv c) in
  ∃ c', collector_get_global_qp_count connect c = Ret (CollectorServer.global_qp_count s') c' ∧
    client_ok c' ∧ srv c' = s' ∧ g (proc c') = g (proc c) ∧ sys (proc c') = sys (proc c).
Proof.
  intros Hok Hw s'. destruct (get_stats_run c Hok Hw) as (c' & Hrun & Hok' & Hs & Hg & Hy & Hq & _).
  unfold collector_get_global_qp_count. rw (bind_Ret _ _ _ _ _ Hrun).
  exists c'. split_and!; [|done..]. run. cbn. by rw Hq.
Qed.

Lemma get_max_run (c : linked) :
  client_ok c → wide (srv c) →
  let s' := CollectorServer.sync_ebpf_data (srv c) in
  0 < CollectorServer.max_global_qp s' →
  ∃ c', collector_get_max_global_qp connect c = Ret (CollectorServer.max_global_qp s') c' ∧
    client_ok c' ∧ srv c' = s' ∧ g (proc c') = g (proc c) ∧ sys (proc c') = sys (proc c).
Proof.
  intros Hok Hw s' Hpos. destruct (get_stats_run c Hok Hw) as (c' & Hrun & Hok' & Hs & Hg & Hy & _ & Hm).
  unfold collector_get_max_global_qp. rw (bind_Ret _ _ _ _ _ Hrun).
  exists c'. split_and!; [|done..]. run. cbn. by rw Hm.
Qed.

(** ** Properties *)

(** C32: the figures survive the protocol: what the client answers for the global
    QP count and the global limit is what the server holds after synchronising
    with the kernel, and [collector_check_global_qp_limit] refuses exactly when
    that count has reached that limit. *)
Theorem client_agrees_with_server (c : linked) :
  client_ok c → wide (srv c) →
  let s' := CollectorServer.sync_ebpf_data (srv c) in
  0 < CollectorServer.max_global_qp s' →
  (∃ c', collector_get_global_qp_count connect c = Ret (CollectorServer.global_qp_count s') c') ∧
  (∃ c', collector_get_max_global_qp connect c = Ret (CollectorServer.max_global_qp s') c') ∧
  ∃ c', collector_check_global_qp_limit connect c =
    Ret (CollectorServer.max_global_qp s' <=? CollectorServer.global_qp_count s') c'.
Proof.
  intros Hok Hw s' Hpos. split_and!.
  - destruct (get_count_run c Hok Hw) as (c' & Hrun & _). by exists c'.
  - destruct (get_max_run c Hok Hw Hpos) as (c' & Hrun & _). by exists c'.
  - unfold collector_check_global_qp_limit.
    destruct (log_client c LOG_LEVEL_INFO "checking the global QP limit" Hok)
      as (c1 & H1 & Hok1 & _ & _ & _ & _ & Hs1). rw (bind_Ret _ _ _ _ _ H1).
    destruct (get_count_run c1 Hok1) as (c2 & H2 & Hok2 & Hs2 & _); [by rw Hs1|].
    rw (bind_Ret _ _ _ _ _ H2). rw Hs1 in Hs2 *.
    destruct (sync_twice (srv c)) as [_ Hm].
    destruct (get_max_run c2 Hok2) as (c3 & H3 & Hok3 & _).
    { rw Hs2. by apply wide_sync. }
    { by rw Hs2 Hm. }
    rw (bind_Ret _ _ _ _ _ H3). rw Hs2 Hm.
    destruct (log_client c3 LOG_LEVEL_INFO "checking the global QP limit" Hok3)
      as (c4 & H4 & Hok4 & _). rw (bind_Ret _ _ _ _ _ H4). fold s'.
    rw (proj2 (Z.eqb_neq _ 0)); [lia|]. rw (proj2 (Z.ltb_lt 0 _) Hpos) andb_true_r.
    assert (Hend : ∀ level msg (b : bool), ∃ c',
      ((log level msg : M linked unit);; (mret b : M linked bool)) c4 = Ret b c').
    { intros level msg b. destruct (log_client c4 level msg Hok4) as (c5 & H5 & _).
      exists c5. by rw (bind_Ret _ _ _ _ _ H5). }
    rw Z.leb_antisym.
    destruct (Z.eqb_spec (CollectorServer.global_qp_count s') 0) as [E|E].
    + rw (proj2 (Z.ltb_lt _ _)); [lia|]. apply Hend.
    + destruct (_ <? _); apply Hend.
Qed.

#[local] Existing Instance CollectorServer.expand_state.

Definition example_client : linked :=
  client_start (start example_system)
    ((CollectorServer.boot None None) <| CollectorServer.global_qp_count := 7 |>).

Lemma example_client_wide : client_ok example_client ∧ wide (srv example_client).
Proof. split; [apply start_ok|]. split; try done; vm_compute; by split. Qed.

Lemma client_agrees_with_server_witness :
  (∃ c', collector_get_global_qp_count connect example_client = Ret 7 c') ∧
  ∃ c', collector_check_global_qp_limit connect example_client = Ret false c'.
Proof.
  destruct example_client_wide as [Hok Hw].
  destruct (client_agrees_with_server example_client Hok Hw) as (H1 & _ & H2); [reflexivity|].
  exact (conj H1 H2).
Defined.

(** The memory protocol: for every request size the hook's question reaches
    the server intact, and the client refuses exactly when the server's check
    fails, leaving the server's figures alone. *)
Theorem memory_check_agrees (c : linked) length :
  client_ok c → is_u64 length →
  ∃ c', collector_check_global_memory_limit connect length c =
      Ret (CollectorServer.over_memory (srv c) length) c' ∧ srv c' = srv c.
Proof.
  intros Hok Hl. unfold collector_check_global_memory_limit.
  destruct (log_client c LOG_LEVEL_INFO ("checking the global memory limit: " +:+ print_dec length) Hok)
    as (c1 & H1 & Hok1 & _ & _ & _ & _ & Hs1). rw (bind_Ret _ _ _ _ _ H1).
  destruct (CollectorServer.handle_numbered length (srv c1) Hl) as (_ & _ & Hh & _).
  rw (bind_Ret _ _ _ _ _ (ask_run _ 64 c1 _)).
  { rw Hh. by destruct (CollectorServer.over_memory _ _); apply Nat.leb_le. }
  rw Hh Hs1. destruct (CollectorServer.over_memory (srv c) length); cbn [fst snd].
  - set (c2 := c1 <| srv := _ |>).
    destruct (log_client c2 LOG_LEVEL_ERROR
      ("memory registration refused: " +:+ ("Error: Memory limit reached" +:+ CollectorServer.nl)))
      as (c3 & H3 & _ & _ & _ & _ & _ & Hs3); [done|].
    exists c3. split; [|by rw Hs3]. change (success _) with false. cbn [negb].
    by rw (bind_Ret _ _ _ _ _ H3).
  - eexists. split; [reflexivity|done].
Qed.

Lemma memory_check_agrees_witness :
  ∃ c', collector_check_global_memory_limit connect (2 ^ 60) example_client = Ret true c'.
Proof.
  destruct (memory_check_agrees example_client (2 ^ 60)) as (c' & H & _).
  - apply example_client_wide.
  - split; reflexivity || discriminate.
  - exists c'. exact H.
Defined.

End CollectorClient.
