(* ===== verification/LocalPolicy.v ===== *)
(** * Local QP policy ([src/dynamic_policy.c])

    The per-process QP limit that follows the global usage reported by the
    collector.  The usage is a [float], compared with the [double] constants 0.3
    and 0.7. *)

From S2P Require Import Prelude CString CFloat Intercept CollectorServer CollectorClient.

Module LocalPolicy.
Import Intercept CollectorClient.

(** ** Floating point *)

Definition double_0_3 : spec_float := S754_finite false 5404319552844595 (-54).
Definition double_0_7 : spec_float := S754_finite false 6305039478318694 (-53).

(** The limit the code picks for a usage. *)
Definition limit_for (global_usage : spec_float) : Z :=
  if below (to_double global_usage) double_0_3 then 200
  else if below (to_double global_usage) double_0_7 then 100 else 50.

(** ** State and operations *)

Section Policy.
Context {Srv : Type} (exchange : string → Srv → reply * Srv).

Record policy := mk_policy {
  cl : client Srv;
  last_adjust_time : Z;     (* uint32_t *)
  local_qp_limit : Z;       (* uint32_t *)
  clock : nat → Z;          (* successive readings of time(NULL) *)
}.
#[export] Instance expand_policy : Expand policy := λ r,
  mk_policy (cl r) (last_adjust_time r) (local_qp_limit r) (clock r).

Definition policy_start (c : client Srv) (clk : nat → Z) : policy := mk_policy c 0 100 clk.

Definition time : M policy Z := λ s,
  Ret (clock s 0%nat) (s <| clock := λ n, clock s (S n) |>).

Definition plog (level : Z) (msg : string) : M policy unit := zoom cl (log level msg).

Definition adjust_local_qp_limit : M policy unit :=
  now ← time;
  s ← get;
  let current_time := u32 now in
  if u32 (current_time - last_adjust_time s) <? 5 then mret tt else
  modify (λ s, s <| last_adjust_time := current_time |>);;
  global_count ← zoom cl (collector_get_global_qp_count exchange);
  max_global ← zoom cl (collector_get_max_global_qp exchange);
  let global_usage :=
    if 0 <? max_global then float_ratio global_count max_global else S754_zero false in
  modify (λ s, s <| local_qp_limit := limit_for global_usage |>);;
  s ← get;
  (match sys_getenv (sys (proc (cl s))) "RDMA_INTERCEPT_LOCAL_QP_LIMIT" with
   | Some v => modify (λ s, s <| local_qp_limit := u32 (atoi v) |>)
   | None => mret tt
   end);;
  s ← get;
  plog LOG_LEVEL_INFO ("local QP limit set to " +:+ print_dec (local_qp_limit s)).

Definition check_dynamic_qp_policy : M policy bool :=
  plog LOG_LEVEL_INFO "checking the dynamic QP policy";;
  adjust_local_qp_limit;;
  plog LOG_LEVEL_INFO "checking the global QP limit";;
  reached ← zoom cl (collector_check_global_qp_limit exchange);
  if reached : bool then plog LOG_LEVEL_ERROR "global QP limit check failed";; mret false else
  plog LOG_LEVEL_INFO "checking the local QP limit";;
  s ← get;
  if local_qp_limit s <=? qp_count (g (proc (cl s))) then
    plog LOG_LEVEL_ERROR "local QP limit reached";; mret false
  else
    plog LOG_LEVEL_INFO "dynamic QP policy passed";; mret true.

Definition get_current_local_qp_limit : M policy Z :=
  adjust_local_qp_limit;; gets local_qp_limit.

Definition init_dynamic_policy : M policy unit :=
  plog LOG_LEVEL_INFO "initialising the dynamic QP policy";;
  adjust_local_qp_limit.
End Policy.

Arguments policy Srv : clear implicits.

(** ** Running the policy against the server *)

Lemma plog_run {Srv} (s : policy Srv) level msg :
  client_ok (cl s) →
  ∃ s', plog level msg s = Ret tt s' ∧ client_ok (cl s') ∧ same_client (cl s) (cl s') ∧
    last_adjust_time s' = last_adjust_time s ∧ local_qp_limit s' = local_qp_limit s ∧
    clock s' = clock s.
Proof.
  intros Hok. destruct (log_client (cl s) level msg Hok) as (c' & Hrun & Hok' & Hsame).
  unfold plog, zoom. rw Hrun. eexists. by split_and!.
Qed.

Lemma zoom_cl {Srv A} (m : M (client Srv) A) (s : policy Srv) a c' :
  m (cl s) = Ret a c' → zoom cl m s = Ret a (s <| cl := c' |>).
Proof. intros H. unfold zoom. by rw H. Qed.

Abbreviation lp_linked := (policy CollectorServer.state).

(** The limit the environment and the server's figures call for. *)
Definition target_limit (s : lp_linked) (srv' : CollectorServer.state) : Z :=
  match sys_getenv (sys (proc (cl s))) "RDMA_INTERCEPT_LOCAL_QP_LIMIT" with
  | Some v => u32 (atoi v)
  | None => limit_for (float_ratio (CollectorServer.global_qp_count srv')
                                   (CollectorServer.max_global_qp srv'))
  end.

(** ** Properties *)

(** With the collector at the other end, an adjustment at least five seconds
    after the last one sets the local QP limit from the ratio of the server's
    count to the server's limit (200 below 30%, 100 below 70%, 50 above), unless
    the environment overrides it; an adjustment within five seconds keeps the
    limit and asks nobody. *)
Theorem local_limit_follows_server (s : lp_linked) :
  client_ok (cl s) → wide (srv (cl s)) →
  let now := u32 (clock s 0%nat) in
  let srv' := CollectorServer.sync_ebpf_data (srv (cl s)) in
  0 < CollectorServer.max_global_qp srv' →
  ∃ s', adjust_local_qp_limit connect s = Ret tt s' ∧ client_ok (cl s') ∧
    (if u32 (now - last_adjust_time s) <? 5
     then local_qp_limit s' = local_qp_limit s ∧ cl s' = cl s
     else local_qp_limit s' = target_limit s srv' ∧ last_adjust_time s' = now).
Proof.
  intros Hok Hw now srv' Hpos. unfold adjust_local_qp_limit, time. run. cbn.
  destruct (_ <? 5) eqn:E; fold now in E; [by eexists|].
  destruct (get_count_run (cl s) Hok Hw) as (c1 & H1 & Hok1 & Hs1 & _ & Hy1).
  destruct (get_max_run c1 Hok1) as (c2 & H2 & Hok2 & Hs2 & _ & Hy2).
  { rw Hs1. by apply wide_sync. }
  { destruct (sync_twice (srv (cl s))) as [_ Hm]. by rw Hs1 Hm. }
  rw H1. cbn. rw H2. cbn. rw Hs1.
  destruct (sync_twice (srv (cl s))) as [_ ->]. fold srv'. rw (proj2 (Z.ltb_lt _ _) Hpos).
  rw Hy2 Hy1. unfold target_limit.
  destruct (sys_getenv _ _) as [v|]; cbn;
  match goal with |- context [plog ?l ?m ?s1] =>
    destruct (plog_run s1 l m) as (s' & Hr & Hok' & _ & Hla & Hli & _);
    [|rw Hr; exists s'; split_and!; [done|done|by rw Hli|by rw Hla]] end; done.
Qed.

(** A policy at time 100, whose server counts 7 QPs of 10. *)
Definition example_policy : lp_linked := policy_start example_client (λ _, 100).

Lemma local_limit_follows_server_witness :
  ∃ s', adjust_local_qp_limit connect example_policy = Ret tt s' ∧ local_qp_limit s' = 100.
Proof.
  destruct example_client_wide as [Hok Hw].
  destruct (local_limit_follows_server example_policy Hok Hw) as (s' & H & _ & Hl); [reflexivity|].
  exists s'. split; [exact H|]. destruct Hl as [Hl _]. rw Hl. vm_compute. reflexivity.
Defined.

End LocalPolicy.
