(* ===== verification/HookBase.v ===== *)
(** * What the two sets of hooks share

    [src/rdma_hooks.c] and [src/rdma_hooks_tenant.c] are two versions of the
    functions that take the place of the verbs of libibverbs.  Both keep the same
    statics, resolve the original functions once, and begin every hook with the
    same fast path.  libibverbs and the eBPF monitor are not part of the
    repository's sources: they are parameters ([externals]). *)

From S2P Require Import Prelude CString Intercept Core CollectorServer CollectorClient LocalPolicy.
From S2P Require Import SlotTable ShmProcess.

Module HookBase.
Import Intercept Core CollectorClient LocalPolicy.

(** ** libibverbs *)

(** Pointers are addresses, 0 is NULL.  The fields of [struct ibv_qp_init_attr]
    the hooks look at. *)
Record ibv_qp_init_attr := mk_attr {
  attr_qp_type : Z;
  cap_max_send_wr : Z;    (* uint32_t *)
  cap_max_recv_wr : Z;    (* uint32_t *)
}.

Definition IBV_QPT_RC : Z := 2.
Definition IBV_QPT_UC : Z := 3.
Definition IBV_QPT_UD : Z := 4.

(** The verbs the hooks forward, with the arguments they forward. *)
Inductive verb :=
| CreateQp (pd : Z) (attr : option ibv_qp_init_attr)
| DestroyQp (qp : Z)
| CreateCq (context cqe cq_context channel comp_vector : Z)
| DestroyCq (cq : Z)
| AllocPd (context : Z)
| DeallocPd (pd : Z)
| RegMr (pd addr length access : Z)
| DeregMr (mr : Z)
| DestroyMr (mr : Z)
| CreateSrq (pd srq_init_attr : Z)
| ModifySrq (srq srq_attr attr_mask : Z)
| QuerySrq (srq srq_attr : Z)
| DestroySrq (srq : Z)
| CreateAh (pd ah_attr : Z)
| ModifyAh (ah ah_attr : Z)
| DestroyAh (ah : Z).

(** What a verb does: its result (an address or an [int]), the [errno] it sets,
    the attributes it writes back (None: it leaves them), and the state it leaves. *)
Record outcome (D : Type) := mk_outcome {
  ret : Z;
  sets_errno : option Z;
  attr_back : option ibv_qp_init_attr;
  dstate : D;
}.
Arguments mk_outcome {D}.
Arguments ret {D}.
Arguments sets_errno {D}.
Arguments attr_back {D}.
Arguments dstate {D}.

(** The code the repository's sources call but do not hold: the collector's end
    of the socket, libibverbs, and the eBPF monitor, whose initialisation may map
    the shared memory.  [mr_length] is the field [length] of a registered region. *)
Record externals (Srv D : Type) := mk_externals {
  x_exchange : string → Srv → reply * Srv;
  x_driver : verb → D → outcome D;
  x_mr_length : Z → D → Z;
  x_ebpf_monitor_init : Shm.state → Z * Shm.state;
  x_ebpf_get_process_resources : Z → Shm.state → option Shm.resource_usage_t;
}.
Arguments x_exchange {Srv D}.
Arguments x_driver {Srv D}.
Arguments x_mr_length {Srv D}.
Arguments x_ebpf_monitor_init {Srv D}.
Arguments x_ebpf_get_process_resources {Srv D}.

Section Hooks.
Context {Srv D : Type} (x : externals Srv D).

(** ** State *)

Record hooks := mk_hooks {
  pol : policy Srv;             (* the process, the collector client, the local policy *)
  pshm : Shm.state;
  drv : D;
  hooks_init_once : bool;       (* it has run *)
  real : string → bool;         (* which [real_ibv_...] are not NULL *)
  ebpf_initialized : bool;
  pid : Z;                      (* getpid() *)
}.
#[export] Instance expand_hooks : Expand hooks := λ r,
  mk_hooks (pol r) (pshm r) (drv r) (hooks_init_once r) (real r) (ebpf_initialized r) (pid r).

Definition hooks_start (p : policy Srv) (m : Shm.state) (d : D) (n : Z) : hooks :=
  mk_hooks p m d false (λ _, false) false n.

Definition hproc (h : hooks) : process := proc (cl (pol h)).
Definition hg (h : hooks) : intercept_state_t := g (hproc h).
Definition hcfg (h : hooks) : intercept_config_t := config (hg h).
Definition enabled (h : hooks) : bool := rdma_intercept_is_enabled (hproc h).

(** ** Effects of the hooks *)

Definition zproc {A} (m : M process A) : M hooks A := zoom pol (zoom cl (zoom proc m)).

Definition rlog (level : Z) (msg : string) : M hooks unit := zproc (rdma_intercept_log level msg).

Definition fail_with (e : Z) (r : Z) : M hooks Z := zproc (set_errno e);; mret r.

(** Assignments to the fields of [g_intercept_state]. *)
Definition set_g (f : intercept_state_t → intercept_state_t) : M hooks unit :=
  zproc (modify (λ p, p <| g ::= f |>)).

(** [pthread_mutex_lock (&g_intercept_state.resource_mutex)] and its unlocking. *)
Definition lock_resources : M hooks unit :=
  h ← get;
  if resource_mutex (hg h) then hang else set_g (λ s, s <| resource_mutex := true |>).
Definition unlock_resources : M hooks unit := set_g (λ s, s <| resource_mutex := false |>).

(** A call of a real function: its result and the attributes afterwards. *)
Definition call_attr (v : verb) : M hooks (Z * option ibv_qp_init_attr) :=
  h ← get;
  let o := x_driver x v (drv h) in
  modify (λ h, h <| drv := dstate o |>);;
  (match sets_errno o with Some e => zproc (set_errno e) | None => mret tt end);;
  mret (ret o, attr_back o).

Definition call (v : verb) : M hooks Z := r ← call_attr v; mret (fst r).

(** [dlsym] of each name; a failure leaves NULL. *)
Definition resolve (names : list string) : M hooks unit :=
  modify (λ h, h <| real := λ f, bool_decide (f ∈ names) && sys_dlsym (sys (hproc h)) f |>).

(** [ebpf_monitor_init], and the flag that records how it went. *)
Definition init_ebpf : M hooks unit :=
  h ← get;
  let '(ebpf_err, m) := x_ebpf_monitor_init x (pshm h) in
  modify (λ h, h <| pshm := m |> <| ebpf_initialized := ebpf_err =? 0 |>).

Definition ebpf_get_process_resources (n : Z) : M hooks (option Shm.resource_usage_t) :=
  h ← get; mret (x_ebpf_get_process_resources x n (pshm h)).

(** ** Reading the shared memory *)

Definition zeroed (r : Z * option Shm.resource_usage_t) : Z * option Shm.resource_usage_t :=
  if fst r =? 0 then r else (fst r, Some Shm.usage_zero).

Definition get_process_resources_via_shared_memory (n : Z) (usage : option Shm.resource_usage_t) :
    M hooks (Z * option Shm.resource_usage_t) :=
  match usage with
  | None => mret (-1, None)
  | Some _ => r ← zoom pshm (Shm.shm_get_process_resources n usage); mret (zeroed r)
  end.

Definition get_global_resources_via_shared_memory (usage : option Shm.resource_usage_t) :
    M hooks (Z * option Shm.resource_usage_t) :=
  match usage with
  | None => mret (-1, None)
  | Some _ => r ← zoom pshm (Shm.shm_get_global_resources usage); mret (zeroed r)
  end.

(** The local counts, as a record for the shared memory ([int] fields take the
    low 32 bits). *)
Definition local_usage (h : hooks) : Shm.resource_usage_t :=
  Shm.mk_usage (i32 (qp_count (hg h))) (i32 (mr_count (hg h))) (memory_used (hg h)).

(** The types the configuration forbids. *)
Definition type_denied (c : intercept_config_t) (t : Z) : bool :=
  if t =? IBV_QPT_RC then negb (allow_rc_qp c)
  else if t =? IBV_QPT_UC then negb (allow_uc_qp c)
  else if t =? IBV_QPT_UD then negb (allow_ud_qp c)
  else false.
End Hooks.

Arguments hooks Srv D : clear implicits.

(** The state after an assignment to [g_intercept_state]. *)
Definition with_g {Srv D} (f : intercept_state_t → intercept_state_t) (h : hooks Srv D) : hooks Srv D :=
  h <| pol ::= λ p, p <| cl ::= λ c, c <| proc ::= λ q, q <| g ::= f |> |> |> |>.

(** ** What the hooks rely on of libibverbs *)

(** The verbs that neither create nor destroy a QP. *)
Definition no_qp (v : verb) : Prop :=
  match v with CreateQp _ _ | DestroyQp _ => False | _ => True end.

(** What is documented of libibverbs: QPs come and go by [ibv_create_qp] and
    [ibv_destroy_qp] only, one at a time, when these report success. *)
Record counts_qps {Srv D} (x : externals Srv D) (qps : D → Z) : Prop := {
  qps_nonneg d : 0 ≤ qps d;
  qps_create pd attr d :
    let o := x_driver x (CreateQp pd attr) d in
    qps (dstate o) = qps d + (if ret o =? 0 then 0 else 1);
  qps_destroy qp d :
    let o := x_driver x (DestroyQp qp) d in
    qps (dstate o) = qps d - (if ret o =? 0 then 1 else 0);
  qps_other v d :
    no_qp v → qps (dstate (x_driver x v d)) = qps d;
}.

(** ** Sound states *)

(** The hooks have been initialised and nothing is held: the log may be written,
    [resource_mutex] is free, the local counts fit their types. *)
Record hooks_ok {Srv D} (h : hooks Srv D) : Prop := {
  hk_log : log_ok (hproc h);
  hk_mutex : resource_mutex (hg h) = false;
  hk_qp : is_u32 (qp_count (hg h));
  hk_mr : is_u32 (mr_count (hg h));
  hk_mem : is_u64 (memory_used (hg h));
}.

(** Two states that differ in the log (and in [errno]) only. *)
Record quiet {Srv D} (h h' : hooks Srv D) : Prop := {
  q_g : hg h' = hg h;
  q_sys : sys (hproc h') = sys (hproc h);
  q_shm : pshm h' = pshm h;
  q_drv : drv h' = drv h;
  q_once : hooks_init_once h' = hooks_init_once h;
  q_real : real h' = real h;
  q_ebpf : ebpf_initialized h' = ebpf_initialized h;
  q_pid : pid h' = pid h;
  q_log : log_ok (hproc h) → log_ok (hproc h');
}.

Lemma quiet_refl {Srv D} (h : hooks Srv D) : quiet h h.
Proof. by split. Qed.

Lemma quiet_trans {Srv D} (h1 h2 h3 : hooks Srv D) : quiet h1 h2 → quiet h2 h3 → quiet h1 h3.
Proof. intros [] []. split; try congruence. auto. Qed.

Lemma quiet_ok {Srv D} (h h' : hooks Srv D) : quiet h h' → hooks_ok h → hooks_ok h'.
Proof. intros [Hg _ _ _ _ _ _ _ Hl] []. split; rw ?Hg; auto. Qed.

Lemma quiet_cfg {Srv D} (h h' : hooks Srv D) : quiet h h' → hcfg h' = hcfg h.
Proof. intros H. unfold hcfg. by rw (q_g _ _ H). Qed.

Lemma quiet_enabled {Srv D} (h h' : hooks Srv D) : quiet h h' → enabled h' = enabled h.
Proof.
  intros H. pose proof (q_g _ _ H) as Hg. unfold hg in Hg.
  unfold enabled, rdma_intercept_is_enabled, gcfg. by rw Hg.
Qed.

Create HintDb hooks discriminated.
#[export] Hint Resolve quiet_refl quiet_ok : hooks.

Section Run.
Context {Srv D : Type}.
Implicit Types h : hooks Srv D.

Lemma rlog_run level msg h :
  log_ok (hproc h) →
  ∃ h', rlog level msg h = Ret tt h' ∧ quiet h h' ∧ errno (hproc h') = errno (hproc h).
Proof.
  intros Hok. destruct (log_run level msg (hproc h) Hok) as (p' & Hrun & _ & Hg & Hok' & _ & Hs & He).
  unfold rlog, zproc, zoom. fold (hproc h). rw Hrun. eexists. split_and!; [done| |done].
  by split.
Qed.

(** A logged message, and then the rest. *)
Lemma rlog_then {B} level msg h (k : unit → M (hooks Srv D) B) :
  log_ok (hproc h) →
  ∃ h', (rlog level msg ≫= k) h = k tt h' ∧ quiet h h' ∧ errno (hproc h') = errno (hproc h).
Proof.
  intros Hok. destruct (rlog_run level msg h Hok) as (h' & Hrun & Hq & He).
  exists h'. split; [by apply bind_Ret|done].
Qed.

(** The same when the message is behind a test of the level. *)
Lemma gated_log_then {B} (b : bool) level msg h (k : unit → M (hooks Srv D) B) :
  log_ok (hproc h) →
  ∃ h', ((if b then rlog level msg else mret tt) ≫= k) h = k tt h' ∧ quiet h h' ∧
    errno (hproc h') = errno (hproc h).
Proof. intros Hok. destruct b; [by apply rlog_then|]. by exists h. Qed.

Lemma fail_with_run e r h :
  ∃ h', fail_with e r h = Ret r h' ∧ quiet h h' ∧ errno (hproc h') = e.
Proof. eexists. split_and!; [done| |done]. split; try done. by intros []. Qed.

Lemma set_g_run f h : set_g f h = Ret tt (with_g f h).
Proof. done. Qed.

Lemma call_attr_run (x : externals Srv D) v h :
  let o := x_driver x v (drv h) in
  ∃ h', call_attr x v h = Ret (ret o, attr_back o) h' ∧ quiet (h <| drv := dstate o |>) h'.
Proof.
  intros o. unfold call_attr. run. fold o.
  destruct (sets_errno o); eexists; (split; [done|]); split; try done; by intros [].
Qed.

Lemma call_run (x : externals Srv D) v h :
  let o := x_driver x v (drv h) in
  ∃ h', call x v h = Ret (ret o) h' ∧ quiet (h <| drv := dstate o |>) h'.
Proof.
  intros o. destruct (call_attr_run x v h) as (h' & Hrun & Hq). exists h'. split; [|done].
  unfold call. by rw (bind_Ret _ _ _ _ _ Hrun).
Qed.

Lemma lock_run h :
  hooks_ok h → lock_resources h = Ret tt (with_g (λ s, s <| resource_mutex := true |>) h).
Proof. intros [_ Hm _ _ _]. unfold lock_resources. run. by rw Hm. Qed.

(** An assignment that does not touch the mutex. *)
Definition plain (f : intercept_state_t → intercept_state_t) : Prop :=
  ∀ s, resource_mutex (f s) = resource_mutex s ∧
       f (s <| resource_mutex := true |>) = (f s) <| resource_mutex := true |>.

Lemma with_g_ext f f' h : f (hg h) = f' (hg h) → with_g f h = with_g f' h.
Proof. destruct h as [[[[]]]]. unfold with_g, hg, hproc, update. cbn. by intros ->. Qed.

(** An assignment under the mutex. *)
Lemma locked_run f h :
  hooks_ok h → plain f →
  (lock_resources;; set_g f;; unlock_resources) h = Ret tt (with_g f h).
Proof.
  intros Hok Hf. rw (bind_Ret _ _ _ _ _ (lock_run h Hok)).
  rw (bind_Ret _ _ _ _ _ (set_g_run _ _)). unfold unlock_resources. rw set_g_run. f_equal.
  assert (Hb : (f ((hg h) <| resource_mutex := true |>)) <| resource_mutex := false |> = f (hg h)).
  { destruct (Hf (hg h)) as [Hm ->]. rw (hk_mutex _ Hok) in Hm. by destruct (f (hg h)); cbn in *; subst. }
  exact (with_g_ext (λ s, (f (s <| resource_mutex := true |>)) <| resource_mutex := false |>) f h Hb).
Qed.

(** ** Readings of the shared memory *)

(** What the shared memory says of the process and of the system: nothing, when
    it is not mapped. *)
Definition process_usage h : option Shm.resource_usage_t :=
  if Shm.shm_data_ptr (pshm h)
  then Some (default Shm.usage_zero (Shm.table (Shm.shm (pshm h)) !! pid h)) else None.

Definition global_usage h : option Shm.resource_usage_t :=
  if Shm.shm_data_ptr (pshm h) then Some (Shm.global_stats (Shm.shm (pshm h))) else None.

Definition reading (o : option Shm.resource_usage_t) : Z * option Shm.resource_usage_t :=
  match o with Some u => (0, Some u) | None => (-1, Some Shm.usage_zero) end.

(** The shared memory, if mapped, is in order. *)
Definition shm_usable h : Prop := Shm.shm_data_ptr (pshm h) = true → Shm.ready (pshm h).

Lemma zoom_same {A} (m : M Shm.state A) a h : m (pshm h) = Ret a (pshm h) → zoom pshm m h = Ret a h.
Proof. intros Hm. unfold zoom. rw Hm. by destruct h. Qed.

Lemma process_reading h u :
  shm_usable h → 0 < pid h →
  get_process_resources_via_shared_memory (pid h) (Some u) h = Ret (reading (process_usage h)) h.
Proof.
  intros Hu Hpid. unfold get_process_resources_via_shared_memory, process_usage.
  destruct (Shm.shm_data_ptr (pshm h)) eqn:Hp.
  - by rw (bind_Ret _ _ _ _ _ (zoom_same _ _ _ (Shm.get_process_run _ _ u Hp
      (Shm.ready_data _ (Hu Hp)) Hpid))).
  - cbv iota. rw (bind_Ret _ _ _ (-1, Some u) h); [|done]. apply zoom_same.
    unfold Shm.shm_get_process_resources. run. by rw Hp.
Qed.

Lemma global_reading h u :
  get_global_resources_via_shared_memory (Some u) h = Ret (reading (global_usage h)) h.
Proof.
  unfold get_global_resources_via_shared_memory, global_usage.
  destruct (Shm.shm_data_ptr (pshm h)) eqn:Hp.
  - cbv iota. rw (bind_Ret _ _ _ (0, Some (Shm.global_stats (Shm.shm (pshm h)))) h); [|done].
    apply zoom_same. unfold Shm.shm_get_global_resources. run. by rw Hp.
  - cbv iota. rw (bind_Ret _ _ _ (-1, Some u) h); [|done]. apply zoom_same.
    unfold Shm.shm_get_global_resources. run. by rw Hp.
Qed.

(** Publishing a usage changes the table only, and only when there is room. *)
Lemma publish_run h u :
  shm_usable h → 0 < pid h →
  ∃ r h', zoom pshm (Shm.shm_update_process_resources (pid h) (Some u)) h = Ret r h' ∧
    h' = h <| pshm := pshm h' |> ∧ shm_usable h' ∧
    Shm.shm_data_ptr (pshm h') = Shm.shm_data_ptr (pshm h) ∧
    Shm.global_stats (Shm.shm (pshm h')) = Shm.global_stats (Shm.shm (pshm h)) ∧
    Shm.table (Shm.shm (pshm h')) =
      (if r =? 0 then <[pid h := u]> (Shm.table (Shm.shm (pshm h))) else Shm.table (Shm.shm (pshm h))) ∧
    (r = 0 ∧ (is_Some (Shm.table (Shm.shm (pshm h)) !! pid h) ∨
       Z.of_nat (size (Shm.table (Shm.shm (pshm h)))) < Shm.MAX_PROCESSES) ∨
     r = -1 ∧ (Shm.shm_data_ptr (pshm h) = true →
       Shm.table (Shm.shm (pshm h)) !! pid h = None ∧
       Z.of_nat (size (Shm.table (Shm.shm (pshm h)))) = Shm.MAX_PROCESSES)).
Proof.
  intros Hu Hpid. destruct (Shm.shm_data_ptr (pshm h)) eqn:Hp; cycle 1.
  { exists (-1), h. split_and!; try done; [|by destruct h|by right].
    apply zoom_same. unfold Shm.shm_update_process_resources. run. by rw Hp. }
  pose proof (Hu Hp) as Hr. pose proof (Shm.table_bound _ (Shm.ready_data _ Hr)) as Hb.
  destruct (decide (is_Some (Shm.table (Shm.shm (pshm h)) !! pid h) ∨
      Z.of_nat (size (Shm.table (Shm.shm (pshm h)))) < Shm.MAX_PROCESSES)) as [Hroom|Hroom].
  - destruct (Shm.update_insert _ (pid h) u Hr Hpid Hroom) as (m' & Hrun & Hr' & Ht & _ & Hg).
    exists 0, (h <| pshm := m' |>). unfold zoom. rw Hrun. split_and!; try done.
    + by intros _.
    + apply (Shm.ready_ptr _ Hr').
    + apply Hg.
    + by left.
  - assert (Hfull : Shm.table (Shm.shm (pshm h)) !! pid h = None ∧
      Z.of_nat (size (Shm.table (Shm.shm (pshm h)))) = Shm.MAX_PROCESSES).
    { split; [|lia]. destruct (Shm.table _ !! pid h) eqn:E; [|done]. destruct Hroom. by left. }
    destruct (Shm.update_refused _ (pid h) u Hr Hpid (proj1 Hfull) (proj2 Hfull))
      as (m' & Hrun & Hr' & Ht).
    exists (-1), (h <| pshm := m' |>). unfold zoom. rw Hrun. split_and!; try done.
    + by intros _.
    + apply (Shm.ready_ptr _ Hr').
    + cbn. by rw Ht.
    + cbn. by rw Ht.
    + by right.
Qed.
End Run.

(** ** An example *)

(** A driver that numbers its QPs and accepts everything else. *)
Definition toy_driver (v : verb) (d : nat) : outcome nat :=
  match v with
  | CreateQp _ _ => mk_outcome (1000 + Z.of_nat d) None None (S d)
  | DestroyQp _ =>
      match d with
      | O => mk_outcome 22 (Some 22) None O
      | S d' => mk_outcome 0 None None d'
      end
  | RegMr _ _ _ _ | CreateCq _ _ _ _ _ | AllocPd _ => mk_outcome 4096 None None d
  | _ => mk_outcome 0 None None d
  end.

Definition toy : externals unit nat :=
  mk_externals unit nat (λ _ s, (NoConnect, s)) toy_driver (λ _ _, 0) (λ m, (0, m)) (λ _ _, None).

Lemma toy_counts : counts_qps toy Z.of_nat.
Proof.
  split; [lia| | |by intros []].
  - intros pd attr d. cbn. rw (proj2 (Z.eqb_neq _ _)); lia.
  - intros qp [|d]; cbn; lia.
Qed.

(** An initialised process [n], with QP control on. *)
Definition controlled : process :=
  logging_process <| g ::= λ s, s <| config ::= λ c, c <| enable_qp_control := true |> |> |>.

Definition example_hooks (n : Z) : hooks unit nat :=
  mk_hooks (policy_start (client_start controlled tt) (λ _, 100)) (Shm.fresh (λ _, (0, 0))) 0%nat
    true (λ _, true) true n.

Lemma example_hooks_ok n : hooks_ok (example_hooks n).
Proof. split; try done. destruct logging_process_ok. by split. Qed.

End HookBase.
