(* ===== verification/HooksTenant.v ===== *)
(** * The tenant hooks ([src/rdma_hooks_tenant.c])

    The verbs the library puts in place of those of libibverbs: a QP or an MR is
    created only within the quota of the tenant the process is bound to, and the
    tenant's usage in the tenant shared memory follows what is created and
    destroyed. *)

From S2P Require Import Prelude CString Intercept Core CollectorServer CollectorClient LocalPolicy.
From S2P Require Import SlotTable ShmProcess ShmTenant HookBase.

Module HooksTenant.
Import Intercept Core CollectorClient LocalPolicy HookBase.
#[local] Existing Instances Tenant.expand_usage Tenant.expand_info Tenant.expand_shm Tenant.expand_state.

Section Tenant_hooks.
Context {Srv D : Type} (x : externals Srv D).

(** The statics of the file besides those of [HookBase], and the tenant shared
    memory as the process sees it. *)
Record thooks := mk_thooks {
  base : hooks Srv D;
  tshm : Tenant.state;
  tenant_initialized : bool;
}.
#[export] Instance expand_thooks : Expand thooks := λ r,
  mk_thooks (base r) (tshm r) (tenant_initialized r).

Definition zbase {A} (m : M (hooks Srv D) A) : M thooks A := zoom base m.
Definition ztenant {A} (m : M Tenant.state A) : M thooks A := zoom tshm m.

(** ** The tenant of the process *)

Definition get_current_tenant_id : M thooks Z :=
  t ← get;
  if negb (tenant_initialized t) then mret 0 else
  r ← ztenant (Tenant.tenant_get_process_tenant (pid (base t)) (Some 0));
  if negb (fst r =? 0) then mret 0 else mret (default 0 (snd r)).

Definition hook_names : list string :=
  ["ibv_create_qp"; "ibv_destroy_qp"; "ibv_create_cq"; "ibv_destroy_cq"; "ibv_alloc_pd";
   "ibv_dealloc_pd"; "ibv_dereg_mr"; "ibv_reg_mr"; "ibv_create_qp_ex"].

(** The binding asked for by the environment. *)
Definition bind_from_env : M thooks unit :=
  t ← get;
  match sys_getenv (sys (hproc (base t))) "RDMA_TENANT_ID" with
  | Some v =>
      if tenant_initialized t then
        let tenant_id := u32 (atoi v) in
        if 0 <? tenant_id
        then ztenant (Tenant.tenant_bind_process (pid (base t)) tenant_id);; mret tt
        else mret tt
      else mret tt
  | None => mret tt
  end.

Definition init_function_pointers : M thooks unit :=
  zbase (zproc init_if_needed);;
  t ← get;
  if negb (sys_dlopen (sys (hproc (base t)))) then mret tt else
  zbase (resolve hook_names);;
  zbase (init_ebpf x);;
  err ← ztenant Tenant.tenant_shm_init;
  modify (λ t, t <| tenant_initialized := err =? 0 |>);;
  zbase (zoom pol (init_dynamic_policy (x_exchange x)));;
  bind_from_env.

(** [pthread_once (&hooks_init_once, init_function_pointers)]. *)
Definition once : M thooks unit :=
  t ← get;
  if hooks_init_once (base t) then mret tt
  else init_function_pointers;; modify (λ t, t <| base ::= λ h, h <| hooks_init_once := true |> |>).

(** ** Usage and quota *)

(** The switch of [update_tenant_resource_count]. *)
Definition count_usage (resource_type delta : Z) (u : Tenant.tenant_resource_usage_t) :
    Tenant.tenant_resource_usage_t :=
  if resource_type =? 0 then
    let u := u <| Tenant.qp_count ::= λ n, i32 (n + delta) |> in
    if 0 <? delta then u <| Tenant.total_qp_creates ::= λ n, u64 (n + 1) |>
    else if delta <? 0 then u <| Tenant.total_qp_destroys ::= λ n, u64 (n + 1) |> else u
  else if resource_type =? 1 then
    let u := u <| Tenant.mr_count ::= λ n, i32 (n + delta) |> in
    if 0 <? delta then u <| Tenant.total_mr_regs ::= λ n, u64 (n + 1) |>
    else if delta <? 0 then u <| Tenant.total_mr_deregs ::= λ n, u64 (n + 1) |> else u
  else if resource_type =? 3 then u <| Tenant.cq_count ::= λ n, i32 (n + delta) |>
  else if resource_type =? 4 then u <| Tenant.pd_count ::= λ n, i32 (n + delta) |>
  else u.

Definition update_tenant_resource_count (tenant_id resource_type delta : Z) : M thooks unit :=
  t ← get;
  if (tenant_id =? 0) || negb (tenant_initialized t) then mret tt else
  r ← ztenant (Tenant.tenant_get_resource_usage tenant_id (Some Tenant.usage_zero));
  if negb (fst r =? 0) then mret tt else
  ztenant (Tenant.tenant_update_resource_usage tenant_id
    (count_usage resource_type delta <$> snd r));;
  mret tt.

Definition check_tenant_qp_limit (tenant_id : Z) : M thooks bool :=
  t ← get;
  if (tenant_id =? 0) || negb (tenant_initialized t) then mret true else
  r ← ztenant (Tenant.tenant_get_info tenant_id (Some Tenant.info_zero));
  if negb (fst r =? 0) then mret false else
  let info := default Tenant.info_zero (snd r) in
  mret (negb (Tenant.max_qp_per_tenant (Tenant.quota info)
                <=? u32 (Tenant.qp_count (Tenant.usage info)))).

(** The quota test of one registration; the sum is a [uint64_t]. *)
Definition mr_within (info : Tenant.tenant_info_t) (length : Z) : bool :=
  if Tenant.max_mr_per_tenant (Tenant.quota info) <=? u32 (Tenant.mr_count (Tenant.usage info))
  then false
  else negb ((0 <? Tenant.max_memory_per_tenant (Tenant.quota info)) &&
         (Tenant.max_memory_per_tenant (Tenant.quota info)
            <? u64 (Tenant.memory_used (Tenant.usage info) + length))).

Definition check_tenant_mr_limit_inline (tenant_id length : Z) : M thooks bool :=
  t ← get;
  if (tenant_id =? 0) || negb (tenant_initialized t) then mret true else
  r ← ztenant (Tenant.tenant_get_info tenant_id (Some Tenant.info_zero));
  if negb (fst r =? 0) then mret false else
  mret (mr_within (default Tenant.info_zero (snd r)) length).

(** The tests against the process's own count and the global count. *)
Definition process_denied (c : intercept_config_t) (r : Z * option Shm.resource_usage_t) : bool :=
  (fst r =? 0) &&
  (max_qp_per_process c
     <? u32 (u32 (Shm.qp_count (default Shm.usage_zero (snd r))) + 1)).

Definition global_denied (c : intercept_config_t) (r : Z * option Shm.resource_usage_t) : bool :=
  (fst r =? 0) &&
  (Intercept.max_global_qp c <=? u32 (Shm.qp_count (default Shm.usage_zero (snd r)))).

Definition check_qp_creation_restrictions (pd : Z) (qp_init_attr : option ibv_qp_init_attr) :
    M thooks bool :=
  t ← get;
  let c := hcfg (base t) in
  if negb (enable_qp_control c) then mret true else
  match qp_init_attr with
  | None => crash
  | Some a =>
      if type_denied c (attr_qp_type a) then mret false else
      tenant_id ← get_current_tenant_id;
      within ← check_tenant_qp_limit tenant_id;
      if negb within then mret false else
      proc ← zbase (get_process_resources_via_shared_memory (pid (base t)) (Some Shm.usage_zero));
      if process_denied c proc then mret false else
      glob ← zbase (get_global_resources_via_shared_memory (Some Shm.usage_zero));
      if global_denied c glob then mret false else
      mret true
  end.

(** ** The hooks *)

(** The beginning of every hook. *)
Definition hooked (name : string) (v : verb) (failure : Z) (body : M thooks Z) : M thooks Z :=
  once;;
  t ← get;
  if negb (enabled (base t)) || negb (real (base t) name) then
    if real (base t) name then zbase (call x v) else zbase (fail_with ENOSYS failure)
  else body.

(** Counting one object more or less for the tenant of the process. *)
Definition count_object (resource_type delta : Z) : M thooks unit :=
  tenant_id ← get_current_tenant_id;
  update_tenant_resource_count tenant_id resource_type delta.

(** An assignment to the local counts, under [resource_mutex]. *)
Definition count_local (f : intercept_state_t → intercept_state_t) : M thooks unit :=
  zbase lock_resources;; zbase (set_g f);; zbase unlock_resources.

Definition publish_local : M thooks unit :=
  t ← get;
  zbase (zoom pshm (Shm.shm_update_process_resources (pid (base t))
                      (Some (local_usage (base t)))));;
  mret tt.

(** The second half of [ibv_create_qp], once the checks have let the call through. *)
Definition create_admitted (pd : Z) (qp_init_attr : option ibv_qp_init_attr) : M thooks Z :=
  qp ← zbase (call x (CreateQp pd qp_init_attr));
  (if qp =? 0 then mret tt else
    count_local (λ s, s <| qp_count ::= λ n, u32 (n + 1) |>);;
    publish_local;;
    count_object 0 1);;
  mret qp.

Definition ibv_create_qp (pd : Z) (qp_init_attr : option ibv_qp_init_attr) : M thooks Z :=
  hooked "ibv_create_qp" (CreateQp pd qp_init_attr) 0
   (allowed ← check_qp_creation_restrictions pd qp_init_attr;
    if negb allowed then zbase (fail_with EPERM 0) else
    create_admitted pd qp_init_attr).

Definition ibv_destroy_qp (qp : Z) : M thooks Z :=
  hooked "ibv_destroy_qp" (DestroyQp qp) (-1)
   (result ← zbase (call x (DestroyQp qp));
    (if negb (result =? 0) then mret tt else
      count_local (λ s, s <| qp_count ::= λ n, if 0 <? n then n - 1 else n |>);;
      count_object 0 (-1));;
    mret result).

Definition ibv_reg_mr (pd addr length access : Z) : M thooks Z :=
  hooked "ibv_reg_mr" (RegMr pd addr length access) 0
   (tenant_id ← get_current_tenant_id;
    within ← check_tenant_mr_limit_inline tenant_id length;
    if negb within then zbase (fail_with EPERM 0) else
    mr ← zbase (call x (RegMr pd addr length access));
    (if mr =? 0 then mret tt else
      count_local (λ s, s <| mr_count ::= λ n, u32 (n + 1) |>
                          <| memory_used ::= λ n, u64 (n + length) |>);;
      update_tenant_resource_count tenant_id 1 1);;
    mret mr).

Definition ibv_dereg_mr (mr : Z) : M thooks Z :=
  hooked "ibv_dereg_mr" (DeregMr mr) (-1)
   (t ← get;
    let mr_length := if mr =? 0 then 0 else u64 (x_mr_length x mr (drv (base t))) in
    result ← zbase (call x (DeregMr mr));
    (if negb (result =? 0) then mret tt else
      count_local (λ s, s <| mr_count ::= λ n, if 0 <? n then n - 1 else n |>
                          <| memory_used ::= λ n, if mr_length <=? n then n - mr_length else n |>);;
      count_object 1 (-1));;
    mret result).

(** The hooks of CQs and PDs: create and count one more, destroy and count one
    less. *)
Definition create_hook (name : string) (v : verb) (resource_type : Z) : M thooks Z :=
  hooked name v 0
   (p ← zbase (call x v);
    (if p =? 0 then mret tt else count_object resource_type 1);;
    mret p).

Definition destroy_hook (name : string) (v : verb) (resource_type : Z) : M thooks Z :=
  hooked name v (-1)
   (result ← zbase (call x v);
    (if negb (result =? 0) then mret tt else count_object resource_type (-1));;
    mret result).

Definition ibv_create_cq (context cqe cq_context channel comp_vector : Z) : M thooks Z :=
  create_hook "ibv_create_cq" (CreateCq context cqe cq_context channel comp_vector) 3.
Definition ibv_destroy_cq (cq : Z) : M thooks Z := destroy_hook "ibv_destroy_cq" (DestroyCq cq) 3.
Definition ibv_alloc_pd (context : Z) : M thooks Z :=
  create_hook "ibv_alloc_pd" (AllocPd context) 4.
Definition ibv_dealloc_pd (pd : Z) : M thooks Z := destroy_hook "ibv_dealloc_pd" (DeallocPd pd) 4.
End Tenant_hooks.

Arguments thooks Srv D : clear implicits.
End HooksTenant.
