(* ===== verification/HooksTenantProps.v ===== *)
(** * Correctness of the tenant hooks

    The hooks of [HooksTenant.v] over the abstract tenant store of
    [TenantSpec.v]: what each hook decides, what it counts, and the quota over
    the hook calls of all the processes of a tenant. *)

From S2P Require Import Prelude CString Intercept Core CollectorServer CollectorClient LocalPolicy.
From S2P Require Import SlotTable ShmProcess ShmTenant TenantProps TenantSpec HookBase HooksTenant.

Module HooksTenantProps.
Import TenantProps TenantSpec.
Import Intercept Core CollectorClient LocalPolicy HookBase HooksTenant.
#[local] Existing Instances Tenant.expand_usage Tenant.expand_info Tenant.expand_shm Tenant.expand_state.

(** ** What the hooks do to the abstract store *)

(** One more or one fewer object of a kind, for the tenant [tid]. *)
Definition counted (tid resource_type delta : Z) (a : store) : store :=
  match active a tid with
  | Some v => live_put tid (Some (v <| v_usage ::= count_usage resource_type delta |>)) a
  | None => a
  end.

(** The tenant has room for one more QP. *)
Definition qp_within (a : store) (tid : Z) : bool :=
  (tid =? 0) ||
  match live a tid with
  | Some v => negb (Tenant.max_qp_per_tenant (v_quota v) <=? u32 (Tenant.qp_count (v_usage v)))
  | None => false
  end.

(** The tenant has room for one more MR of that length. *)
Definition mr_room (a : store) (tid length : Z) : bool :=
  (tid =? 0) ||
  match live a tid with
  | Some v => mr_within (Tenant.info_zero <| Tenant.quota := v_quota v |>
                           <| Tenant.usage := v_usage v |>) length
  | None => false
  end.

(** ** The state between hooks *)

Section Props.
Context {Srv D : Type} (x : externals Srv D).
Implicit Types (t : thooks Srv D) (a : store).

(** The tenant the process is bound to; 0 when it is bound to none. *)
Definition tenant_of a t : Z := default 0 (owner a !! pid (base t)).

(** The process shared memory is mapped.  Of the code under src/ that the library
    is linked from nothing maps it; the monitor may. *)
Definition mapped t : bool := Shm.shm_data_ptr (pshm (base t)).

Record tok a t : Prop := {
  tk_base : hooks_ok (base t);
  tk_shm : shm_usable (base t);
  tk_tenant : Tenant.g_tenant_shm (tshm t) = true;
  tk_ready : TenantProps.ready (tshm t);
  tk_store : refines a (Tenant.shm (tshm t));
  tk_init : tenant_initialized t = true;
  tk_once : hooks_init_once (base t) = true;
  tk_pid : 0 < pid (base t);
}.

Lemma tok_base a t h :
  tok a t → hooks_ok h → shm_usable h → hooks_init_once h = true → 0 < pid h →
  tok a (t <| base := h |>).
Proof. intros [] ? ? ? ?. by split. Qed.

Lemma ztenant_run {A} a t c (m : M Tenant.state A) (f : A → answer) :
  tok a t → TenantSpec.real c → (respond c = λ s, (r ← m; mret (f r)) s) →
  ∃ r t', ztenant m t = Ret r t' ∧ f r = fst (spec c a) ∧ tok (snd (spec c a)) t' ∧
    base t' = base t.
Proof.
  intros Hok Hc Hm.
  destruct (call_answers a (tshm t) (tk_ready _ _ Hok) (tk_store _ _ Hok) c Hc)
    as (s' & Hrun & Hr' & Ha').
  rw Hm in Hrun. apply bind_inv in Hrun as (r & s1 & Hr1 & Hf). injection Hf as Hf <-.
  exists r, (t <| tshm := s1 |>). unfold ztenant, zoom. rw Hr1. split_and!; [done..| |done].
  destruct Hok. split; try done. apply (ready_ptr _ Hr').
Qed.

Lemma current_tenant_run a t :
  tok a t → ∃ t', get_current_tenant_id t = Ret (tenant_of a t) t' ∧ tok a t' ∧ base t' = base t.
Proof.
  intros Hok. pose proof (tk_pid _ _ Hok).
  destruct (ztenant_run a t (GetProcessTenant (pid (base t)) (Some 0))
    (Tenant.tenant_get_process_tenant (pid (base t)) (Some 0))
    (λ r, OwnerOf (if fst r =? 0 then snd r else None))) as (r & t' & Hrun & Hf & Hok' & Hb);
    [done|by split; cbn; lia|done|].
  exists t'. split_and!; [|done|done]. unfold get_current_tenant_id. run.
  rw (tk_init _ _ Hok). cbn. rw Hrun. injection Hf as Hf. unfold tenant_of. rw -Hf.
  by destruct (fst r =? 0).
Qed.

Lemma info_run a t tid :
  tok a t → 0 ≤ tid →
  ∃ r t', ztenant (Tenant.tenant_get_info tid (Some Tenant.info_zero)) t = Ret r t' ∧
    (if fst r =? 0 then view <$> snd r else None) = live a tid ∧ tok a t' ∧ base t' = base t.
Proof.
  intros Hok H0.
  destruct (ztenant_run a t (GetInfo tid (Some Tenant.info_zero))
    (Tenant.tenant_get_info tid (Some Tenant.info_zero))
    (λ r, InfoOf (if fst r =? 0 then view <$> snd r else None)))
    as (r & t' & Hrun & Hf & Hok' & Hb); [done|by split|done|].
  injection Hf as Hf. by exists r, t'.
Qed.

Lemma check_qp_run a t tid :
  tok a t → 0 ≤ tid →
  ∃ t', check_tenant_qp_limit tid t = Ret (qp_within a tid) t' ∧ tok a t' ∧ base t' = base t.
Proof.
  intros Hok H0. unfold check_tenant_qp_limit, qp_within. run. rw (tk_init _ _ Hok).
  destruct (tid =? 0); cbn; [by exists t|].
  destruct (info_run a t tid Hok H0) as (r & t' & Hrun & Hf & Hok' & Hb). exists t'.
  split_and!; [|done|done]. rw Hrun -Hf. destruct (fst r =? 0); cbn; [|done].
  destruct (snd r); [done|]. cbn. by rw (proj2 (Z.leb_le _ _)) //; apply u32_range.
Qed.

Lemma check_mr_run a t tid length :
  tok a t → 0 ≤ tid →
  ∃ t', check_tenant_mr_limit_inline tid length t = Ret (mr_room a tid length) t' ∧ tok a t' ∧
    base t' = base t.
Proof.
  intros Hok H0. unfold check_tenant_mr_limit_inline, mr_room. run. rw (tk_init _ _ Hok).
  destruct (tid =? 0); cbn; [by exists t|].
  destruct (info_run a t tid Hok H0) as (r & t' & Hrun & Hf & Hok' & Hb). exists t'.
  split_and!; [|done|done]. rw Hrun -Hf. destruct (fst r =? 0); cbn; [|done].
  destruct (snd r); [done|]. done.
Qed.

Lemma no_default a t : tok a t → active a 0 = None.
Proof.
  intros Hok. destruct (tk_ready _ _ Hok) as [_ _ Hd].
  destruct (tenant_lookup _ 0 Hd) as [t0 H0]; [done|].
  unfold active. rw (ref_live _ _ (tk_store _ _ Hok) 0) //. rw H0. cbn.
  by rw decide_True //; apply (ok_default _ Hd).
Qed.

Lemma count_run a t tid rt delta :
  tok a t → 0 ≤ tid →
  ∃ t', update_tenant_resource_count tid rt delta t = Ret tt t' ∧ tok (counted tid rt delta a) t' ∧
    base t' = base t.
Proof.
  intros Hok H0. unfold update_tenant_resource_count. run. rw (tk_init _ _ Hok).
  destruct (Z.eqb_spec tid 0) as [->|Hne]; cbn.
  { exists t. unfold counted. by rw (no_default a t Hok). }
  destruct (ztenant_run a t (GetUsage tid (Some Tenant.usage_zero))
    (Tenant.tenant_get_resource_usage tid (Some Tenant.usage_zero))
    (λ r, UsageOf (if fst r =? 0 then snd r else None)))
    as (r & t1 & Hrun & Hf & Hok1 & Hb1); [done|by split|done|].
  rw Hrun. injection Hf as Hf. unfold counted.
  destruct (active a tid) as [v|] eqn:Hv; cbn in Hf; cycle 1.
  { assert (Hd : (if negb (fst r =? 0) then Ret tt t1
      else match ztenant (Tenant.tenant_update_resource_usage tid None) t1 with
           | Ret _ s => Ret tt s | Hang => Hang | Crash => Crash end) = Ret tt t1).
    { destruct (fst r =? 0); [|done]. cbn. unfold ztenant, zoom, Tenant.tenant_update_resource_usage.
      cbn. by destruct t1. }
    exists t1. split_and!; [|done|done]. destruct (fst r =? 0); [|done]. rw Hf. exact Hd. }
  destruct (fst r =? 0); [|done]. rw Hf. cbn.
  destruct (ztenant_run a t1 (UpdateUsage tid (Some (count_usage rt delta (v_usage v))))
    (Tenant.tenant_update_resource_usage tid (Some (count_usage rt delta (v_usage v))))
    Code) as (r' & t' & Hrun' & Hf' & Hok' & Hb'); [done|by split|done|].
  rw Hrun'. exists t'. split_and!; [done| |congruence].
  cbn [spec] in Hok'. rw Hv in Hok'. exact Hok'.
Qed.

Lemma tenant_of_nonneg a t : tok a t → 0 ≤ tenant_of a t.
Proof.
  intros Hok. pose proof (ready_shm _ (tk_ready _ _ Hok)) as Hd.
  pose proof (shm_ok_maps _ Hd) as Hms. unfold tenant_of. pose proof (tk_pid _ _ Hok).
  rw (owner_find a _ (tk_ready _ _ Hok) (tk_store _ _ Hok)); [lia|].
  destruct (find_index _ _) as [i|] eqn:Hf; cbn; [|done].
  destruct (maps_find _ _ _ Hms Hf) as (m & Hi & _ & _). rw Hi. cbn.
  apply (maps_tids _ Hms _ _ Hi).
Qed.

(** Counting for the process's own tenant. *)
Lemma count_object_run a t rt delta :
  tok a t →
  ∃ t', count_object rt delta t = Ret tt t' ∧ tok (counted (tenant_of a t) rt delta a) t' ∧
    base t' = base t.
Proof.
  intros Hok. destruct (current_tenant_run a t Hok) as (t1 & Hrun1 & Hok1 & Hb1).
  destruct (count_run a t1 (tenant_of a t) rt delta Hok1 (tenant_of_nonneg a t Hok))
    as (t2 & Hrun2 & Hok2 & Hb2).
  exists t2. unfold count_object. rw (bind_Ret _ _ _ _ _ Hrun1). by rw Hb2 Hb1.
Qed.

(** ** The checks before a QP is created *)

Definition qp_allowed a t (attr : ibv_qp_init_attr) : bool :=
  let c := hcfg (base t) in
  negb (enable_qp_control c) ||
  (negb (type_denied c (attr_qp_type attr)) && qp_within a (tenant_of a t)
     && negb (process_denied c (reading (process_usage (base t))))
     && negb (global_denied c (reading (global_usage (base t))))).

Lemma zbase_same {A} (m : M (hooks Srv D) A) r t :
  m (base t) = Ret r (base t) → zbase m t = Ret r t.
Proof. intros Hm. unfold zbase, zoom. rw Hm. by destruct t. Qed.

Lemma restrictions_run a t pd attr :
  tok a t →
  ∃ t', check_qp_creation_restrictions pd (Some attr) t = Ret (qp_allowed a t attr) t' ∧
    tok a t' ∧ base t' = base t.
Proof.
  intros Hok. unfold check_qp_creation_restrictions, qp_allowed.
  rw (bind_Ret _ _ _ t t); [done|].
  destruct (enable_qp_control (hcfg (base t))); cbn [negb orb]; [|by exists t].
  destruct (type_denied _ _); cbn [negb andb]; [by exists t|].
  destruct (current_tenant_run a t Hok) as (t1 & Hrun1 & Hok1 & Hb1).
  rw (bind_Ret _ _ _ _ _ Hrun1).
  destruct (check_qp_run a t1 (tenant_of a t) Hok1 (tenant_of_nonneg a t Hok)) as (t2 & Hrun2 & Hok2 & Hb2).
  rw (bind_Ret _ _ _ _ _ Hrun2). rw Hb1 in Hb2.
  destruct (qp_within _ _); cbn [negb andb]; [|by exists t2].
  rw -Hb2. rw (bind_Ret _ _ _ _ _ (zbase_same _ _ _
    (process_reading _ _ (tk_shm _ _ Hok2) (tk_pid _ _ Hok2)))).
  destruct (process_denied _ _); cbn [negb andb]; [by exists t2|].
  rw (bind_Ret _ _ _ _ _ (zbase_same _ _ _ (global_reading _ _))).
  destruct (global_denied _ _); by exists t2.
Qed.

(** ** Running the hooks *)

(** What no hook changes once initialised. *)
Record kept t t' : Prop := {
  kp_cfg : hcfg (base t') = hcfg (base t);
  kp_init : initialized (hg (base t')) = initialized (hg (base t));
  kp_real : real (base t') = real (base t);
  kp_pid : pid (base t') = pid (base t);
  kp_global : global_usage (base t') = global_usage (base t);
  kp_mapped : mapped t' = mapped t;
}.

Lemma kept_refl t : kept t t.
Proof. done. Qed.
Lemma kept_trans t1 t2 t3 : kept t1 t2 → kept t2 t3 → kept t1 t3.
Proof. intros [] []. split; congruence. Qed.
Lemma kept_base t t' : base t' = base t → kept t t'.
Proof. intros H. split; unfold mapped; by rw H. Qed.

Lemma kept_enabled t t' : kept t t' → enabled (base t') = enabled (base t).
Proof.
  intros [Hc Hi _ _ _ _]. unfold hcfg, hg in *.
  unfold enabled, rdma_intercept_is_enabled, gcfg. by rw Hc Hi.
Qed.

Lemma kept_tenant a t t' : kept t t' → tenant_of a t' = tenant_of a t.
Proof. intros H. unfold tenant_of. by rw (kp_pid _ _ H). Qed.

(** A hook whose fast path is not taken. *)
Lemma hooked_run a t name v failure body :
  tok a t → enabled (base t) = true → real (base t) name = true →
  hooked x name v failure body t = body t.
Proof.
  intros Hok He Hr. unfold hooked, once. run. rw (tk_once _ _ Hok). cbn. by rw He Hr.
Qed.

(** The fast path: the real function is called and nothing else happens. *)
Lemma hooked_fast a t name v failure body :
  tok a t → enabled (base t) = false → real (base t) name = true →
  hooked x name v failure body t = zbase (call x v) t.
Proof.
  intros Hok He Hr. unfold hooked, once. run. rw (tk_once _ _ Hok). cbn. by rw He Hr.
Qed.

(** Changing the base quietly. *)
Lemma tok_quiet a t h h' :
  tok a (t <| base := h |>) → quiet h h' → tok a (t <| base := h' |>).
Proof.
  intros [H1 H2 H3 H4 H5 H6 H7 H8] Hq. pose proof (quiet_ok _ _ Hq H1).
  assert (shm_usable h') by (unfold shm_usable in *; by rw (q_shm _ _ Hq)).
  destruct Hq. split; cbn in *; congruence || done.
Qed.

Lemma kept_quiet t h h' : kept t (t <| base := h |>) → quiet h h' → kept t (t <| base := h' |>).
Proof.
  intros [H1 H2 H3 H4 H5 H6] []. split; unfold mapped in *; cbn in *; unfold hcfg in *; try congruence.
  rw -H5. unfold global_usage. cbn. by rw q_shm0.
Qed.

(** A call of the driver. *)
Lemma driver_run a t v :
  tok a t →
  let o := x_driver x v (drv (base t)) in
  ∃ t', zbase (call x v) t = Ret (ret o) t' ∧ tok a t' ∧ kept t t' ∧
    drv (base t') = dstate o ∧ hg (base t') = hg (base t) ∧ pshm (base t') = pshm (base t).
Proof.
  intros Hok o. destruct (call_run x v (base t)) as (h & Hrun & Hq). fold o in Hrun, Hq.
  exists (t <| base := h |>). unfold zbase, zoom. rw Hrun. split_and!; [done| | | | |].
  - eapply tok_quiet; [|exact Hq]. by destruct Hok as [[]]; split.
  - eapply kept_quiet; [|exact Hq]. done.
  - apply (q_drv _ _ Hq).
  - apply (q_g _ _ Hq).
  - apply (q_shm _ _ Hq).
Qed.

Lemma refused_run a t e r :
  tok a t →
  ∃ t', zbase (fail_with e r) t = Ret r t' ∧ tok a t' ∧ kept t t' ∧
    drv (base t') = drv (base t) ∧ hg (base t') = hg (base t) ∧
    pshm (base t') = pshm (base t) ∧ errno (hproc (base t')) = e.
Proof.
  intros Hok. destruct (fail_with_run e r (base t)) as (h & Hrun & Hq & He).
  exists (t <| base := h |>). unfold zbase, zoom. rw Hrun. split_and!; [done| | | | | |done].
  - eapply tok_quiet; [|exact Hq]. by destruct Hok as [[]]; split.
  - eapply kept_quiet; [|exact Hq]. done.
  - apply (q_drv _ _ Hq).
  - apply (q_g _ _ Hq).
  - apply (q_shm _ _ Hq).
Qed.

Lemma zbase_seq {A B} (m : M (hooks Srv D) A) (n : M (hooks Srv D) B) t :
  (zbase m;; zbase n) t = zbase (m;; n) t.
Proof.
  unfold zbase, zoom, mbind, M_bind. destruct (m (base t)); [|done..]. cbn. by destruct (n _).
Qed.

(** An assignment to the local counts. *)
Definition harmless (f : intercept_state_t → intercept_state_t) : Prop :=
  plain f ∧ ∀ s, config (f s) = config s ∧ initialized (f s) = initialized s ∧
    log_file (f s) = log_file s ∧
    (is_u32 (qp_count s) → is_u32 (mr_count s) → is_u64 (memory_used s) →
     is_u32 (qp_count (f s)) ∧ is_u32 (mr_count (f s)) ∧ is_u64 (memory_used (f s))).

Lemma local_run a t f :
  tok a t → harmless f →
  ∃ t', count_local f t = Ret tt t' ∧ tok a t' ∧ kept t t' ∧
    drv (base t') = drv (base t) ∧ hg (base t') = f (hg (base t)) ∧ pshm (base t') = pshm (base t).
Proof.
  intros Hok [Hf Hc]. exists (t <| base ::= with_g f |>).
  destruct (Hc (hg (base t))) as (Hc1 & Hc2 & Hc3 & Hc4). split_and!; try done.
  - transitivity (zbase (lock_resources;; set_g f;; unlock_resources) t).
    + unfold count_local. rw -zbase_seq. unfold mbind, M_bind.
      destruct (zbase lock_resources t); [|done..]. apply zbase_seq.
    + unfold zbase, zoom. by rw (locked_run f (base t) (tk_base _ _ Hok) Hf).
  - destruct Hok as [[Hl Hm Hq Hr Hu]]. destruct (Hf (hg (base t))) as [Hmf _].
    destruct (Hc4 Hq Hr Hu) as (?&?&?). split; try done. split; try done.
    + destruct Hl as [Ho ? ? ?]. split; try done. intros f'. cbn in *. rw Hc3. apply Ho.
    + change (resource_mutex (f (hg (base t))) = false). by rw Hmf.
Qed.

Lemma create_qp_harmless : harmless (λ s, s <| qp_count ::= λ n, u32 (n + 1) |>).
Proof.
  split; [by intros s|]. intros s. split_and!; try done. intros _ ? ?. split_and!; try done.
  apply u32_range.
Qed.

Lemma reg_mr_harmless length :
  harmless (λ s, s <| mr_count ::= λ n, u32 (n + 1) |> <| memory_used ::= λ n, u64 (n + length) |>).
Proof.
  split; [by intros s|]. intros s. split_and!; try done. intros ? _ _.
  split_and!; [done|apply u32_range|apply u64_range].
Qed.

Lemma destroy_qp_harmless : harmless (λ s, s <| qp_count ::= λ n, if 0 <? n then n - 1 else n |>).
Proof.
  split; [by intros s|]. intros s. split_and!; try done. intros Hq ? ?. split_and!; try done.
  cbn. destruct (Z.ltb_spec 0 (qp_count s)); unfold is_u32 in *; lia.
Qed.

Lemma dereg_harmless n :
  0 ≤ n →
  harmless (λ s, s <| mr_count ::= λ n, if 0 <? n then n - 1 else n |>
                   <| memory_used ::= λ m, if n <=? m then m - n else m |>).
Proof.
  intros H0. split; [by intros s|]. intros s. split_and!; try done. intros ? Hm Hu.
  split_and!; [done|..]; cbn.
  - destruct (Z.ltb_spec 0 (mr_count s)); unfold is_u32 in *; lia.
  - destruct (Z.leb_spec n (memory_used s)); unfold is_u64 in *; lia.
Qed.

(** The process has a slot in the process table, or finds a free one. *)
Definition slot_room t : Prop :=
  let table := Shm.table (Shm.shm (pshm (base t))) in
  is_Some (table !! pid (base t)) ∨ Z.of_nat (size table) < Shm.MAX_PROCESSES.

(** The process table, if mapped, says of the process what it has counted itself. *)
Record counts_published t : Prop := {
  cp_room : mapped t = true → slot_room t;
  cp_count : mapped t = true → u32 (Shm.qp_count (default Shm.usage_zero
               (Shm.table (Shm.shm (pshm (base t))) !! pid (base t)))) = qp_count (hg (base t));
}.

Lemma published_same t t' :
  pshm (base t') = pshm (base t) → hg (base t') = hg (base t) → pid (base t') = pid (base t) →
  counts_published t → counts_published t'.
Proof.
  intros Hs Hg Hp [H1 H2]. unfold slot_room, mapped in *. split; unfold slot_room, mapped; by rw Hs ?Hg ?Hp.
Qed.

(** Publishing the local counts. *)
Lemma publish_local_run a t :
  tok a t →
  ∃ t', publish_local t = Ret tt t' ∧ tok a t' ∧ kept t t' ∧
    drv (base t') = drv (base t) ∧ hg (base t') = hg (base t) ∧
    ((mapped t = true → slot_room t) → counts_published t').
Proof.
  intros Hok. unfold publish_local. rw (bind_Ret _ _ _ t t); [done|].
  destruct (publish_run (base t) (local_usage (base t)) (tk_shm _ _ Hok) (tk_pid _ _ Hok))
    as (r & h & Hrun & Hh & Hu & Hptr & Hgs & Ht & Hr).
  set (m := pshm h) in Hh, Hptr, Hgs, Ht. clearbody m. subst h.
  exists (t <| base ::= λ h, h <| pshm := m |> |>). split_and!; try done.
  3: by split; [..|unfold global_usage; cbn; rw Hptr Hgs|].
  - unfold zbase, mbind, M_bind, zoom in *. by rw Hrun.
  - apply tok_base; try done; [by destruct (tk_base _ _ Hok); split|apply Hok..].
  - intros Hroom. assert (Hpub : mapped t = true →
      Shm.table (Shm.shm m) = <[pid (base t) := local_usage (base t)]> (Shm.table (Shm.shm (pshm (base t))))).
    { intros Hmap. destruct Hr as [[-> _]|[_ Hfull]]; [exact Ht|].
      destruct (Hfull Hmap) as [Hn Hs]. pose proof (Hroom Hmap) as Hs'. unfold slot_room in Hs'.
      rw Hn Hs in Hs'. by destruct Hs' as [[]|]. }
    split; unfold slot_room, mapped in *; cbn; rw Hptr => Hmap; rw (Hpub Hmap) lookup_insert_eq; [by left|].
    cbn. rw u32_i32. apply u32_small, Hok.
Qed.

(** The second half of [ibv_create_qp]: the driver is called, and a new QP is
    counted for the process and for its tenant. *)
Lemma admitted_run a t pd attr :
  tok a t →
  let o := x_driver x (CreateQp pd (Some attr)) (drv (base t)) in
  let made := negb (ret o =? 0) in
  ∃ t', create_admitted x pd (Some attr) t = Ret (ret o) t' ∧
    tok (if made then counted (tenant_of a t) 0 1 a else a) t' ∧ kept t t' ∧
    drv (base t') = dstate o ∧
    qp_count (hg (base t')) =
      (if made then u32 (qp_count (hg (base t)) + 1) else qp_count (hg (base t))) ∧
    (counts_published t → counts_published t') ∧
    (made = true → (mapped t = true → slot_room t) → counts_published t').
Proof.
  intros Hok o made. unfold create_admitted.
  destruct (driver_run a t (CreateQp pd (Some attr)) Hok) as (t2 & Hrun2 & Hok2 & Hk2 & Hd2 & Hg2 & Hs2).
  fold o in Hrun2, Hd2. rw (bind_Ret _ _ _ _ _ Hrun2). unfold made.
  destruct (ret o =? 0); cbn [negb].
  { exists t2. rw Hg2. split_and!; try done. apply published_same; [done..|apply Hk2]. }
  destruct (local_run a t2 _ Hok2 create_qp_harmless) as (t3 & Hrun3 & Hok3 & Hk3 & Hd3 & Hg3 & Hs3).
  destruct (publish_local_run a t3 Hok3) as (t4 & Hrun4 & Hok4 & Hk4 & Hd4 & Hg4 & Hp4).
  destruct (count_object_run a t4 0 1 Hok4) as (t5 & Hrun5 & Hok5 & Hb5).
  pose proof (kept_trans _ _ _ Hk2 (kept_trans _ _ _ Hk3 Hk4)) as Hk14.
  rw (kept_tenant a _ _ Hk14) in Hok5.
  assert (Hpub : (mapped t = true → slot_room t) → counts_published t5).
  { intros Hroom. apply (published_same t4); [by rw Hb5..|].
    apply Hp4. unfold slot_room, mapped in *.
    by rw Hs3 Hs2 (kp_pid _ _ (kept_trans _ _ _ Hk2 Hk3)). }
  exists t5. split_and!; [|done|..].
  - rw (bind_Ret _ _ _ tt t5); [|done]. rw (bind_Ret _ _ _ _ _ Hrun3).
    by rw (bind_Ret _ _ _ _ _ Hrun4).
  - by eapply kept_trans; [|apply kept_base].
  - by rw Hb5 Hd4 Hd3.
  - by rw Hb5 Hg4 Hg3 Hg2.
  - intros [Hroom _]. by apply Hpub.
  - intros _. exact Hpub.
Qed.

(** [ibv_create_qp] calls the driver exactly when the checks allow it, and counts
    the new QP for the process and for its tenant. *)
Lemma create_qp_run a t pd attr :
  tok a t → enabled (base t) = true → real (base t) "ibv_create_qp" = true →
  let ok := qp_allowed a t attr in
  let o := x_driver x (CreateQp pd (Some attr)) (drv (base t)) in
  let made := ok && negb (ret o =? 0) in
  ∃ t', ibv_create_qp x pd (Some attr) t = Ret (if ok then ret o else 0) t' ∧
    tok (if made then counted (tenant_of a t) 0 1 a else a) t' ∧ kept t t' ∧
    drv (base t') = (if ok then dstate o else drv (base t)) ∧
    qp_count (hg (base t')) =
      (if made then u32 (qp_count (hg (base t)) + 1) else qp_count (hg (base t))) ∧
    (ok = false → errno (hproc (base t')) = EPERM) ∧
    (counts_published t → counts_published t') ∧
    (made = true → (mapped t = true → slot_room t) → counts_published t').
Proof.
  intros Hok He Hreal ok o made. unfold ibv_create_qp. rw (hooked_run a) //.
  destruct (restrictions_run a t pd attr Hok) as (t1 & Hrun1 & Hok1 & Hb1).
  rw (bind_Ret _ _ _ _ _ Hrun1). fold ok. pose proof (kept_base _ _ Hb1) as Hk1.
  destruct ok eqn:Eok; cbn [negb andb] in *; cycle 1.
  { destruct (refused_run a t1 EPERM 0 Hok1) as (t2 & Hrun2 & Hok2 & Hk2 & Hd2 & Hg2 & Hs2 & He2).
    exists t2. split_and!; [done..| | | |done| |done].
    - by eapply kept_trans.
    - by rw Hd2 Hb1.
    - by rw Hg2 Hb1.
    - apply published_same; [by rw Hs2 Hb1|by rw Hg2 Hb1|by rw (kp_pid _ _ Hk2) Hb1]. }
  destruct (admitted_run a t1 pd attr Hok1) as (t2 & Hrun2 & Hok2 & Hk2 & Hd2 & Hq2 & Hp2 & Hp2').
  rw Hb1 in Hrun2 Hd2 Hq2 Hok2. fold o in Hrun2, Hd2, Hq2, Hok2.
  unfold tenant_of in Hok2. rw Hb1 in Hok2. exists t2. unfold made.
  split_and!; try done; [by eapply kept_trans|..].
  - intros Hp. apply Hp2. eapply published_same; [..|exact Hp]; by rw Hb1.
  - intros Hm. unfold slot_room, mapped in *. rw Hb1 in Hp2'. by apply Hp2'.
Qed.

(** A call of the driver followed, on success, by an assignment to the local
    counts and the tenant's count: the body of the destroying hooks. *)
Lemma destroy_body_run a t v f rt delta :
  tok a t → harmless f →
  let o := x_driver x v (drv (base t)) in
  ∃ t', (result ← zbase (call x v);
         (if negb (result =? 0) then mret tt else count_local f;; count_object rt delta);;
         mret result) t = Ret (ret o) t' ∧
    tok (if ret o =? 0 then counted (tenant_of a t) rt delta a else a) t' ∧ kept t t' ∧
    drv (base t') = dstate o ∧
    hg (base t') = (if ret o =? 0 then f (hg (base t)) else hg (base t)) ∧
    pshm (base t') = pshm (base t).
Proof.
  intros Hok Hf o. destruct (driver_run a t v Hok) as (t2 & Hrun2 & Hok2 & Hk2 & Hd2 & Hg2 & Hs2).
  fold o in Hrun2, Hd2. rw (bind_Ret _ _ _ _ _ Hrun2).
  destruct (ret o =? 0); cbn [negb]; [|by exists t2].
  destruct (local_run a t2 f Hok2 Hf) as (t3 & Hrun3 & Hok3 & Hk3 & Hd3 & Hg3 & Hs3).
  destruct (count_object_run a t3 rt delta Hok3) as (t4 & Hrun4 & Hok4 & Hb4).
  rw (kept_tenant a _ _ (kept_trans _ _ _ Hk2 Hk3)) in Hok4.
  exists t4. split_and!; [|done|..].
  - rw (bind_Ret _ _ _ tt t4); [|done]. by rw (bind_Ret _ _ _ _ _ Hrun3).
  - by eapply kept_trans; [by eapply kept_trans|apply kept_base].
  - by rw Hb4 Hd3.
  - by rw Hb4 Hg3 Hg2.
  - by rw Hb4 Hs3 Hs2.
Qed.

Lemma destroy_qp_run a t qp :
  tok a t → enabled (base t) = true → real (base t) "ibv_destroy_qp" = true →
  let o := x_driver x (DestroyQp qp) (drv (base t)) in
  ∃ t', ibv_destroy_qp x qp t = Ret (ret o) t' ∧
    tok (if ret o =? 0 then counted (tenant_of a t) 0 (-1) a else a) t' ∧ kept t t' ∧
    drv (base t') = dstate o ∧
    qp_count (hg (base t')) =
      (if (ret o =? 0) && (0 <? qp_count (hg (base t))) then qp_count (hg (base t)) - 1 else qp_count (hg (base t))) ∧
    pshm (base t') = pshm (base t).
Proof.
  intros Hok He Hreal o. unfold ibv_destroy_qp. rw (hooked_run a) //.
  destruct (destroy_body_run a t (DestroyQp qp) _ 0 (-1) Hok destroy_qp_harmless)
    as (t' & ? & ? & ? & ? & Hg & ?). exists t'. split_and!; try done. rw Hg.
  by destruct (ret _ =? 0); cbn; [destruct (0 <? _)|].
Qed.

Lemma dereg_mr_run a t mr :
  tok a t → enabled (base t) = true → real (base t) "ibv_dereg_mr" = true →
  let o := x_driver x (DeregMr mr) (drv (base t)) in
  ∃ t', ibv_dereg_mr x mr t = Ret (ret o) t' ∧
    tok (if ret o =? 0 then counted (tenant_of a t) 1 (-1) a else a) t' ∧ kept t t' ∧
    (drv (base t') = dstate o ∧ qp_count (hg (base t')) = qp_count (hg (base t)) ∧
     pshm (base t') = pshm (base t)).
Proof.
  intros Hok He Hreal o. unfold ibv_dereg_mr. rw (hooked_run a) //.
  rw (bind_Ret _ _ _ t t); [done|]. cbv zeta.
  set (n := if mr =? 0 then 0 else _).
  assert (0 ≤ n) by (unfold n; destruct (mr =? 0); [done|apply u64_range]).
  destruct (destroy_body_run a t (DeregMr mr) _ 1 (-1) Hok (dereg_harmless n ltac:(done)))
    as (t' & ? & ? & ? & ? & Hg & ?). exists t'. split_and!; try done. rw Hg. by destruct (ret _ =? 0).
Qed.

(** [ibv_reg_mr] calls the driver exactly when the tenant has room, and counts
    the new region for the process and, as one more MR, for the tenant. *)
Lemma reg_mr_run a t pd addr length access :
  tok a t → enabled (base t) = true → real (base t) "ibv_reg_mr" = true →
  let ok := mr_room a (tenant_of a t) length in
  let o := x_driver x (RegMr pd addr length access) (drv (base t)) in
  ∃ t', ibv_reg_mr x pd addr length access t = Ret (if ok then ret o else 0) t' ∧
    tok (if ok && negb (ret o =? 0) then counted (tenant_of a t) 1 1 a else a) t' ∧ kept t t' ∧
    (drv (base t') = (if ok then dstate o else drv (base t)) ∧
     qp_count (hg (base t')) = qp_count (hg (base t)) ∧ pshm (base t') = pshm (base t)) ∧
    (ok = false → errno (hproc (base t')) = EPERM).
Proof.
  intros Hok He Hreal ok o. unfold ibv_reg_mr. rw (hooked_run a) //.
  destruct (current_tenant_run a t Hok) as (t0 & Hrun0 & Hok0 & Hb0).
  rw (bind_Ret _ _ _ _ _ Hrun0).
  destruct (check_mr_run a t0 (tenant_of a t) length Hok0 (tenant_of_nonneg a t Hok))
    as (t1 & Hrun1 & Hok1 & Hb1).
  rw (bind_Ret _ _ _ _ _ Hrun1). fold ok. rw Hb0 in Hb1. pose proof (kept_base _ _ Hb1) as Hk1.
  destruct ok eqn:Eok; cbn [negb andb] in *; cycle 1.
  { destruct (refused_run a t1 EPERM 0 Hok1) as (t2 & Hrun2 & Hok2 & Hk2 & Hd2 & Hg2 & Hs2 & He2).
    exists t2. split_and!; [done..| | | | |done].
    - by eapply kept_trans.
    - by rw Hd2 Hb1.
    - by rw Hg2 Hb1.
    - by rw Hs2 Hb1. }
  destruct (driver_run a t1 (RegMr pd addr length access) Hok1)
    as (t2 & Hrun2 & Hok2 & Hk2 & Hd2 & Hg2 & Hs2).
  rw Hb1 in Hrun2 Hd2 Hg2 Hs2. fold o in Hrun2, Hd2. rw (bind_Ret _ _ _ _ _ Hrun2).
  pose proof (kept_trans _ _ _ Hk1 Hk2) as Hk12.
  destruct (ret o =? 0); cbn [negb]; [exists t2; by rw Hg2|].
  destruct (local_run a t2 _ Hok2 (reg_mr_harmless length)) as (t3 & Hrun3 & Hok3 & Hk3 & Hd3 & Hg3 & Hs3).
  destruct (count_run a t3 (tenant_of a t) 1 1 Hok3 (tenant_of_nonneg a t Hok))
    as (t4 & Hrun4 & Hok4 & Hb4).
  exists t4. split_and!; [|done|..].
  - rw (bind_Ret _ _ _ tt t4); [|done]. by rw (bind_Ret _ _ _ _ _ Hrun3).
  - by eapply kept_trans; [by eapply kept_trans|apply kept_base].
  - by rw Hb4 Hd3.
  - by rw Hb4 Hg3 Hg2.
  - by rw Hb4 Hs3 Hs2.
  - done.
Qed.

(** The hooks of CQs and PDs never refuse. *)
Lemma create_hook_run a t name v rt :
  tok a t → enabled (base t) = true → real (base t) name = true →
  let o := x_driver x v (drv (base t)) in
  ∃ t', create_hook x name v rt t = Ret (ret o) t' ∧
    tok (if ret o =? 0 then a else counted (tenant_of a t) rt 1 a) t' ∧ kept t t' ∧
    drv (base t') = dstate o ∧ hg (base t') = hg (base t) ∧ pshm (base t') = pshm (base t).
Proof.
  intros Hok He Hreal o. unfold create_hook. rw (hooked_run a) //.
  destruct (driver_run a t v Hok) as (t2 & Hrun2 & Hok2 & Hk2 & Hd2 & Hg2 & Hs2).
  fold o in Hrun2, Hd2. rw (bind_Ret _ _ _ _ _ Hrun2).
  destruct (ret o =? 0); [by exists t2|].
  destruct (count_object_run a t2 rt 1 Hok2) as (t4 & Hrun4 & Hok4 & Hb4).
  rw (kept_tenant a _ _ Hk2) in Hok4. exists t4. split_and!; [|done|..].
  - by rw (bind_Ret _ _ _ _ _ Hrun4).
  - by eapply kept_trans; [|apply kept_base].
  - by rw Hb4.
  - by rw Hb4.
  - by rw Hb4.
Qed.

Lemma destroy_hook_run a t name v rt :
  tok a t → enabled (base t) = true → real (base t) name = true →
  let o := x_driver x v (drv (base t)) in
  ∃ t', destroy_hook x name v rt t = Ret (ret o) t' ∧
    tok (if ret o =? 0 then counted (tenant_of a t) rt (-1) a else a) t' ∧ kept t t' ∧
    drv (base t') = dstate o ∧ hg (base t') = hg (base t) ∧ pshm (base t') = pshm (base t).
Proof.
  intros Hok He Hreal o. unfold destroy_hook. rw (hooked_run a) //.
  destruct (driver_run a t v Hok) as (t2 & Hrun2 & Hok2 & Hk2 & Hd2 & Hg2 & Hs2).
  fold o in Hrun2, Hd2. rw (bind_Ret _ _ _ _ _ Hrun2).
  destruct (ret o =? 0); cbn [negb]; [|by exists t2].
  destruct (count_object_run a t2 rt (-1) Hok2) as (t4 & Hrun4 & Hok4 & Hb4).
  rw (kept_tenant a _ _ Hk2) in Hok4. exists t4. split_and!; [|done|..].
  - by rw (bind_Ret _ _ _ _ _ Hrun4).
  - by eapply kept_trans; [|apply kept_base].
  - by rw Hb4.
  - by rw Hb4.
  - by rw Hb4.
Qed.

End Props.
End HooksTenantProps.
