(* ===== verification/TenantQuota.v ===== *)
(** * The quota of a tenant over all its processes

    Sequences of hook calls: every hook returns, the QP count of a tenant is the
    number of QPs its processes hold, and it stays within the quota, for any
    interleaving of whole calls; and what the hooks do not enforce: the limits of a
    suspended tenant, and the memory quota. *)

From S2P Require Import Prelude CString Intercept Core CollectorServer CollectorClient LocalPolicy.
From S2P Require Import SlotTable ShmProcess ShmTenant TenantProps TenantSpec HookBase HooksTenant.
From S2P Require Import HooksTenantProps.

Module TenantQuota.
Import TenantProps TenantSpec.
Import Intercept Core CollectorClient LocalPolicy HookBase HooksTenant HooksTenantProps.
#[local] Existing Instances Tenant.expand_usage Tenant.expand_info Tenant.expand_shm Tenant.expand_state.

(** ** Hook calls *)

Inductive op :=
| OCreateQp (pd : Z) (attr : ibv_qp_init_attr)
| ODestroyQp (qp : Z)
| ORegMr (pd addr length access : Z)
| ODeregMr (mr : Z)
| OCreateCq (context cqe cq_context channel comp_vector : Z)
| ODestroyCq (cq : Z)
| OAllocPd (context : Z)
| ODeallocPd (pd : Z).

Section Ops.
Context {Srv D : Type} (x : externals Srv D).
Implicit Types (t : thooks Srv D) (a : store) (o : op).

Definition run_op o : M (thooks Srv D) Z :=
  match o with
  | OCreateQp pd attr => ibv_create_qp x pd (Some attr)
  | ODestroyQp qp => ibv_destroy_qp x qp
  | ORegMr pd addr length access => ibv_reg_mr x pd addr length access
  | ODeregMr mr => ibv_dereg_mr x mr
  | OCreateCq c n cc ch v => ibv_create_cq x c n cc ch v
  | ODestroyCq cq => ibv_destroy_cq x cq
  | OAllocPd c => ibv_alloc_pd x c
  | ODeallocPd pd => ibv_dealloc_pd x pd
  end.

Fixpoint run_ops (os : list op) : M (thooks Srv D) (list Z) :=
  match os with
  | [] => mret []
  | o :: os' => r ← run_op o; rs ← run_ops os'; mret (r :: rs)
  end.

(** The verbs the hooks call: [ibv_create_qp_ex], which libibverbs may not export, is
    looked for but called by none of them. *)
Definition needed_names : list string := filter (λ f, f ≠ "ibv_create_qp_ex") hook_names.

(** The process has been initialised: the library is enabled and the verbs were
    found. *)
Record live_hooks t : Prop := {
  lh_enabled : enabled (base t) = true;
  lh_real f : f ∈ needed_names → real (base t) f = true;
}.

Lemma is_hook f : bool_decide (f ∈ needed_names) = true → f ∈ needed_names.
Proof. apply bool_decide_eq_true_1. Qed.

Lemma needed_hook f : f ∈ needed_names → f ∈ hook_names.
Proof. by intros [_ ?]%list_elem_of_filter. Qed.

Lemma live_kept t t' : kept t t' → live_hooks t → live_hooks t'.
Proof.
  intros Hk [He Hr]. split; [by rw (kept_enabled _ _ Hk)|]. intros f Hf.
  rw (kp_real _ _ Hk). by apply Hr.
Qed.

(** What a hook call does to the driver and to the abstract store. *)
Inductive effect (controlled : bool) a (tid : Z) (d : D) : D → store → Prop :=
| eff_refused : effect controlled a tid d d a
| eff_call v : no_qp v → effect controlled a tid d (dstate (x_driver x v d)) a
| eff_count v rt delta : no_qp v → rt ≠ 0 →
    effect controlled a tid d (dstate (x_driver x v d)) (counted tid rt delta a)
| eff_create_failed pd attr :
    let o := x_driver x (CreateQp pd attr) d in
    ret o = 0 → effect controlled a tid d (dstate o) a
| eff_create pd attr :
    let o := x_driver x (CreateQp pd attr) d in
    ret o ≠ 0 → (controlled = true → qp_within a tid = true) →
    effect controlled a tid d (dstate o) (counted tid 0 1 a)
| eff_destroy_failed qp :
    let o := x_driver x (DestroyQp qp) d in
    ret o ≠ 0 → effect controlled a tid d (dstate o) a
| eff_destroy qp :
    let o := x_driver x (DestroyQp qp) d in
    ret o = 0 → effect controlled a tid d (dstate o) (counted tid 0 (-1) a).

Lemma op_run a t o :
  tok a t → live_hooks t →
  ∃ r t' a', run_op o t = Ret r t' ∧ tok a' t' ∧ kept t t' ∧
    effect (enable_qp_control (hcfg (base t))) a (tenant_of a t) (drv (base t)) (drv (base t')) a'.
Proof.
  intros Hok [He Hr]. assert (Hin : ∀ f, bool_decide (f ∈ needed_names) = true → real (base t) f = true).
  { intros f Hf. by apply Hr, is_hook. }
  destruct o as [pd attr|qp|pd addr len acc|mr|c n cc ch v|cq|c|pd]; cbn [run_op].
  - destruct (create_qp_run x a t pd attr Hok He (Hin "ibv_create_qp" eq_refl))
      as (t' & Hrun & Hok' & Hk & Hd & _).
    eexists _, t', _. split_and!; [done..|]. rw Hd.
    destruct (qp_allowed a t attr) eqn:Ha; cbn [andb]; [|constructor].
    destruct (Z.eqb_spec (ret (x_driver x (CreateQp pd (Some attr)) (drv (base t)))) 0);
      cbn [negb]; constructor; [done..|].
    intros Hctl. unfold qp_allowed in Ha. rw Hctl in Ha. cbn in Ha.
    by destruct (type_denied _ _), (qp_within _ _).
  - destruct (destroy_qp_run x a t qp Hok He (Hin "ibv_destroy_qp" eq_refl))
      as (t' & Hrun & Hok' & Hk & Hd & _).
    eexists _, t', _. split_and!; [done..|]. rw Hd.
    destruct (Z.eqb_spec (ret (x_driver x (DestroyQp qp) (drv (base t)))) 0); by constructor.
  - destruct (reg_mr_run x a t pd addr len acc Hok He (Hin "ibv_reg_mr" eq_refl))
      as (t' & Hrun & Hok' & Hk & [Hd _] & _).
    eexists _, t', _. split_and!; [done..|]. rw Hd.
    destruct (mr_room _ _ _); cbn [andb]; [|constructor]. destruct (_ =? 0); by constructor.
  - destruct (dereg_mr_run x a t mr Hok He (Hin "ibv_dereg_mr" eq_refl))
      as (t' & Hrun & Hok' & Hk & Hd & _).
    eexists _, t', _. split_and!; [done..|]. rw Hd. destruct (_ =? 0); by constructor.
  - destruct (create_hook_run x a t "ibv_create_cq" (CreateCq c n cc ch v) 3 Hok He
      (Hin "ibv_create_cq" eq_refl)) as (t' & Hrun & Hok' & Hk & Hd & _).
    eexists _, t', _. split_and!; [done..|]. rw Hd. destruct (_ =? 0); by constructor.
  - destruct (destroy_hook_run x a t "ibv_destroy_cq" (DestroyCq cq) 3 Hok He
      (Hin "ibv_destroy_cq" eq_refl)) as (t' & Hrun & Hok' & Hk & Hd & _).
    eexists _, t', _. split_and!; [done..|]. rw Hd. destruct (_ =? 0); by constructor.
  - destruct (create_hook_run x a t "ibv_alloc_pd" (AllocPd c) 4 Hok He
      (Hin "ibv_alloc_pd" eq_refl)) as (t' & Hrun & Hok' & Hk & Hd & _).
    eexists _, t', _. split_and!; [done..|]. rw Hd. destruct (_ =? 0); by constructor.
  - destruct (destroy_hook_run x a t "ibv_dealloc_pd" (DeallocPd pd) 4 Hok He
      (Hin "ibv_dealloc_pd" eq_refl)) as (t' & Hrun & Hok' & Hk & Hd & _).
    eexists _, t', _. split_and!; [done..|]. rw Hd. destruct (_ =? 0); by constructor.
Qed.

(** The QP figure of a tenant, as the hooks compare it. *)
Definition qps_used (v : tview) : Z := u32 (Tenant.qp_count (v_usage v)).

Lemma active_put tid v a : is_active v = true → active (live_put tid (Some v) a) tid = Some v.
Proof. intros Hv. unfold active, live_put. cbn. rw decide_True //. cbn. by rw Hv. Qed.

Lemma counted_active tid rt delta a v :
  active a tid = Some v →
  active (counted tid rt delta a) tid = Some (v <| v_usage ::= count_usage rt delta |>) ∧
  owner (counted tid rt delta a) = owner a.
Proof.
  intros Hv. unfold counted. rw Hv. split; [|done]. apply active_put.
  unfold active in Hv. destruct (live a tid) as [w|]; [|done]. cbn in Hv.
  destruct (is_active w) eqn:E; [|done]. by injection Hv as ->.
Qed.

Lemma count_other rt delta u :
  rt ≠ 0 → Tenant.qp_count (count_usage rt delta u) = Tenant.qp_count u.
Proof.
  intros Hrt. unfold count_usage. rw (proj2 (Z.eqb_neq _ _) Hrt).
  by destruct (rt =? 1), (rt =? 3), (rt =? 4), (0 <? delta), (delta <? 0).
Qed.

Lemma count_qp delta u :
  Tenant.qp_count (count_usage 0 delta u) = i32 (Tenant.qp_count u + delta).
Proof. unfold count_usage. cbn. by destruct (0 <? delta), (delta <? 0). Qed.

Lemma counted_qps tid rt delta a v :
  active a tid = Some v →
  ∃ v', active (counted tid rt delta a) tid = Some v' ∧ v_quota v' = v_quota v ∧
    owner (counted tid rt delta a) = owner a ∧
    qps_used v' = u32 (qps_used v + (if rt =? 0 then delta else 0)).
Proof.
  intros Hv. destruct (counted_active tid rt delta a v Hv) as [Ha Ho].
  eexists. split_and!; try done. unfold qps_used. cbn [v_usage update].
  destruct (Z.eqb_spec rt 0) as [->|Hne]; [rw count_qp|rw count_other //]; width_lia.
Qed.

Lemma active_live a tid v : active a tid = Some v → live a tid = Some v.
Proof. unfold active. destruct (live a tid) as [w|]; [|done]. cbn. by destruct (is_active w). Qed.

(** An active tenant below its quota has room. *)
Lemma active_within a tid v :
  active a tid = Some v → qps_used v < Tenant.max_qp_per_tenant (v_quota v) → qp_within a tid = true.
Proof.
  intros Hv Hu. unfold qp_within. unfold active in Hv. destruct (live a tid) as [w|]; [|done].
  cbn in Hv. destruct (is_active w); [|done]. injection Hv as ->.
  apply orb_true_iff. right. apply negb_true_iff, Z.leb_gt. exact Hu.
Qed.

Lemma counted_same a tid n v :
  active a tid = Some v → n = 0 →
  ∃ v', active a tid = Some v' ∧ v_quota v' = v_quota v ∧ owner a = owner a ∧
    qps_used v' = u32 (qps_used v + n).
Proof. intros Hv ->. exists v. split_and!; try done. unfold qps_used. width_lia. Qed.

Lemma effect_run qps ctl a tid d d' a' v :
  counts_qps x qps → effect ctl a tid d d' a' → tid ≠ 0 → active a tid = Some v →
  (∃ v', active a' tid = Some v' ∧ v_quota v' = v_quota v ∧ owner a' = owner a ∧
    qps_used v' = u32 (qps_used v + (qps d' - qps d))) ∧
  (ctl = true → qps d' ≤ qps d ∨
     qps d' = qps d + 1 ∧ qps_used v < Tenant.max_qp_per_tenant (v_quota v)).
Proof.
  intros Hq He H0 Hv. destruct He as [|w Hw|w rt delta Hw Hrt|pd attr o Hr|pd attr o Hr Hin|qp o Hr|qp o Hr].
  - split; [apply counted_same; [done|lia]|left; lia].
  - rw (qps_other _ _ Hq w) //. split; [apply counted_same; [done|lia]|left; lia].
  - rw (qps_other _ _ Hq w) //. split; [|left; lia].
    destruct (counted_qps tid rt delta a v Hv) as (v' & ? & ? & ? & Hu). exists v'.
    split_and!; try done. rw Hu (proj2 (Z.eqb_neq rt 0) Hrt). by rw Z.sub_diag.
  - pose proof (qps_create _ _ Hq pd attr d) as Hc. cbv zeta in Hc. fold o in Hc. rw Hr in Hc.
    split; [apply counted_same; [done|cbn in Hc; lia]|left; cbn in Hc; lia].
  - pose proof (qps_create _ _ Hq pd attr d) as Hc. cbv zeta in Hc. fold o in Hc.
    rw (proj2 (Z.eqb_neq _ 0) Hr) in Hc. split.
    + destruct (counted_qps tid 0 1 a v Hv) as (v' & ? & ? & ? & Hu). exists v'.
      split_and!; try done. rw Hu Hc. cbn. f_equal. lia.
    + intros Hctl. right. split; [done|]. specialize (Hin Hctl). unfold qp_within in Hin.
      rw (proj2 (Z.eqb_neq tid 0) H0) in Hin. cbn in Hin. unfold active in Hv.
      destruct (live a tid) as [w|]; [|done]. cbn in Hv. destruct (is_active w); [|done].
      injection Hv as ->. apply negb_true_iff, Z.leb_gt in Hin. done.
  - pose proof (qps_destroy _ _ Hq qp d) as Hc. cbv zeta in Hc. fold o in Hc.
    rw (proj2 (Z.eqb_neq _ 0) Hr) in Hc.
    split; [apply counted_same; [done|lia]|left; lia].
  - pose proof (qps_destroy _ _ Hq qp d) as Hc. cbv zeta in Hc. fold o in Hc. rw Hr in Hc. cbn in Hc.
    split; [|left; lia].
    destruct (counted_qps tid 0 (-1) a v Hv) as (v' & ? & ? & ? & Hu). exists v'.
    split_and!; try done. rw Hu Hc. cbn. f_equal. lia.
Qed.

(** ** Sequences of one process *)

Lemma ops_run a t os :
  tok a t → live_hooks t →
  ∃ rs t' a', run_ops os t = Ret rs t' ∧ tok a' t' ∧ kept t t' ∧ length rs = length os.
Proof.
  revert a t. induction os as [|o os IH]; intros a t Hok Hlive; [by exists [], t, a|].
  destruct (op_run a t o Hok Hlive) as (r & t1 & a1 & Hrun & Hok1 & Hk & _).
  destruct (IH a1 t1 Hok1 (live_kept _ _ Hk Hlive)) as (rs & t2 & a2 & Hrun2 & Hok2 & Hk2 & Hl).
  exists (r :: rs), t2, a2. cbn [run_ops]. rw (bind_Ret _ _ _ _ _ Hrun) (bind_Ret _ _ _ _ _ Hrun2).
  split_and!; [done|done|by eapply kept_trans|by cbn; rw Hl].
Qed.

(** A property of the store that counting keeps holds after any sequence. *)
Lemma ops_keep (P : store → Prop) a t os :
  tok a t → live_hooks t → P a →
  (∀ a' rt delta, P a' → P (counted (tenant_of a t) rt delta a')) →
  (∀ a', P a' → owner a' = owner a) →
  ∃ rs t' a', run_ops os t = Ret rs t' ∧ tok a' t' ∧ kept t t' ∧ P a'.
Proof.
  intros Hok Hlive HP Hc Ho.
  assert (∀ os b t1, P b → tok b t1 → kept t t1 →
    ∃ rs t' a', run_ops os t1 = Ret rs t' ∧ tok a' t' ∧ kept t t' ∧ P a') as Hall;
    [|by apply (Hall os a t)].
  clear os. intros os. induction os as [|o os IH]; intros b t1 HPb Hokb Hk1; [by exists [], t1, b|].
  destruct (op_run b t1 o Hokb (live_kept _ _ Hk1 Hlive)) as (r & t2 & b2 & Hrun & Hok2 & Hk2 & He).
  assert (Htid : tenant_of b t1 = tenant_of a t).
  { unfold tenant_of. by rw (Ho b HPb) (kp_pid _ _ Hk1). }
  rw Htid in He. assert (HP2 : P b2) by (destruct He; auto).
  destruct (IH b2 t2 HP2 Hok2 (kept_trans _ _ _ Hk1 Hk2)) as (rs & t3 & a3 & Hrun3 & ? & ? & ?).
  exists (r :: rs), t3, a3. cbn [run_ops].
  by rw (bind_Ret _ _ _ _ _ Hrun) (bind_Ret _ _ _ _ _ Hrun3).
Qed.

(** C29: every sequence of hook calls of an initialised process returns, whatever
    the driver answers, leaving [resource_mutex] and the lock of the tenant shared
    memory free and both shared objects in order. *)
Theorem tenant_hooks_always_return a t os :
  tok a t → live_hooks t →
  ∃ rs t', run_ops os t = Ret rs t' ∧ length rs = length os ∧
    resource_mutex (hg (base t')) = false ∧ Tenant.lock (Tenant.shm (tshm t')) = 0 ∧
    shm_ok (Tenant.shm (tshm t')) ∧ shm_usable (base t').
Proof.
  intros Hok Hlive. destruct (ops_run a t os Hok Hlive) as (rs & t' & a' & Hrun & Hok' & _ & Hl).
  exists rs, t'. destruct (tk_ready _ _ Hok') as [_ Hlk Hd].
  split_and!; [done|done|apply (hk_mutex _ (tk_base _ _ Hok'))|done|done|apply (tk_shm _ _ Hok')].
Qed.

(** The tests on a new QP that do not concern the tenant. *)
Definition others_allow (h : hooks Srv D) (attr : ibv_qp_init_attr) : bool :=
  let c := hcfg h in
  negb (enable_qp_control c) ||
  (negb (type_denied c (attr_qp_type attr)) && negb (process_denied c (reading (process_usage h)))
     && negb (global_denied c (reading (global_usage h)))).

(** A tenant suspended while it has room is no longer metered: its processes
    may make any hook calls, nothing is counted for it, and the tenant test keeps
    letting new QPs through; only the limits of the process and of the system
    remain. *)
Theorem suspended_tenant_unmetered a t v os :
  tok a t → live_hooks t → live a (tenant_of a t) = Some v →
  v_status v = Tenant.TENANT_STATUS_SUSPENDED → qp_within a (tenant_of a t) = true →
  ∃ rs t', run_ops os t = Ret rs t' ∧ tok a t' ∧
    ∀ pd attr, ∃ t'', ibv_create_qp x pd (Some attr) t' =
      Ret (if others_allow (base t') attr
           then ret (x_driver x (CreateQp pd (Some attr)) (drv (base t'))) else 0) t''.
Proof.
  intros Hok Hlive Hv Hs Hin.
  assert (Hna : active a (tenant_of a t) = None).
  { unfold active. rw Hv. cbn. unfold is_active. by rw Hs. }
  destruct (ops_keep (λ b, b = a) a t os Hok Hlive eq_refl) as (rs & t' & a' & Hrun & Hok' & Hk & ->).
  { intros a' rt delta ->. unfold counted. by rw Hna. }
  { by intros a' ->. }
  exists rs, t'. split_and!; [done..|]. intros pd attr.
  destruct (live_kept _ _ Hk Hlive) as [He Hr].
  destruct (create_qp_run x a t' pd attr Hok' He) as (t'' & Hrun' & _).
  { apply Hr. by left. }
  exists t''. rw Hrun'. f_equal. unfold qp_allowed, others_allow.
  rw (kept_tenant a _ _ Hk) Hin andb_true_r. done.
Qed.

(** A registration of [length] bytes fits the memory quota by itself; the sum with
    the recorded memory is a [uint64_t]. *)
Definition fits_alone (v : tview) (length : Z) : bool :=
  (Tenant.max_memory_per_tenant (v_quota v) <=? 0) ||
  (u64 (Tenant.memory_used (v_usage v) + length) <=? Tenant.max_memory_per_tenant (v_quota v)).

Lemma mr_room_fits a tid v length :
  tid ≠ 0 → live a tid = Some v →
  mr_room a tid length =
    (u32 (Tenant.mr_count (v_usage v)) <? Tenant.max_mr_per_tenant (v_quota v)) && fits_alone v length.
Proof.
  intros H0 Hv. unfold mr_room, mr_within, fits_alone. rw (proj2 (Z.eqb_neq _ _) H0) Hv. cbn.
  rw (Z.ltb_antisym (Tenant.max_mr_per_tenant (v_quota v))).
  destruct (Tenant.max_mr_per_tenant (v_quota v) <=? _); cbn; [done|].
  by rw negb_andb Z.ltb_antisym Z.ltb_antisym !negb_involutive.
Qed.

(** C34: the memory quota of a tenant bounds one registration, not their sum.  After any
    sequence of calls of a process the recorded memory of its tenant is what it was, so
    that a registration of [length] bytes made then is judged as if it were the only one:
    one that does not fit by itself is refused (NULL, [EPERM], driver not asked), and one
    that fits reaches the driver unless the count of MRs has reached its own quota,
    whatever has been registered before. *)
Theorem memory_quota_never_accumulates a t v os pd addr length access :
  tok a t → live_hooks t → tenant_of a t ≠ 0 → live a (tenant_of a t) = Some v →
  ∃ rs t' a' v' r t'', run_ops os t = Ret rs t' ∧ tok a' t' ∧ tenant_of a' t' = tenant_of a t ∧
    live a' (tenant_of a t) = Some v' ∧
    Tenant.memory_used (v_usage v') = Tenant.memory_used (v_usage v) ∧
    ibv_reg_mr x pd addr length access t' = Ret r t'' ∧
    let o := x_driver x (RegMr pd addr length access) (drv (base t')) in
    if fits_alone v length && (u32 (Tenant.mr_count (v_usage v')) <? Tenant.max_mr_per_tenant (v_quota v))
    then r = ret o ∧ drv (base t'') = dstate o
    else r = 0 ∧ errno (hproc (base t'')) = EPERM ∧ drv (base t'') = drv (base t').
Proof.
  intros Hok Hlive H0 Hv.
  destruct (ops_keep (λ b, owner b = owner a ∧ ∃ v', live b (tenant_of a t) = Some v' ∧
      Tenant.memory_used (v_usage v') = Tenant.memory_used (v_usage v) ∧ v_quota v' = v_quota v)
    a t os Hok Hlive) as (rs & t' & a' & Hrun & Hok' & Hk & Ho & v' & Hv' & Hm & Hqt).
  { split; [done|by exists v]. }
  { intros b rt delta (Ho & v' & Hv' & Hm & Hqt). unfold counted, active. rw Hv'. cbn.
    destruct (is_active v'); cbn; [|by split; [|exists v']]. split; [done|].
    rw decide_True //. eexists. split_and!; [done| |done]. cbn. rw -Hm. unfold count_usage.
    by destruct (rt =? 0), (rt =? 1), (rt =? 3), (rt =? 4), (0 <? delta), (delta <? 0). }
  { by intros b [? _]. }
  assert (Ht : tenant_of a' t' = tenant_of a t) by (unfold tenant_of; by rw Ho (kp_pid _ _ Hk)).
  destruct (live_kept _ _ Hk Hlive) as [He Hr].
  destruct (reg_mr_run x a' t' pd addr length access Hok' He (Hr _ (is_hook "ibv_reg_mr" eq_refl)))
    as (t'' & Hreg & _ & _ & [Hd _] & Herr).
  eexists rs, t', a', v', _, t''. split_and!; [done..|exact Hreg|]. cbv zeta. revert Hd Herr.
  assert (mr_room a' (tenant_of a' t') length = fits_alone v length &&
    (u32 (Tenant.mr_count (v_usage v')) <? Tenant.max_mr_per_tenant (v_quota v))) as ->.
  { rw Ht (mr_room_fits _ _ v' length H0 Hv') Hqt. unfold fits_alone. rw Hqt Hm. apply andb_comm. }
  destruct (_ && _); intros Hd Herr; split_and!; auto.
Qed.

(** ** Several processes *)

(** The tenant shared memory and the processes that map it. *)
Record world := mk_world {
  w_shm : Tenant.tenant_shared_memory_t;
  w_procs : list (thooks Srv D);
}.

(** A process as it runs: it sees the current contents of the shared object. *)
Definition load (m : Tenant.tenant_shared_memory_t) (t : thooks Srv D) : thooks Srv D :=
  t <| tshm ::= λ s, s <| Tenant.shm := m |> |>.

(** One hook call of one process, uninterrupted. *)
Inductive world_step : world → world → Prop :=
| step_hook w i t o r t' :
    w_procs w !! i = Some t → run_op o (load (w_shm w) t) = Ret r t' →
    world_step w (mk_world (Tenant.shm (tshm t')) (<[i := t']> (w_procs w))).

Section Group.
Context (qps : D → Z) (Hq : counts_qps x qps) (tid : Z).

(** The QPs the processes hold. *)
Fixpoint total (ps : list (thooks Srv D)) : Z :=
  match ps with
  | [] => 0
  | t :: ps' => qps (drv (base t)) + total ps'
  end.

(** All processes are initialised, controlled, and bound to the active tenant
    [tid], whose usage counts their QPs. *)
Record group (a : store) (w : world) : Prop := {
  gr_procs i t : w_procs w !! i = Some t →
    tok a (load (w_shm w) t) ∧ live_hooks t ∧ enable_qp_control (hcfg (base t)) = true ∧
    owner a !! pid (base t) = Some tid;
  gr_store : refines a (w_shm w);
  gr_tenant : ∃ v, active a tid = Some v ∧ qps_used v = total (w_procs w) ∧
    total (w_procs w) ≤ Tenant.max_qp_per_tenant (v_quota v) ∧
    is_u32 (Tenant.max_qp_per_tenant (v_quota v));
}.

Lemma total_insert ps i t t' :
  ps !! i = Some t →
  total (<[i := t']> ps) = total ps - qps (drv (base t)) + qps (drv (base t')).
Proof.
  revert i. induction ps as [|p ps IH]; intros [|i]; cbn; try done.
  - intros [= ->]. lia.
  - intros Hi. rw (IH i Hi). lia.
Qed.

Lemma total_nonneg ps : 0 ≤ total ps.
Proof using Hq.
  induction ps as [|p ps IH]; cbn; [done|]. pose proof (qps_nonneg _ _ Hq (drv (base p))). lia.
Qed.

Lemma total_member ps i t : ps !! i = Some t → qps (drv (base t)) ≤ total ps.
Proof using Hq.
  revert i. induction ps as [|p ps IH]; intros [|i]; cbn; try done.
  - intros [= ->]. pose proof (total_nonneg ps). lia.
  - intros Hi. specialize (IH i Hi). pose proof (qps_nonneg _ _ Hq (drv (base p))). lia.
Qed.

(** A process that stays put while another one makes a call. *)
Lemma tok_other a a' t' m p :
  tok a (load m p) → tok a' t' → tok a' (load (Tenant.shm (tshm t')) p).
Proof.
  intros [H1 H2 H3 H4 _ H6 H7 H8] Hok'.
  destruct (tk_ready _ _ Hok') as [_ Hl Hd]. split; try done. apply (tk_store _ _ Hok').
Qed.

Lemma group_step a w w' : world_step w w' → group a w → ∃ a', group a' w'.
Proof using Hq.
  intros [w1 i t o r t' Hi Hrun] [Hp _ (v & Hv & Hu & Hle & Hw)].
  destruct (Hp i t Hi) as (Hok & Hlive & Hctl & Hown).
  assert (Hlive' : live_hooks (load (w_shm w1) t)) by (destruct Hlive; by split).
  destruct (op_run a (load (w_shm w1) t) o Hok Hlive') as (r' & t1 & a' & Hrun' & Hok' & Hk & He).
  rw Hrun in Hrun'. injection Hrun' as <- <-.
  assert (Htid : tenant_of a (load (w_shm w1) t) = tid) by (unfold tenant_of; cbn; by rw Hown).
  assert (H0 : tid ≠ 0).
  { intros ->. by rw (no_default a _ Hok) in Hv. }
  rw Htid in He.
  destruct (effect_run qps _ _ _ _ _ _ _ Hq He H0 Hv) as [(v' & Hv' & Hq' & Ho' & Hu') Hlim].
  specialize (Hlim Hctl). cbn [base load update] in Hlim, Hu'.
  pose proof (total_insert _ _ _ t' Hi) as Ht.
  pose proof (total_nonneg (<[i:=t']> (w_procs w1))) as Hnn.
  exists a'. split; cbn [w_procs w_shm].
  - intros j p. destruct (decide (j = i)) as [->|Hne].
    + rw list_lookup_insert_eq; [by eapply lookup_lt_Some|]. intros [= <-].
      split_and!; [by destruct Hok' as [? ? ? []]; split| |rw (kp_cfg _ _ Hk); done|].
      * by eapply live_kept.
      * by rw Ho' (kp_pid _ _ Hk).
    + rw list_lookup_insert_ne //. intros Hj. destruct (Hp j p Hj) as (Hok2 & ? & ? & ?).
      split_and!; [by eapply tok_other|done|done|by rw Ho'].
  - apply (tk_store _ _ Hok').
  - exists v'. rw Hq' Hu' Hu Ht. split_and!; [done| |lia|done].
    rw u32_small; [unfold is_u32 in *; lia|lia].
Qed.

(** C1: the processes of a tenant, initialised and under QP control, never hold
    more QPs together than the tenant's quota: for any interleaving of whole hook
    calls (creating and destroying QPs, MRs, CQs and PDs), the tenant's recorded QP
    count is the number of QPs they hold, and that is at most the quota. *)
Theorem tenant_qp_quota_holds a w w' :
  group a w → rtc world_step w w' →
  ∃ ti, Tenant.tenants (w_shm w') !! Z.to_nat tid = Some ti ∧
    u32 (Tenant.qp_count (Tenant.usage ti)) = total (w_procs w') ∧
    total (w_procs w') ≤ Tenant.max_qp_per_tenant (Tenant.quota ti).
Proof using Hq.
  intros Hg Hsteps. revert a Hg.
  induction Hsteps as [w|w w1 w2 Hst _ IH]; intros a Hg; cycle 1.
  { destruct (group_step a w w1 Hst Hg) as [a' Hg']. by apply (IH a'). }
  destruct Hg as [_ Hs (v & Hv & Hu & Hle & _)]. unfold active in Hv.
  destruct (live a tid) as [v'|] eqn:Hl; [|done]. cbn in Hv.
  destruct (is_active v'); [|done]. injection Hv as ->.
  destruct (decide (0 ≤ tid < Tenant.MAX_TENANTS)) as [Hin|Hout];
    [|by rw (ref_out _ _ Hs _ Hout) in Hl].
  rw (ref_live _ _ Hs _ Hin) in Hl. destruct (_ !! _) as [ti|]; [|done]. cbn in Hl.
  exists ti. case_decide; [done|]. injection Hl as <-. by split.
Qed.
End Group.
End Ops.

(** ** Examples *)

(** The state of the store after calls on it. *)
Definition spec_store (cs : list TenantProps.call) (a : store) : store :=
  foldl (λ a c, snd (spec c a)) a cs.

Lemma store_run cs a s :
  Forall TenantSpec.real cs → TenantProps.ready s → refines a (Tenant.shm s) →
  ∃ xs s', code_run cs s = Ret xs s' ∧ TenantProps.ready s' ∧ refines (spec_store cs a) (Tenant.shm s').
Proof.
  intros Hcs. revert a s. induction Hcs as [|c cs Hc _ IH]; intros a s Hr Ha; [by exists [], s|].
  destruct (call_answers a s Hr Ha c Hc) as (s' & Hrun & Hr' & Ha').
  destruct (IH _ s' Hr' Ha') as (xs & s2 & Hrun2 & Hr2 & Ha2).
  exists ((spec c a).1 :: xs), s2. cbn [code_run spec_store foldl].
  by rw (bind_Ret _ _ _ _ _ Hrun) (bind_Ret _ _ _ _ _ Hrun2).
Qed.

Definition example_quota : Tenant.tenant_quota_t := Tenant.mk_quota 2 10 100 10 10.

(** Tenant 3 with processes 100 and 101; and the same tenant suspended. *)
Definition example_setup : list TenantProps.call :=
  [Create 3 None (Some example_quota); Bind 100 3; Bind 101 3].
Definition suspended_setup : list TenantProps.call :=
  example_setup ++ [SetStatus 3 Tenant.TENANT_STATUS_SUSPENDED].

Definition example_tenant (cs : list TenantProps.call) : Tenant.state :=
  after (TenantProps.fresh (λ _, 7)) (code_run cs (TenantProps.fresh (λ _, 7))).

Definition example (cs : list TenantProps.call) (n : Z) : thooks unit nat :=
  mk_thooks (example_hooks n) (example_tenant cs) true.

#[local] Opaque example_tenant.

Lemma example_tok cs n :
  Forall TenantSpec.real cs → 0 < n → tok (spec_store cs empty_store) (example cs n).
Proof.
  intros Hcs Hn.
  destruct (store_run cs empty_store (TenantProps.fresh (λ _, 7)) Hcs (TenantProps.fresh_ready _)
    fresh_refines) as (xs & s' & Hrun & Hr & Ha).
  assert (He : example_tenant cs = s') by (with_strategy transparent [example_tenant] (unfold example_tenant; by rw Hrun)).
  split; cbn; rw ?He; try done; [|by intros _; apply Shm.shm_fresh_ready|apply (ready_ptr _ Hr)].
  split; try done. destruct logging_process_ok. by split.
Qed.

Lemma example_live cs n : live_hooks (example cs n).
Proof. by split. Qed.

Lemma example_setup_real : Forall TenantSpec.real example_setup.
Proof. repeat constructor; cbn; lia. Qed.

Definition example_world : @world unit nat :=
  mk_world (Tenant.shm (example_tenant example_setup)) [example example_setup 100; example example_setup 101].

Lemma load_example cs n : load (Tenant.shm (example_tenant cs)) (example cs n) = example cs n.
Proof. unfold load, example. cbn. by destruct (example_tenant cs). Qed.

Lemma example_group : group Z.of_nat 3 (spec_store example_setup empty_store) example_world.
Proof.
  split.
  - intros [|[|i]] t; cbn [example_world w_procs w_shm lookup list_lookup]; [| |done];
      intros [= <-]; rw load_example; (split_and!; [apply example_tok; [apply example_setup_real|done]
        |apply example_live|done|vm_compute; reflexivity]).
  - pose proof (tk_store _ _ (example_tok example_setup 100 example_setup_real eq_refl)) as Hs.
    cbn [example tshm] in Hs. cbn [example_world w_shm]. exact Hs.
  - eexists. split_and!; [vm_compute; reflexivity|reflexivity|discriminate|done].
Qed.

Lemma example_others n attr : others_allow (example_hooks n) attr = true.
Proof.
  unfold others_allow, process_usage, global_usage.
  replace (Shm.table (Shm.shm (pshm (example_hooks n)))) with (∅ : gmap Z Shm.resource_usage_t)
    by (symmetry; apply Shm.table_data_zero).
  rw lookup_empty. cbn. unfold type_denied. cbn.
  by destruct (attr_qp_type attr =? IBV_QPT_RC), (attr_qp_type attr =? IBV_QPT_UC),
    (attr_qp_type attr =? IBV_QPT_UD).
Qed.

Lemma example_allowed n attr :
  qp_within (spec_store example_setup empty_store)
    (tenant_of (spec_store example_setup empty_store) (example example_setup n)) = true →
  qp_allowed (spec_store example_setup empty_store) (example example_setup n) attr = true.
Proof.
  intros Hin. pose proof (example_others n attr) as Ho. unfold qp_allowed, others_allow in *.
  rw Hin andb_true_r. exact Ho.
Qed.

(** Process 100 creates one QP. *)
Lemma example_step :
  ∃ w', world_step toy example_world w' ∧ total Z.of_nat (w_procs w') = 1.
Proof.
  destruct (create_qp_run toy (spec_store example_setup empty_store) (example example_setup 100) 1
    (mk_attr IBV_QPT_RC 16 16)) as (t' & Hrun & _ & _ & Hd & _);
    [apply example_tok; [apply example_setup_real|done]|done..|].
  rw example_allowed in Hd; [vm_compute; reflexivity|].
  eexists. split.
  - eapply (step_hook toy example_world 0 _ (OCreateQp 1 (mk_attr IBV_QPT_RC 16 16))); [done|].
    rw load_example. exact Hrun.
  - cbn [w_procs example_world total list_insert insert]. rw Hd. done.
Qed.

Lemma tenant_qp_quota_holds_witness :
  ∃ w' ti, rtc (world_step toy) example_world w' ∧
    Tenant.tenants (w_shm w') !! 3%nat = Some ti ∧
    u32 (Tenant.qp_count (Tenant.usage ti)) = 1 ∧ total Z.of_nat (w_procs w') = 1.
Proof.
  destruct example_step as (w' & Hst & Ht).
  destruct (tenant_qp_quota_holds toy Z.of_nat toy_counts 3 _ _ w' example_group (rtc_once _ _ Hst))
    as (ti & Hl & Hu & _).
  exists w', ti. split_and!; [by apply rtc_once|exact Hl|congruence|exact Ht].
Defined.

Lemma tenant_hooks_always_return_witness :
  ∃ rs t', run_ops toy [OAllocPd 9; ORegMr 1 0 64 7; ODestroyQp 5] (example example_setup 100) = Ret rs t' ∧
    length rs = 3%nat.
Proof.
  destruct (tenant_hooks_always_return toy _ (example example_setup 100)
    [OAllocPd 9; ORegMr 1 0 64 7; ODestroyQp 5]
    (example_tok example_setup 100 example_setup_real eq_refl) (example_live _ _))
    as (rs & t' & H & Hl & _).
  exists rs, t'. exact (conj H Hl).
Defined.

Lemma suspended_setup_real : Forall TenantSpec.real suspended_setup.
Proof. repeat constructor; cbn; lia. Qed.

Lemma suspended_tenant_unmetered_witness :
  ∃ rs t', run_ops toy (replicate 5 (OCreateQp 1 (mk_attr IBV_QPT_RC 16 16)))
      (example suspended_setup 100) = Ret rs t' ∧
    tok (spec_store suspended_setup empty_store) t'.
Proof.
  destruct (suspended_tenant_unmetered toy (spec_store suspended_setup empty_store)
    (example suspended_setup 100)
    (mk_view "unnamed" Tenant.TENANT_STATUS_SUSPENDED example_quota Tenant.usage_zero)
    (replicate 5 (OCreateQp 1 (mk_attr IBV_QPT_RC 16 16))))
    as (rs & t' & H & Ht & _).
  - apply example_tok; [apply suspended_setup_real|reflexivity].
  - apply example_live.
  - vm_compute. reflexivity.
  - reflexivity.
  - vm_compute. reflexivity.
  - exists rs, t'. exact (conj H Ht).
Defined.

(** The quota is of 100 bytes: after two registrations of 60 a third one is judged by the
    count alone, and one of 101 is refused. *)
Lemma memory_quota_never_accumulates_witness :
  let os := [ORegMr 1 0 60 7; ORegMr 1 0 60 7] in
  let t := example example_setup 100 in
  (∃ rs t' v' r t'', run_ops toy os t = Ret rs t' ∧ Tenant.memory_used (v_usage v') = 0 ∧
     ibv_reg_mr toy 1 0 60 7 t' = Ret r t'' ∧
     if u32 (Tenant.mr_count (v_usage v')) <? 10 then r = 4096 else r = 0) ∧
  (∃ rs t' t'', run_ops toy os t = Ret rs t' ∧
     ibv_reg_mr toy 1 0 101 7 t' = Ret 0 t'' ∧ errno (hproc (base t'')) = EPERM).
Proof.
  intros os t. set (v := mk_view "unnamed" Tenant.TENANT_STATUS_ACTIVE example_quota Tenant.usage_zero).
  assert (Hok : tok (spec_store example_setup empty_store) t)
    by (apply example_tok; [apply example_setup_real|reflexivity]).
  split.
  - destruct (memory_quota_never_accumulates toy (spec_store example_setup empty_store) t v os 1 0 60 7)
      as (rs & t' & a' & v' & r & t'' & H & _ & _ & _ & Hm & Hreg & Hr);
      [exact Hok|apply example_live|by vm_compute|by vm_compute|].
    exists rs, t', v', r, t''. split_and!; [exact H|exact Hm|exact Hreg|].
    cbn in Hr. destruct (_ <? 10); exact (proj1 Hr).
  - destruct (memory_quota_never_accumulates toy (spec_store example_setup empty_store) t v os 1 0 101 7)
      as (rs & t' & a' & v' & r & t'' & H & _ & _ & _ & _ & Hreg & Hr);
      [exact Hok|apply example_live|by vm_compute|by vm_compute|].
    destruct Hr as (Hr & He & _). subst r. exists rs, t', t''. exact (conj H (conj Hreg He)).
Defined.

(** Tenants 3 and 4 with one process each. *)
Definition pair_setup : list TenantProps.call :=
  [Create 3 None (Some example_quota); Create 4 None (Some example_quota); Bind 100 3; Bind 101 4].

Lemma pair_real : Forall TenantSpec.real pair_setup.
Proof. repeat constructor; cbn; lia. Qed.

Definition pair_store : store := spec_store pair_setup empty_store.

End TenantQuota.
