(* ===== verification/Startup.v ===== *)
(** * The start-up of a process under the interceptor

    What the first hook a process calls does before anything else
    ([init_function_pointers] of [src/rdma_hooks_tenant.c]): the library is initialised,
    libibverbs is looked up, the monitor and the shared objects are mapped, the collector
    is asked for its figures, and the process is bound to the tenant of its environment.
    The theorems about the hooks begin where this ends: here it is shown that it gets
    there, and which failures leave a process that is let through unmetered. *)

From S2P Require Import Prelude CString CFloat Intercept Config Core CollectorServer CollectorClient LocalPolicy.
From S2P Require Import SlotTable ShmProcess ShmTenant TenantProps TenantSpec HookBase HooksTenant.
From S2P Require Import HooksTenantProps TenantQuota.

Module Startup.
Import TenantProps TenantSpec.
Import Intercept Core CollectorClient LocalPolicy HookBase HooksTenant HooksTenantProps TenantQuota.
#[local] Existing Instances Tenant.expand_usage Tenant.expand_info Tenant.expand_shm Tenant.expand_state Shm.expand_state.

(** ** The collector at start-up *)

(** The client can read an answer: the line of the limit, if there is one, has a
    number. *)
Definition readable (r : reply) : Prop :=
  match r with
  | Reply b => ∀ l, strstr "Max QP:" (String.substring 0 1023 b) = Some l →
                    is_Some (sscanf_u "Max QP:" l)
  | _ => True
  end.

(** What the library needs of the other end of the socket, in the states [sane]. *)
Class Collector {Srv} (exchange : string → Srv → reply * Srv) (sane : Srv → Prop) : Prop :=
  answers_stats s :
    sane s → readable (fst (exchange "GET_STATS" s)) ∧ sane (snd (exchange "GET_STATS" s)).

(** Nobody answers. *)
#[export] Instance absent_collector {Srv} : Collector (λ _ (s : Srv), (NoConnect, s)) (λ _, True).
Proof. by intros s _. Qed.

(** The collector server of the repository answers. *)
#[export] Instance serving_collector : Collector connect wide.
Proof.
  intros s Hw. pose proof (wide_sync _ Hw) as Hw'. split; [|exact Hw'].
  intros l Hl. destruct (read_stats _ Hw') as [_ (l' & Hl' & Hs)].
  change (strstr "Max QP:" (String.substring 0 1023
    (CollectorServer.stats_response (CollectorServer.sync_ebpf_data s))) = Some l) in Hl.
  rw substring_all in Hl; [apply (stats_fits _ Hw')|]. rw Hl' in Hl. injection Hl as <-. by rw Hs.
Qed.

Section Policy.
Context {Srv : Type} (exchange : string → Srv → reply * Srv) (sane : Srv → Prop).
Context `{Hcoll : !Collector exchange sane}.

(** What talking to the collector leaves alone. *)
Record calm (c0 c : client Srv) : Prop := {
  ca_ok : client_ok c;
  ca_g : g (proc c) = g (proc c0);
  ca_sys : sys (proc c) = sys (proc c0);
  ca_sane : sane (srv c);
}.

Lemma calm_statics c0 c m n :
  calm c0 c → calm c0 (c <| global_qp_count := m |> <| max_global_qp := n |>).
Proof. intros []. by split. Qed.

Lemma wp_clog c0 level msg (Q : unit → client Srv → Prop) c :
  calm c0 c → (∀ c', calm c0 c' → Q tt c') → wp (log level msg) Q c.
Proof.
  intros [Hok Hg Hs Hsane] HQ. destruct (log_client c level msg Hok) as (c' & Hrun & Hok' & Hg' & Hs' & _ & _ & Hsrv).
  eapply wp_eq; [exact Hrun|]. apply HQ. split; [done|by rw Hg'|by rw Hs'|by rw Hsrv].
Qed.

Lemma wp_ask_stats c0 (Q : option string → client Srv → Prop) c :
  calm c0 c →
  (∀ r c', calm c0 c' →
     (∀ b l, r = Some b → strstr "Max QP:" b = Some l → is_Some (sscanf_u "Max QP:" l)) → Q r c') →
  wp (ask exchange "GET_STATS" 1024) Q c.
Proof using Hcoll.
  intros [Hok Hg Hs Hsane] HQ. unfold ask. apply wp_get.
  destruct (answers_stats (srv c) Hsane) as [Hr Hsane'].
  destruct (exchange "GET_STATS" (srv c)) as [r s']. cbn [fst snd] in *.
  apply wp_bind, wp_modify.
  assert (Hc : calm c0 (c <| srv := s' |>)) by by split.
  destruct r; try (apply wp_bind, (wp_clog c0); [exact Hc|]; intros c' Hc'; by apply wp_ret, HQ).
  apply wp_ret, HQ; [exact Hc|]. intros b l [= <-] Hl. by apply Hr.
Qed.

(** Whatever the figures are, asking for them returns. *)
Lemma wp_stats c0 (Q : Z → client Srv → Prop) c :
  calm c0 c → (∀ r c', calm c0 c' → Q r c') → wp (get_global_qp_stats exchange) Q c.
Proof using Hcoll.
  intros Hc HQ. unfold get_global_qp_stats. apply wp_bind, (wp_ask_stats c0); [exact Hc|].
  intros [buffer|] c1 Hc1 Hread; [|by apply wp_ret, HQ].
  apply wp_bind. eapply (wp_mono _ (λ _ c', calm c0 c')).
  - intros ? c2 Hc2. apply wp_bind. eapply (wp_mono _ (λ _ c', calm c0 c')); [intros ? c3 Hc3; by apply wp_ret, HQ|].
    destruct (strstr "Max QP:" buffer) as [line|] eqn:Hl; [|by apply wp_ret].
    destruct (Hread buffer line eq_refl Hl) as [n ->]. apply wp_if; intros _; [|by apply wp_ret].
    apply wp_bind, wp_modify, (wp_clog c0); [|done]. destruct Hc2. by split.
  - destruct (strstr "Total QP:" buffer) as [line|]; [|by apply wp_ret].
    apply wp_bind. eapply (wp_mono _ (λ _ c', calm c0 c')).
    + intros ? c2 Hc2. by apply wp_get, (wp_clog c0).
    + destruct (sscanf_u "Total QP:" line); [apply wp_modify|by apply wp_ret]. destruct Hc1. by split.
Qed.

Lemma wp_reading c0 (f : client Srv → Z) warning (Q : Z → client Srv → Prop) c :
  calm c0 c → (∀ r c', calm c0 c' → Q r c') →
  wp (r ← get_global_qp_stats exchange;
      (if r <? 0 then log LOG_LEVEL_WARN warning else mret tt);;
      gets f) Q c.
Proof using Hcoll.
  intros Hc HQ. apply wp_bind, (wp_stats c0); [exact Hc|]. intros r c1 Hc1.
  apply wp_bind, wp_if; intros _; [apply (wp_clog c0); [exact Hc1|]; intros c2 Hc2|apply wp_ret];
    eexists _, _; (split; [reflexivity|]); by apply HQ.
Qed.

(** ** The local policy *)

Definition calm_policy (s0 s : policy Srv) : Prop := calm (cl s0) (cl s).

Lemma wp_cl {A} (m : M (client Srv) A) (Q : A → policy Srv → Prop) s :
  wp m (λ a c, Q a (s <| cl := c |>)) (cl s) → wp (zoom cl m) Q s.
Proof. intros (a & c & Hrun & HQ). exists a, (s <| cl := c |>). split; [|exact HQ]. by apply zoom_cl. Qed.

Lemma wp_plog s0 level msg (Q : unit → policy Srv → Prop) s :
  calm_policy s0 s → (∀ s', calm_policy s0 s' → Q tt s') → wp (plog level msg) Q s.
Proof. intros Hs HQ. apply wp_cl, (wp_clog (cl s0)); [exact Hs|]. intros c Hc. by apply HQ. Qed.

Lemma wp_adjust s0 (Q : unit → policy Srv → Prop) s :
  calm_policy s0 s → (∀ s', calm_policy s0 s' → Q tt s') → wp (adjust_local_qp_limit exchange) Q s.
Proof using Hcoll.
  intros Hs HQ. unfold adjust_local_qp_limit. apply wp_bind. eexists _, _. split; [reflexivity|].
  apply wp_get. set (s1 := s <| clock := _ |>). assert (Hs1 : calm_policy s0 s1) by exact Hs.
  clearbody s1. apply wp_if; intros _; [by apply wp_ret, HQ|].
  apply wp_bind, wp_modify, wp_bind, wp_cl.
  eapply (wp_reading (cl s0)); [exact Hs1|]. intros n1 c2 Hc2.
  apply wp_bind, wp_cl, (wp_reading (cl s0)); [exact Hc2|]. intros n2 c3 Hc3.
  apply wp_bind, wp_modify, wp_get, wp_bind.
  eapply (wp_mono _ (λ _ s', calm_policy s0 s')).
  - intros ? s2 Hs2. apply wp_get. by apply (wp_plog s0).
  - by destruct (sys_getenv _ _); [apply wp_modify|apply wp_ret].
Qed.

Lemma policy_starts s :
  client_ok (cl s) → sane (srv (cl s)) →
  ∃ s', init_dynamic_policy exchange s = Ret tt s' ∧ calm_policy s s'.
Proof using Hcoll.
  intros Hok Hsane.
  destruct (wp_plog s LOG_LEVEL_INFO "initialising the dynamic QP policy"
    (λ _, wp (adjust_local_qp_limit exchange) (λ _, calm_policy s)) s) as (u & s1 & H1 & u' & s' & H2 & Hs').
  { by split. }
  { intros s' Hs'. by apply (wp_adjust s). }
  exists s'. destruct u, u'. split; [|exact Hs']. unfold init_dynamic_policy. by rw (bind_Ret _ _ _ _ _ H1).
Qed.
End Policy.

(** ** Starting a process *)

(** What is relied on of the monitor: it leaves the process shared memory unmapped or in
    order. *)
Class Monitor {Srv D} (x : externals Srv D) : Prop :=
  monitor_sound m :
    (Shm.shm_data_ptr m = true → Shm.ready m) →
    Shm.shm_data_ptr (snd (x_ebpf_monitor_init x m)) = true → Shm.ready (snd (x_ebpf_monitor_init x m)).

Section Start.
Context {Srv D : Type} (x : externals Srv D) (sane : Srv → Prop).
Context `{Hcoll : !Collector (x_exchange x) sane} `{Hmon : !Monitor x}.
Implicit Types (t : thooks Srv D) (a : store).

Definition os_of t : system := sys (hproc (base t)).

(** A process that has not called a hook yet. *)
Record unstarted t : Prop := {
  un_once : hooks_init_once (base t) = false;
  un_ok : hooks_ok (base t);
  un_init : initialized (hg (base t)) = false;
  un_shm : shm_usable (base t);
  un_pid : 0 < pid (base t);
  un_srv : sane (srv (cl (pol (base t))));
}.

(** Libibverbs is there, with all the functions the hooks call. *)
Definition verbs_found (y : system) : Prop :=
  sys_dlopen y = true ∧ ∀ f, f ∈ needed_names → sys_dlsym y f = true.

(** The tenant shared object [m] holds the store [a], nobody has its lock, and the process
    can map it.  A process that finds the version of the object 0 clears it. *)
Record tenant_object a t : Prop := {
  ob_unmapped : Tenant.g_tenant_shm (tshm t) = false;
  ob_open : 0 ≤ Tenant.os_shm_open (Tenant.os (tshm t));
  ob_truncate : 0 ≤ Tenant.os_ftruncate (Tenant.os (tshm t));
  ob_mmap : Tenant.os_mmap (Tenant.os (tshm t)) = true;
  ob_lock : Tenant.lock (Tenant.shm (tshm t)) = 0;
  ob_shm : shm_ok (Tenant.shm (tshm t));
  ob_store : refines a (Tenant.shm (tshm t));
  ob_version : Tenant.version (Tenant.shm (tshm t)) ≠ 0 ∨ a = empty_store;
}.

(** The call the environment asks for. *)
Definition binding t : option TenantProps.call :=
  v ← sys_getenv (os_of t) "RDMA_TENANT_ID";
  if 0 <? u32 (atoi v) then Some (Bind (pid (base t)) (u32 (atoi v))) else None.

Definition bound a t : store := match binding t with Some c => snd (spec c a) | None => a end.

(** The object is mapped. *)
Lemma tenant_maps a t :
  tenant_object a t →
  ∃ s', Tenant.tenant_shm_init (tshm t) = Ret 0 s' ∧ ready s' ∧ refines a (Tenant.shm s').
Proof.
  intros [Hun Ho Hf Hm Hl Hok Ha Hv]. unfold Tenant.tenant_shm_init. run. rw Hun. cbn.
  rw (proj2 (Z.ltb_ge _ _) Ho) (proj2 (Z.ltb_ge _ _) Hf) Hm. cbn.
  destruct (_ && _) eqn:E; cbn; [|by eexists].
  apply andb_prop in E as [_ E%Z.eqb_eq]. destruct Hv as [Hv| ->]; [done|].
  eexists. split_and!; [reflexivity|split; [done..|]|]; cbn.
  - eapply (shm_ok_same Tenant.shm_zero); [by split|apply (ready_shm _ (fresh_ready (λ _, 0)))].
  - eapply (refines_same _ Tenant.shm_zero); [by split|apply fresh_refines].
Qed.
(** What initialising the library, or failing to, leaves alone. *)
Record begun (p p1 : process) : Prop := {
  bg_log : log_ok p1;
  bg_sys : sys p1 = sys p;
  bg_mutex : resource_mutex (g p1) = resource_mutex (g p);
  bg_qps : qp_count (g p1) = qp_count (g p);
  bg_mrs : mr_count (g p1) = mr_count (g p);
  bg_memory : memory_used (g p1) = memory_used (g p);
}.

Definition with_proc (p : process) (h : hooks Srv D) : hooks Srv D :=
  h <| pol ::= λ q, q <| cl ::= λ c, c <| proc := p |> |> |>.

(** The pointers and the shared objects: everything but the binding. *)
Definition started a t p1 t' : Prop :=
  tok a (t' <| base ::= λ h, h <| hooks_init_once := true |> |>) ∧
  hg (base t') = g p1 ∧ os_of t' = os_of t ∧ drv (base t') = drv (base t) ∧ pid (base t') = pid (base t) ∧
  pshm (base t') = snd (x_ebpf_monitor_init x (pshm (base t))) ∧
  (∀ f, real (base t') f = bool_decide (f ∈ hook_names) && sys_dlsym (os_of t) f).

Lemma pointers_run a t p1 :
  unstarted t → tenant_object a t → verbs_found (os_of t) →
  init_if_needed (hproc (base t)) = Ret tt p1 → begun (hproc (base t)) p1 →
  ∃ t', init_function_pointers x t = bind_from_env t' ∧ started a t p1 t'.
Proof using Hcoll Hmon.
  intros [_ [_ Hmut Hqp Hmr Hmem] _ Hshm Hpid Hsrv] Hob [Hopen Hsym] Hinit [Hlog Hsys Hm Hq1 Hq2 Hq3].
  set (t1 := t <| base := with_proc p1 (base t) |>).
  assert (H1 : zbase (zproc init_if_needed) t = Ret tt t1) by (unfold zbase, zproc, zoom; fold (hproc (base t)); by rw Hinit).
  set (t2 := t1 <| base ::= λ h, h <| real := λ f, bool_decide (f ∈ hook_names) && sys_dlsym (sys (hproc h)) f |> |>).
  set (m := snd (x_ebpf_monitor_init x (pshm (base t)))).
  set (t3 := t2 <| base ::= λ h, h <| pshm := m |>
                 <| ebpf_initialized := fst (x_ebpf_monitor_init x (pshm (base t))) =? 0 |> |>).
  assert (H3 : zbase (init_ebpf x) t2 = Ret tt t3).
  { unfold zbase, init_ebpf, zoom, t3, m. run. cbn. by destruct (x_ebpf_monitor_init _ _). }
  destruct (tenant_maps a t Hob) as (s4 & Hrun4 & Hr4 & Ha4).
  set (t4 := t3 <| tshm := s4 |>).
  assert (H4 : ztenant Tenant.tenant_shm_init t3 = Ret 0 t4) by (unfold ztenant, zoom; cbn; by rw Hrun4).
  set (t5 := t4 <| tenant_initialized := true |>).
  destruct (policy_starts (x_exchange x) sane (pol (base t5))) as (q & Hrun6 & [Hok6 Hg6 Hs6 _]); [done..|].
  set (t6 := t5 <| base ::= λ h, h <| pol := q |> |>).
  assert (H6 : zbase (zoom pol (init_dynamic_policy (x_exchange x))) t5 = Ret tt t6).
  { unfold zbase, zoom. by rw Hrun6. }
  exists t6. split.
  - unfold init_function_pointers. rw (bind_Ret _ _ _ _ _ H1).
    rw (bind_Ret _ _ t1 t1 t1); [done|]. cbn [base t1 update].
    change (sys (hproc (with_proc p1 (base t)))) with (sys p1). rw Hsys Hopen. cbn [negb].
    rw (bind_Ret _ _ t1 tt t2); [done|]. rw (bind_Ret _ _ _ _ _ H3) (bind_Ret _ _ _ _ _ H4).
    rw (bind_Ret _ _ t4 tt t5); [done|]. by rw (bind_Ret _ _ _ _ _ H6).
  - split_and!; try done.
    + split; try done; [|exact (monitor_sound (x := x) _ Hshm)|apply (ready_ptr _ Hr4)].
      split; [exact Hok6|..]; unfold hg, hproc; cbn; cbn in Hg6; rw Hg6.
      * by rw Hm.
      * by rw Hq1.
      * by rw Hq2.
      * by rw Hq3.
    + unfold os_of, hproc. cbn. cbn in Hs6. by rw Hs6 Hsys.
    + intros f. cbn. by rw Hsys.
Qed.

(** The first hook prepares the process, and binds it as the environment says. *)
Lemma once_run a t p1 :
  unstarted t → tenant_object a t → verbs_found (os_of t) →
  init_if_needed (hproc (base t)) = Ret tt p1 → begun (hproc (base t)) p1 →
  ∃ t', once x t = Ret tt t' ∧ tok (bound a t) t' ∧
    hg (base t') = g p1 ∧ drv (base t') = drv (base t) ∧ pid (base t') = pid (base t) ∧
    pshm (base t') = snd (x_ebpf_monitor_init x (pshm (base t))) ∧
    (∀ f, real (base t') f = bool_decide (f ∈ hook_names) && sys_dlsym (os_of t) f).
Proof using Hcoll Hmon.
  intros Hun Hob Hverbs Hinit Hbegun.
  destruct (pointers_run a t p1 Hun Hob Hverbs Hinit Hbegun) as (t1 & Hrun & Hok & Hg & Hos & Hd & Hp & Hs & Hr).
  assert (∃ s', bind_from_env t1 = Ret tt (t1 <| tshm := s' |>) ∧ ready s' ∧
    refines (bound a t) (Tenant.shm s')) as (s' & Hbind & Hr' & Ha').
  { pose proof (tk_ready _ _ Hok) as Hready. pose proof (tk_store _ _ Hok) as Hstore. cbn in Hready, Hstore.
    unfold bind_from_env, bound, binding. rw (bind_Ret _ _ t1 t1 t1); [done|]. fold (os_of t1). rw Hos.
    assert (Hsame : Ret tt t1 = Ret tt (t1 <| tshm := tshm t1 |>)) by by destruct t1.
    destruct (sys_getenv (os_of t) "RDMA_TENANT_ID") as [v|]; cbn; [|by exists (tshm t1)].
    pose proof (tk_init _ _ Hok) as Hti. cbn in Hti. rw Hti.
    destruct (0 <? u32 (atoi v)); [|by exists (tshm t1)].
    destruct (call_answers a (tshm t1) Hready Hstore (Bind (pid (base t)) (u32 (atoi v))))
      as (s' & Hrun' & Hr' & Ha').
    { split; [apply u32_range|]. pose proof (un_pid _ Hun). cbn. lia. }
    exists s'. split_and!; [|done|done]. cbn in Hrun'. apply bind_inv in Hrun' as (r & s1 & Hb & [= _ <-]).
    rw Hp. unfold ztenant, zoom. run. by rw Hb. }
  exists (t1 <| tshm := s' |> <| base ::= λ h, h <| hooks_init_once := true |> |>). split_and!; try done.
  - unfold once. rw (bind_Ret _ _ t t t); [done|]. rw (un_once _ Hun).
    rw (bind_Ret _ _ t tt (t1 <| tshm := s' |>)); [by rw Hrun Hbind|done].
  - destruct Hok. split; try done. apply (ready_ptr _ Hr').
Qed.
(** The environment turns the library on, and its log can be opened. *)
Definition library_on t : Prop :=
  sys_getenv (os_of t) "RDMA_INTERCEPT_ENABLE" = Some "1"%string ∧
  sys_append (os_of t) (log_file_path (boot_config (hproc (base t)))) = true.

(** The environment does not mention the library, or asks for it with a log file that
    cannot be opened. *)
Definition library_off t : Prop :=
  sys_getenv (os_of t) "RDMA_INTERCEPT_ENABLE" ≠ Some "1"%string ∨
  sys_append (os_of t) (log_file_path (boot_config (hproc (base t)))) = false.

Lemma library_starts t :
  unstarted t → verbs_found (os_of t) → library_on t →
  ∃ p1, init_if_needed (hproc (base t)) = Ret tt p1 ∧ begun (hproc (base t)) p1 ∧
    initialized (g p1) = true ∧ gcfg p1 = boot_config (hproc (base t)).
Proof.
  intros Hun [Hopen Hsym] [Henv Happ]. unfold os_of in *.
  destruct (init_ok (hproc (base t)) (hk_log _ (un_ok _ Hun)) (un_init _ Hun)) as (p1 & f & Hrun & Hok & Hs & Hg).
  { unfold resolvable. rw Hopen !Hsym //; by apply is_hook. }
  { done. }
  exists p1. split_and!.
  - unfold init_if_needed. rw (bind_Ret _ _ (hproc (base t)) (hproc (base t)) (hproc (base t))); [done|].
    rw Henv. cbn [String.eqb Ascii.eqb Bool.eqb].
    by rw (bind_Ret _ _ _ _ _ Hrun).
  - by split; rw ?Hg.
  - by rw Hg.
  - unfold gcfg. by rw Hg.
Qed.

Lemma library_stays_off t :
  unstarted t → library_off t →
  ∃ p1, init_if_needed (hproc (base t)) = Ret tt p1 ∧ begun (hproc (base t)) p1 ∧
    initialized (g p1) = false.
Proof.
  intros Hun Hoff. pose proof (hk_log _ (un_ok _ Hun)) as Hok. pose proof (un_init _ Hun) as Hi. unfold os_of in *.
  assert (Hsame : begun (hproc (base t)) (hproc (base t))) by by split.
  unfold init_if_needed. rw (bind_Ret _ _ (hproc (base t)) (hproc (base t)) (hproc (base t))); [done|].
  destruct (sys_getenv _ "RDMA_INTERCEPT_ENABLE") as [v|] eqn:Henv; [|by exists (hproc (base t))].
  destruct (String.eqb_spec v "1") as [->|Hne]; [|by exists (hproc (base t))].
  destruct Hoff as [Hoff|Happ]; [done|].
  destruct (init_no_log _ Hok Hi Happ) as (p1 & Hrun & Hok1 & Hs1 & Hg1 & _).
  rw (bind_Ret _ _ _ _ _ Hrun). cbn [Z.eqb]. eexists. split_and!; [reflexivity| |].
  - split; cbn; rw ?Hg1; try done. by destruct Hok1; split.
  - cbn. by rw Hg1.
Qed.

(** Once it has been run it is not run again: what the process does from its start is what
    it does once prepared. *)
Lemma op_started o t t' :
  once x t = Ret tt t' → hooks_init_once (base t') = true → run_op x o t = run_op x o t'.
Proof.
  intros Hrun Ho. assert (Hagain : once x t' = Ret tt t').
  { unfold once. rw (bind_Ret _ _ t' t' t'); [done|]. by rw Ho. }
  destruct o; cbn [run_op]; unfold ibv_create_qp, ibv_destroy_qp, ibv_reg_mr, ibv_dereg_mr, ibv_create_cq,
    ibv_destroy_cq, ibv_alloc_pd, ibv_dealloc_pd, create_hook, destroy_hook, hooked;
    by rw (bind_Ret _ _ _ _ _ Hrun) (bind_Ret _ _ _ _ _ Hagain).
Qed.

Lemma bound_active a t tid : active (bound a t) tid = active a tid.
Proof.
  unfold bound, binding. destruct (sys_getenv _ _) as [v|]; cbn; [|done]. destruct (0 <? _); [|done].
  cbn. destruct (active a (u32 (atoi v))); [|done]. by destruct (decide _).
Qed.

Lemma first_hook_initialises_at a t :
  unstarted t → tenant_object a t → verbs_found (os_of t) → library_on t →
  ∃ t', once x t = Ret tt t' ∧ tok (bound a t) t' ∧
    hcfg (base t') = boot_config (hproc (base t)) ∧
    (enable_intercept (boot_config (hproc (base t))) = true → live_hooks t') ∧
    qp_count (hg (base t')) = qp_count (hg (base t)) ∧ drv (base t') = drv (base t) ∧
    pid (base t') = pid (base t) ∧ pshm (base t') = snd (x_ebpf_monitor_init x (pshm (base t))) ∧
    (∀ f, real (base t') f = bool_decide (f ∈ hook_names) && sys_dlsym (os_of t) f) ∧
    ∀ o, run_op x o t = run_op x o t'.
Proof using Hcoll Hmon.
  intros Hun Hob Hverbs Hon.
  destruct (library_starts t Hun Hverbs Hon) as (p1 & Hinit & Hbegun & Hi1 & Hc1).
  destruct (once_run a t p1 Hun Hob Hverbs Hinit Hbegun) as (t' & Hrun & Hok & Hg & Hd & Hp & Hs & Hr).
  exists t'. split_and!; try done.
  - unfold hcfg. by rw Hg.
  - intros He. split; [|intros f Hf; rw Hr bool_decide_eq_true_2; [by apply needed_hook|by apply Hverbs]].
    unfold enabled, rdma_intercept_is_enabled, gcfg. fold (hg (base t')).
    unfold gcfg in Hc1. by rw Hg Hi1 Hc1.
  - by rw Hg (bg_qps _ _ Hbegun).
  - intros o. apply op_started; [done|apply Hok].
Qed.

(** C5: the first hook call prepares the process.  With libibverbs and the functions
    the hooks call found, the log opened, the tenant shared object mapped and the collector absent or
    answering, the initialisation returns and leaves the invariant every hook relies
    on: the library runs with the configuration of the file and the environment, its
    pointers are those that were found, nothing is counted yet, and the process belongs to the tenant its environment names if that
    tenant is active and the table of processes has room; the call itself then does what
    it does in a prepared process. *)
Theorem first_hook_initialises a t :
  unstarted t → tenant_object a t → verbs_found (os_of t) → library_on t →
  ∃ t', once x t = Ret tt t' ∧ tok (bound a t) t' ∧
    hcfg (base t') = boot_config (hproc (base t)) ∧
    (enable_intercept (boot_config (hproc (base t))) = true → live_hooks t') ∧
    qp_count (hg (base t')) = qp_count (hg (base t)) ∧ drv (base t') = drv (base t) ∧
    pid (base t') = pid (base t) ∧ pshm (base t') = snd (x_ebpf_monitor_init x (pshm (base t))) ∧
    (∀ f, real (base t') f = bool_decide (f ∈ hook_names) && sys_dlsym (os_of t) f) ∧
    ∀ o, run_op x o t = run_op x o t'.
Proof using Hcoll Hmon. exact (first_hook_initialises_at a t). Qed.

(** ** Processes that are let through *)

(** The verb a hook call stands for. *)
Definition verb_of (o : op) : verb :=
  match o with
  | OCreateQp pd attr => CreateQp pd (Some attr)
  | ODestroyQp qp => DestroyQp qp
  | ORegMr pd addr length access => RegMr pd addr length access
  | ODeregMr mr => DeregMr mr
  | OCreateCq c n cc ch v => CreateCq c n cc ch v
  | ODestroyCq cq => DestroyCq cq
  | OAllocPd c => AllocPd c
  | ODeallocPd pd => DeallocPd pd
  end.

(** What the driver answers by itself. *)
Fixpoint drive (os : list op) (d : D) : list Z * D :=
  match os with
  | [] => ([], d)
  | o :: os' =>
      let r := x_driver x (verb_of o) d in
      let '(rs, d') := drive os' (dstate r) in (ret r :: rs, d')
  end.

Record let_through t : Prop := {
  lt_once : hooks_init_once (base t) = true;
  lt_off : enabled (base t) = false;
  lt_real f : f ∈ needed_names → real (base t) f = true;
}.

Lemma passed_run t o :
  let_through t → ∃ t', run_op x o t = Ret (ret (x_driver x (verb_of o) (drv (base t)))) t' ∧
    drv (base t') = dstate (x_driver x (verb_of o) (drv (base t))) ∧ let_through t' ∧ tshm t' = tshm t.
Proof.
  intros [Ho He Hr]. destruct (call_run x (verb_of o) (base t)) as (h & Hrun & Hq).
  exists (t <| base := h |>). split_and!; [|apply (q_drv _ _ Hq)| |done].
  - assert (Hcall : zbase (call x (verb_of o)) t = Ret (ret (x_driver x (verb_of o) (drv (base t)))) (t <| base := h |>)).
    { unfold zbase, zoom. by rw Hrun. }
    rw -Hcall. destruct o; cbn [run_op verb_of]; unfold ibv_create_qp, ibv_destroy_qp, ibv_reg_mr, ibv_dereg_mr,
      ibv_create_cq, ibv_destroy_cq, ibv_alloc_pd, ibv_dealloc_pd, create_hook, destroy_hook, hooked, once; run;
      rw Ho; cbn; by rw He Hr; [by apply is_hook|].
  - split; [by rw (q_once _ _ Hq)|by rw (quiet_enabled _ _ Hq)|]. intros f Hf. rw (q_real _ _ Hq). by apply Hr.
Qed.

Lemma passed_ops t os :
  let_through t → ∃ t', run_ops x os t = Ret (fst (drive os (drv (base t)))) t' ∧
    drv (base t') = snd (drive os (drv (base t))) ∧ tshm t' = tshm t.
Proof.
  revert t. induction os as [|o os IH]; intros t Ht; [by exists t|].
  destruct (passed_run t o Ht) as (t1 & Hrun1 & Hd1 & Ht1 & Hs1).
  destruct (IH t1 Ht1) as (t2 & Hrun2 & Hd2 & Hs2). exists t2. rw Hd1 in Hrun2, Hd2.
  cbn [run_ops drive]. destruct (drive os _) as [rs d]. cbn [fst snd] in *.
  split_and!; [|done|by rw Hs2]. by rw (bind_Ret _ _ _ _ _ Hrun1) (bind_Ret _ _ _ _ _ Hrun2).
Qed.

(** C11: the library fails open.  A process whose environment does not turn it on, or whose
    log file cannot be opened, is let through: every hook answers what the driver answers
    by itself, also where the quota of its tenant is used up, and nothing it creates is
    counted, although the process has been bound to its tenant. *)
Theorem library_fails_open a t o os :
  unstarted t → tenant_object a t → verbs_found (os_of t) → library_off t →
  ∃ t', run_ops x (o :: os) t = Ret (fst (drive (o :: os) (drv (base t)))) t' ∧
    drv (base t') = snd (drive (o :: os) (drv (base t))) ∧
    refines (bound a t) (Tenant.shm (tshm t')).
Proof using Hcoll Hmon.
  intros Hun Hob Hverbs Hoff.
  destruct (library_stays_off t Hun Hoff) as (p1 & Hinit & Hbegun & Hi1).
  destruct (once_run a t p1 Hun Hob Hverbs Hinit Hbegun) as (t1 & Hrun & Hok & Hg & Hd & _ & _ & Hr).
  assert (Ht1 : let_through t1).
  { split; [apply Hok|unfold enabled, rdma_intercept_is_enabled; fold (hg (base t1)); by rw Hg Hi1|].
    intros f Hf. rw Hr bool_decide_eq_true_2; [by apply needed_hook|by apply Hverbs]. }
  destruct (passed_ops t1 (o :: os) Ht1) as (t' & Hrun' & Hd' & Hs'). exists t'. rw Hd in Hrun', Hd'.
  split_and!; [|done|rw Hs'; apply Hok].
  cbn [run_ops] in *. unfold mbind, M_bind in *. by rw (op_started o t t1 Hrun (tk_once _ _ Hok)).
Qed.
End Start.

(** ** Examples *)

#[export] Instance toy_monitor : Monitor toy.
Proof. intros m Hm. exact Hm. Qed.

#[export] Instance toy_collector : Collector (x_exchange toy) (λ _, True).
Proof. apply absent_collector. Qed.

(** The environment of a process of tenant 3; and of one that does not mention the library. *)
Definition tenant_env (on : bool) (name : string) : option string :=
  if String.eqb name "RDMA_INTERCEPT_ENABLE" then (if on then Some "1" else None)
  else if String.eqb name "RDMA_TENANT_ID" then Some "3"
  else if String.eqb name "RDMA_INTERCEPT_ENABLE_QP_CONTROL" then Some "1" else None.

(** Process [n], before its first hook call; the object has been set up by the calls [cs] of
    others. *)
Definition newborn (on : bool) (cs : list TenantProps.call) (n : Z) : thooks unit nat :=
  mk_thooks
    (hooks_start (policy_start (client_start (start (example_system <| sys_getenv := tenant_env on |>)) tt)
       (λ _, 100)) ((Shm.fresh (λ _, (0, 0))) <| Shm.shm_data_ptr := false |>) 0%nat n)
    ((TenantProps.fresh (λ _, 7)) <| Tenant.g_tenant_shm := false |>
       <| Tenant.shm := Tenant.shm (example_tenant cs) |>) false.

#[local] Opaque example_tenant.

Lemma newborn_unstarted on cs n : 0 < n → unstarted (λ _, True) (newborn on cs n).
Proof. intros Hn. split; try done. by split; [apply start_ok|..]. Qed.

Lemma newborn_object on cs n :
  Forall TenantSpec.real cs → Tenant.version (Tenant.shm (example_tenant cs)) ≠ 0 →
  tenant_object (spec_store cs empty_store) (newborn on cs n).
Proof.
  intros Hcs Hv. pose proof (example_tok cs 1 Hcs eq_refl) as [_ _ _ [_ Hl Hs] Ha _ _ _].
  split; try done. by left.
Qed.

Lemma newborn_verbs on cs n : verbs_found (os_of (newborn on cs n)).
Proof. by split. Qed.

(** Tenant 3, whose quota is two QPs; nobody is bound to it yet. *)
Definition opened_setup : list TenantProps.call := [Create 3 None (Some example_quota)].

Lemma opened_real : Forall TenantSpec.real opened_setup.
Proof. repeat constructor; cbn; lia. Qed.

Lemma opened_version : Tenant.version (Tenant.shm (example_tenant opened_setup)) ≠ 0.
Proof. vm_compute. discriminate. Qed.

Lemma first_hook_initialises_witness :
  ∃ t', once toy (newborn true opened_setup 100) = Ret tt t' ∧
    tok (bound (spec_store opened_setup empty_store) (newborn true opened_setup 100)) t' ∧
    owner (bound (spec_store opened_setup empty_store) (newborn true opened_setup 100)) !! 100 = Some 3.
Proof.
  destruct (first_hook_initialises toy (λ _, True) (spec_store opened_setup empty_store)
    (newborn true opened_setup 100)) as (t' & Hrun & Hok & _).
  - apply newborn_unstarted. reflexivity.
  - apply newborn_object; [apply opened_real|apply opened_version].
  - apply newborn_verbs.
  - split; vm_compute; reflexivity.
  - exists t'. split; [exact Hrun|]. split; [exact Hok|]. vm_compute. reflexivity.
Defined.

(** Three QPs are created although two are allowed. *)
Lemma library_fails_open_witness :
  ∃ t', run_ops toy (replicate 3 (OCreateQp 1 (mk_attr IBV_QPT_RC 16 16))) (newborn false opened_setup 100) =
      Ret [1000; 1001; 1002] t' ∧ drv (base t') = 3%nat.
Proof.
  destruct (library_fails_open toy (λ _, True) (spec_store opened_setup empty_store)
    (newborn false opened_setup 100) (OCreateQp 1 (mk_attr IBV_QPT_RC 16 16))
    (replicate 2 (OCreateQp 1 (mk_attr IBV_QPT_RC 16 16)))) as (t' & Hrun & Hd & _).
  - apply newborn_unstarted. reflexivity.
  - apply newborn_object; [apply opened_real|apply opened_version].
  - apply newborn_verbs.
  - left. vm_compute. discriminate.
  - exists t'. split; [exact Hrun|exact Hd].
Defined.
End Startup.
