(* ===== verification/Lifecycle.v ===== *)
(** * Processes that come and go

    The hooks keep a tenant's quota among processes that run; here processes also start,
    with the first hook they call, and end.  The kernel then takes back what a process
    holds (this is the part of libibverbs and the kernel, not of the repository), but
    nothing tells the tenant shared memory: the library has no exit handler that counts
    down or unbinds.  The quota is kept all the same, and it is used up for good. *)

From S2P Require Import Prelude CString Intercept Config Core CollectorServer CollectorClient LocalPolicy.
From S2P Require Import SlotTable ShmProcess ShmTenant TenantProps TenantSpec HookBase HooksTenant.
From S2P Require Import HooksTenantProps TenantQuota Startup.

Module Lifecycle.
Import TenantProps TenantSpec.
Import Intercept Core CollectorClient LocalPolicy HookBase HooksTenant HooksTenantProps TenantQuota Startup.
#[local] Existing Instances Tenant.expand_usage Tenant.expand_info Tenant.expand_shm Tenant.expand_state.

Section Life.
Context {Srv D : Type} (x : externals Srv D) (sane : Srv → Prop).
Context `{Hcoll : !Collector (x_exchange x) sane} `{Hmon : !Monitor x}.
Context (qps : D → Z) (Hq : counts_qps x qps).
Implicit Types (t p : thooks Srv D) (ps : list (thooks Srv D)) (a : store).

(** ** Worlds *)

(** The tenant shared object, the processes that run, and how many QPs the processes that
    have ended held for each tenant when they did. *)
Record world := mk_world {
  w_shm : Tenant.tenant_shared_memory_t;
  w_procs : list (thooks Srv D);
  w_lost : Z → Z;
}.

Definition pids ps : list Z := (λ p, pid (base p)) <$> ps.

(** The tenant the object has a process bound to. *)
Definition owner_in (m : Tenant.tenant_shared_memory_t) : gmap Z Z :=
  slots_map Tenant.m_pid Tenant.m_tenant_id (Tenant.pid_mappings m).

(** A process about to start, under a library that is on and controls QPs. *)
Record newcomer t : Prop := {
  nc_unstarted : unstarted sane t;
  nc_unmapped : Tenant.g_tenant_shm (tshm t) = false;
  nc_open : 0 ≤ Tenant.os_shm_open (Tenant.os (tshm t));
  nc_truncate : 0 ≤ Tenant.os_ftruncate (Tenant.os (tshm t));
  nc_mmap : Tenant.os_mmap (Tenant.os (tshm t)) = true;
  nc_verbs : verbs_found (os_of t);
  nc_on : library_on t;
  nc_enabled : enable_intercept (boot_config (hproc (base t))) = true;
  nc_control : enable_qp_control (boot_config (hproc (base t))) = true;
  nc_none : qps (drv (base t)) = 0;
}.

(** A process starts, makes a hook call, or ends.  A running process has its pid to itself;
    the version of the object has not come round to 0. *)
Inductive step : world → world → Prop :=
| step_start m ps lost t t' :
    newcomer t → pid (base t) ∉ pids ps → Tenant.version m ≠ 0 →
    once x (load m t) = Ret tt t' →
    step (mk_world m ps lost) (mk_world (Tenant.shm (tshm t')) (t' :: ps) lost)
| step_call m ps1 t ps2 lost o r t' :
    run_op x o (load m t) = Ret r t' →
    step (mk_world m (ps1 ++ t :: ps2) lost) (mk_world (Tenant.shm (tshm t')) (ps1 ++ t' :: ps2) lost)
| step_exit m ps1 t ps2 lost :
    step (mk_world m (ps1 ++ t :: ps2) lost)
      (mk_world m (ps1 ++ ps2)
         (λ k, if decide (owner_in m !! pid (base t) = Some k) then lost k + qps (drv (base t)) else lost k)).

(** ** The books of a tenant *)

Section Books.
Context (tid limit : Z) (Hlimit : is_u32 limit).

(** The QPs the processes of the tenant hold. *)
Definition share (o : gmap Z Z) p : Z :=
  if decide (o !! pid (base p) = Some tid) then qps (drv (base p)) else 0.
Fixpoint held (o : gmap Z Z) ps : Z :=
  match ps with
  | [] => 0
  | p :: ps' => share o p + held o ps'
  end.

Lemma share_nonneg o p : 0 ≤ share o p.
Proof using Hq. unfold share. destruct (decide _); [apply (qps_nonneg _ _ Hq)|done]. Qed.

Lemma held_nonneg o ps : 0 ≤ held o ps.
Proof using Hq. induction ps as [|p ps IH]; cbn; [done|]. pose proof (share_nonneg o p). lia. Qed.

Lemma held_app o ps1 ps2 : held o (ps1 ++ ps2) = held o ps1 + held o ps2.
Proof. induction ps1 as [|p ps IH]; cbn; [done|]. rw IH. lia. Qed.

(** A binding of another pid is of no account. *)
Lemma held_insert o n k ps : n ∉ pids ps → held (<[n := k]> o) ps = held o ps.
Proof.
  induction ps as [|p ps IH]; cbn; [done|]. intros [Hne Hn]%not_elem_of_cons. rw IH //.
  unfold share. by rw lookup_insert_ne.
Qed.

(** A process is sound in the world. *)
Definition sound a m p : Prop :=
  tok a (load m p) ∧ live_hooks p ∧ enable_qp_control (hcfg (base p)) = true.

(** The recorded count of the active tenant, whose quota is [limit], is what its processes
    hold and what those that ended held. *)
Record books a (w : world) : Prop := {
  bk_procs : Forall (sound a (w_shm w)) (w_procs w);
  bk_pids : NoDup (pids (w_procs w));
  bk_lock : Tenant.lock (w_shm w) = 0;
  bk_shm : shm_ok (w_shm w);
  bk_store : refines a (w_shm w);
  bk_lost : 0 ≤ w_lost w tid;
  bk_tenant : tid ≠ 0 ∧ ∃ v, active a tid = Some v ∧ Tenant.max_qp_per_tenant (v_quota v) = limit ∧
    qps_used v = held (owner a) (w_procs w) + w_lost w tid;
  bk_within : held (owner a) (w_procs w) + w_lost w tid ≤ limit;
}.

Lemma sound_other a m a' t' p : tok a' t' → sound a m p → sound a' (Tenant.shm (tshm t')) p.
Proof. intros Hok' (Hok & Hl & Hc). split_and!; [by eapply tok_other|done..]. Qed.

Lemma load_newcomer t : load (Tenant.shm (tshm t)) t = t.
Proof. destruct t as [b s i]. unfold load. cbn. by destruct s. Qed.

(** Starting a process. *)
Lemma books_start a m ps lost t t' :
  books a (mk_world m ps lost) → newcomer t → pid (base t) ∉ pids ps → Tenant.version m ≠ 0 →
  once x (load m t) = Ret tt t' →
  books (bound a t) (mk_world (Tenant.shm (tshm t')) (t' :: ps) lost).
Proof using Hcoll Hmon Hq.
  intros [Hps Hnd Hlk Hok Ha Hlost (H0 & v & Hv & Hlim & Hu) Hle] [] Hfresh Hver Hrun. cbn in *.
  destruct (first_hook_initialises_at x sane a (load m t)) as
    (t1 & Hrun1 & Hok1 & Hc1 & Hl1 & _ & Hd1 & Hp1 & _).
  { by destruct nc_unstarted0. }
  { split; try done. by left. }
  { done. }
  { done. }
  rw Hrun in Hrun1. injection Hrun1 as <-. change (bound a (load m t)) with (bound a t) in Hok1.
  change (base (load m t)) with (base t) in *.
  destruct (tk_ready _ _ Hok1) as [_ Hlk1 Hs1].
  assert (Hheld : held (owner (bound a t)) (t' :: ps) = held (owner a) ps).
  { cbn. assert (share (owner (bound a t)) t' = 0) as ->.
    { unfold share. destruct (decide _); [|done]. by rw Hd1. }
    rw Z.add_0_l. unfold bound, binding.
    destruct (sys_getenv _ _) as [s|]; cbn; [|done]. destruct (0 <? _); [|done].
    cbn [spec]. destruct (active a (u32 (atoi s))); [|done].
    match goal with |- context [decide ?P] => destruct (decide P) end; [done|]. by apply held_insert. }
  split; cbn; try done.
  - constructor.
    + rw /sound load_newcomer Hc1. split_and!; [done|by apply Hl1|done].
    + eapply Forall_impl; [exact Hps|]. intros p. by apply sound_other.
  - rw Hp1. by constructor.
  - apply (tk_store _ _ Hok1).
  - split; [done|]. exists v. rw bound_active. change (share _ t' + held _ ps) with (held (owner (bound a t)) (t' :: ps)).
    by rw Hheld.
  - change (share _ t' + held _ ps) with (held (owner (bound a t)) (t' :: ps)). by rw Hheld.
Qed.
(** A call for another tenant, or for none, is of no account. *)
Lemma effect_other ctl a k d d' a' :
  effect x ctl a k d d' a' → k ≠ tid → active a' tid = active a tid ∧ owner a' = owner a.
Proof.
  assert (Hc : ∀ rt delta, k ≠ tid → active (counted k rt delta a) tid = active a tid ∧
    owner (counted k rt delta a) = owner a).
  { intros rt delta Hne. unfold counted. destruct (active a k); [|done]. split; [|done].
    unfold active. cbn. by rw decide_False. }
  intros [] Hne; auto.
Qed.

Lemma held_change o ps1 p p' ps2 :
  pid (base p') = pid (base p) →
  held o (ps1 ++ p' :: ps2) = held o (ps1 ++ p :: ps2) +
    (if decide (o !! pid (base p) = Some tid) then qps (drv (base p')) - qps (drv (base p)) else 0).
Proof. intros Hp. rw !held_app. cbn. unfold share. rw Hp. destruct (decide _); lia. Qed.

(** A hook call. *)
Lemma books_call a m ps1 t ps2 lost o r t' :
  books a (mk_world m (ps1 ++ t :: ps2) lost) → run_op x o (load m t) = Ret r t' →
  ∃ a', books a' (mk_world (Tenant.shm (tshm t')) (ps1 ++ t' :: ps2) lost) ∧ owner a' = owner a.
Proof using Hq Hlimit.
  intros [Hps Hnd Hlk Hok Ha Hlost (H0 & v & Hv & Hlim & Hu) Hle] Hrun. cbn in *.
  apply Forall_app in Hps as [Hps1 [(Ht & Hlive & Hctl) Hps2]%Forall_cons].
  assert (Hlive' : live_hooks (load m t)) by (destruct Hlive; by split).
  destruct (op_run x a (load m t) o Ht Hlive') as (r' & t1 & a' & Hrun' & Hok' & Hk & He).
  rw Hrun in Hrun'. injection Hrun' as <- <-.
  assert (Hpid : pid (base t') = pid (base t)) by apply Hk.
  destruct (tk_ready _ _ Hok') as [_ Hlk' Hs'].
  assert (Hbook : owner a' = owner a ∧ ∃ v', active a' tid = Some v' ∧ v_quota v' = v_quota v ∧
    qps_used v' = held (owner a) (ps1 ++ t' :: ps2) + lost tid ∧
    held (owner a) (ps1 ++ t' :: ps2) + lost tid ≤ limit).
  { rw (held_change _ _ _ _ _ Hpid). pose proof (held_nonneg (owner a) (ps1 ++ t' :: ps2)) as Hnn.
    rw (held_change _ _ _ _ _ Hpid) in Hnn. destruct (decide (owner a !! pid (base t) = Some tid)) as [Ho|Ho].
    - assert (Htid : tenant_of a (load m t) = tid) by (unfold tenant_of; cbn; by rw Ho). rw Htid in He.
      destruct (effect_run x qps _ _ _ _ _ _ _ Hq He H0 Hv) as [(v' & Hv' & Hq' & Ho' & Hu') Hmore].
      specialize (Hmore Hctl). rw Hlim in Hmore. cbn [base load update] in Hmore, Hu'. split; [done|]. exists v'.
      split_and!; [done|done| |lia]. rw Hu' Hu u32_small; [unfold is_u32 in *; lia|lia].
    - assert (Htid : tenant_of a (load m t) ≠ tid).
      { unfold tenant_of. cbn. destruct (owner a !! pid (base t)) as [k|]; cbn; congruence. }
      destruct (effect_other _ _ _ _ _ _ He Htid) as [Hv' Ho']. split; [done|]. exists v.
      rw Hv'. split_and!; [done|done|lia..]. }
  destruct Hbook as (Ho & v' & Hv' & Hqt & Hu' & Hle'). exists a'. split; [|exact Ho]. split; cbn; try done.
  - apply Forall_app. split; [|constructor].
    + eapply Forall_impl; [exact Hps1|]. intros p. by apply sound_other.
    + rw /sound load_newcomer (kp_cfg _ _ Hk). split_and!; [done|by eapply live_kept|done].
    + eapply Forall_impl; [exact Hps2|]. intros p. by apply sound_other.
  - unfold pids in *. rw fmap_app fmap_cons in Hnd. by rw fmap_app fmap_cons Hpid.
  - apply (tk_store _ _ Hok').
  - split; [done|]. exists v'. by rw Ho Hqt.
  - by rw Ho.
Qed.

(** The end of a process. *)
Lemma books_exit a m ps1 t ps2 lost :
  books a (mk_world m (ps1 ++ t :: ps2) lost) →
  books a (mk_world m (ps1 ++ ps2)
    (λ k, if decide (owner_in m !! pid (base t) = Some k) then lost k + qps (drv (base t)) else lost k)).
Proof using Hq.
  intros [Hps Hnd Hlk Hok Ha Hlost (H0 & v & Hv & Hlim & Hu) Hle]. cbn in *.
  assert (Hsum : held (owner a) (ps1 ++ ps2) +
      (if decide (owner_in m !! pid (base t) = Some tid) then lost tid + qps (drv (base t)) else lost tid) =
    held (owner a) (ps1 ++ t :: ps2) + lost tid).
  { rw !held_app. cbn. unfold share, owner_in. rw (ref_owner _ _ Ha). destruct (decide _); lia. }
  split; cbn; try done.
  - apply Forall_app in Hps as [? [_ ?]%Forall_cons]. by apply Forall_app.
  - unfold pids in *. rw fmap_app fmap_cons in Hnd. rw fmap_app.
    apply NoDup_app in Hnd as (? & Hdis & [_ ?]%NoDup_cons). apply NoDup_app.
    split_and!; [done| |done]. intros n Hn1 Hn2. apply (Hdis n Hn1). by right.
  - pose proof (qps_nonneg _ _ Hq (drv (base t))). destruct (decide _); lia.
  - split; [done|]. exists v. by rw Hsum.
  - by rw Hsum.
Qed.

(** A start binds its own pid, at most. *)
Lemma bound_owner a t n : is_Some (owner a !! n) → is_Some (owner (bound a t) !! n).
Proof.
  intros Hn. unfold bound, binding. destruct (sys_getenv _ _) as [s|]; cbn; [|done].
  destruct (0 <? _); [|done]. cbn [spec]. destruct (active a (u32 (atoi s))); [|done].
  case_decide; [done|]. cbn. destruct (decide (n = pid (base t))) as [->|Hne].
  - by rw lookup_insert_eq.
  - by rw lookup_insert_ne.
Qed.

Lemma books_steps a w w' :
  rtc step w w' → books a w → ∃ a', books a' w' ∧ ∀ n, is_Some (owner a !! n) → is_Some (owner a' !! n).
Proof using Hcoll Hmon Hq Hlimit.
  intros Hs. revert a. induction Hs as [w|w1 w2 w3 Hst _ IH]; intros a Hb; [by exists a|].
  assert (∃ a2, books a2 w2 ∧ ∀ n, is_Some (owner a !! n) → is_Some (owner a2 !! n)) as (a2 & Hb2 & H2).
  { destruct Hst as [m ps lost t t' Hnew Hfresh Hver Hrun|m ps1 t ps2 lost o r t' Hrun|m ps1 t ps2 lost].
    - exists (bound a t). split; [by eapply books_start|apply bound_owner].
    - destruct (books_call _ _ _ _ _ _ _ _ _ Hb Hrun) as (a2 & Hb2 & Ho). exists a2. by rw Ho.
    - exists a. split; [by apply books_exit|done]. }
  destruct (IH a2 Hb2) as (a3 & Hb3 & H3). exists a3. auto.
Qed.

(** Nothing unbinds: a pid stays in the table when its process has ended, and the process
    that gets it next is billed to that tenant, unless it is bound to another one. *)
Lemma bindings_outlive_processes a w w' n :
  books a w → rtc step w w' → is_Some (owner_in (w_shm w) !! n) → is_Some (owner_in (w_shm w') !! n).
Proof using Hcoll Hmon Hq Hlimit.
  intros Hb Hs. destruct (books_steps a w w' Hs Hb) as (a' & Hb' & Hkeep).
  pose proof (ref_owner _ _ (bk_store _ _ Hb)) as Ho. pose proof (ref_owner _ _ (bk_store _ _ Hb')) as Ho'.
  unfold owner_in. rw -Ho -Ho'. apply Hkeep.
Qed.

(** What is recorded in the object. *)
Lemma books_recorded a w :
  books a w → ∃ ti, Tenant.tenants (w_shm w) !! Z.to_nat tid = Some ti ∧
    Tenant.max_qp_per_tenant (Tenant.quota ti) = limit ∧
    u32 (Tenant.qp_count (Tenant.usage ti)) = held (owner_in (w_shm w)) (w_procs w) + w_lost w tid ∧
    held (owner_in (w_shm w)) (w_procs w) + w_lost w tid ≤ limit.
Proof.
  intros [_ _ _ _ Hs _ (_ & v & Hv & Hlim & Hu) Hle].
  rw (ref_owner _ _ Hs) in Hu Hle. fold (owner_in (w_shm w)) in Hu, Hle.
  pose proof (active_live _ _ _ Hv) as Hl.
  destruct (decide (0 ≤ tid < Tenant.MAX_TENANTS)) as [Hin|Hout];
    [|by rw (ref_out _ _ Hs _ Hout) in Hl].
  rw (ref_live _ _ Hs _ Hin) in Hl. destruct (_ !! _) as [ti|]; [|done]. cbn in Hl.
  exists ti. case_decide; [done|]. injection Hl as <-. by split_and!.
Qed.

(** C2: the quota holds while processes come and go.  Processes start with their first
    hook call, are bound as their environment says, make any hook calls, and end at any
    time; at every moment the running processes of the tenant hold no more QPs than the
    quota; the recorded count is what they hold and what the processes that ended were
    holding. *)
Theorem quota_survives_restarts a w w' :
  books a w → rtc step w w' →
  ∃ ti, Tenant.tenants (w_shm w') !! Z.to_nat tid = Some ti ∧
    Tenant.max_qp_per_tenant (Tenant.quota ti) = limit ∧
    u32 (Tenant.qp_count (Tenant.usage ti)) = held (owner_in (w_shm w')) (w_procs w') + w_lost w' tid ∧
    held (owner_in (w_shm w')) (w_procs w') + w_lost w' tid ≤ limit.
Proof using Hcoll Hmon Hq Hlimit.
  intros Hb Hs. destruct (books_steps a w w' Hs Hb) as (a' & Hb' & _). by apply (books_recorded a').
Qed.

Lemma lost_grows w w' : rtc step w w' → w_lost w tid ≤ w_lost w' tid.
Proof using Hq.
  induction 1 as [w|w1 w2 w3 Hst _ IH]; [done|]. etransitivity; [|exact IH].
  destruct Hst as [| |m ps1 t ps2 lost]; cbn; [done|done|].
  pose proof (qps_nonneg _ _ Hq (drv (base t))). destruct (decide _); lia.
Qed.

(** C10: a quota lost to processes that ended is lost for good.  When they held as many
    QPs as the quota, then whatever processes start, call and end afterwards, the
    processes of the tenant never hold a QP again, and every attempt to create one is
    refused with [EPERM], although the driver has none. *)
Theorem lost_quota_never_returns a w w' p pd attr :
  books a w → w_lost w tid = limit → rtc step w w' →
  p ∈ w_procs w' → owner_in (w_shm w') !! pid (base p) = Some tid →
  held (owner_in (w_shm w')) (w_procs w') = 0 ∧
  ∃ t', ibv_create_qp x pd (Some attr) (load (w_shm w') p) = Ret 0 t' ∧ errno (hproc (base t')) = EPERM.
Proof using Hcoll Hmon Hq Hlimit.
  intros Hb Hl Hs Hp Ho. destruct (books_steps a w w' Hs Hb) as (a' & [Hps _ _ _ Ha _ (H0 & v & Hv & Hlim & Hu) Hle] & _).
  pose proof (lost_grows _ _ Hs). pose proof (held_nonneg (owner a') (w_procs w')).
  assert (Hz : held (owner a') (w_procs w') = 0) by lia.
  assert (Hown : owner a' = owner_in (w_shm w')) by apply (ref_owner _ _ Ha).
  split; [by rw -Hown|].
  rewrite ->Forall_forall in Hps. destruct (Hps p Hp) as (Hok & [He Hr] & Hctl).
  destruct (create_qp_run x a' (load (w_shm w') p) pd attr Hok He (Hr _ (is_hook "ibv_create_qp" eq_refl)))
    as (t' & Hrun & _ & _ & _ & _ & Herr & _).
  assert (Hno : qp_allowed a' (load (w_shm w') p) attr = false).
  { unfold qp_allowed. cbn [base load update]. rw Hctl. cbn [negb orb].
    assert (qp_within a' (tenant_of a' (load (w_shm w') p)) = false) as ->; [|by rw andb_false_r].
    unfold tenant_of. cbn [base load update]. rw Hown Ho. cbn [default]. unfold qp_within.
    rw (active_live _ _ _ Hv) (proj2 (Z.eqb_neq _ _) H0). cbn [orb]. apply negb_false_iff, Z.leb_le.
    unfold qps_used in Hu. rw Hu Hlim. lia. }
  exists t'. rw Hno in Hrun, Herr. split; [exact Hrun|by apply Herr].
Qed.
End Books.

(** ** Newcomers the table has no room for *)

Lemma newcomer_starts a t :
  newcomer t → tenant_object a t →
  ∃ t', once x t = Ret tt t' ∧ tok (bound a t) t' ∧ live_hooks t' ∧ pid (base t') = pid (base t) ∧
    ∀ o, run_op x o t = run_op x o t'.
Proof using Hcoll Hmon.
  intros [] Hob. destruct (first_hook_initialises_at x sane a t) as
    (t' & Hrun & Hok & _ & Hl & _ & _ & Hp & _ & _ & Ho); [done..|].
  exists t'. split_and!; auto.
Qed.

Lemma reused_pid_inherits_tenant a t tid :
  newcomer t → tenant_object a t → sys_getenv (os_of t) "RDMA_TENANT_ID" = None →
  owner a !! pid (base t) = Some tid →
  ∃ t', once x t = Ret tt t' ∧ tenant_of (bound a t) t' = tid.
Proof using Hcoll Hmon.
  intros Hnew Hob Henv Ho. destruct (newcomer_starts a t Hnew Hob) as (t' & Hrun & _ & _ & Hp & _).
  exists t'. split; [done|]. unfold tenant_of, bound, binding. rw Henv Hp. cbn. by rw Ho.
Qed.

(** C12: a full table lets newcomers through.  When [MAX_PROCESSES] pids are in the table,
    of running processes or of processes that ended, binding a new one fails, the failure
    is ignored, and the process belongs to no tenant: whatever its environment asks for,
    nothing it creates is counted, and the quota of no tenant is tested. *)
Theorem full_table_unmeters_newcomers a t o os :
  newcomer t → tenant_object a t →
  owner a !! pid (base t) = None → size (owner a) = Z.to_nat Tenant.MAX_PROCESSES →
  ∃ rs t', run_ops x (o :: os) t = Ret rs t' ∧ refines a (Tenant.shm (tshm t')) ∧
    ∀ pd attr, ∃ t'', ibv_create_qp x pd (Some attr) t' =
      Ret (if others_allow (base t') attr
           then ret (x_driver x (CreateQp pd (Some attr)) (drv (base t'))) else 0) t''.
Proof using Hcoll Hmon.
  intros Hnew Hob Hno Hfull. destruct (newcomer_starts a t Hnew Hob) as (t1 & _ & Hok & Hlive & Hp & Hsame).
  assert (Hb : bound a t = a).
  { unfold bound, binding. destruct (sys_getenv _ _) as [s|]; cbn; [|done]. destruct (0 <? _); [|done].
    cbn [spec]. destruct (active a (u32 (atoi s))); [|done]. by rw decide_True. }
  rw Hb in Hok. assert (Htid : tenant_of a t1 = 0) by (unfold tenant_of; by rw Hp Hno).
  destruct (ops_keep x (λ b, b = a) a t1 (o :: os) Hok Hlive eq_refl) as (rs & t' & a' & Hrun & Hok' & Hk & ->).
  { intros a' rt delta ->. unfold counted. by rw Htid (no_default a t1 Hok). }
  { by intros a' ->. }
  exists rs, t'. split_and!; [|apply Hok'|].
  { rw -Hrun. cbn [run_ops]. unfold mbind, M_bind. by rw Hsame. }
  intros pd attr. destruct (live_kept _ _ Hk Hlive) as [He Hr].
  destruct (create_qp_run x a t' pd attr Hok' He (Hr _ (is_hook "ibv_create_qp" eq_refl))) as (t'' & Hrun' & _).
  exists t''. rw Hrun'. f_equal. unfold qp_allowed, others_allow.
  rw (kept_tenant a _ _ Hk) Htid andb_true_r. done.
Qed.
End Life.

(** ** Examples *)

#[local] Opaque example_tenant.

Lemma newborn_newcomer cs n : 0 < n → newcomer (λ _, True) Z.of_nat (newborn true cs n).
Proof.
  intros Hn. split; try done. by apply newborn_unstarted.
Qed.

Definition opened_object : Tenant.tenant_shared_memory_t := Tenant.shm (example_tenant opened_setup).
Definition first_world : @world unit nat := mk_world opened_object [] (λ _, 0).

(** Process 100 starts and creates two QPs; then process 101 starts. *)
Definition run_from {A} (m : M (thooks unit nat) A) t : thooks unit nat := after t (m t).

Lemma run_returns {A} (m : M (thooks unit nat) A) t r : value (m t) = Some r → m t = Ret r (run_from m t).
Proof. unfold run_from. destruct (m t); cbn; [by intros [= ->]|done..]. Qed.

Definition one_qp : op := OCreateQp 1 (mk_attr IBV_QPT_RC 16 16).
Definition first_started : thooks unit nat :=
  run_from (once toy) (load opened_object (newborn true opened_setup 100)).
Definition first_once : thooks unit nat :=
  run_from (run_op toy one_qp) (load (Tenant.shm (tshm first_started)) first_started).
Definition first_process : thooks unit nat :=
  run_from (run_op toy one_qp) (load (Tenant.shm (tshm first_once)) first_once).
Definition left_object : Tenant.tenant_shared_memory_t := Tenant.shm (tshm first_process).
Definition second_process : thooks unit nat :=
  run_from (once toy) (load left_object (newborn true opened_setup 101)).

Definition left_counts (k : Z) : Z :=
  if decide (owner_in left_object !! 100 = Some k) then 0 + Z.of_nat 2 else 0.
Definition left_world : @world unit nat := mk_world left_object [] left_counts.
Definition second_world : @world unit nat :=
  mk_world (Tenant.shm (tshm second_process)) [second_process] left_counts.

Lemma first_books : books Z.of_nat 3 2 (spec_store opened_setup empty_store) first_world.
Proof.
  pose proof (example_tok opened_setup 1 opened_real eq_refl) as [_ _ _ [_ Hl Hs] Ha _ _ _].
  split; try done; [constructor|]. split; [done|].
  eexists. split_and!; [vm_compute; reflexivity|reflexivity|reflexivity].
Qed.

Lemma first_start : once toy (load opened_object (newborn true opened_setup 100)) = Ret tt first_started.
Proof.
  refine (run_returns (once toy) (load opened_object (newborn true opened_setup 100)) tt _). vm_compute. reflexivity.
Qed.

Lemma first_call : run_op toy one_qp (load (Tenant.shm (tshm first_started)) first_started) = Ret 1000 first_once.
Proof.
  refine (run_returns (run_op toy one_qp) (load (Tenant.shm (tshm first_started)) first_started) 1000 _). vm_compute. reflexivity.
Qed.

Lemma second_call : run_op toy one_qp (load (Tenant.shm (tshm first_once)) first_once) = Ret 1001 first_process.
Proof.
  refine (run_returns (run_op toy one_qp) (load (Tenant.shm (tshm first_once)) first_once) 1001 _). vm_compute. reflexivity.
Qed.

Lemma second_start : once toy (load left_object (newborn true opened_setup 101)) = Ret tt second_process.
Proof.
  refine (run_returns (once toy) (load left_object (newborn true opened_setup 101)) tt _). vm_compute. reflexivity.
Qed.

Lemma first_life : rtc (step toy (λ _, True) Z.of_nat) first_world left_world.
Proof.
  apply (rtc_l _ _ (mk_world (Tenant.shm (tshm first_started)) [first_started] (λ _, 0))).
  { apply (step_start toy (λ _, True) Z.of_nat opened_object [] _ (newborn true opened_setup 100)).
    - by apply newborn_newcomer.
    - apply not_elem_of_nil.
    - apply opened_version.
    - apply first_start. }
  apply (rtc_l _ _ (mk_world (Tenant.shm (tshm first_once)) [first_once] (λ _, 0))).
  { apply (step_call toy (λ _, True) Z.of_nat _ [] first_started [] _ one_qp 1000 first_once), first_call. }
  apply (rtc_l _ _ (mk_world left_object [first_process] (λ _, 0))).
  { apply (step_call toy (λ _, True) Z.of_nat _ [] first_once [] _ one_qp 1001 first_process), second_call. }
  apply rtc_once.
  assert (Hd : drv (base first_process) = 2%nat ∧ pid (base first_process) = 100) by by vm_compute.
  pose proof (step_exit toy (λ _, True) Z.of_nat left_object [] first_process [] (λ _, 0)) as Hexit.
  rw (proj1 Hd) (proj2 Hd) in Hexit. exact Hexit.
Qed.

Lemma second_life : rtc (step toy (λ _, True) Z.of_nat) left_world second_world.
Proof.
  apply rtc_once. unfold left_world, second_world.
  refine (step_start toy (λ _, True) Z.of_nat left_object [] left_counts (newborn true opened_setup 101)
    second_process _ _ _ second_start).
  - by apply newborn_newcomer.
  - apply not_elem_of_nil.
  - vm_compute. discriminate.
Qed.

(** Process 100 has ended with two QPs, process 101 has started: two are recorded. *)
Lemma quota_survives_restarts_witness :
  ∃ ti, Tenant.tenants (w_shm second_world) !! 3%nat = Some ti ∧
    u32 (Tenant.qp_count (Tenant.usage ti)) = 2 ∧ length (w_procs second_world) = 1%nat.
Proof.
  destruct (quota_survives_restarts toy (λ _, True) Z.of_nat toy_counts 3 2 ltac:(by split)
    (spec_store opened_setup empty_store) first_world second_world first_books) as (ti & Hti & _ & Hu & _).
  - etransitivity; [apply first_life|apply second_life].
  - exists ti. split; [exact Hti|]. split; [rewrite Hu; vm_compute; reflexivity|reflexivity].
Defined.

(** Process 101 cannot create a QP, although there is none. *)
Lemma lost_quota_never_returns_witness :
  held Z.of_nat 3 (owner_in (w_shm second_world)) (w_procs second_world) = 0 ∧
  ∃ t', ibv_create_qp toy 1 (Some (mk_attr IBV_QPT_RC 16 16)) (load (w_shm second_world) second_process) =
    Ret 0 t' ∧ errno (hproc (base t')) = EPERM.
Proof.
  destruct (books_steps toy (λ _, True) Z.of_nat toy_counts 3 2 ltac:(by split) _ _ _ first_life first_books)
    as (a & Hb & _).
  apply (lost_quota_never_returns toy (λ _, True) Z.of_nat toy_counts 3 2 ltac:(by split) a left_world second_world
    second_process 1 (mk_attr IBV_QPT_RC 16 16) Hb).
  - vm_compute. reflexivity.
  - apply second_life.
  - left.
  - vm_compute. reflexivity.
Defined.

(** 1024 processes have been bound to tenant 3. *)
Definition crowded_setup : list TenantProps.call :=
  opened_setup ++ ((λ n, Bind (1000 + Z.of_nat n) 3) <$> seq 0 1024).

Lemma crowded_real : Forall TenantSpec.real crowded_setup.
Proof.
  apply Forall_app. split; [apply opened_real|]. apply Forall_fmap, Forall_forall. intros n _.
  split; cbn; lia.
Qed.

Lemma full_table_unmeters_newcomers_witness :
  ∃ rs t', run_ops toy (replicate 3 one_qp) (newborn true crowded_setup 100) = Ret rs t' ∧
    refines (spec_store crowded_setup empty_store) (Tenant.shm (tshm t')).
Proof.
  destruct (full_table_unmeters_newcomers toy (λ _, True) Z.of_nat (spec_store crowded_setup empty_store)
    (newborn true crowded_setup 100) one_qp (replicate 2 one_qp)) as (rs & t' & Hrun & Ha & _).
  - by apply newborn_newcomer.
  - apply newborn_object; [apply crowded_real|vm_compute; discriminate].
  - vm_compute. reflexivity.
  - vm_compute. reflexivity.
  - exists rs, t'. exact (conj Hrun Ha).
Defined.
End Lifecycle.
