(* ===== verification/HookSteps.v ===== *)
(** * The tenant hooks, one critical section at a time

    The hooks of [rdma_hooks_tenant.c] cut where another process can come in
    between: every call of the tenant shared memory is one critical section, and
    what happens inside the process, the driver included, is invisible to the
    others.  Run without interruption they are the hooks of [HooksTenant]; here
    several processes run them at the same time, together with administrators who
    change tenants, quotas and bindings.  In any order, every call comes to an end
    and the shared memory stays in order. *)

From S2P Require Import Prelude Resumption CString Intercept Core CollectorServer CollectorClient LocalPolicy.
From S2P Require Import SlotTable ShmProcess ShmTenant TenantProps TenantSpec HookBase HooksTenant.
From S2P Require Import HooksTenantProps TenantQuota.

Module HookSteps.
Import TenantProps TenantSpec.
Import Intercept Core CollectorClient LocalPolicy HookBase HooksTenant HooksTenantProps TenantQuota.
#[local] Existing Instances Tenant.expand_usage Tenant.expand_info Tenant.expand_shm Tenant.expand_state.

Section Cut.
Context {Srv D : Type} (x : externals Srv D).
Implicit Types (t : thooks Srv D) (a : store) (o : op).

(** ** The hooks *)

#[local] Abbreviation hsteps := (steps (thooks Srv D)).

Definition current_tenant : hsteps Z :=
  t ← act get;
  if negb (tenant_initialized t) then mret 0 else
  r ← act (ztenant (Tenant.tenant_get_process_tenant (pid (base t)) (Some 0)));
  if negb (fst r =? 0) then mret 0 else mret (default 0 (snd r)).

(** The usage is read in one critical section and written in another one. *)
Definition update_count (tenant_id resource_type delta : Z) : hsteps unit :=
  t ← act get;
  if (tenant_id =? 0) || negb (tenant_initialized t) then mret tt else
  r ← act (ztenant (Tenant.tenant_get_resource_usage tenant_id (Some Tenant.usage_zero)));
  if negb (fst r =? 0) then mret tt else
  act (ztenant (Tenant.tenant_update_resource_usage tenant_id
    (count_usage resource_type delta <$> snd r)));;
  mret tt.

Definition qp_limit (tenant_id : Z) : hsteps bool :=
  t ← act get;
  if (tenant_id =? 0) || negb (tenant_initialized t) then mret true else
  r ← act (ztenant (Tenant.tenant_get_info tenant_id (Some Tenant.info_zero)));
  if negb (fst r =? 0) then mret false else
  let info := default Tenant.info_zero (snd r) in
  mret (negb (Tenant.max_qp_per_tenant (Tenant.quota info)
                <=? u32 (Tenant.qp_count (Tenant.usage info)))).

Definition mr_limit (tenant_id length : Z) : hsteps bool :=
  t ← act get;
  if (tenant_id =? 0) || negb (tenant_initialized t) then mret true else
  r ← act (ztenant (Tenant.tenant_get_info tenant_id (Some Tenant.info_zero)));
  if negb (fst r =? 0) then mret false else
  mret (mr_within (default Tenant.info_zero (snd r)) length).

Definition restrictions (qp_init_attr : option ibv_qp_init_attr) : hsteps bool :=
  t ← act get;
  let c := hcfg (base t) in
  if negb (enable_qp_control c) then mret true else
  match qp_init_attr with
  | None => act crash
  | Some a =>
      if type_denied c (attr_qp_type a) then mret false else
      tenant_id ← current_tenant;
      within ← qp_limit tenant_id;
      if negb within then mret false else
      proc ← act (zbase (get_process_resources_via_shared_memory (pid (base t)) (Some Shm.usage_zero)));
      if process_denied c proc then mret false else
      glob ← act (zbase (get_global_resources_via_shared_memory (Some Shm.usage_zero)));
      if global_denied c glob then mret false else
      mret true
  end.

Definition cut_hook (name : string) (v : verb) (failure : Z) (body : hsteps Z) : hsteps Z :=
  act (once x);;
  t ← act get;
  if negb (enabled (base t)) || negb (real (base t) name) then
    if real (base t) name then act (zbase (call x v)) else act (zbase (fail_with ENOSYS failure))
  else body.

Definition count_one (resource_type delta : Z) : hsteps unit :=
  tenant_id ← current_tenant;
  update_count tenant_id resource_type delta.

Definition make_qp (pd : Z) (qp_init_attr : option ibv_qp_init_attr) : hsteps Z :=
  qp ← act (zbase (call x (CreateQp pd qp_init_attr)));
  (if qp =? 0 then mret tt else
    act (count_local (λ s, s <| qp_count ::= λ n, u32 (n + 1) |>));;
    act publish_local;;
    count_one 0 1);;
  mret qp.

Definition create_qp (pd : Z) (qp_init_attr : option ibv_qp_init_attr) : hsteps Z :=
  cut_hook "ibv_create_qp" (CreateQp pd qp_init_attr) 0
   (allowed ← restrictions qp_init_attr;
    if negb allowed then act (zbase (fail_with EPERM 0)) else
    make_qp pd qp_init_attr).

Definition destroy_qp (qp : Z) : hsteps Z :=
  cut_hook "ibv_destroy_qp" (DestroyQp qp) (-1)
   (result ← act (zbase (call x (DestroyQp qp)));
    (if negb (result =? 0) then mret tt else
      act (count_local (λ s, s <| qp_count ::= λ n, if 0 <? n then n - 1 else n |>));;
      count_one 0 (-1));;
    mret result).

Definition reg_mr (pd addr length access : Z) : hsteps Z :=
  cut_hook "ibv_reg_mr" (RegMr pd addr length access) 0
   (tenant_id ← current_tenant;
    within ← mr_limit tenant_id length;
    if negb within then act (zbase (fail_with EPERM 0)) else
    mr ← act (zbase (call x (RegMr pd addr length access)));
    (if mr =? 0 then mret tt else
      act (count_local (λ s, s <| mr_count ::= λ n, u32 (n + 1) |>
                               <| memory_used ::= λ n, u64 (n + length) |>));;
      update_count tenant_id 1 1);;
    mret mr).

Definition dereg_mr (mr : Z) : hsteps Z :=
  cut_hook "ibv_dereg_mr" (DeregMr mr) (-1)
   (t ← act get;
    let mr_length := if mr =? 0 then 0 else u64 (x_mr_length x mr (drv (base t))) in
    result ← act (zbase (call x (DeregMr mr)));
    (if negb (result =? 0) then mret tt else
      act (count_local (λ s, s <| mr_count ::= λ n, if 0 <? n then n - 1 else n |>
             <| memory_used ::= λ n, if mr_length <=? n then n - mr_length else n |>));;
      count_one 1 (-1));;
    mret result).

Definition cut_create (name : string) (v : verb) (resource_type : Z) : hsteps Z :=
  cut_hook name v 0
   (p ← act (zbase (call x v));
    (if p =? 0 then mret tt else count_one resource_type 1);;
    mret p).

Definition cut_destroy (name : string) (v : verb) (resource_type : Z) : hsteps Z :=
  cut_hook name v (-1)
   (result ← act (zbase (call x v));
    (if negb (result =? 0) then mret tt else count_one resource_type (-1));;
    mret result).

Definition op_steps o : hsteps Z :=
  match o with
  | OCreateQp pd attr => create_qp pd (Some attr)
  | ODestroyQp qp => destroy_qp qp
  | ORegMr pd addr length access => reg_mr pd addr length access
  | ODeregMr mr => dereg_mr mr
  | OCreateCq c n cc ch v => cut_create "ibv_create_cq" (CreateCq c n cc ch v) 3
  | ODestroyCq cq => cut_destroy "ibv_destroy_cq" (DestroyCq cq) 3
  | OAllocPd c => cut_create "ibv_alloc_pd" (AllocPd c) 4
  | ODeallocPd pd => cut_destroy "ibv_dealloc_pd" (DeallocPd pd) 4
  end.

(** ** Run without interruption, they are the hooks *)

Lemma run_act {A} (m : M (thooks Srv D) A) t : run (act m) t = m t.
Proof. unfold act. cbn [run]. unfold mbind, M_bind. by destruct (m t). Qed.

(** Two computations that agree on every state. *)
(** Compare a cut computation with the whole one, action by action. *)
Ltac joined :=
  repeat match goal with
  | |- run (_ ≫= _) _ = _ => rw run_bind; apply bind_same; [intros ?|intros ? ?]
  | |- run (act _) _ = _ => apply run_act
  | |- run (mret _) _ = _ => reflexivity
  | |- run (if ?b then _ else _) _ = _ => destruct b
  | |- run (match ?b with _ => _ end) _ = _ => destruct b
  end.

Lemma current_tenant_joined t : run current_tenant t = get_current_tenant_id t.
Proof. unfold current_tenant, get_current_tenant_id. joined. Qed.

Lemma update_count_joined tid rt delta t :
  run (update_count tid rt delta) t = update_tenant_resource_count tid rt delta t.
Proof. unfold update_count, update_tenant_resource_count. joined. Qed.

Lemma count_one_joined rt delta t : run (count_one rt delta) t = count_object rt delta t.
Proof.
  unfold count_one, count_object. joined; [apply current_tenant_joined|apply update_count_joined].
Qed.

Lemma mr_limit_joined tid length t :
  run (mr_limit tid length) t = check_tenant_mr_limit_inline tid length t.
Proof. unfold mr_limit, check_tenant_mr_limit_inline. joined. Qed.

Lemma restrictions_joined pd attr t :
  run (restrictions attr) t = check_qp_creation_restrictions pd attr t.
Proof.
  unfold restrictions, check_qp_creation_restrictions. joined; [apply current_tenant_joined|].
  unfold qp_limit, check_tenant_qp_limit. joined.
Qed.

Lemma cut_hook_joined name v failure p m t :
  (∀ u, run p u = m u) → run (cut_hook name v failure p) t = hooked x name v failure m t.
Proof. intros H. unfold cut_hook, hooked. joined. apply H. Qed.

Lemma make_qp_joined pd attr t : run (make_qp pd attr) t = create_admitted x pd attr t.
Proof. unfold make_qp, create_admitted. joined. apply count_one_joined. Qed.

(** The cut hook is the hook when nobody comes in between. *)
Theorem op_steps_joined o t : run (op_steps o) t = run_op x o t.
Proof.
  destruct o; cbn [op_steps run_op];
    unfold create_qp, ibv_create_qp, destroy_qp, ibv_destroy_qp, reg_mr, ibv_reg_mr, dereg_mr,
      ibv_dereg_mr, ibv_create_cq, ibv_destroy_cq, ibv_alloc_pd, ibv_dealloc_pd, cut_create,
      create_hook, cut_destroy, destroy_hook;
    apply cut_hook_joined; intros u; joined;
    auto using restrictions_joined, make_qp_joined, count_one_joined, current_tenant_joined, update_count_joined,
      mr_limit_joined.
Qed.

(** The beginning of every hook. *)
Lemma cut_alone name v failure (body : hsteps Z) a t :
  tok a t → live_hooks t → name ∈ needed_names →
  tc alone (cut_hook name v failure body, t) (body, t).
Proof.
  intros Hok [He Hr] Hn. unfold cut_hook. eapply tc_l.
  { apply (alone_act _ _ _ _ tt t). unfold once. run. by rw (tk_once _ _ Hok). }
  eapply tc_rtc_r; [apply tc_once; by constructor|]. cbn beta. by rw He (Hr name Hn).
Qed.

(** ** Processes that overlap *)

(** What a process of the system does: a hook, or a call of the tenant store by
    an administrator. *)
Inductive request := Hook (o : op) | Admin (c : TenantProps.call).

Definition request_steps (q : request) : hsteps Z :=
  match q with
  | Hook o => op_steps o
  | Admin c => act (ztenant (respond c));; mret 0
  end.

Fixpoint program (qs : list request) : hsteps (list Z) :=
  match qs with
  | [] => mret []
  | q :: qs' => r ← request_steps q; rs ← program qs'; mret (r :: rs)
  end.

(** Process [i] has run, and left the shared object to the others. *)
Definition put (i : nat) t (w : world) : world := mk_world (Tenant.shm (tshm t)) (<[i := t]> (w_procs w)).

(** Any process performs its next action. *)
Inductive overlap : world * list (hsteps (list Z)) → world * list (hsteps (list Z)) → Prop :=
| overlap_step w ps i t B (m : M (thooks Srv D) B) k b t' :
    w_procs w !! i = Some t → ps !! i = Some (Act m k) → m (load (w_shm w) t) = Ret b t' →
    overlap (w, ps) (put i t' w, <[i := k b]> ps).

(** A sequence of hooks is the sequence of the whole hooks when nobody comes in
    between. *)
Lemma program_joined os t : run (program (Hook <$> os)) t = run_ops x os t.
Proof.
  revert t. induction os as [|o os IH]; intros t; [done|]. cbn [fmap list_fmap program request_steps run_ops].
  rw run_bind. apply bind_same; [intros u; apply op_steps_joined|]. intros r u.
  rw run_bind. by apply bind_same.
Qed.

Lemma load_load s1 s2 t : load s2 (load s1 t) = load s2 t.
Proof. by destruct t as [? [] ?]. Qed.

Lemma load_own t : load (Tenant.shm (tshm t)) t = t.
Proof. by destruct t as [? [] ?]. Qed.

Lemma put_put i t t' w : put i t' (put i t w) = put i t' w.
Proof. unfold put. cbn. by rw list_insert_insert_eq. Qed.

(** A process that is left alone for some actions. *)
Lemma alone_overlap w ps i t p q t' :
  w_procs w !! i = Some t → ps !! i = Some p → tc alone (p, load (w_shm w) t) (q, t') →
  rtc overlap (w, ps) (put i t' w, <[i := q]> ps).
Proof.
  intros Hi Hp Hst. remember (p, load (w_shm w) t) as c eqn:Hc. remember (q, t') as c' eqn:Hc'.
  revert w ps t p Hi Hp Hc. induction Hst as [c c' H1|c [p1 t1] c' H1 _ IH]; intros w ps t p Hi Hp ->;
    inversion H1 as [C m k ? b ? Hm]; subst.
  - match goal with H : (_, _) = (_, _) |- _ => injection H as <- <- end.
    apply rtc_once. by eapply overlap_step.
  - eapply rtc_l; [by eapply overlap_step|].
    assert (Hlt : (i < length (w_procs w))%nat) by (by eapply lookup_lt_Some).
    assert (Hlt' : (i < length ps)%nat) by (by eapply lookup_lt_Some).
    specialize (IH eq_refl (put i t1 w) (<[i := k b]> ps) t1 (k b)).
    rw put_put list_insert_insert_eq in IH. apply IH.
    + by apply list_lookup_insert_eq.
    + by apply list_lookup_insert_eq.
    + cbn [put w_shm]. by rw load_own.
Qed.

(** In particular, a process that runs to its end. *)
Lemma run_overlap w ps i t p r t' :
  w_procs w !! i = Some t → ps !! i = Some p → is_done p = false →
  run p (load (w_shm w) t) = Ret r t' →
  rtc overlap (w, ps) (put i t' w, <[i := Done r]> ps).
Proof.
  intros Hi Hp Hnd Hrun. eapply alone_overlap; [done..|].
  apply run_alone, rtc_tc in Hrun as [[= -> _]|]; done.
Qed.

(** Whatever the order, there are only so many actions. *)
Lemma overlap_sn w ps : sn overlap (w, ps).
Proof.
  assert (Hps : Acc (λ ps2 ps1, ∃ i p q, ps1 !! i = Some p ∧ next p q ∧ ps2 = <[i := q]> ps1) ps).
  { clear w. induction ps as [|p ps IH].
    - constructor. intros ps' (i & p & q & Hi & _). by rw lookup_nil in Hi.
    - revert ps IH. induction (next_wf p) as [p _ IHp]. intros ps Hps. pose proof Hps as Hps0.
      induction Hps as [ps Hacc IHps]. constructor. intros ps' (i & p1 & q & Hi & Hn & ->).
      destruct i as [|i]; cbn in Hi |- *.
      + injection Hi as <-. by apply IHp.
      + apply IHps; [by exists i, p1, q|]. apply Hacc. by exists i, p1, q. }
  revert w. induction Hps as [ps _ IH]. intros w. constructor. intros [w' ps'] Hst.
  inversion Hst as [? ? i t B m k b t' Hi Hp Hm]; subst. apply IH.
  exists i, (Act m k), (k b). split_and!; [done|by exists b|done].
Qed.

(** ** One process among others *)

(** Another process or an administrator has changed the shared object: the store
    is [a1] now, related to the old one by [R]. *)
Section Rely.
Context (R : store → store → Prop) (G : store → thooks Srv D → store → thooks Srv D → Prop).

(** From every action on, in every state the others may have made, the process
    goes on without undefined behaviour and without waiting, does to the shared
    object what [G] allows, and returns with [Q]. *)
Fixpoint rg {A} (p : hsteps A) (Q : A → store → thooks Srv D → Prop) a t : Prop :=
  match p with
  | Done r => Q r a t
  | Act m k => ∀ a1 s1, R a a1 → tok a1 (load s1 t) →
      ∃ b t' a', m (load s1 t) = Ret b t' ∧ tok a' t' ∧ kept (load s1 t) t' ∧
        G a1 (load s1 t) a' t' ∧ rg (k b) Q a' t'
  end.

Lemma rg_bind {A B} (p : hsteps A) (k : A → hsteps B) Q a t :
  rg p (λ r a t, rg (k r) Q a t) a t → rg (p ≫= k) Q a t.
Proof.
  revert a t. induction p as [r|C m h IH]; intros a t; [done|].
  intros H a1 s1 HR Hok. destruct (H a1 s1 HR Hok) as (b & t' & a' & ? & ? & ? & ? & Hb).
  exists b, t', a'. split_and!; try done. by apply IH.
Qed.

Lemma rg_mono {A} (p : hsteps A) (Q Q' : A → store → thooks Srv D → Prop) a t :
  (∀ r a t, Q r a t → Q' r a t) → rg p Q a t → rg p Q' a t.
Proof.
  intros HQ. revert a t. induction p as [r|C m h IH]; intros a t; cbn; [auto|].
  intros H a1 s1 HR Hok. destruct (H a1 s1 HR Hok) as (b & t' & a' & ? & ? & ? & ? & ?).
  exists b, t', a'. split_and!; auto.
Qed.

(** A part with its postcondition, and then the rest. *)
Lemma rg_seq {A B} (p : hsteps A) (k : A → hsteps B) P Q a t :
  rg p P a t → (∀ r a' t', P r a' t' → rg (k r) Q a' t') → rg (p ≫= k) Q a t.
Proof. intros Hp Hk. apply rg_bind. by eapply rg_mono. Qed.

(** The process keeps its configuration, its functions and its pid. *)
Lemma rg_kept {A} (p : hsteps A) (Q : A → store → thooks Srv D → Prop) a t :
  rg p Q a t → rg p (λ r a' t', Q r a' t' ∧ kept t t') a t.
Proof.
  enough (∀ u, kept u t → rg p Q a t → rg p (λ r a' t', Q r a' t' ∧ kept u t') a t) as H by (by apply H).
  revert a t. induction p as [r|C m h IH]; intros a t u Hu; cbn; [done|].
  intros H a1 s1 HR Hok. destruct (H a1 s1 HR Hok) as (b & t' & a' & ? & ? & Hk & ? & ?).
  exists b, t', a'. split_and!; try done. apply IH; [|done].
  eapply kept_trans; [exact Hu|]. eapply kept_trans; [|exact Hk]. done.
Qed.

Lemma rg_then {A B} (p : hsteps A) (k : A → hsteps B) P Q a t :
  rg p P a t → (∀ r a' t', P r a' t' → kept t t' → rg (k r) Q a' t') → rg (p ≫= k) Q a t.
Proof.
  intros Hp Hk. eapply rg_seq; [apply rg_kept, Hp|]. cbn. intros r a' t' [HP Hkt]. by apply Hk.
Qed.

(** What the others do does not disturb it. *)
Lemma rg_stable `{!Transitive R} {A} (p : hsteps A) (Q : A → store → thooks Srv D → Prop) a t a1 s1 :
  (∀ r a t a1 s1, Q r a t → R a a1 → Q r a1 (load s1 t)) →
  rg p Q a t → R a a1 → rg p Q a1 (load s1 t).
Proof.
  intros HQ H HR. destruct p as [r|C m k]; [by eapply HQ|].
  intros a2 s2 HR2. rw load_load. apply H. by etrans.
Qed.
End Rely.

(** ** All of them together *)

Section Fleet.
Context (R : nat → store → store → Prop)
  (G : nat → store → thooks Srv D → store → thooks Srv D → Prop)
  (Q : nat → list Z → store → thooks Srv D → Prop)
  (B : nat → store → thooks Srv D → Prop).
Context (R_refl : ∀ i, Reflexive (R i)) (R_trans : ∀ i, Transitive (R i)).
Context (Q_stable : ∀ i r a t a1 s1, Q i r a t → R i a a1 → Q i r a1 (load s1 t)).
Context (B_stable : ∀ i a t a1 s1, B i a t → R i a a1 → B i a1 (load s1 t)).
Context (G_bound : ∀ i a t a' t', G i a t a' t' → B i a' t').
Context (G_R : ∀ i j a t a' t', i ≠ j → G i a t a' t' → R j a a').

Record fleet (w : world) (ps : list (hsteps (list Z))) a : Prop := {
  fl_shm : shm_ok (w_shm w);
  fl_lock : Tenant.lock (w_shm w) = 0;
  fl_length : length ps = length (w_procs w);
  fl_procs i t p : w_procs w !! i = Some t → ps !! i = Some p →
    tok a (load (w_shm w) t) ∧ B i a (load (w_shm w) t) ∧
    rg (R i) (G i) p (Q i) a (load (w_shm w) t);
}.

(** A process and its program move together. *)
Lemma fleet_step w ps a i t C (m : M (thooks Srv D) C) k :
  fleet w ps a → w_procs w !! i = Some t → ps !! i = Some (Act m k) →
  ∃ b t' a', m (load (w_shm w) t) = Ret b t' ∧ fleet (put i t' w) (<[i := k b]> ps) a'.
Proof using R_refl R_trans Q_stable B_stable G_bound G_R.
  intros [Hs Hl Hn Hp] Hi Hpi. destruct (Hp i t _ Hi Hpi) as (Hok & Hb & Hrg).
  destruct (Hrg a (w_shm w)) as (b & t' & a' & Hm & Hok' & Hk & HG & Hrest); [done|by rw load_load|].
  rw load_load in Hm. exists b, t', a'. split; [done|].
  destruct (tk_ready _ _ Hok') as [_ Hl' Hs'].
  split; cbn [put w_shm w_procs]; [done..|by rw !length_insert|].
  intros j u q [(-> & <- & _)|[Hne Hj]]%list_lookup_insert_Some [(? & <- & _)|[? Hq]]%list_lookup_insert_Some;
    try done.
  - rw load_own. split_and!; [done|by eapply G_bound|done].
  - destruct (Hp j u q Hj Hq) as (Hoku & Hbu & Hrgu).
    assert (HR : R j a a') by (by eapply G_R; [apply not_eq_sym|]).
    pose proof (load_load (w_shm w) (Tenant.shm (tshm t')) u) as Hll.
    split_and!; [by eapply tok_other|rw -Hll; by eapply B_stable|rw -Hll].
    eapply (rg_stable (R j)); [apply R_trans|by intros *; apply Q_stable|done..].
Qed.

Lemma fleet_overlap w ps a w' ps' :
  fleet w ps a → overlap (w, ps) (w', ps') → ∃ a', fleet w' ps' a'.
Proof using R_refl R_trans Q_stable B_stable G_bound G_R.
  intros Hf Hst. inversion Hst as [? ? i t C m k b t' Hi Hp Hm]; subst.
  destruct (fleet_step w ps a i t C m k Hf Hi Hp) as (b' & t1 & a' & Hm' & Hf').
  rw Hm in Hm'. injection Hm' as <- <-. by exists a'.
Qed.

Lemma fleet_overlaps w ps a w' ps' :
  fleet w ps a → rtc overlap (w, ps) (w', ps') → ∃ a', fleet w' ps' a'.
Proof using R_refl R_trans Q_stable B_stable G_bound G_R.
  intros Hf Hst. revert a Hf. remember (w, ps) as c eqn:Hc. remember (w', ps') as c' eqn:Hc'.
  revert w ps Hc. induction Hst as [c|c [w1 ps1] c'' H1 _ IH]; intros w ps -> a Hf.
  { injection Hc' as -> ->. by exists a. }
  destruct (fleet_overlap _ _ _ _ _ Hf H1) as [a1 Hf1]. by eapply IH.
Qed.

(** Somebody can move as long as there is something left to do. *)
Lemma fleet_progress w ps a :
  fleet w ps a → nf overlap (w, ps) → Forall (λ p, is_done p = true) ps.
Proof using R_refl R_trans Q_stable B_stable G_bound G_R.
  intros Hf Hnf. apply Forall_lookup. intros i p Hp.
  destruct (lookup_lt_is_Some_2 (w_procs w) i) as [t Hi].
  { rw -(fl_length _ _ _ Hf). by eapply lookup_lt_Some. }
  destruct p as [r|C m k]; [done|]. destruct Hnf.
  destruct (fleet_step w ps a i t C m k Hf Hi Hp) as (b & t' & a' & Hm & _).
  eexists. by eapply overlap_step.
Qed.
End Fleet.
End Cut.
End HookSteps.
