(* ===== verification/HookOverlap.v ===== *)
(** * Hooks that overlap: what always holds

    Processes run the cut hooks of [HookSteps] at the same time, with
    administrators among them.  Whatever the order of the actions, every call
    comes to an end, with the shared memory in order; and a tenant that has one
    process only stays within its quota, whatever the other tenants do. *)

From S2P Require Import Prelude Resumption CString Intercept Core CollectorServer CollectorClient LocalPolicy.
From S2P Require Import SlotTable ShmProcess ShmTenant TenantProps TenantSpec HookBase HooksTenant.
From S2P Require Import HooksTenantProps TenantQuota HookSteps.

Module HookOverlap.
Import TenantProps TenantSpec.
Import Intercept Core CollectorClient LocalPolicy HookBase HooksTenant HooksTenantProps TenantQuota HookSteps.
#[local] Existing Instances Tenant.expand_usage Tenant.expand_info Tenant.expand_shm Tenant.expand_state.

Section Overlap.
Context {Srv D : Type} (x : externals Srv D).
Implicit Types (t : thooks Srv D) (a : store) (o : op) (q : request).
#[local] Abbreviation hsteps := (steps (thooks Srv D)).

Lemma live_load s t : live_hooks t → live_hooks (load s t).
Proof. by intros []. Qed.

(** ** What a process maintains from action to action *)

(** [I n a t] holds while the driver has [n] QPs of the process that the tenant's
    usage does not count yet; [T tid]: [tid] is the tenant of the process;
    [P tid u a]: [u] is the usage that the process has read; [W t]: the tests have
    been passed. *)
Record discipline (R : store → store → Prop) (G : store → thooks Srv D → store → thooks Srv D → Prop)
    (I : Z → store → thooks Srv D → Prop) (T : Z → Prop)
    (P : Z → Tenant.tenant_resource_usage_t → store → Prop) (W : thooks Srv D → Prop) : Prop := {
  di_live n a t : I n a t → live_hooks t;
  di_stable n a t a1 s1 : I n a t → R a a1 → I n a1 (load s1 t);
  di_quiet n a t t' : I n a t → kept t t' → drv (base t') = drv (base t) → I n a t' ∧ G a t a t';
  di_tenant n a t : I n a t → tok a t → T (tenant_of a t);
  di_nonneg tid : T tid → 0 ≤ tid;
  di_passed t t' : W t → kept t t' → drv (base t') = drv (base t) → W t';
  di_free t : enable_qp_control (hcfg (base t)) = false → W t;
  di_within a t tid : I 0 a t → T tid → qp_within a tid = true → W t;
  di_read n a t tid v : I n a t → T tid → active a tid = Some v → P tid (v_usage v) a;
  di_read_stable tid u a a1 : T tid → P tid u a → R a a1 → P tid u a1;
  di_other v a t t' : no_qp v → I 0 a t → kept t t' → drv (base t') = dstate (x_driver x v (drv (base t))) →
    I 0 a t' ∧ G a t a t';
  di_create pd attr a t t' : let o := x_driver x (CreateQp pd attr) (drv (base t)) in
    I 0 a t → W t → kept t t' → drv (base t') = dstate o →
    I (if ret o =? 0 then 0 else 1) a t' ∧ G a t a t';
  di_destroy qp a t t' : let o := x_driver x (DestroyQp qp) (drv (base t)) in
    I 0 a t → kept t t' → drv (base t') = dstate o →
    I (if ret o =? 0 then -1 else 0) a t' ∧ G a t a t';
  di_counted n tid rt delta u a t t' : I n a t → T tid → n = (if rt =? 0 then delta else 0) →
    P tid u a → kept t t' → drv (base t') = drv (base t) →
    let a' := snd (spec (UpdateUsage tid (Some (count_usage rt delta u))) a) in
    I 0 a' t' ∧ G a t a' t';
  di_unmetered n tid rt delta a t : I n a t → T tid → n = (if rt =? 0 then delta else 0) →
    tid = 0 ∨ active a tid = None → I 0 a t;
}.

Section Discipline.
Context R G I T P W (Hd : discipline R G I T P W).

(** An action that leaves the store and the driver alone. *)
Lemma rg_quiet {A} (m : M (thooks Srv D) A) (X : A → store → Prop) n a t :
  I n a t →
  (∀ a t1, tok a t1 → kept t t1 → drv (base t1) = drv (base t) → I n a t1 →
     ∃ b t', m t1 = Ret b t' ∧ tok a t' ∧ kept t1 t' ∧ drv (base t') = drv (base t1) ∧ X b a) →
  rg R G (act m) (λ b a' t', I n a' t' ∧ X b a' ∧ drv (base t') = drv (base t)) a t.
Proof using Hd.
  intros HI Hm a1 s1 HR Hok.
  destruct (Hm a1 (load s1 t) Hok) as (b & t' & Hrun & Hok' & Hk & Hdr & HX);
    [done|done|by eapply di_stable|].
  exists b, t', a1.
  destruct (di_quiet _ _ _ _ _ _ Hd n a1 (load s1 t) t') as [HI' HG]; [by eapply di_stable|done..|].
  by split_and!.
Qed.

(** Reading the state of the process. *)
Lemma rg_get {A} (k : thooks Srv D → hsteps A) Q n a t :
  I n a t →
  (∀ a' t', I n a' t' → kept t t' → drv (base t') = drv (base t) → tenant_initialized t' = true →
     0 < pid (base t') → rg R G (k t') Q a' t') →
  rg R G (act get ≫= k) Q a t.
Proof using Hd.
  intros HI Hk a1 s1 HR Hok. exists (load s1 t), (load s1 t), a1.
  pose proof (di_stable _ _ _ _ _ _ Hd _ _ _ _ s1 HI HR) as HI1.
  destruct (di_quiet _ _ _ _ _ _ Hd n a1 (load s1 t) (load s1 t)) as [_ HG]; [done..|].
  split_and!; try done. apply Hk; try done; [apply (tk_init _ _ Hok)|apply (tk_pid _ _ Hok)].
Qed.

Lemma rg_current_tenant n a t :
  I n a t → rg R G current_tenant (λ tid a' t', I n a' t' ∧ T tid ∧ drv (base t') = drv (base t)) a t.
Proof using Hd.
  intros HI. unfold current_tenant. apply (rg_get _ _ n); [done|]. intros a1 t1 HI1 Hk1 Hd1 -> Hp.
  cbn [negb]. eapply rg_then.
  - apply (rg_quiet _ (λ r _, T (if fst r =? 0 then default 0 (snd r) else 0)) n); [done|].
    intros a2 t2 Hok Hk2 Hd2 HI2. rw -(kp_pid _ _ Hk2).
    destruct (current_tenant_run a2 t2 Hok) as (t3 & Hrun & Hok3 & Hb3).
    unfold get_current_tenant_id in Hrun. revert Hrun. run. rw (tk_init _ _ Hok). cbn.
    destruct (ztenant _ t2) as [r t4| |]; [|done..].
    intros Hr. exists r, t4.
    assert (t4 = t3 ∧ (if fst r =? 0 then default 0 (snd r) else 0) = tenant_of a2 t2) as [-> Htid].
    { destruct (fst r =? 0); cbn in Hr; by injection Hr. }
    split_and!; [done|done|by apply kept_base|by rw Hb3|]. rw Htid. by eapply di_tenant.
  - intros r a2 t2 (HI2 & HT & Hd2) _. rw Hd1 in Hd2.
    by destruct (fst r =? 0).
Qed.

(** The update of the usage: what was read is written back with one more or one
    fewer object. *)
Lemma rg_write_count n tid rt delta u a t :
  I n a t → T tid → P tid u a → n = (if rt =? 0 then delta else 0) →
  rg R G (act (ztenant (Tenant.tenant_update_resource_usage tid (Some (count_usage rt delta u)))))
    (λ _ a' t', I 0 a' t') a t.
Proof using Hd.
  intros HI HT HP Hn a1 s1 HR Hok.
  destruct (ztenant_run a1 (load s1 t) (UpdateUsage tid (Some (count_usage rt delta u)))
    (Tenant.tenant_update_resource_usage tid (Some (count_usage rt delta u))) Code)
    as (r & t' & Hrun & _ & Hok' & Hb); [done|split; [by eapply di_nonneg|done]|done|].
  exists r, t', (snd (spec (UpdateUsage tid (Some (count_usage rt delta u))) a1)).
  pose proof (kept_base _ _ Hb) as Hk.
  destruct (di_counted _ _ _ _ _ _ Hd n tid rt delta u a1 (load s1 t) t') as [HI' HG];
    [by eapply di_stable|done..|by eapply di_read_stable|done|by rw Hb|].
  by split_and!.
Qed.

Lemma rg_update_count n tid rt delta a t :
  I n a t → T tid → n = (if rt =? 0 then delta else 0) →
  rg R G (update_count tid rt delta) (λ _ a' t', I 0 a' t') a t.
Proof using Hd.
  intros HI HT Hn. unfold update_count. apply (rg_get _ _ n); [done|]. intros a1 t1 HI1 _ _ -> _.
  cbn [negb]. rw orb_false_r. destruct (Z.eqb_spec tid 0) as [->|H0].
  { cbn. eapply di_unmetered; [done..|by left]. }
  eapply rg_then.
  - apply (rg_quiet _ (λ r a, (if fst r =? 0 then snd r else None) = v_usage <$> active a tid) n); [done|].
    intros a2 t2 Hok _ _ HI2.
    destruct (ztenant_run a2 t2 (GetUsage tid (Some Tenant.usage_zero))
      (Tenant.tenant_get_resource_usage tid (Some Tenant.usage_zero))
      (λ r, UsageOf (if fst r =? 0 then snd r else None))) as (r & t3 & Hrun & Hf & Hok3 & Hb3);
      [done|split; [by eapply di_nonneg|done]|done|].
    injection Hf as Hf. exists r, t3. split_and!; [done|done|by apply kept_base|by rw Hb3|done].
  - intros r a2 t2 (HI2 & HX & _) _. destruct (fst r =? 0); cbn [negb].
    + destruct (snd r) as [u|] eqn:Hu; cbn [fmap option_fmap option_map] in *.
      * destruct (active a2 tid) as [v|] eqn:Hv; [|done]. injection HX as ->.
        eapply rg_then; [eapply (rg_write_count n); [done..|by eapply di_read|done]|].
        by intros r3 a3 t3 HI3 _.
      * assert (HI0 : I 0 a2 t2).
        { eapply di_unmetered; [done..|right]. revert HX. by destruct (active a2 tid). }
        eapply rg_then; [apply (rg_quiet _ (λ _ _, True) 0); [done|]|by intros r3 a3 t3 (? & _) _].
        intros a3 t3 Hok3 _ _ _. exists (-1), t3. split_and!; try done.
        unfold ztenant, zoom, Tenant.tenant_update_resource_usage. by destruct t3.
    + cbn. eapply di_unmetered; [done..|right]. revert HX. by destruct (active a2 tid).
Qed.

Lemma rg_count_one n rt delta a t :
  I n a t → n = (if rt =? 0 then delta else 0) →
  rg R G (count_one rt delta) (λ _ a' t', I 0 a' t') a t.
Proof using Hd.
  intros HI Hn. unfold count_one. eapply rg_then; [by apply (rg_current_tenant n)|].
  intros tid a1 t1 (HI1 & HT & _) _. by apply (rg_update_count n).
Qed.

(** The tests. *)
Lemma rg_info n tid a t :
  I n a t → T tid →
  rg R G (act (ztenant (Tenant.tenant_get_info tid (Some Tenant.info_zero))))
    (λ r a' t', I n a' t' ∧ (if fst r =? 0 then view <$> snd r else None) = live a' tid ∧
       drv (base t') = drv (base t)) a t.
Proof using Hd.
  intros HI HT. apply (rg_quiet _ (λ (r : Z * option Tenant.tenant_info_t) a, (if fst r =? 0 then view <$> snd r else None) = live a tid) n); [done|].
  intros a1 t1 Hok _ _ _. destruct (info_run a1 t1 tid Hok) as (r & t2 & Hrun & Hf & Hok2 & Hb);
    [by eapply di_nonneg|].
  exists r, t2. split_and!; [done|done|by apply kept_base|by rw Hb|done].
Qed.

Lemma rg_qp_limit tid a t :
  I 0 a t → T tid →
  rg R G (qp_limit tid) (λ r a' t', I 0 a' t' ∧ (r = true → W t')) a t.
Proof using Hd.
  intros HI HT. unfold qp_limit. apply (rg_get _ _ 0); [done|]. intros a1 t1 HI1 _ _ -> _.
  cbn [negb]. rw orb_false_r. destruct (Z.eqb_spec tid 0) as [->|H0].
  { split; [done|]. intros _. by eapply di_within. }
  eapply rg_then; [by apply (rg_info 0)|]. intros r a2 t2 (HI2 & HX & _) _.
  destruct (fst r =? 0); cbn [negb].
  - split; [done|]. intros Hle. eapply di_within; [done..|].
    unfold qp_within. rw (proj2 (Z.eqb_neq _ _) H0) -HX. cbn [orb].
    destruct (snd r); cbn in *; [done|]. revert Hle.
    by rw (proj2 (Z.leb_le _ _)) //; apply u32_range.
  - by split.
Qed.

Lemma rg_mr_limit tid length a t :
  I 0 a t → T tid → rg R G (mr_limit tid length) (λ _ a' t', I 0 a' t') a t.
Proof using Hd.
  intros HI HT. unfold mr_limit. apply (rg_get _ _ 0); [done|]. intros a1 t1 HI1 _ _ -> _.
  cbn [negb]. destruct (_ || _); [done|].
  eapply rg_then; [by apply (rg_info 0)|]. intros r a2 t2 (HI2 & _) _. by destruct (fst r =? 0).
Qed.

Lemma rg_restrictions attr a t :
  I 0 a t →
  rg R G (restrictions (Some attr)) (λ r a' t', I 0 a' t' ∧ (r = true → W t')) a t.
Proof using Hd.
  intros HI. unfold restrictions. apply (rg_get _ _ 0); [done|]. intros a1 t1 HI1 _ _ _ Hp.
  destruct (enable_qp_control (hcfg (base t1))) eqn:Hc; cbn [negb]; cycle 1.
  { split; [done|]. intros _. by eapply di_free. }
  destruct (type_denied _ _); [by split|].
  eapply rg_then; [by apply (rg_current_tenant 0)|]. intros tid a2 t2 (HI2 & HT & _) Hk2.
  eapply rg_then; [by apply rg_qp_limit|]. intros within a3 t3 (HI3 & HW) Hk3.
  destruct within; cbn [negb]; [|by split]. specialize (HW eq_refl).
  pose proof (kept_trans _ _ _ Hk2 Hk3) as Hk13.
  eapply rg_then; [apply (rg_quiet _ (λ _ _, True) 0); [done|]|].
  { intros a4 t4 Hok4 Hk4 _ _. pose proof (kp_pid _ _ (kept_trans _ _ _ Hk13 Hk4)) as Hpid. rw -Hpid.
    eexists _, t4. split_and!; [|done..]. apply zbase_same, process_reading; apply Hok4. }
  intros proc a4 t4 (HI4 & _ & Hd4) Hk4. destruct (process_denied _ _); [by split|].
  eapply rg_then; [apply (rg_quiet _ (λ _ _, True) 0); [done|]|].
  { intros a5 t5 Hok5 _ _ _. eexists _, t5. split_and!; [|done..]. apply zbase_same, global_reading. }
  intros glob a5 t5 (HI5 & _ & Hd5) Hk5. destruct (global_denied _ _); [by split|]. split; [done|].
  intros _. eapply di_passed; [done..|by eapply kept_trans|congruence].
Qed.

(** The driver. *)
Lemma rg_call v m (X : Z → Prop) a t :
  I 0 a t →
  (∀ a1 t1 t', kept t t1 → drv (base t1) = drv (base t) → I 0 a1 t1 → kept t1 t' →
     drv (base t') = dstate (x_driver x v (drv (base t1))) →
     I (m (ret (x_driver x v (drv (base t1))))) a1 t' ∧ G a1 t1 a1 t') →
  rg R G (act (zbase (call x v))) (λ r a' t', I (m r) a' t') a t.
Proof using Hd.
  intros HI Hm a1 s1 HR Hok. pose proof (di_stable _ _ _ _ _ _ Hd _ _ _ _ s1 HI HR) as HI1.
  destruct (driver_run x a1 (load s1 t) v Hok) as (t' & Hrun & Hok' & Hk & Hdr & _).
  eexists _, t', a1. destruct (Hm a1 (load s1 t) t') as [HI' HG]; [done..|].
  split_and!; try done.
Qed.

Lemma rg_other v a t :
  no_qp v → I 0 a t → rg R G (act (zbase (call x v))) (λ _ a' t', I 0 a' t') a t.
Proof using Hd.
  intros Hv HI. apply (rg_call v (λ _, 0) (λ _, True)); [done|]. intros a1 t1 t' _ _ HI1 Hk Hdr.
  by eapply di_other.
Qed.

Lemma rg_create pd attr a t :
  I 0 a t → W t →
  rg R G (act (zbase (call x (CreateQp pd attr)))) (λ r a' t', I (if r =? 0 then 0 else 1) a' t') a t.
Proof using Hd.
  intros HI HW. apply (rg_call _ (λ r, if r =? 0 then 0 else 1) (λ _, True)); [done|].
  intros a1 t1 t' Hk1 Hd1 HI1 Hk Hdr. eapply di_create; try done. by eapply di_passed.
Qed.

Lemma rg_destroy qp a t :
  I 0 a t →
  rg R G (act (zbase (call x (DestroyQp qp)))) (λ r a' t', I (if r =? 0 then -1 else 0) a' t') a t.
Proof using Hd.
  intros HI. apply (rg_call _ (λ r, if r =? 0 then -1 else 0) (λ _, True)); [done|].
  intros a1 t1 t' Hk1 Hd1 HI1 Hk Hdr. by eapply di_destroy.
Qed.

(** What the process does by itself. *)
Lemma rg_fail e r n a t :
  I n a t → rg R G (act (zbase (fail_with e r))) (λ _ a' t', I n a' t') a t.
Proof using Hd.
  intros HI. eapply rg_mono; [|apply (rg_quiet _ (λ _ _, True) n); [done|]]; [by intros ? ? ? []|].
  intros a1 t1 Hok _ _ _. destruct (refused_run a1 t1 e r Hok) as (t' & ? & ? & ? & ? & _).
  by eexists _, t'.
Qed.

Lemma rg_local f n a t :
  harmless f → I n a t → rg R G (act (count_local f)) (λ _ a' t', I n a' t') a t.
Proof using Hd.
  intros Hf HI. eapply rg_mono; [|apply (rg_quiet _ (λ _ _, True) n); [done|]]; [by intros ? ? ? []|].
  intros a1 t1 Hok _ _ _. destruct (local_run a1 t1 f Hok Hf) as (t' & ? & ? & ? & ? & _).
  by eexists _, t'.
Qed.

Lemma rg_publish n a t : I n a t → rg R G (act publish_local) (λ _ a' t', I n a' t') a t.
Proof using Hd.
  intros HI. eapply rg_mono; [|apply (rg_quiet _ (λ _ _, True) n); [done|]]; [by intros ? ? ? []|].
  intros a1 t1 Hok _ _ _. destruct (publish_local_run a1 t1 Hok) as (t' & ? & ? & ? & ? & _).
  by eexists _, t'.
Qed.

Lemma rg_cut_hook name v failure body (Q : Z → store → thooks Srv D → Prop) a t :
  name ∈ needed_names → I 0 a t → (∀ a' t', I 0 a' t' → rg R G body Q a' t') →
  rg R G (cut_hook x name v failure body) Q a t.
Proof using Hd.
  intros Hn HI Hbody. unfold cut_hook.
  eapply rg_then; [apply (rg_quiet _ (λ _ _, True) 0); [done|]|].
  { intros a1 t1 Hok _ _ _. exists tt, t1. split_and!; try done. unfold once. run. by rw (tk_once _ _ Hok). }
  intros r1 a1 t1 (HI1 & _) _. apply (rg_get _ _ 0); [done|]. intros a2 t2 HI2 _ _ _ _.
  destruct (di_live _ _ _ _ _ _ Hd _ _ _ HI2) as [-> Hr]. rw (Hr name Hn). cbn. by apply Hbody.
Qed.

(** What returns a value at the end. *)
Lemma rg_end {A} (p : hsteps A) (r : Z) n a t :
  rg R G p (λ _ a' t', I n a' t') a t → rg R G (p;; mret r) (λ _ a' t', I n a' t') a t.
Proof. intros Hp. eapply rg_seq; [exact Hp|]. done. Qed.

(** The end of a destroying hook. *)
Lemma rg_destroyed f n rt a t r :
  harmless f → (if r =? 0 then I n a t else I 0 a t) → n = (if rt =? 0 then -1 else 0) →
  rg R G ((if negb (r =? 0) then mret tt else act (count_local f);; count_one rt (-1));; mret r)
    (λ _ a' t', I 0 a' t') a t.
Proof using Hd.
  intros Hf HI Hn. destruct (r =? 0); cbn [negb]; [|done].
  apply rg_end. eapply rg_then; [by apply (rg_local f n)|].
  intros ? a2 t2 H2 _. by apply (rg_count_one n).
Qed.

(** The hooks of CQs and PDs. *)
Lemma rg_created v rt a t :
  no_qp v → rt ≠ 0 → I 0 a t →
  rg R G (p ← act (zbase (call x v)); (if p =? 0 then mret tt else count_one rt 1);; mret p)
    (λ _ a' t', I 0 a' t') a t.
Proof using Hd.
  intros Hv Hrt HI. eapply rg_then; [by apply rg_other|]. intros r a1 t1 HI1 _.
  destruct (r =? 0); [done|]. apply rg_end, (rg_count_one 0); [done|].
  by rw (proj2 (Z.eqb_neq _ _) Hrt).
Qed.

Lemma rg_removed v rt a t :
  no_qp v → rt ≠ 0 → I 0 a t →
  rg R G (r ← act (zbase (call x v)); (if negb (r =? 0) then mret tt else count_one rt (-1));; mret r)
    (λ _ a' t', I 0 a' t') a t.
Proof using Hd.
  intros Hv Hrt HI. eapply rg_then; [by apply rg_other|]. intros r a1 t1 HI1 _.
  destruct (r =? 0); cbn [negb]; [|done]. apply rg_end, (rg_count_one 0); [done|].
  by rw (proj2 (Z.eqb_neq _ _) Hrt).
Qed.

Lemma rg_op o a t : I 0 a t → rg R G (op_steps x o) (λ _ a' t', I 0 a' t') a t.
Proof using Hd.
  intros HI. destruct o as [pd attr|qp|pd addr len acc|mr|c n cc ch v|cq|c|pd]; cbn [op_steps];
    apply rg_cut_hook; try done; try (apply is_hook; reflexivity);
    clear a t HI; intros a t HI.
  - eapply rg_then; [by apply rg_restrictions|]. intros r a1 t1 (HI1 & HW) _.
    destruct r; cbn [negb]; [|by apply rg_fail]. unfold make_qp. eapply rg_then; [by apply rg_create; auto|].
    cbn beta. intros q a2 t2 HI2 _. destruct (q =? 0); [done|].
    apply rg_end.
    eapply rg_then; [apply (rg_local _ 1); [apply create_qp_harmless|exact HI2]|].
    intros r3 a3 t3 HI3 _. eapply rg_then; [by apply (rg_publish 1)|]. intros r4 a4 t4 HI4 _.
    by apply (rg_count_one 1).
  - eapply rg_then; [by apply rg_destroy|]. cbn beta. intros r a1 t1 HI1 _.
    apply (rg_destroyed _ (-1) 0); [apply destroy_qp_harmless| |done]. by destruct (r =? 0).
  - eapply rg_then; [by apply (rg_current_tenant 0)|]. intros tid a1 t1 (HI1 & HT & _) _.
    eapply rg_then; [by apply rg_mr_limit|]. intros within a2 t2 HI2 _.
    destruct within; cbn [negb]; [|by apply rg_fail].
    eapply rg_then; [by apply rg_other|]. intros r a3 t3 HI3 _. destruct (r =? 0); [done|].
    apply rg_end. eapply rg_then; [apply (rg_local _ 0); [apply reg_mr_harmless|exact HI3]|].
    intros r4 a4 t4 HI4 _. by apply (rg_update_count 0).
  - apply (rg_get _ _ 0); [done|]. intros a1 t1 HI1 _ _ _ _.
    eapply rg_then; [by apply rg_other|]. intros r a2 t2 HI2 _.
    apply (rg_destroyed _ 0 1); [|by destruct (r =? 0)|done].
    apply dereg_harmless. destruct (mr =? 0); [done|apply u64_range].
  - by apply rg_created.
  - by apply rg_removed.
  - by apply rg_created.
  - by apply rg_removed.
Qed.

(** A sequence of hooks. *)
Lemma rg_program os a t :
  I 0 a t → rg R G (program x (Hook <$> os)) (λ _ a' t', I 0 a' t') a t.
Proof using Hd.
  revert a t. induction os as [|o os IH]; intros a t HI; [done|]. cbn [fmap list_fmap program request_steps].
  eapply rg_then; [by apply rg_op|]. intros r a1 t1 HI1 _. eapply rg_seq; [by apply IH|]. done.
Qed.
End Discipline.

(** ** Every call comes to an end *)

Definition anyR (a a' : store) : Prop := True.
Definition anyG a t a' t' : Prop := True.

Lemma no_discipline :
  discipline anyR anyG (λ _ _ t, live_hooks t) (λ tid, 0 ≤ tid) (λ _ _ _, True) (λ _, True).
Proof.
  split; intros; try done.
  all: try (split; [|done]; by eapply live_kept).
  - by apply live_load.
  - by apply tenant_of_nonneg.
Qed.

Lemma sound_respond c a t :
  TenantSpec.real c → tok a t →
  ∃ r t', ztenant (respond c) t = Ret r t' ∧ tok (snd (spec c a)) t' ∧ base t' = base t.
Proof.
  intros Hc Hok.
  destruct (call_answers a (tshm t) (tk_ready _ _ Hok) (tk_store _ _ Hok) c Hc) as (s' & Hrun & Hr' & Ha').
  exists (spec c a).1, (t <| tshm := s' |>). unfold ztenant, zoom. rw Hrun.
  split_and!; [done| |done]. destruct Hok. split; try done. apply (ready_ptr _ Hr').
Qed.

Lemma request_safe q a t :
  match q with Hook _ => True | Admin c => TenantSpec.real c end → live_hooks t →
  rg anyR anyG (request_steps x q) (λ _ _ t', live_hooks t') a t.
Proof.
  intros Hq Hl. destruct q as [o|c]; cbn [request_steps]; [by apply (rg_op _ _ _ _ _ _ no_discipline)|].
  intros a1 s1 _ Hok. destruct (sound_respond c a1 (load s1 t) Hq Hok) as (r & t' & Hrun & Hok' & Hb).
  exists r, t', (snd (spec c a1)). pose proof (kept_base _ _ Hb) as Hk.
  split_and!; try done. eapply live_kept; [exact Hk|]. by apply live_load.
Qed.

Definition admissible q : Prop := match q with Hook _ => True | Admin c => TenantSpec.real c end.

Lemma program_safe qs a t :
  Forall admissible qs → live_hooks t →
  rg anyR anyG (program x qs) (λ _ _ t', live_hooks t') a t.
Proof.
  intros Hqs. revert a t. induction Hqs as [|q qs Hq _ IH]; intros a t Hl; [done|]. cbn [program].
  eapply rg_seq; [by apply request_safe|]. intros r a1 t1 Hl1. eapply rg_seq; [by apply IH|]. done.
Qed.

(** C15: processes may run their hooks at the same time, with administrators who
    create, delete, suspend, bind and re-quota tenants among them: whatever the
    order of the critical sections, no execution goes on for ever, none gets stuck
    (a run that cannot go on has finished every call), and at every moment the
    tenant shared memory is in order and its lock free between the sections. *)
Theorem overlapping_calls_always_return a w qss w' ps' :
  (∀ i t, w_procs w !! i = Some t → tok a (load (w_shm w) t) ∧ live_hooks t) →
  shm_ok (w_shm w) → Tenant.lock (w_shm w) = 0 →
  length qss = length (w_procs w) → Forall (Forall admissible) qss →
  sn overlap (w, program x <$> qss) ∧
  (rtc overlap (w, program x <$> qss) (w', ps') →
     shm_ok (w_shm w') ∧ Tenant.lock (w_shm w') = 0 ∧
     (nf overlap (w', ps') → Forall (λ p, is_done p = true) ps')).
Proof.
  intros Hp Hs Hl Hn Hqs. split; [apply overlap_sn|]. intros Hst.
  assert (Hf : fleet (λ _, anyR) (λ _, anyG) (λ _ _ _ t, live_hooks t) (λ _ _ _, True) w
    (program x <$> qss) a).
  { split; [done..|by rw length_fmap|]. intros i t p Hi (qs & -> & Hq)%list_lookup_fmap_Some.
    destruct (Hp i t Hi) as [Hok Hlive]. split_and!; [done..|].
    apply program_safe; [by eapply Forall_lookup_1|by apply live_load]. }
  eapply fleet_overlaps in Hf as [a' Hf']; [|try done..].
  - split_and!; [apply Hf'|apply Hf'|]. eapply fleet_progress; [..|exact Hf']; try done.
    intros i r b u b1 s1 Hlu _. by apply live_load.
  - intros i r b u b1 s1 Hlu _. by apply live_load.
Qed.

(** ** A tenant with one process *)

Section Metered.
Context (qps : D → Z) (Hq : counts_qps x qps).

(** The others leave the tenant of the process and the bindings alone. *)
Definition quietR (tid : Z) (a a1 : store) : Prop := owner a1 = owner a ∧ live a1 tid = live a tid.

Definition bounded (tid quota : Z) a t : Prop :=
  ∃ v, active a tid = Some v ∧ Tenant.max_qp_per_tenant (v_quota v) = quota ∧
    qps (drv (base t)) ≤ quota.

Definition ownG (tid quota : Z) a t a' t' : Prop :=
  owner a' = owner a ∧ (∀ k, k ≠ tid → live a' k = live a k) ∧ bounded tid quota a' t'.

(** The process is controlled and bound to the tenant, whose usage lacks [n] of
    its QPs. *)
Record metered (tid quota n : Z) a t : Prop := {
  me_live : live_hooks t;
  me_control : enable_qp_control (hcfg (base t)) = true;
  me_owner : owner a !! pid (base t) = Some tid;
  me_usage : ∃ v, active a tid = Some v ∧ Tenant.max_qp_per_tenant (v_quota v) = quota ∧
    qps_used v = qps (drv (base t)) - n ∧ qps (drv (base t)) ≤ quota;
}.

Lemma active_same a a1 tid : live a1 tid = live a tid → active a1 tid = active a tid.
Proof. unfold active. by intros ->. Qed.

Lemma metered_stable tid quota n a t a1 s1 :
  metered tid quota n a t → quietR tid a a1 → metered tid quota n a1 (load s1 t).
Proof.
  intros [Hl Hc Ho (v & Hv & ?)] [Ho' Hlv]. split; [by apply live_load|done|by rw Ho'|].
  exists v. by rw (active_same _ _ _ Hlv).
Qed.

Lemma metered_bounded tid quota n a t : metered tid quota n a t → bounded tid quota a t.
Proof. intros [_ _ _ (v & ? & ? & _ & ?)]. by exists v. Qed.

(** The store is as before, the process has [d] more QPs, of which [d] are not
    counted. *)
Lemma metered_moves tid quota n n' a t t' :
  metered tid quota n a t → kept t t' → qps (drv (base t')) = qps (drv (base t)) + (n' - n) →
  qps (drv (base t')) ≤ quota → metered tid quota n' a t' ∧ ownG tid quota a t a t'.
Proof.
  intros [Hl Hc Ho (v & Hv & Hqt & Hu & Hle)] Hk Hd Hle'.
  assert (metered tid quota n' a t') as Hm; [|split; [done|split_and!; [done|done|by eapply metered_bounded]]].
  split; [by eapply live_kept|by rw (kp_cfg _ _ Hk)|by rw (kp_pid _ _ Hk)|].
  exists v. split_and!; [done|done|lia|done].
Qed.

Lemma metered_within tid quota a t :
  tid ≠ 0 → metered tid quota 0 a t → qp_within a tid = true → qps (drv (base t)) < quota.
Proof.
  intros H0 [_ _ _ (v & Hv & <- & Hu & _)] Hin. unfold qp_within in Hin.
  rw (proj2 (Z.eqb_neq tid 0) H0) in Hin. cbn in Hin. unfold active in Hv.
  destruct (live a tid) as [w|]; [|done]. cbn in Hv. destruct (is_active w); [|done].
  injection Hv as ->. apply negb_true_iff, Z.leb_gt in Hin. unfold qps_used in Hu. lia.
Qed.

Lemma update_counted tid rt delta v a :
  active a tid = Some v →
  snd (spec (UpdateUsage tid (Some (count_usage rt delta (v_usage v)))) a) = counted tid rt delta a.
Proof. intros Hv. cbn [spec]. unfold counted. by rw Hv. Qed.

Lemma metered_counted tid quota n rt delta u a t t' :
  is_u32 quota → metered tid quota n a t → n = (if rt =? 0 then delta else 0) →
  v_usage <$> active a tid = Some u → kept t t' → drv (base t') = drv (base t) →
  let a' := snd (spec (UpdateUsage tid (Some (count_usage rt delta u))) a) in
  metered tid quota 0 a' t' ∧ ownG tid quota a t a' t'.
Proof using Hq.
  intros Hw Hm Hn Hu Hk Hd a'. destruct Hm as [Hl Hc Ho (v & Hv & Hqt & Hus & Hle)].
  rw Hv in Hu. injection Hu as <-. unfold a'. rw (update_counted _ _ _ _ _ Hv).
  destruct (counted_qps tid rt delta a v Hv) as (v' & Hv' & Hq' & Ho' & Hu').
  assert (metered tid quota 0 (counted tid rt delta a) t') as Hm.
  { split; [by eapply live_kept|by rw (kp_cfg _ _ Hk)|by rw Ho' (kp_pid _ _ Hk)|].
    exists v'. rw Hq' Hu' Hus Hd. split_and!; [done|done| |done].
    rw -Hn. pose proof (qps_nonneg _ _ Hq (drv (base t))).
    rw u32_small; unfold is_u32 in *; lia. }
  split; [done|]. split_and!; [done| |by eapply metered_bounded].
  intros k Hne. unfold counted. rw Hv. cbn. by rw decide_False.
Qed.

Lemma metered_discipline tid quota :
  0 < tid → is_u32 quota →
  discipline (quietR tid) (ownG tid quota) (metered tid quota) (λ k, k = tid)
    (λ k u a, v_usage <$> active a k = Some u)
    (λ t, enable_qp_control (hcfg (base t)) = true → qps (drv (base t)) < quota).
Proof using Hq.
  intros H0 Hw. split.
  - by intros n a t [].
  - by apply metered_stable.
  - intros n a t t' Hm Hk Hd. eapply metered_moves; [done|done|rw Hd; lia|].
    destruct Hm as [_ _ _ (v & ? & ? & ? & ?)]. by rw Hd.
  - intros n a t Hm _. unfold tenant_of. by rw (me_owner _ _ _ _ _ Hm).
  - intros k ->. lia.
  - intros t t' HW Hk Hd. rw (kp_cfg _ _ Hk) Hd. done.
  - by intros t ->.
  - intros a t k Hm -> Hin _. apply (metered_within tid quota a t); [lia|done..].
  - by intros n a t k v _ -> ->.
  - intros k u a a1 -> Hu [_ Hlv]. by rw (active_same _ _ _ Hlv).
  - intros v a t t' Hv Hm Hk Hd.
    eapply metered_moves; [done|done|rw Hd (qps_other _ _ Hq) //; lia|].
    rw Hd (qps_other _ _ Hq) //. by destruct Hm as [_ _ _ (w & ? & ? & ? & ?)].
  - intros pd attr a t t' o Hm HW Hk Hd. specialize (HW (me_control _ _ _ _ _ Hm)).
    pose proof (qps_create _ _ Hq pd attr (drv (base t))) as Hc. cbv zeta in Hc. fold o in Hc.
    destruct (ret o =? 0); eapply metered_moves; try done; rw Hd Hc; lia.
  - intros qp a t t' o Hm Hk Hd.
    pose proof (qps_destroy _ _ Hq qp (drv (base t))) as Hc. cbv zeta in Hc. fold o in Hc.
    destruct Hm as [? ? ? (w & ? & ? & ? & ?)] eqn:E. clear E.
    destruct (ret o =? 0); eapply metered_moves; try done; rw Hd Hc; lia.
  - intros n k rt delta u a t t' Hm -> Hn Hu Hk Hd. by eapply metered_counted.
  - intros n k rt delta a t Hm -> Hn [Hz|Hv]; [lia|].
    destruct (me_usage _ _ _ _ _ Hm) as (v & Hv' & _). by rw Hv in Hv'.
Qed.

(** What a process that is the only one of its tenant maintains. *)
Lemma group_metered tid a s t :
  group qps tid a (mk_world s [t]) →
  ∃ v, active a tid = Some v ∧ is_u32 (Tenant.max_qp_per_tenant (v_quota v)) ∧ 0 < tid ∧
    tok a (load s t) ∧ metered tid (Tenant.max_qp_per_tenant (v_quota v)) 0 a (load s t).
Proof.
  intros [Hp _ (v & Hv & Hu & Hle & Hw)]. destruct (Hp 0%nat t eq_refl) as (Hok & Hl & Hc & Ho).
  cbn [w_shm w_procs total] in *. exists v. split_and!; [done|done| |done|].
  - pose proof (tenant_of_nonneg a _ Hok) as H0. unfold tenant_of in H0.
    change (base (load s t)) with (base t) in H0. rw Ho in H0. cbn in H0.
    destruct (decide (tid = 0)) as [->|]; [|lia]. by rw (no_default a _ Hok) in Hv.
  - split; [by apply live_load|done..|]. exists v. change (base (load s t)) with (base t).
    split_and!; [done|done|lia|lia].
Qed.

(** The tenant of process [i], and its quota; there is no tenant beyond the list. *)
Definition tenant_no (tids : list Z) (i : nat) : Z := default (-1 - Z.of_nat i) (tids !! i).
Definition quota_no a (tids : list Z) (i : nat) : Z :=
  match active a (tenant_no tids i) with
  | Some v => Tenant.max_qp_per_tenant (v_quota v)
  | None => 0
  end.

Lemma tenant_no_inj tids i j :
  NoDup tids → Forall (Z.lt 0) tids → i ≠ j → tenant_no tids i ≠ tenant_no tids j.
Proof.
  intros Hnd Hpos Hne. unfold tenant_no.
  destruct (tids !! i) as [k|] eqn:Hi, (tids !! j) as [l|] eqn:Hj; cbn.
  - intros ->. by apply Hne, (NoDup_lookup tids i j l).
  - pose proof (Forall_lookup_1 _ _ _ _ Hpos Hi). cbn in *. lia.
  - pose proof (Forall_lookup_1 _ _ _ _ Hpos Hj). cbn in *. lia.
  - lia.
Qed.

Lemma live_quota a s tid v :
  refines a s → active a tid = Some v →
  ∃ ti, Tenant.tenants s !! Z.to_nat tid = Some ti ∧ v = view ti.
Proof.
  intros Hs Hv. unfold active in Hv. destruct (live a tid) as [v'|] eqn:Hl; [|done]. cbn in Hv.
  destruct (is_active v'); [|done]. injection Hv as ->.
  destruct (decide (0 ≤ tid < Tenant.MAX_TENANTS)) as [Hin|Hout];
    [|by rw (ref_out _ _ Hs _ Hout) in Hl].
  rw (ref_live _ _ Hs _ Hin) in Hl. destruct (_ !! _) as [ti|]; [|done]. cbn in Hl.
  exists ti. case_decide; [done|]. by injection Hl as <-.
Qed.

(** C16: the quota survives overlapping as long as no two processes share a
    tenant.  Processes of different tenants may run any hooks at the same time,
    action by action: at every moment each holds at most as many QPs as its tenant
    may have, and when its calls are over the tenant's recorded count is the number
    of QPs it holds. *)
Theorem one_process_tenants_keep_quota a w tids oss w' ps' :
  NoDup tids → length tids = length (w_procs w) → length oss = length (w_procs w) →
  shm_ok (w_shm w) → Tenant.lock (w_shm w) = 0 →
  (∀ i t tid, w_procs w !! i = Some t → tids !! i = Some tid →
     group qps tid a (mk_world (w_shm w) [t])) →
  rtc overlap (w, (λ os, program x (Hook <$> os)) <$> oss) (w', ps') →
  ∀ i t' tid p, w_procs w' !! i = Some t' → tids !! i = Some tid → ps' !! i = Some p →
    ∃ ti, Tenant.tenants (w_shm w') !! Z.to_nat tid = Some ti ∧
      qps (drv (base t')) ≤ Tenant.max_qp_per_tenant (Tenant.quota ti) ∧
      (is_done p = true → u32 (Tenant.qp_count (Tenant.usage ti)) = qps (drv (base t'))).
Proof using Hq.
  intros Hnd Hn Hno Hs Hl Hg Hst.
  set (T := tenant_no tids). set (q := quota_no a tids).
  assert (Hf : fleet (λ i, quietR (T i)) (λ i, ownG (T i) (q i))
    (λ i _ b t, metered (T i) (q i) 0 b t) (λ i b t, bounded (T i) (q i) b t) w
    ((λ os, program x (Hook <$> os)) <$> oss) a).
  { split; [done..|by rw length_fmap|]. intros i t p Hi (os & -> & _)%list_lookup_fmap_Some.
    destruct (lookup_lt_is_Some_2 tids i) as [tid Htid]; [rw Hn; by eapply lookup_lt_Some|].
    destruct (group_metered tid a (w_shm w) t (Hg i t tid Hi Htid)) as (v & Hv & Hw & H0 & Hok & Hm).
    assert (T i = tid) as -> by (by rw /T /tenant_no Htid).
    assert (q i = Tenant.max_qp_per_tenant (v_quota v)) as -> by (by rw /q /quota_no /tenant_no Htid /= Hv).
    split_and!; [done|by eapply metered_bounded|].
    by apply (rg_program _ _ _ _ _ _ (metered_discipline _ _ H0 Hw)). }
  assert (Hpos : Forall (Z.lt 0) tids).
  { apply Forall_lookup. intros i tid Htid. destruct (lookup_lt_is_Some_2 (w_procs w) i) as [t Hi].
    { rw -Hn. by eapply lookup_lt_Some. }
    by destruct (group_metered tid a (w_shm w) t (Hg i t tid Hi Htid)) as (v & _ & _ & H0 & _). }
  eapply fleet_overlaps in Hf as [a' Hf']; [..|exact Hst].
  - intros i t' tid p Hi Htid Hp. destruct (fl_procs _ _ _ _ _ _ _ Hf' i t' p Hi Hp) as (Hok & Hb & Hrg).
    assert (HT : T i = tid) by (by rw /T /tenant_no Htid). rw HT in Hb Hrg.
    destruct Hb as (v & Hv & Hqt & Hle).
    destruct (live_quota _ _ _ _ (tk_store _ _ Hok) Hv) as (ti & Hti & ->). cbn in Hqt, Hti, Hle.
    exists ti. split_and!; [done|by rw Hqt|]. intros Hdone. destruct p; [|done].
    destruct Hrg as [_ _ _ (v' & Hv' & _ & Hu & _)]. rw Hv in Hv'. injection Hv' as <-.
    unfold qps_used in Hu. cbn in Hu. lia.
  - by intros i b.
  - intros i b c d [] []. split; congruence.
  - intros i r b t b1 s1 Hm HR.
    by eapply metered_stable.
  - intros i b t b1 s1 (v & Hv & ?) [_ Hlv]. exists v. by rw (active_same _ _ _ Hlv).
  - by intros i b t b' t' (_ & _ & ?).
  - intros i j b t b' t' Hne (Ho & Hlv & _). split; [done|]. apply Hlv, tenant_no_inj; auto.
Qed.

End Metered.
End Overlap.

(** ** Examples *)

Definition pair_world : world (Srv:=unit) (D:=nat) :=
  mk_world (Tenant.shm (example_tenant pair_setup)) [example pair_setup 100; example pair_setup 101].

#[local] Opaque example_tenant.

Lemma pair_group i t tid :
  w_procs pair_world !! i = Some t → [3; 4] !! i = Some tid →
  group Z.of_nat tid pair_store (mk_world (w_shm pair_world) [t]).
Proof.
  assert (∀ n tid v, 0 < n → owner pair_store !! n = Some tid → active pair_store tid = Some v →
    qps_used v = 0 → is_u32 (Tenant.max_qp_per_tenant (v_quota v)) →
    group Z.of_nat tid pair_store (mk_world (w_shm pair_world) [example pair_setup n])) as Hg.
  { clear. intros n tid v Hn Ho Hv Hu Hw. split.
    - intros [|i] t; cbn [w_procs w_shm pair_world lookup list_lookup]; [|done]. intros [= <-].
      rw load_example. split_and!; [by apply example_tok; [apply pair_real|]|apply example_live|done|done].
    - exact (tk_store _ _ (example_tok pair_setup 100 pair_real eq_refl)).
    - exists v. split_and!; [done|done|cbn; unfold is_u32 in *; lia|done]. }
  destruct i as [|[|i]]; cbn; [| |done]; intros [= <-] [= <-];
    (eapply Hg; [done|vm_compute; reflexivity..|done]).
Qed.

Lemma pair_shm : shm_ok (w_shm pair_world) ∧ Tenant.lock (w_shm pair_world) = 0.
Proof.
  destruct (tk_ready _ _ (example_tok pair_setup 100 pair_real eq_refl)) as [_ Hl Hs]. by split.
Qed.

Lemma pair_live i t :
  w_procs pair_world !! i = Some t → tok pair_store (load (w_shm pair_world) t) ∧ live_hooks t.
Proof.
  destruct i as [|[|i]]; cbn [pair_world w_procs w_shm lookup list_lookup]; [| |done];
    intros [= <-]; rw load_example; (split; [by apply example_tok; [apply pair_real|]|apply example_live]).
Qed.

Lemma pair_distinct : NoDup [3; 4].
Proof. by apply (bool_decide_unpack _). Qed.

Definition rc_attr : ibv_qp_init_attr := mk_attr IBV_QPT_RC 16 16.

(** Two processes create QPs while an administrator suspends a tenant. *)
Lemma overlapping_calls_always_return_witness :
  sn overlap (pair_world, program toy <$>
    [[Hook (OCreateQp 1 rc_attr); Hook (ODestroyQp 5)];
     [Hook (OCreateQp 1 rc_attr); Admin (SetStatus 3 Tenant.TENANT_STATUS_SUSPENDED)]]).
Proof.
  apply (overlapping_calls_always_return toy pair_store pair_world _ pair_world [] pair_live
    (proj1 pair_shm) (proj2 pair_shm)); [reflexivity|].
  repeat constructor; cbn; lia.
Defined.

(** Process 101 has created three QPs, or tried to, while process 100 waits. *)
Lemma one_process_tenants_keep_quota_witness :
  ∃ w' t' ti, rtc overlap (pair_world, (λ os, program toy (Hook <$> os)) <$>
      [[OCreateQp 1 rc_attr]; replicate 3 (OCreateQp 1 rc_attr)])
    (w', [program toy [Hook (OCreateQp 1 rc_attr)]; Done [1000; 1001; 0]]) ∧
    w_procs w' !! 1%nat = Some t' ∧ Tenant.tenants (w_shm w') !! 4%nat = Some ti ∧
    u32 (Tenant.qp_count (Tenant.usage ti)) = Z.of_nat (drv (base t')) ∧
    Z.of_nat (drv (base t')) ≤ Tenant.max_qp_per_tenant (Tenant.quota ti).
Proof.
  assert (∃ t', run (program toy (Hook <$> replicate 3 (OCreateQp 1 rc_attr)))
    (load (w_shm pair_world) (example pair_setup 101)) = Ret [1000; 1001; 0] t') as [t' Hrun].
  { eexists. vm_compute. reflexivity. }
  exists (put 1 t' pair_world), t'.
  assert (rtc overlap (pair_world, (λ os, program toy (Hook <$> os)) <$>
      [[OCreateQp 1 rc_attr]; replicate 3 (OCreateQp 1 rc_attr)])
    (put 1 t' pair_world, [program toy [Hook (OCreateQp 1 rc_attr)]; Done [1000; 1001; 0]])) as Hst.
  { exact (run_overlap pair_world ((λ os, program toy (Hook <$> os)) <$>
      [[OCreateQp 1 rc_attr]; replicate 3 (OCreateQp 1 rc_attr)]) 1 (example pair_setup 101)
      (program toy (Hook <$> replicate 3 (OCreateQp 1 rc_attr))) [1000; 1001; 0] t'
      eq_refl eq_refl eq_refl Hrun). }
  destruct (one_process_tenants_keep_quota toy Z.of_nat toy_counts pair_store pair_world [3; 4]
    [[OCreateQp 1 rc_attr]; replicate 3 (OCreateQp 1 rc_attr)] (put 1 t' pair_world)
    [program toy [Hook (OCreateQp 1 rc_attr)]; Done [1000; 1001; 0]])
    with (i := 1%nat) (t' := t') (tid := 4) (p := Done (S := thooks unit nat) [1000; 1001; 0])
    as (ti & Hti & Hle & Hu).
  - exact pair_distinct.
  - reflexivity.
  - reflexivity.
  - apply pair_shm.
  - apply pair_shm.
  - exact pair_group.
  - exact Hst.
  - reflexivity.
  - reflexivity.
  - reflexivity.
  - exists ti. exact (conj Hst (conj eq_refl (conj Hti (conj (Hu eq_refl) Hle)))).
Defined.

End HookOverlap.
