(* ===== verification/LostUpdates.v ===== *)
(** * Lost updates of the tenant's usage

    [update_tenant_resource_count] reads the usage of a tenant in one critical
    section and writes it back in another one.  What another process counts in
    between is lost: two processes of one tenant can hold any number of QPs while
    the recorded count stays where it is, below the quota. *)

From S2P Require Import Prelude Resumption CString Intercept Core CollectorServer CollectorClient LocalPolicy.
From S2P Require Import SlotTable ShmProcess ShmTenant TenantProps TenantSpec HookBase HooksTenant.
From S2P Require Import HooksTenantProps TenantQuota HookSteps HookOverlap.

Module LostUpdates.
Import TenantProps TenantSpec.
Import Intercept Core CollectorClient LocalPolicy HookBase HooksTenant HooksTenantProps TenantQuota.
Import HookSteps HookOverlap.
#[local] Existing Instances Tenant.expand_usage Tenant.expand_info Tenant.expand_shm Tenant.expand_state.

Section Lost.
Context {Srv D : Type} (x : externals Srv D) (qps : D → Z) (Hq : counts_qps x qps).
Context (tid : Z) (pd : Z) (attr : ibv_qp_init_attr).
Implicit Types (t : thooks Srv D) (a : store) (o : op).
#[local] Abbreviation hsteps := (steps (thooks Srv D)).

#[local] Abbreviation new d := (x_driver x (CreateQp pd (Some attr)) d).
#[local] Abbreviation gone qp d := (x_driver x (DestroyQp qp) d).

(** The driver gives each process [cap] QPs, and destroys the one it has just given. *)
Context (cap : Z) (Hcreate : ∀ d, qps d < cap → ret (new d) ≠ 0).
Context (Hdestroy : ∀ d, ret (new d) ≠ 0 → ret (gone (ret (new d)) (dstate (new d))) = 0).

(** What the process table says of the process. *)
Definition slot_count t : Z :=
  u32 (Shm.qp_count (default Shm.usage_zero (Shm.table (Shm.shm (pshm (base t))) !! pid (base t)))).

(** The process has counted [c] QPs and its limits, other than the quota of its tenant,
    have room for [k] more: the type is allowed, the recorded global count is below the
    global limit, and the process limit is at least [c + k]. *)
Record fit (c k : Z) t : Prop := {
  ft_count : qp_count (hg (base t)) = c;
  ft_small : 0 ≤ c ∧ 0 ≤ k ∧ c + k < 2 ^ 32;
  ft_control : enable_qp_control (hcfg (base t)) = true →
    type_denied (hcfg (base t)) (attr_qp_type attr) = false ∧
    global_denied (hcfg (base t)) (reading (global_usage (base t))) = false ∧
    (mapped t = true → c + k ≤ max_qp_per_process (hcfg (base t)) ∧
       (0 < k → slot_count t < max_qp_per_process (hcfg (base t))));
  ft_room : mapped t = true → slot_room t;
}.

Lemma fit_same c k t t' : base t' = base t → fit c k t → fit c k t'.
Proof. intros Hb []. unfold mapped, slot_room, slot_count in *. split; unfold mapped, slot_room, slot_count; by rw ?Hb. Qed.

Lemma fit_allowed c k a t :
  fit c k t → 0 < k → qp_within a (tenant_of a t) = true → qp_allowed a t attr = true.
Proof.
  intros [_ Hsm Hctl _] Hk Hin. unfold qp_allowed. destruct (enable_qp_control _); [|done].
  destruct (Hctl eq_refl) as (H1 & H2 & H3). rw H1 Hin H2. cbn.
  assert (process_denied (hcfg (base t)) (reading (process_usage (base t))) = false) as ->; [|done].
  unfold process_denied, process_usage, mapped, slot_count in *. destruct (Shm.shm_data_ptr _); [|done].
  destruct (H3 eq_refl) as [_ Hs]. cbn [reading fst snd default Z.eqb andb]. apply Z.ltb_ge.
  specialize (Hs Hk). set (n := u32 (Shm.qp_count _)) in *.
  assert (is_u32 n) by apply u32_range. unfold is_u32 in *.
  destruct (decide (n + 1 < 2 ^ 32)); [rw u32_small; unfold is_u32; lia|].
  assert (n + 1 = 2 ^ 32) as -> by lia. change (u32 (2 ^ 32)) with 0. lia.
Qed.

(** A new QP is counted for the process, and its slot says so. *)
Lemma fit_created c k t t' :
  fit c (k + 1) t → 0 ≤ k → kept t t' → counts_published t' →
  qp_count (hg (base t')) = u32 (qp_count (hg (base t)) + 1) → fit (c + 1) k t'.
Proof.
  intros [Hc Hsm Hctl Hroom] Hk0 Hk [Hroom' Hs'] Hg.
  assert (Hc' : qp_count (hg (base t')) = c + 1) by (rw Hg Hc u32_small; unfold is_u32; lia).
  split; [done|lia| |done]. rw (kp_cfg _ _ Hk) (kp_global _ _ Hk). intros He.
  destruct (Hctl He) as (H1 & H2 & H3). split_and!; [done..|]. intros Hm.
  destruct (H3 ltac:(by rw -(kp_mapped _ _ Hk))) as [H4 _]. unfold slot_count. rw (Hs' Hm) Hc'. lia.
Qed.

(** A destroyed one is counted down, but stays in the slot. *)
Lemma fit_destroyed c k t t' :
  fit (c + 1) k t → 0 ≤ c → 0 < k → kept t t' → pshm (base t') = pshm (base t) →
  qp_count (hg (base t')) = (if 0 <? qp_count (hg (base t)) then qp_count (hg (base t)) - 1 else qp_count (hg (base t))) →
  fit c (k + 1) t'.
Proof.
  intros [Hc Hsm Hctl Hroom] Hc0 Hk0 Hk Hs Hg. split; [|lia|..].
  - rw Hg Hc (proj2 (Z.ltb_lt _ _)); lia.
  - rw (kp_cfg _ _ Hk) (kp_global _ _ Hk) (kp_mapped _ _ Hk). intros He.
    destruct (Hctl He) as (H1 & H2 & H3). split_and!; [done..|]. intros Hm. destruct (H3 Hm) as [H4 H5].
    unfold slot_count in *. rw Hs (kp_pid _ _ Hk). split; [lia|auto].
  - rw (kp_mapped _ _ Hk). unfold slot_room in *. by rw Hs (kp_pid _ _ Hk).
Qed.

(** ** Stopping between the reading and the writing *)

(** The process has read the usage [u] of its tenant, and is about to write it back
    with [delta] QPs more, whatever happens to the tenant in between. *)
Definition about_to_write {A} (p : hsteps A) t (u : Tenant.tenant_resource_usage_t) (delta : Z) : Prop :=
  is_done p = false ∧ ∀ a s v, tok a (load s t) → active a tid = Some v →
    ∃ r t', run p (load s t) = Ret r t' ∧
      tok (live_put tid (Some (v <| v_usage := count_usage 0 delta u |>)) a) t' ∧ base t' = base t.

Lemma about_bind {A B} (p : hsteps A) (k : A → hsteps B) t u delta :
  about_to_write p t u delta → (∀ r t', ∃ r', run (k r) t' = Ret r' t') → about_to_write (p ≫= k) t u delta.
Proof.
  intros [Hd Hw] Hk. split; [by destruct p|]. intros a s v Hok Hv.
  destruct (Hw a s v Hok Hv) as (r & t' & Hrun & ? & ?). destruct (Hk r t') as [r' Hr'].
  exists r', t'. split_and!; [|done|done]. rw run_bind. by rw (bind_Ret _ _ _ _ _ Hrun).
Qed.

Lemma count_pauses a t v delta :
  tok a t → 0 < tid → owner a !! pid (base t) = Some tid → active a tid = Some v →
  ∃ p t', rtc alone (count_one 0 delta, t) (p, t') ∧ tok a t' ∧ base t' = base t ∧
    about_to_write p t' (v_usage v) delta.
Proof.
  intros Hok H0 Ho Hv. destruct (current_tenant_run a t Hok) as (t1 & Hrun1 & Hok1 & Hb1).
  rw -current_tenant_joined in Hrun1. unfold tenant_of in Hrun1. rw Ho in Hrun1. cbn in Hrun1.
  destruct (ztenant_run a t1 (GetUsage tid (Some Tenant.usage_zero))
    (Tenant.tenant_get_resource_usage tid (Some Tenant.usage_zero))
    (λ r, UsageOf (if fst r =? 0 then snd r else None))) as (r & t2 & Hrun2 & Hf & Hok2 & Hb2);
    [done|split; [cbn; lia|done]|done|].
  injection Hf as Hf. rw Hv in Hf. cbn in Hf.
  assert ((fst r =? 0) = true ∧ snd r = Some (v_usage v)) as [Hr0 Hr].
  { destruct (fst r =? 0); by destruct r. }
  eexists _, t2. split_and!; [|done|by rw Hb2|].
  - etrans; [by apply alone_seq|]. unfold update_count.
    eapply rtc_l; [by constructor|]. rw (tk_init _ _ Hok1) (proj2 (Z.eqb_neq tid 0)); [lia|]. cbn [orb negb].
    eapply rtc_l; [by constructor|]. cbn beta. rw Hr0 Hr. done.
  - split; [done|]. intros a3 s3 v3 Hok3 Hv3.
    destruct (ztenant_run a3 (load s3 t2) (UpdateUsage tid (Some (count_usage 0 delta (v_usage v))))
      (Tenant.tenant_update_resource_usage tid (Some (count_usage 0 delta (v_usage v)))) Code)
      as (r' & t3 & Hrun3 & _ & Hok4 & Hb3); [done|split; [cbn; lia|done]|done|].
    exists tt, t3. split_and!; [|cbn [spec] in Hok4; by rw Hv3 in Hok4|done].
    rw run_bind. by rw (bind_Ret _ _ _ _ _ (eq_trans (run_act _ _) Hrun3)).
Qed.

(** A hook that stops there; by then the driver is in the state [d'], and the process has
    counted [c] QPs and has room for [k]. *)
Definition pauses (o : op) a t v delta (d' : D) (c k : Z) : Prop :=
  ∃ p t', rtc alone (op_steps x o, t) (p, t') ∧ tok a t' ∧ kept t t' ∧ drv (base t') = d' ∧
    qps d' = qps (drv (base t)) + delta ∧ fit c k t' ∧ about_to_write p t' (v_usage v) delta.

(** [ibv_create_qp] by itself up to that point: there is one more QP. *)
Lemma create_pauses c k a t v :
  tok a t → live_hooks t → fit c (k + 1) t → 0 ≤ k → qps (drv (base t)) < cap →
  0 < tid → owner a !! pid (base t) = Some tid →
  active a tid = Some v → qps_used v < Tenant.max_qp_per_tenant (v_quota v) →
  pauses (OCreateQp pd attr) a t v 1 (dstate (new (drv (base t)))) (c + 1) k.
Proof using Hq Hcreate.
  intros Hok Hl Hfit Hk0 Hcap H0 Ho Hv Hroom.
  assert (Hal : qp_allowed a t attr = true).
  { apply (fit_allowed c (k + 1)); [done|lia|]. unfold tenant_of. rw Ho. cbn. by eapply active_within. }
  destruct (restrictions_run a t pd attr Hok) as (t1 & Hrun1 & Hok1 & Hb1).
  rw Hal in Hrun1. rw -restrictions_joined in Hrun1.
  destruct (driver_run x a t1 (CreateQp pd (Some attr)) Hok1) as (t2 & Hrun2 & Hok2 & Hk2 & Hd2 & Hg2 & Hs2).
  rw Hb1 in Hrun2, Hd2, Hg2, Hs2.
  pose proof (qps_create _ _ Hq pd (Some attr) (drv (base t))) as Hn. cbv zeta in Hn.
  pose proof (proj2 (Z.eqb_neq _ 0) (Hcreate (drv (base t)) Hcap)) as Hr. rw Hr in Hn.
  destruct (local_run a t2 (λ s, s <| qp_count ::= λ n, u32 (n + 1) |>) Hok2 create_qp_harmless)
    as (t3 & Hrun3 & Hok3 & Hk3 & Hd3 & Hg3 & Hs3).
  destruct (publish_local_run a t3 Hok3) as (t4 & Hrun4 & Hok4 & Hk4 & Hd4 & Hg4 & Hpub).
  pose proof (kept_trans _ _ _ (kept_base _ _ Hb1) (kept_trans _ _ _ Hk2 Hk3)) as Hk13.
  pose proof (kept_trans _ _ _ Hk13 Hk4) as Hk.
  assert (Hfit4 : fit (c + 1) k t4).
  { eapply fit_created; [exact Hfit|done|exact Hk| |by rw Hg4 Hg3 Hg2]. apply Hpub.
    unfold slot_room. rw Hs3 Hs2 (kp_pid _ _ Hk13) (kp_mapped _ _ Hk13). apply Hfit. }
  destruct (count_pauses a t4 v 1 Hok4 H0) as (p & t5 & Hst & Hok5 & Hb5 & Hw);
    [by rw (kp_pid _ _ Hk)|done|].
  exists (p ≫= λ _, mret (ret (new (drv (base t))))), t5.
  split_and!; [|done|by eapply kept_trans; [|apply kept_base]|by rw Hb5 Hd4 Hd3|done|by eapply fit_same|].
  - etrans; [eapply tc_rtc, cut_alone; [done..|by apply is_hook]|].
    etrans; [by apply alone_seq|]. cbn [negb].
    etrans; [apply alone_seq; by rw run_act|]. cbv beta. rw Hr.
    apply (alone_bind _ p (λ _, mret _)).
    etrans; [apply alone_seq; by rw run_act|]. etrans; [apply alone_seq; by rw run_act|]. done.
  - apply about_bind; [done|]. intros r t'. by eexists.
Qed.

(** [ibv_destroy_qp] likewise: there is one QP less. *)
Lemma destroy_pauses c k a t v qp :
  tok a t → live_hooks t → fit (c + 1) k t → 0 ≤ c → 0 < k → ret (gone qp (drv (base t))) = 0 →
  0 < tid → owner a !! pid (base t) = Some tid → active a tid = Some v →
  pauses (ODestroyQp qp) a t v (-1) (dstate (gone qp (drv (base t)))) c (k + 1).
Proof using Hq.
  intros Hok Hl Hfit Hc0 Hk0 Hz H0 Ho Hv.
  destruct (driver_run x a t (DestroyQp qp) Hok) as (t2 & Hrun2 & Hok2 & Hk2 & Hd2 & Hg2 & Hs2).
  pose proof (qps_destroy _ _ Hq qp (drv (base t))) as Hn. cbv zeta in Hn.
  pose proof (proj2 (Z.eqb_eq _ 0) Hz) as Hr. rw Hr in Hn.
  destruct (local_run a t2 _ Hok2 destroy_qp_harmless) as (t3 & Hrun3 & Hok3 & Hk3 & Hd3 & Hg3 & Hs3).
  pose proof (kept_trans _ _ _ Hk2 Hk3) as Hk.
  destruct (count_pauses a t3 v (-1) Hok3 H0) as (p & t5 & Hst & Hok5 & Hb5 & Hw);
    [by rw (kp_pid _ _ Hk)|done|].
  exists (p ≫= λ _, mret (ret (gone qp (drv (base t))))), t5.
  split_and!; [|done|by eapply kept_trans; [|apply kept_base]|by rw Hb5 Hd3|done| |].
  - etrans; [eapply tc_rtc, cut_alone; [done..|by apply is_hook]|].
    etrans; [apply alone_seq; by rw run_act|]. cbv beta. rw Hr. cbn [negb].
    apply (alone_bind _ p (λ _, mret _)). etrans; [apply alone_seq; by rw run_act|]. done.
  - apply (fit_same _ _ t3); [done|]. by apply (fit_destroyed c k t); rw ?Hg3 ?Hg2 ?Hs3 ?Hs2.
  - apply about_bind; [done|]. intros r t'. by eexists.
Qed.

(** ** Two processes of the tenant *)

(** What surrounds the rest of a program: it lets it go on, and is done with it. *)
Record context (C : hsteps (list Z) → hsteps (list Z)) : Prop := {
  cx_alone (c c' : hsteps (list Z) * thooks Srv D) :
    alone c c' → alone (C (fst c), snd c) (C (fst c'), snd c');
  cx_done rs : is_done (C (Done rs)) = true;
}.

Lemma context_bind C r : context C → context (λ p, C (p ≫= λ rs, mret (r :: rs))).
Proof.
  intros [Ha Hd]. split; [|intros rs; apply Hd]. intros c c' H.
  exact (Ha _ _ (alone_bind_step (λ rs, mret (r :: rs)) _ _ H)).
Qed.

(** What is left of a hook, and the hooks after it. *)
Definition after_hook (C : hsteps (list Z) → hsteps (list Z)) (qs : list request) (p : hsteps Z) :=
  C (r ← p; rs ← program x qs; mret (r :: rs)).

Lemma after_hook_alone C qs p s q s' :
  context C → tc alone (p, s) (q, s') → tc alone (after_hook C qs p, s) (after_hook C qs q, s').
Proof.
  intros HC. apply (tc_congruence (λ c, (after_hook C qs (fst c), snd c)) alone).
  intros c c' H. exact (cx_alone _ HC _ _ (alone_bind_step _ _ _ H)).
Qed.

(** The two processes, with what they have counted and how much room they have. *)
Record duo a (w : world (Srv:=Srv) (D:=D)) t0 c0 k0 t1 c1 k1 : Prop := {
  du_procs : w_procs w = [t0; t1];
  du_ok : tok a (load (w_shm w) t0) ∧ tok a (load (w_shm w) t1);
  du_live : live_hooks t0 ∧ live_hooks t1;
  du_fit : fit c0 k0 t0 ∧ fit c1 k1 t1;
  du_owner : owner a !! pid (base t0) = Some tid ∧ owner a !! pid (base t1) = Some tid;
}.

Lemma moved {A} (p q : hsteps A) t t' n :
  qps (drv (base t')) = qps (drv (base t)) + n → n ≠ 0 → rtc alone (p, t) (q, t') → tc alone (p, t) (q, t').
Proof. intros Hn H0 [[= _ <-]|]%rtc_tc; [lia|done]. Qed.

(** While the first one waits, the second process creates a QP, from the beginning to
    the end. *)
Lemma overtaken o0 delta d0 c0 k0 c0' k0' c1 k1 a w t0 t1 v C0 C1 qs0 qs1 :
  0 < tid → delta ≠ 0 → 0 ≤ k1 → duo a w t0 c0 k0 t1 c1 (k1 + 1) → active a tid = Some v →
  context C0 → context C1 → pauses o0 a (load (w_shm w) t0) v delta d0 c0' k0' →
  qps (drv (base t1)) < cap → qps_used v < Tenant.max_qp_per_tenant (v_quota v) →
  ∃ w' a' t0' t1' v' C0' C1', rtc overlap
      (w, [C0 (program x (Hook o0 :: qs0)); C1 (program x (Hook (OCreateQp pd attr) :: qs1))])
      (w', [C0' (program x qs0); C1' (program x qs1)]) ∧ context C0' ∧ context C1' ∧
    duo a' w' t0' c0' k0' t1' (c1 + 1) k1 ∧ active a' tid = Some v' ∧ v_quota v' = v_quota v ∧
    v_usage v' = count_usage 0 delta (v_usage v) ∧
    drv (base t0') = d0 ∧ qps d0 = qps (drv (base t0)) + delta ∧
    qps (drv (base t1')) = qps (drv (base t1)) + 1.
Proof using Hq Hcreate.
  intros H0 Hdelta Hk1 [Hps [Hok0 Hok1] [Hl0 Hl1] [Hf0 Hf1] [Ho0 Ho1]] Hv HC0 HC1 Hpause Hcap Hroom.
  destruct Hpause as (p0 & t2 & Hst0 & Hok2 & Hk2 & Hd2 & Hn2 & Hfit2 & Hnd0 & Hw0).
  pose proof (tok_other _ _ _ _ _ Hok1 Hok2) as Hok1'.
  destruct (create_pauses c1 k1 a (load (Tenant.shm (tshm t2)) t1) v)
    as (p1 & t3 & Hst1 & Hok3 & Hk3 & Hd3 & Hn3 & Hfit3 & Hnd1 & Hw1);
    [done|by apply live_load|by apply (fit_same _ _ t1)|done..|].
  destruct (Hw1 a (Tenant.shm (tshm t3)) v) as (r1 & t4 & Hrun1 & Hok4 & Hb4); [by rw load_own|done|].
  rw load_own in Hrun1. set (a1 := live_put tid _ a) in Hok4.
  assert (Hok2' : tok a1 (load (Tenant.shm (tshm t4)) t2)).
  { eapply (tok_other a _ _ (Tenant.shm (tshm t2))); [by rw load_own|exact Hok4]. }
  assert (Hact : is_active v = true).
  { unfold active in Hv. destruct (live a tid) as [u|]; [|done]. cbn in Hv.
    destruct (is_active u) eqn:E; [|done]. by injection Hv as ->. }
  destruct (Hw0 a1 (Tenant.shm (tshm t4)) (v <| v_usage := count_usage 0 1 (v_usage v) |>) Hok2')
    as (r0 & t5 & Hrun0 & Hok5 & Hb5); [by apply active_put|].
  set (a2 := live_put tid _ a1) in Hok5. rw -Hd3 in Hn3. rw -Hd2 in Hn2.
  exists (mk_world (Tenant.shm (tshm t5)) [t5; t4]), a2, t5, t4, (v <| v_usage := count_usage 0 delta (v_usage v) |>).
  exists (λ p, C0 (p ≫= λ rs, mret (r0 :: rs))), (λ p, C1 (p ≫= λ rs, mret (r1 :: rs))).
  split_and!; [|by apply context_bind|by apply context_bind| |by apply active_put|done|done|by rw Hb5|by rw -Hd2|by rw Hb4].
  - destruct w as [sh ps]. cbn in Hps, Hst0, Hn2. subst ps.
    set (P0 := C0 (program x (Hook o0 :: qs0))).
    set (P1 := C1 (program x (Hook (OCreateQp pd attr) :: qs1))).
    etrans; [apply (alone_overlap (mk_world sh [t0; t1]) [P0; P1] 0 t0 P0 (after_hook C0 qs0 p0) t2)|].
    { done. } { done. } { apply after_hook_alone; [done|]. by eapply moved. }
    etrans; [apply (alone_overlap (mk_world (Tenant.shm (tshm t2)) [t2; t1])
      [after_hook C0 qs0 p0; P1] 1 t1 P1 (after_hook C1 qs1 (Done r1)) t4)|].
    { done. } { done. }
    { apply after_hook_alone; [done|]. eapply (moved _ _ _ _ 1); [by rw Hb4|done|].
      etrans; [exact Hst1|]. by apply run_alone. }
    apply (alone_overlap (mk_world (Tenant.shm (tshm t4)) [t2; t4])
      [after_hook C0 qs0 p0; after_hook C1 qs1 (Done r1)] 0 t2 (after_hook C0 qs0 p0) (after_hook C0 qs0 (Done r0)) t5).
    { done. } { done. }
    apply after_hook_alone; [done|]. by apply run_alone, rtc_tc in Hrun0 as [[= -> _]|].
  - assert (base t5 = base t2 ∧ base t4 = base t3) as [Hb02 Hb43] by done.
    pose proof (kept_trans _ _ _ Hk2 (kept_base _ _ Hb5)) as Hk05.
    pose proof (kept_trans _ _ _ Hk3 (kept_base _ _ Hb4)) as Hk14.
    split; cbn [w_procs w_shm]; [done|..].
    + rw load_own. split; [done|].
      by apply (tok_other a1 _ _ (Tenant.shm (tshm t4))); [rw load_own|].
    + split; (eapply live_kept; [eassumption|by apply live_load]).
    + split; [by apply (fit_same _ _ t2)|by apply (fit_same _ _ t3)].
    + by rw (kp_pid _ _ Hk05) (kp_pid _ _ Hk14).
Qed.

(** Create a QP and destroy it, [n] times from the state [d] of the driver on: the handle
    destroyed is the one that was given. *)
Fixpoint cycles (n : nat) (d : D) : list op :=
  match n with
  | O => []
  | S n' => OCreateQp pd attr :: ODestroyQp (ret (new d)) ::
      cycles n' (dstate (gone (ret (new d)) (dstate (new d))))
  end.

(** One round: the first process creates a QP and destroys it, the second one
    creates two, and nobody sees a difference. *)
Lemma round c0 c1 k1 a w t0 t1 v C0 C1 qs0 qs1 :
  let d := drv (base t0) in
  0 < tid → 0 ≤ k1 → duo a w t0 c0 2 t1 c1 (k1 + 2) → active a tid = Some v → context C0 → context C1 →
  qps d < cap → qps (drv (base t1)) + 1 < cap →
  qps_used v + 1 < Tenant.max_qp_per_tenant (v_quota v) →
  ∃ w' a' t0' t1' v' C0' C1', rtc overlap
      (w, [C0 (program x (Hook (OCreateQp pd attr) :: Hook (ODestroyQp (ret (new d))) :: qs0));
           C1 (program x (Hook (OCreateQp pd attr) :: Hook (OCreateQp pd attr) :: qs1))])
      (w', [C0' (program x qs0); C1' (program x qs1)]) ∧ context C0' ∧ context C1' ∧
    duo a' w' t0' c0 2 t1' (c1 + 2) k1 ∧ active a' tid = Some v' ∧ v_quota v' = v_quota v ∧
    qps_used v' = qps_used v ∧
    drv (base t0') = dstate (gone (ret (new d)) (dstate (new d))) ∧
    qps (drv (base t0')) = qps d ∧ qps (drv (base t1')) = qps (drv (base t1)) + 2.
Proof using Hq Hcreate Hdestroy.
  intros d H0 Hk1 Hd Hv HC0 HC1 Hcap0 Hcap1 Hroom.
  assert (Hp : pauses (OCreateQp pd attr) a (load (w_shm w) t0) v 1 (dstate (new d)) (c0 + 1) 1).
  { destruct Hd as [_ [? _] [? _] [? _] [? _]].
    apply (create_pauses c0 1); [done|by apply live_load|by apply (fit_same _ _ t0)|done..|lia]. }
  replace (k1 + 2) with (k1 + 1 + 1) in Hd by lia.
  destruct (overtaken _ 1 _ _ _ _ _ _ (k1 + 1) a w t0 t1 v C0 C1 (Hook (ODestroyQp (ret (new d))) :: qs0)
    (Hook (OCreateQp pd attr) :: qs1) H0 ltac:(done) ltac:(lia) Hd Hv HC0 HC1 Hp)
    as (w1 & a1 & u0 & u1 & v1 & C2 & C3 & Hst1 & HC2 & HC3 & Hd1 & Hv1 & Hqt1 & Hus1 & Hdr1 & Hn0 & Hn1); [lia..|].
  assert (Hu1 : qps_used v1 = u32 (qps_used v + 1)).
  { unfold qps_used. rw Hus1 count_qp. width_lia. }
  assert (Hp1 : pauses (ODestroyQp (ret (new d))) a1 (load (w_shm w1) u0) v1 (-1)
    (dstate (gone (ret (new d)) (dstate (new d)))) c0 2).
  { destruct Hd1 as [_ [? _] [? _] [? _] [? _]]. rw -Hdr1.
    refine (destroy_pauses c0 1 a1 (load (w_shm w1) u0) v1 _ _ _ _ _ _ _ _ _ _);
      [done|by apply live_load|by apply (fit_same _ _ u0)| |done| |done..].
    - apply (ft_small _ _ _ (proj1 (du_fit _ _ _ _ _ _ _ _ Hd))).
    - cbn. rw Hdr1. by apply Hdestroy, Hcreate. }
  destruct (overtaken _ (-1) _ _ _ _ _ _ k1 a1 w1 u0 u1 v1 C2 C3 qs0 qs1 H0 ltac:(done) Hk1 Hd1 Hv1 HC2 HC3 Hp1)
    as (w2 & a2 & s0 & s1 & v2 & C4 & C5 & Hst2 & HC4 & HC5 & Hd2 & Hv2 & Hqt2 & Hus2 & Hdr2 & Hm0 & Hm1); [lia|..].
  { rw Hqt1 Hu1. pose proof (u32_range (Tenant.qp_count (v_usage v))). unfold qps_used in *. width_lia. }
  rw Hdr1 in Hm0. replace (c1 + 1 + 1) with (c1 + 2) in Hd2 by lia.
  exists w2, a2, s0, s1, v2, C4, C5. split_and!; try done; [by etrans|by rw Hqt2| |rw Hdr2 Hm0 Hn0; unfold d; lia|lia].
  unfold qps_used in *. rw Hus2 count_qp. width_lia.
Qed.

Lemma many_rounds n : ∀ c0 c1 a w t0 t1 v C0 C1,
  0 < tid → duo a w t0 c0 2 t1 c1 (2 * Z.of_nat n) → active a tid = Some v → context C0 → context C1 →
  qps (drv (base t0)) < cap → qps (drv (base t1)) + 2 * Z.of_nat n ≤ cap →
  qps_used v + 1 < Tenant.max_qp_per_tenant (v_quota v) →
  ∃ w' a' t0' k0 t1' k1 v' C0' C1', rtc overlap
      (w, [C0 (program x (Hook <$> cycles n (drv (base t0))));
           C1 (program x (Hook <$> replicate (n * 2) (OCreateQp pd attr)))])
      (w', [C0' (Done []); C1' (Done [])]) ∧ context C0' ∧ context C1' ∧
    duo a' w' t0' c0 k0 t1' k1 0 ∧ active a' tid = Some v' ∧ v_quota v' = v_quota v ∧ qps_used v' = qps_used v ∧
    total qps (w_procs w') = total qps (w_procs w) + 2 * Z.of_nat n.
Proof using Hq Hcreate Hdestroy.
  induction n as [|n IH]; intros c0 c1 a w t0 t1 v C0 C1 H0 Hd Hv HC0 HC1 Hcap0 Hcap1 Hroom.
  { exists w, a, t0, 2, t1, c1, v, C0, C1. split_and!; try done; lia. }
  replace (2 * Z.of_nat (S n)) with (2 * Z.of_nat n + 2) in * by lia.
  destruct (round c0 c1 (2 * Z.of_nat n) a w t0 t1 v C0 C1
    (Hook <$> cycles n (dstate (gone (ret (new (drv (base t0)))) (dstate (new (drv (base t0)))))))
    (Hook <$> replicate (n * 2) (OCreateQp pd attr)) H0 ltac:(lia) Hd Hv HC0 HC1 Hcap0 ltac:(lia) Hroom)
    as (w1 & a1 & u0 & u1 & v1 & C2 & C3 & Hst1 & HC2 & HC3 & Hd1 & Hv1 & Hqt1 & Hus1 & Hdr1 & Hn0 & Hn1).
  destruct (IH c0 (c1 + 2) a1 w1 u0 u1 v1 C2 C3 H0 Hd1 Hv1 HC2 HC3)
    as (w2 & a2 & s0 & k0 & s1 & k1 & v2 & C4 & C5 & Hst2 & HC4 & HC5 & Hd2 & Hv2 & Hqt2 & Hus2 & Hm).
  { by rw Hn0. } { rw Hn1. lia. } { by rw Hus1 Hqt1. }
  rw Hdr1 in Hst2.
  exists w2, a2, s0, k0, s1, k1, v2, C4, C5. split_and!; try done; [by etrans|by rw Hqt2|by rw Hus2|].
  rw Hm (du_procs _ _ _ _ _ _ _ _ Hd) (du_procs _ _ _ _ _ _ _ _ Hd1). cbn. lia.
Qed.

(** C17: updates get lost.  Of two processes of a tenant that has two QPs to spare the
    first one creates a QP and destroys it, [n] times, and the second one creates [2 n],
    for any [n] for which nothing but the quota of the tenant stands in the way: the
    limits of the processes themselves (twice one QP, as the record of a process does not
    go down, and [2 n]), the global count, and the driver, which gives each process its
    [cap] QPs and destroys the QP it has just given.  Then the calls can overlap so that
    the tenant holds [2 n] QPs more in the end but its recorded count is what it was: the
    quota bounds nothing. *)
Theorem lost_updates_hide_qps n c0 c1 a w t0 t1 v :
  0 < tid → duo a w t0 c0 2 t1 c1 (2 * Z.of_nat n) → active a tid = Some v →
  qps (drv (base t0)) < cap → qps (drv (base t1)) + 2 * Z.of_nat n ≤ cap →
  qps_used v + 1 < Tenant.max_qp_per_tenant (v_quota v) →
  ∃ w' rs0 rs1 ti, rtc overlap
      (w, [program x (Hook <$> cycles n (drv (base t0)));
           program x (Hook <$> replicate (n * 2) (OCreateQp pd attr))])
      (w', [Done rs0; Done rs1]) ∧
    total qps (w_procs w') = total qps (w_procs w) + 2 * Z.of_nat n ∧
    Tenant.tenants (w_shm w') !! Z.to_nat tid = Some ti ∧
    u32 (Tenant.qp_count (Tenant.usage ti)) = qps_used v ∧ Tenant.quota ti = v_quota v.
Proof using Hq Hcreate Hdestroy.
  intros H0 Hd Hv Hcap0 Hcap1 Hroom. assert (Hid : context (λ p, p)) by (by split; [intros [] []|]).
  destruct (many_rounds n c0 c1 a w t0 t1 v (λ p, p) (λ p, p) H0 Hd Hv Hid Hid Hcap0 Hcap1 Hroom)
    as (w' & a' & u0 & k0 & u1 & k1 & v' & C0 & C1 & Hst & HC0 & HC1 & Hd' & Hv' & Hqt & Hus & Ht).
  pose proof (cx_done _ HC0 []) as Hf0. pose proof (cx_done _ HC1 []) as Hf1.
  destruct (C0 (Done [])) as [rs0|], (C1 (Done [])) as [rs1|]; [|done..].
  destruct (live_quota a' (w_shm w') tid v') as (ti & Hti & ->); [|done|].
  { exact (tk_store _ _ (proj1 (du_ok _ _ _ _ _ _ _ _ Hd'))). }
  exists w', rs0, rs1, ti. by split_and!.
Qed.
End Lost.

(** ** Example: two processes of a tenant that may have two QPs

    The configuration is the default one, in which a process may have 100 QPs. *)

Definition lost_world : world (Srv:=unit) (D:=nat) :=
  mk_world (Tenant.shm (example_tenant example_setup)) [example example_setup 100; example example_setup 101].

#[local] Opaque example_tenant.

Lemma example_load n :
  load (Tenant.shm (example_tenant example_setup)) (example example_setup n) = example example_setup n.
Proof. unfold load, example. cbn. by destruct (example_tenant example_setup). Qed.

Lemma example_fit n k : 0 ≤ k ≤ 100 → fit rc_attr 0 k (example example_setup n).
Proof.
  intros Hk. assert (Ht : Shm.table (Shm.shm (pshm (example_hooks n))) = ∅) by apply Shm.table_data_zero.
  split; [done|lia| |].
  - intros _. unfold slot_count, global_usage. cbn [example base]. rw Ht lookup_empty.
    split_and!; [done..|]. intros _. split; [|done]. change (max_qp_per_process _) with 100. lia.
  - intros _. right. cbn [example base]. by rw Ht map_size_empty.
Qed.

Lemma lost_duo :
  duo 3 rc_attr (spec_store example_setup empty_store) lost_world
    (example example_setup 100) 0 2 (example example_setup 101) 0 80.
Proof.
  split; cbn [lost_world w_procs w_shm].
  - reflexivity.
  - rw !example_load. by split; apply example_tok; [apply example_setup_real| |apply example_setup_real|].
  - by split; apply example_live.
  - by split; apply example_fit.
  - split; vm_compute; reflexivity.
Qed.

(** A quota of two QPs, and 80 more than recorded. *)
Lemma lost_updates_hide_qps_witness :
  ∃ w' rs0 rs1 ti, rtc overlap
      (lost_world, [program toy (Hook <$> cycles toy 1 rc_attr 40 0%nat);
                    program toy (Hook <$> replicate 80 (OCreateQp 1 rc_attr))])
      (w', [Done rs0; Done rs1]) ∧
    total Z.of_nat (w_procs w') = 80 ∧
    Tenant.tenants (w_shm w') !! 3%nat = Some ti ∧
    u32 (Tenant.qp_count (Tenant.usage ti)) = 0 ∧ Tenant.max_qp_per_tenant (Tenant.quota ti) = 2.
Proof.
  set (v := mk_view "unnamed" Tenant.TENANT_STATUS_ACTIVE example_quota Tenant.usage_zero).
  destruct (lost_updates_hide_qps toy Z.of_nat toy_counts 3 1 rc_attr 100)
    with (n := 40%nat) (c0 := 0) (c1 := 0) (a := spec_store example_setup empty_store) (w := lost_world)
     (t0 := example example_setup 100) (t1 := example example_setup 101) (v := v)
    as (w' & rs0 & rs1 & ti & Hst & Ht & Hti & Hu & Hqt).
  - intros d _ H. cbn in H. lia.
  - reflexivity.
  - reflexivity.
  - exact lost_duo.
  - vm_compute. reflexivity.
  - reflexivity.
  - discriminate.
  - reflexivity.
  - exists w', rs0, rs1, ti. split; [exact Hst|]. split; [exact Ht|]. split; [exact Hti|]. rewrite Hqt.
    exact (conj Hu eq_refl).
Defined.

End LostUpdates.
