(* ===== verification/QuotaRace.v ===== *)
(** * The quota when hook calls overlap

    [ibv_create_qp] of [rdma_hooks_tenant.c] tests the tenant's count in one
    critical section and adds to it in another one, with the call of the driver in
    between.  Here the two halves of the calls of different processes alternate:
    the bound of [TenantQuota], which is about whole calls, no longer holds. *)

From S2P Require Import Prelude Resumption CString Intercept Core CollectorServer CollectorClient LocalPolicy.
From S2P Require Import SlotTable ShmProcess ShmTenant TenantProps TenantSpec HookBase HooksTenant.
From S2P Require Import HooksTenantProps TenantQuota HookSteps HookOverlap.

Module QuotaRace.
Import TenantProps TenantSpec.
Import Intercept Core CollectorClient LocalPolicy HookBase HooksTenant HooksTenantProps TenantQuota.
Import HookSteps HookOverlap.
#[local] Existing Instances Tenant.expand_usage Tenant.expand_info Tenant.expand_shm Tenant.expand_state.

Section Race.
Context {Srv D : Type} (x : externals Srv D).
Implicit Types (t : thooks Srv D) (a : store) (w : world (Srv:=Srv) (D:=D)).

#[local] Abbreviation hsteps := (steps (thooks Srv D)).

(** What a call of [ibv_create_qp] has left to do when it has passed its tests. *)
Definition passed (pd : Z) (attr : ibv_qp_init_attr) : hsteps (list Z) :=
  qp ← make_qp x pd (Some attr); rs ← program x []; mret (qp :: rs).

Definition call (pd : Z) (attr : ibv_qp_init_attr) : hsteps (list Z) := program x [Hook (OCreateQp pd attr)].

Lemma insert_middle {A} (l1 l2 : list A) y z : <[length l1 := z]> (l1 ++ y :: l2) = l1 ++ z :: l2.
Proof. rw -{1}(Nat.add_0_r (length l1)). by rw insert_app_r. Qed.

(** ** A crowd of processes of one tenant *)

Section Crowd.
Context (qps : D → Z) (Hq : counts_qps x qps) (tid : Z).

(** [group] without the bound. *)
Record crowd (a : store) (w : world) : Prop := {
  cr_procs i t : w_procs w !! i = Some t →
    tok a (load (w_shm w) t) ∧ live_hooks t ∧ owner a !! pid (base t) = Some tid;
  cr_active : is_Some (active a tid);
}.

Lemma group_crowd a w : group qps tid a w → crowd a w.
Proof.
  intros [Hp _ (v & Hv & _)]. split; [|by exists v]. intros i t Hi. by destruct (Hp i t Hi) as (?&?&?&?).
Qed.

Lemma put_crowd a a' w i t t' :
  crowd a w → w_procs w !! i = Some t → tok a' t' → kept (load (w_shm w) t) t' →
  owner a' = owner a → is_Some (active a' tid) → crowd a' (put i t' w).
Proof.
  intros [Hp _] Hi Hok Hk Ho Ha. split; [|done]. cbn. intros j u.
  destruct (Hp i t Hi) as (Hok0 & Hl0 & Hown). 
  intros [(-> & <- & _)|[_ Hj]]%list_lookup_insert_Some.
  - split_and!; [by destruct Hok as [? ? ? []]; split| |].
    + eapply live_kept; [exact Hk|]. by destruct Hl0; split.
    + by rw Ho (kp_pid _ _ Hk).
  - destruct (Hp j u Hj) as (Hoku & ? & ?). split_and!; [by eapply tok_other|done|by rw Ho].
Qed.

(** The tests of a process of the tenant, while the tenant has room. *)
Lemma crowd_check a w ps i t pd attr :
  crowd a w → w_procs w !! i = Some t → ps !! i = Some (call pd attr) →
  qp_within a tid = true → others_allow (base t) attr = true →
  ∃ t', rtc overlap (w, ps) (put i t' w, <[i := passed pd attr]> ps) ∧
    crowd a (put i t' w) ∧ base t' = base t.
Proof.
  intros Hc Hi Hps Hin Hoth. destruct (cr_procs _ _ Hc i t Hi) as (Hok & Hl & Hown).
  destruct (restrictions_run a (load (w_shm w) t) pd attr Hok) as (t' & Hrun & Hok' & Hb).
  assert (Hall : qp_allowed a (load (w_shm w) t) attr = true).
  { unfold qp_allowed, others_allow, tenant_of in *. cbn [base load update] in *. cbn in *.
    rw Hown. cbn. by rw Hin andb_true_r. }
  rw Hall -restrictions_joined in Hrun. exists t'.
  split_and!; [|by eapply put_crowd; [| |exact Hok'|by apply kept_base| |apply Hc]|done].
  eapply alone_overlap; [done..|]. unfold call, passed.
  apply (alone_bind_tc (create_qp x pd (Some attr)) (make_qp x pd (Some attr))
    (λ r, program x [] ≫= λ rs, mret (r :: rs))).
  eapply tc_rtc_r; [by eapply cut_alone; [|apply live_load|apply is_hook]|].
  exact (alone_seq _ (λ b, if negb b then act (zbase (fail_with EPERM 0)) else make_qp x pd (Some attr)) _ _ _ Hrun).
Qed.

(** The second half: the tests are not repeated. *)
Lemma crowd_create a w ps i t pd attr :
  crowd a w → w_procs w !! i = Some t → ps !! i = Some (passed pd attr) →
  ret (x_driver x (CreateQp pd (Some attr)) (drv (base t))) ≠ 0 →
  ∃ t' r, rtc overlap (w, ps) (put i t' w, <[i := Done r]> ps) ∧
    crowd (counted tid 0 1 a) (put i t' w) ∧ qps (drv (base t')) = qps (drv (base t)) + 1.
Proof using Hq.
  intros Hc Hi Hps Hr. destruct (cr_procs _ _ Hc i t Hi) as (Hok & Hl & Hown).
  destruct (cr_active _ _ Hc) as [v Hv].
  destruct (admitted_run x a (load (w_shm w) t) pd attr Hok) as (t' & Hrun & Hok' & Hk & Hd & _).
  pose proof (qps_create _ _ Hq pd (Some attr) (drv (base t))) as Hn. cbv zeta in Hn.
  change (base (load (w_shm w) t)) with (base t) in Hd, Hok', Hrun.
  rw (proj2 (Z.eqb_neq _ 0) Hr) in Hok' Hn. cbn in Hok'. rw -Hd in Hn.
  unfold tenant_of in Hok'. change (base (load (w_shm w) t)) with (base t) in Hok'.
  rw Hown in Hok'. cbn [default] in Hok'.
  destruct (counted_active tid 0 1 a v Hv) as [Ha Ho].
  eexists t', _. split_and!; [|by eapply put_crowd|done].
  eapply run_overlap; [done..|]. unfold passed. rw run_bind.
  rewrite -make_qp_joined in Hrun. exact (bind_Ret _ _ _ _ _ Hrun).
Qed.

(** Everybody passes the tests. *)
Lemma all_check a pd attr k : ∀ pre w,
  crowd a w → qp_within a tid = true →
  (∀ i t, w_procs w !! i = Some t → others_allow (base t) attr = true) →
  length (w_procs w) = (length pre + k)%nat →
  ∃ w', rtc overlap (w, pre ++ replicate k (call pd attr)) (w', pre ++ replicate k (passed pd attr)) ∧
    crowd a w' ∧ total qps (w_procs w') = total qps (w_procs w) ∧
    length (w_procs w') = length (w_procs w).
Proof.
  induction k as [|k IH]; intros pre w Hc Hin Hoth Hlen; [by exists w|].
  destruct (lookup_lt_is_Some_2 (w_procs w) (length pre)) as [t Hi]; [lia|].
  destruct (crowd_check a w (pre ++ call pd attr :: replicate k (call pd attr)) _ t pd attr Hc Hi)
    as (t' & Hst & Hc' & Hb); [by apply list_lookup_middle|done|by eapply Hoth|].
  destruct (IH (pre ++ [passed pd attr]) (put (length pre) t' w) Hc' Hin) as (w' & Hsts & Hc2 & Ht & Hl).
  - intros i u [(_ & <- & _)|[_ Hj]]%list_lookup_insert_Some; [rw Hb; by eapply Hoth|by eapply Hoth].
  - cbn. rw length_insert length_app. cbn. lia.
  - exists w'. split_and!; [|done| |].
    + etrans; [exact Hst|]. rw insert_middle. by rw -!app_assoc in Hsts.
    + rw Ht. cbn. rw (total_insert qps _ _ _ t' Hi) Hb. lia.
    + rw Hl. cbn. by rw length_insert.
Qed.

(** Everybody creates a QP. *)
Lemma all_create pd attr k : ∀ a pre w,
  crowd a w → (∀ d, ret (x_driver x (CreateQp pd (Some attr)) d) ≠ 0) →
  length (w_procs w) = (length pre + k)%nat →
  ∃ w' rs, rtc overlap (w, pre ++ replicate k (passed pd attr)) (w', pre ++ (Done <$> rs)) ∧
    length rs = k ∧ total qps (w_procs w') = total qps (w_procs w) + Z.of_nat k.
Proof using Hq.
  induction k as [|k IH]; intros a pre w Hc Hr Hlen; [exists w, []; split_and!; [done..|lia]|].
  destruct (lookup_lt_is_Some_2 (w_procs w) (length pre)) as [t Hi]; [lia|].
  destruct (crowd_create a w (pre ++ passed pd attr :: replicate k (passed pd attr)) _ t pd attr Hc Hi)
    as (t' & r & Hst & Hc' & Hn); [by apply list_lookup_middle|apply Hr|].
  destruct (IH _ (pre ++ [Done r]) (put (length pre) t' w) Hc' Hr) as (w' & rs & Hsts & Hl & Ht).
  - cbn. rw length_insert length_app. cbn. lia.
  - exists w', (r :: rs). split_and!; [|by cbn; f_equal|].
    + etrans; [exact Hst|]. rw insert_middle. by rw -!app_assoc in Hsts.
    + rw Ht. cbn. rw (total_insert qps _ _ _ t' Hi) Hn. lia.
Qed.

(** The bound of a tenant's QPs does not survive overlapping calls.  If the
    tenant has room for a single QP, all its processes can pass the test before any
    of them has counted its new QP: then every one of them creates one. *)
Theorem overlapping_calls_pass_quota a w v pd attr :
  group qps tid a w → active a tid = Some v →
  total qps (w_procs w) < Tenant.max_qp_per_tenant (v_quota v) →
  (∀ i t, w_procs w !! i = Some t → others_allow (base t) attr = true) →
  (∀ d, ret (x_driver x (CreateQp pd (Some attr)) d) ≠ 0) →
  let n := length (w_procs w) in
  ∃ w' rs, rtc overlap (w, replicate n (program x [Hook (OCreateQp pd attr)])) (w', Done <$> rs) ∧
    length rs = n ∧ total qps (w_procs w') = total qps (w_procs w) + Z.of_nat n.
Proof using Hq.
  intros Hg Hv Hroom Hoth Hr n. pose proof (group_crowd a w Hg) as Hc.
  assert (Hin : qp_within a tid = true).
  { destruct Hg as [_ _ (v' & Hv' & Hu & _)]. rw Hv in Hv'. injection Hv' as <-.
    eapply active_within; [exact Hv|]. lia. }
  destruct (all_check a pd attr n [] w Hc Hin Hoth eq_refl) as (w1 & Hst1 & Hc1 & Ht1 & Hl1).
  destruct (all_create pd attr n a [] w1 Hc1 Hr Hl1) as (w2 & rs & Hst2 & Hl2 & Ht2).
  exists w2, rs. split_and!; [by etrans|done|]. by rw Ht2 Ht1.
Qed.
End Crowd.
End Race.

(** ** Example: three processes of a tenant that may have two QPs *)

Definition race_setup : list TenantProps.call := example_setup ++ [Bind 102 3].

Definition race_world : world (Srv:=unit) (D:=nat) :=
  mk_world (Tenant.shm (example_tenant race_setup))
    [example race_setup 100; example race_setup 101; example race_setup 102].

#[local] Opaque example_tenant.

Lemma race_setup_real : Forall TenantSpec.real race_setup.
Proof. repeat constructor; cbn; lia. Qed.

Definition race_store : store := spec_store race_setup empty_store.

Lemma race_group : group Z.of_nat 3 race_store race_world.
Proof.
  split.
  - intros [|[|[|i]]] t; cbn [race_world w_procs w_shm lookup list_lookup]; [| | |done];
      intros [= <-]; rw load_example; (split_and!; [apply example_tok; [apply race_setup_real|done]
        |apply example_live|done|vm_compute; reflexivity]).
  - exact (tk_store _ _ (example_tok race_setup 100 race_setup_real eq_refl)).
  - eexists. split_and!; [vm_compute; reflexivity|reflexivity|discriminate|done].
Qed.

Lemma race_others i t :
  w_procs race_world !! i = Some t → others_allow (base t) (mk_attr IBV_QPT_RC 16 16) = true.
Proof.
  destruct i as [|[|[|i]]]; cbn [race_world w_procs lookup list_lookup]; [| | |done];
    intros [= <-]; cbn [example base]; apply example_others.
Qed.

Lemma overlapping_calls_pass_quota_witness :
  ∃ w' rs v, rtc overlap
      (race_world, replicate 3 (program toy [Hook (OCreateQp 1 (mk_attr IBV_QPT_RC 16 16))])) (w', Done <$> rs) ∧
    active race_store 3 = Some v ∧
    Tenant.max_qp_per_tenant (v_quota v) < total Z.of_nat (w_procs w').
Proof.
  assert (Hv : ∃ v, active race_store 3 = Some v ∧ Tenant.max_qp_per_tenant (v_quota v) = 2).
  { eexists. split; [vm_compute; reflexivity|reflexivity]. }
  destruct Hv as (v & Hv & H2).
  destruct (overlapping_calls_pass_quota toy Z.of_nat toy_counts 3 race_store race_world v 1
    (mk_attr IBV_QPT_RC 16 16) race_group Hv) as (w' & rs & Hst & _ & Ht).
  - rewrite H2. reflexivity.
  - exact race_others.
  - intros d H. cbn in H. lia.
  - exists w', rs, v. split; [exact Hst|]. split; [exact Hv|]. rewrite Ht H2. reflexivity.
Defined.

End QuotaRace.
