(* ===== verification/Isolation.v ===== *)
(** * The isolation experiments

    The programs of experiments 2, 8 and 9 run under the interceptor as a process
    of a tenant: two create QPs, one registers MRs, until they have asked for as
    many as they were told to.  All are clients of the tenant hooks; how many they
    get is decided by the tenant's quota (and, for QPs, the limit of the process),
    whatever another tenant does.

    The times the programs measure, and the layout of their reports, are left out. *)

From S2P Require Import Prelude CString Intercept Core CollectorServer CollectorClient LocalPolicy.
From S2P Require Import SlotTable ShmProcess ShmTenant TenantProps TenantSpec HookBase HooksTenant.
From S2P Require Import HooksTenantProps TenantQuota.

Module Isolation.
Import TenantProps TenantSpec.
Import Intercept Core CollectorClient LocalPolicy HookBase HooksTenant HooksTenantProps TenantQuota.
#[local] Existing Instances Tenant.expand_usage Tenant.expand_info Tenant.expand_shm Tenant.expand_state.

(** ** The options *)

(** What one call of [getopt_long] returns: the letter and [optarg]. *)
Definition option_t : Type := ascii * string.

Record config_t := mk_config {
  tenant_id : Z;            (* uint32_t; printed only *)
  wanted : Z;               (* num_qp_to_create, num_mr_to_register *)
  mr_size : Z;              (* size_t; experiment 9 *)
  output_file : option string;
  verbose : bool;
}.
#[export] Instance expand_config : Expand config_t := λ r,
  mk_config (tenant_id r) (wanted r) (mr_size r) (output_file r) (verbose r).

Definition MAX_QP : Z := 256.
Definition MAX_MR : Z := 256.
Definition default_config : config_t := mk_config 10 10 4096 None false.

(** One turn of the switch; [inr] is the exit code of the program. *)
Definition qp_option (c : config_t) (o : option_t) : config_t + Z :=
  let '(letter, optarg) := o in
  match letter with
  | "t"%char => inl (c <| tenant_id := u32 (atoi optarg) |>)
  | "n"%char => inl (c <| wanted := atoi optarg |>)
  | "o"%char => inl (c <| output_file := Some optarg |>)
  | "v"%char => inl (c <| verbose := true |>)
  | "h"%char => inr 0
  | _ => inr 1
  end.

(** Experiment 9 has one option more. *)
Definition mr_option (c : config_t) (o : option_t) : config_t + Z :=
  let '(letter, optarg) := o in
  match letter with
  | "s"%char => inl (c <| mr_size := u64 (atoll optarg) |>)
  | _ => qp_option c o
  end.

Fixpoint parse_options (turn : config_t → option_t → config_t + Z) (os : list option_t) (c : config_t) :
    config_t + Z :=
  match os with
  | [] => inl c
  | o :: os' => match turn c o with inl c' => parse_options turn os' c' | inr e => inr e end
  end.

Definition parse_qp_args (os : list option_t) : config_t + Z :=
  match parse_options qp_option os default_config with
  | inl c => if MAX_QP <? wanted c then inr 1 else inl c
  | inr e => inr e
  end.

Definition parse_mr_args (os : list option_t) : config_t + Z :=
  match parse_options mr_option os default_config with
  | inl c => if MAX_MR <? wanted c then inr 1 else inl c
  | inr e => inr e
  end.

(** ** The programs *)

(** What libibverbs finds: a device, and the context it opens (0: it cannot). *)
Record device := mk_device {
  dev_found : bool;
  dev_context : Z;
}.

(** One attempt: the record the program keeps, and the object. *)
Record attempt := mk_attempt {
  success : Z;
  error_code : Z;
  handle : Z;
}.
Definition no_attempt : attempt := mk_attempt 0 0 0.

Section Programs.
Context {Srv D : Type} (x : externals Srv D) (dev : device) (buffer : nat → Z).
Implicit Types (t : thooks Srv D) (a : store).

(** [for (i = 0; i < wanted; i++)] over arrays of [max] elements, the first of them
    filled in. *)
Fixpoint attempts (max : Z) (create : nat → M (thooks Srv D) Z) (n : nat) (done : list attempt) :
    M (thooks Srv D) (list attempt) :=
  match n with
  | O => mret done
  | S n' =>
      if max <=? Z.of_nat (length done) then crash else
      h ← create (length done);
      t ← get;
      let r := if h =? 0 then mk_attempt 0 (errno (hproc (base t))) 0 else mk_attempt 1 0 h in
      attempts max create n' (done ++ [r])
  end.

Definition success_count (rs : list attempt) : Z := foldr (λ r n, success r + n) 0 rs.

(** The objects that were obtained are given back. *)
Fixpoint release (destroy : Z → M (thooks Srv D) Z) (rs : list attempt) : M (thooks Srv D) unit :=
  match rs with
  | [] => mret tt
  | r :: rs' => (if handle r =? 0 then mret tt else destroy (handle r);; mret tt);; release destroy rs'
  end.

Definition unless_null (p : Z) (m : M (thooks Srv D) Z) : M (thooks Srv D) unit :=
  if p =? 0 then mret tt else m;; mret tt.

Definition qp_attr : ibv_qp_init_attr := mk_attr IBV_QPT_RC 10 10.

(** The number of QPs obtained, [-1] without a device; and the records. *)
Definition run_qp_isolation_test (c : config_t) : M (thooks Srv D) (Z * list attempt) :=
  if negb (dev_found dev) then mret (-1, []) else
  let ctx := dev_context dev in
  if ctx =? 0 then mret (0, []) else
  pd ← ibv_alloc_pd x ctx;
  if pd =? 0 then mret (0, []) else
  cq ← ibv_create_cq x ctx 16 0 0 0;
  if cq =? 0 then unless_null pd (ibv_dealloc_pd x pd);; mret (0, []) else
  rs ← attempts MAX_QP (λ _, ibv_create_qp x pd (Some qp_attr)) (Z.to_nat (wanted c)) [];
  release (ibv_destroy_qp x) rs;;
  unless_null cq (ibv_destroy_cq x cq);;
  unless_null pd (ibv_dealloc_pd x pd);;
  mret (success_count rs, rs).

Definition IBV_ACCESS_LOCAL_WRITE : Z := 1.

(** The buffers come from [malloc]; the program gives up when one does not. *)
Definition run_mr_isolation_test (c : config_t) : M (thooks Srv D) (Z * list attempt) :=
  let n := Z.to_nat (wanted c) in
  if existsb (λ i, buffer i =? 0) (seq 0 n) then mret (-1, []) else
  if negb (dev_found dev) then mret (0, []) else
  let ctx := dev_context dev in
  if ctx =? 0 then mret (0, []) else
  pd ← ibv_alloc_pd x ctx;
  if pd =? 0 then mret (0, []) else
  rs ← attempts MAX_MR (λ i, ibv_reg_mr x pd (buffer i) (mr_size c) IBV_ACCESS_LOCAL_WRITE) n [];
  release (ibv_dereg_mr x) rs;;
  unless_null pd (ibv_dealloc_pd x pd);;
  mret (success_count rs, rs).

(** What the report is written from: how many were asked for, how many obtained,
    and the records, those never filled in being zero. *)
Definition report (n : Z) (r : Z * list attempt) : Z * Z * list attempt :=
  (n, fst r, snd r ++ replicate (Z.to_nat n - length (snd r)) no_attempt).

Definition main_with (args : config_t + Z) (test : config_t → M (thooks Srv D) (Z * list attempt)) :
    M (thooks Srv D) (Z * option (Z * Z * list attempt)) :=
  match args with
  | inr e => mret (e, None)
  | inl c =>
      r ← test c;
      if fst r <? 0 then mret (1, None) else mret (0, Some (report (wanted c) r))
  end.

Definition qp_main (os : list option_t) := main_with (parse_qp_args os) run_qp_isolation_test.
Definition mr_main (os : list option_t) := main_with (parse_mr_args os) run_mr_isolation_test.
End Programs.
(** ** Experiment 2 *)

Record exp2_config := mk_exp2 {
  exp2_tenant : Z;      (* int; printed only *)
  exp2_quota : Z;       (* what the user says the quota is *)
  extra_attempts : Z;
}.
#[export] Instance expand_exp2 : Expand exp2_config := λ r,
  mk_exp2 (exp2_tenant r) (exp2_quota r) (extra_attempts r).

Definition EXP2_MAX_QP : Z := 200.

Definition exp2_option (c : exp2_config) (o : option_t) : exp2_config + Z :=
  let '(letter, optarg) := o in
  match letter with
  | "t"%char => inl (c <| exp2_tenant := atoi optarg |>)
  | "q"%char => inl (c <| exp2_quota := atoi optarg |>)
  | "e"%char => inl (c <| extra_attempts := atoi optarg |>)
  | "o"%char => inl c
  | "h"%char => inr 0
  | _ => inr 1
  end.

Fixpoint exp2_options (os : list option_t) (c : exp2_config) : exp2_config + Z :=
  match os with
  | [] => if exp2_tenant c <? 0 then inr 1 else inl c
  | o :: os' => match exp2_option c o with inl c' => exp2_options os' c' | inr e => inr e end
  end.

Definition parse_exp2_args (os : list option_t) : exp2_config + Z := exp2_options os (mk_exp2 (-1) 0 10).

(** What the loop has found: the QPs, the number of refusals, and the number of the
    first refused attempt (0 while there is none). *)
Record findings := mk_findings {
  qps_created : list Z;
  denied : Z;
  first_denial : Z;
}.

(** The report: attempts, QPs created, refusals, the first refused attempt, whether
    the QPs created are within the quota, and for each attempt whether the raw data
    say it was successful. *)
Record exp2_report := mk_report {
  r_attempts : Z;
  r_created : Z;
  r_denied : Z;
  r_first_denial : Z;
  r_compliant : bool;
  r_raw : list bool;
}.

Section Exp2.
Context {Srv D : Type} (x : externals Srv D) (dev : device).

Fixpoint exp2_attempts (pd : Z) (n : nat) (i : Z) (f : findings) : M (thooks Srv D) findings :=
  match n with
  | O => mret f
  | S n' =>
      if EXP2_MAX_QP <=? i then crash else
      qp ← ibv_create_qp x pd (Some qp_attr);
      exp2_attempts pd n' (i + 1)
        (if negb (qp =? 0) then mk_findings (qps_created f ++ [qp]) (denied f) (first_denial f)
         else mk_findings (qps_created f) (denied f + 1)
                (if denied f =? 0 then i + 1 else first_denial f))
  end.

Fixpoint destroy_all (qs : list Z) : M (thooks Srv D) unit :=
  match qs with
  | [] => mret tt
  | q :: qs' => (if q =? 0 then mret tt else ibv_destroy_qp x q;; mret tt);; destroy_all qs'
  end.

(** [int total_attempts]: [quota + extra_attempts] is signed arithmetic. *)
Definition total_attempts (c : exp2_config) : option Z :=
  let n := exp2_quota c + extra_attempts c in
  if (n <? -2 ^ 31) || (2 ^ 31 <=? n) then None else
  Some (if EXP2_MAX_QP <? n then EXP2_MAX_QP else n).

Definition exp2_result (c : exp2_config) (total : Z) (f : findings) : exp2_report :=
  let created := Z.of_nat (length (qps_created f)) in
  mk_report total created (denied f) (first_denial f) (created <=? exp2_quota c)
    ((λ i, Z.of_nat i <? created) <$> seq 0 (Z.to_nat (Z.min total 50))).

(** Neither the context nor the domain nor the queue is tested for NULL. *)
Definition exp2_main (os : list option_t) : M (thooks Srv D) (Z * option exp2_report) :=
  match parse_exp2_args os with
  | inr e => mret (e, None)
  | inl c =>
      if negb (dev_found dev) then mret (1, None) else
      pd ← ibv_alloc_pd x (dev_context dev);
      cq ← ibv_create_cq x (dev_context dev) 16 0 0 0;
      match total_attempts c with
      | None => crash
      | Some total =>
          f ← exp2_attempts pd (Z.to_nat total) 0 (mk_findings [] 0 0);
          destroy_all (qps_created f);;
          ibv_destroy_cq x cq;;
          ibv_dealloc_pd x pd;;
          mret (0, Some (exp2_result c total f))
      end
  end.
End Exp2.

Lemma qp_args_max os c : parse_qp_args os = inl c → Z.of_nat (Z.to_nat (wanted c)) ≤ MAX_QP.
Proof.
  unfold parse_qp_args. destruct (parse_options _ _ _) as [c'|]; [|done].
  destruct (Z.ltb_spec MAX_QP (wanted c')); [done|]. intros [= <-]. unfold MAX_QP in *. lia.
Qed.

Lemma mr_args_max os c : parse_mr_args os = inl c → Z.of_nat (Z.to_nat (wanted c)) ≤ MAX_MR.
Proof.
  unfold parse_mr_args. destruct (parse_options _ _ _) as [c'|]; [|done].
  destruct (Z.ltb_spec MAX_MR (wanted c')); [done|]. intros [= <-]. unfold MAX_MR in *. lia.
Qed.

(** ** Filling a quota *)

Section Quota.
Context {Srv D : Type}.
Implicit Types (t : thooks Srv D) (a : store).

(** What the programs rely on: objects are granted while there is room, refused
    with [EPERM] afterwards, and can be given back. *)
Class Meter (create : nat → M (thooks Srv D) Z) (destroy : Z → M (thooks Srv D) Z)
    (filling holding : Z → thooks Srv D → Prop) (room : Z) : Prop := {
  meter_room : 0 ≤ room;
  meter_grant i k t : filling k t → k < room →
    ∃ h t', create i t = Ret h t' ∧ h ≠ 0 ∧ filling (k + 1) t';
  meter_refuse i k t : filling k t → room ≤ k →
    ∃ t', create i t = Ret 0 t' ∧ errno (hproc (base t')) = EPERM ∧ filling k t';
  meter_full k t : filling k t → holding k t;
  meter_release h k t : holding k t → 0 < k → ∃ r t', destroy h t = Ret r t' ∧ holding (k - 1) t';
}.

Definition granted (h : Z) : attempt := mk_attempt 1 0 h.
Definition refused : attempt := mk_attempt 0 EPERM 0.

(** [m] objects, then refusals. *)
Definition first_granted (n m : nat) (rs : list attempt) : Prop :=
  ∃ hs, length hs = m ∧ Forall (λ h, h ≠ 0) hs ∧ rs = (granted <$> hs) ++ replicate (n - m) refused.

(** Whether an attempt was successful, told from its number. *)
Lemma raw_data_true n m rs :
  first_granted n m rs → (m ≤ n)%nat →
  (λ i, Z.of_nat i <? Z.of_nat m) <$> seq 0 (Nat.min 50 n) = (λ r, success r =? 1) <$> take 50 rs.
Proof.
  intros (hs & <- & _ & ->) Hle. rw -take_seq !fmap_take. f_equal.
  rw fmap_app fmap_replicate -list_fmap_compose.
  rw (const_fmap _ hs true); [done|].
  replace (seq 0 n) with (seq 0 (length hs) ++ seq (length hs) (n - length hs)) by
    (rw -seq_app; f_equal; lia).
  rw fmap_app. f_equal.
  - trans ((λ _, true) <$> seq 0 (length hs)); [|by rw (const_fmap _ _ true) // length_seq].
    apply list_fmap_ext. intros i j [-> Hi]%lookup_seq. apply Z.ltb_lt. cbn. lia.
  - trans ((λ _, false) <$> seq (length hs) (n - length hs)); [|by rw (const_fmap _ _ false) // length_seq].
    apply list_fmap_ext. intros i j [-> Hi]%lookup_seq. apply Z.ltb_ge. lia.
Qed.

Context `{Hm : Meter create destroy filling holding room}.

Lemma attempts_refused max n : ∀ k t done,
  filling k t → room ≤ k → Z.of_nat (length done + n) ≤ max →
  ∃ t', attempts max create n done t = Ret (done ++ replicate n refused) t' ∧ filling k t'.
Proof using Hm.
  induction n as [|n IH]; intros k t done Hf Hk Hlen; [exists t; by rw app_nil_r|].
  destruct (meter_refuse (length done) k t Hf Hk) as (t1 & Hrun & He & Hf1).
  destruct (IH k t1 (done ++ [refused]) Hf1 Hk) as (t2 & Hrun2 & Hf2); [rw length_app; cbn; lia|].
  exists t2. split; [|done]. cbn [attempts]. rw (proj2 (Z.leb_gt _ _)); [lia|].
  rw (bind_Ret _ _ _ _ _ Hrun). rw (bind_Ret _ _ _ t1 t1); [done|]. cbn. rw He.
  rw -app_assoc in Hrun2. exact Hrun2.
Qed.

Lemma attempts_run max n : ∀ m k t done,
  filling k t → k ≤ room → Z.of_nat (length done + n) ≤ max → m = Nat.min n (Z.to_nat (room - k)) →
  ∃ rs t', attempts max create n done t = Ret (done ++ rs) t' ∧ filling (k + Z.of_nat m) t' ∧
    first_granted n m rs.
Proof using Hm.
  induction n as [|n IH]; intros m k t done Hf Hk Hlen Hmin.
  { subst m. exists [], t. split_and!; [by rw app_nil_r|by rw Z.add_0_r|by exists []]. }
  destruct (decide (k = room)) as [->|Hne].
  { destruct (attempts_refused max (S n) room t done Hf) as (t' & Hrun & Hf'); [lia..|].
    assert (m = 0%nat) as -> by lia. eexists _, t'. split_and!; [exact Hrun|by rw Z.add_0_r|by exists []]. }
  destruct (meter_grant (length done) k t Hf) as (h & t1 & Hrun & Hh & Hf1); [lia|].
  destruct (IH (m - 1)%nat (k + 1) t1 (done ++ [granted h]) Hf1) as (rs & t2 & Hrun2 & Hf2 & hs & Hl & Hhs & ->);
    [lia|rw length_app; cbn; lia|lia|].
  eexists (granted h :: _), t2. split_and!.
  - cbn [attempts]. rw (proj2 (Z.leb_gt _ _)); [lia|].
    rw (bind_Ret _ _ _ _ _ Hrun). rw (bind_Ret _ _ _ t1 t1); [done|]. cbv zeta.
    rw (proj2 (Z.eqb_neq _ _) Hh). rw -app_assoc in Hrun2. exact Hrun2.
  - replace (k + Z.of_nat m) with (k + 1 + Z.of_nat (m - 1)) by lia. done.
  - exists (h :: hs). split_and!; [cbn; lia|by constructor|]. cbn. do 3 f_equal. lia.
Qed.

Lemma release_refused n t : release destroy (replicate n refused) t = Ret tt t.
Proof. induction n as [|n IH]; [done|]. cbn. by rw (bind_Ret _ _ _ tt t). Qed.

Lemma release_run hs rest : ∀ k t,
  holding k t → Z.of_nat (length hs) ≤ k → Forall (λ h, h ≠ 0) hs → (∀ t, release destroy rest t = Ret tt t) →
  ∃ t', release destroy ((granted <$> hs) ++ rest) t = Ret tt t' ∧ holding (k - Z.of_nat (length hs)) t'.
Proof using Hm.
  induction hs as [|h hs IH]; intros k t Hf Hk Hhs Hrest; cbn [length] in *.
  { exists t. by rw Z.sub_0_r. }
  apply Forall_cons in Hhs as [Hh Hhs].
  destruct (meter_release h k t Hf) as (r & t1 & Hrun & Hf1); [lia|].
  destruct (IH (k - 1) t1 Hf1) as (t2 & Hrun2 & Hf2); [lia|done..|].
  exists t2. split.
  - cbn [fmap list_fmap app release granted handle]. rw (proj2 (Z.eqb_neq _ _) Hh).
    rw (bind_Ret _ _ _ tt t1); [|done]. by rw (bind_Ret _ _ _ _ _ Hrun).
  - replace (k - Z.of_nat (S (length hs))) with (k - 1 - Z.of_nat (length hs)) by lia. done.
Qed.

Lemma successes n m rs : first_granted n m rs → success_count rs = Z.of_nat m.
Proof.
  intros (hs & <- & _ & ->). generalize (n - length hs)%nat as k. intros k.
  induction hs as [|h hs IH]; cbn; [by induction k|]. unfold success_count in IH. rw IH. lia.
Qed.

Lemma first_length n m rs : first_granted n m rs → (m ≤ n)%nat → length rs = n.
Proof. intros (hs & <- & _ & ->) Hle. rw length_app length_fmap length_replicate. lia. Qed.

(** The report of a test that fills in all its records. *)
Lemma main_reports c (test : config_t → M (thooks Srv D) (Z * list attempt)) m rs t t' :
  test c t = Ret (success_count rs, rs) t' →
  first_granted (Z.to_nat (wanted c)) m rs → (m ≤ Z.to_nat (wanted c))%nat →
  main_with (inl c) test t = Ret (0, Some (wanted c, Z.of_nat m, rs)) t'.
Proof.
  intros Hrun Hrs Hle. unfold main_with. rw (bind_Ret _ _ _ _ _ Hrun). cbn [fst].
  rw (successes _ _ _ Hrs) (proj2 (Z.ltb_ge _ _)); [lia|].
  unfold report. cbn [fst snd]. by rw (first_length _ _ _ Hrs Hle) Nat.sub_diag app_nil_r.
Qed.

(** All of it: what was obtained is given back. *)
Lemma filled_and_released max n t :
  filling 0 t → Z.of_nat n ≤ max →
  let m := Nat.min n (Z.to_nat room) in
  ∃ rs t1 t2, attempts max create n [] t = Ret rs t1 ∧ release destroy rs t1 = Ret tt t2 ∧
    first_granted n m rs ∧ holding 0 t2.
Proof using Hm.
  intros Hf Hn m. pose proof meter_room as H0.
  destruct (attempts_run max n m 0 t [] Hf H0) as (rs & t1 & Hrun & Hf1 & Hrs); [done|by rw Z.sub_0_r|]. destruct Hrs as (hs & Hl & Hhs & ->).
  destruct (release_run hs (replicate (n - m) refused) (Z.of_nat m) t1) as (t2 & Hrun2 & Hf2);
    [by apply meter_full|lia|done|apply release_refused|].
  eexists _, t1, t2. split_and!; [exact Hrun|exact Hrun2|by exists hs|]. by rw Hl Z.sub_diag in Hf2.
Qed.
End Quota.

(** ** Experiment 2 counts the same attempts *)

Section Exp2_loop.
Context {Srv D : Type} (x : externals Srv D).
Implicit Types (t : thooks Srv D).

(** What the loop of experiment 2 makes of the attempts, from number [i] on. *)
Fixpoint account (i : Z) (f : findings) (rs : list attempt) : findings :=
  match rs with
  | [] => f
  | r :: rs' =>
      account (i + 1)
        (if negb (handle r =? 0) then mk_findings (qps_created f ++ [handle r]) (denied f) (first_denial f)
         else mk_findings (qps_created f) (denied f + 1)
                (if denied f =? 0 then i + 1 else first_denial f)) rs'
  end.

Lemma attempts_extend max (create : nat → M (thooks Srv D) Z) n : ∀ done t l t',
  attempts max create n done t = Ret l t' → ∃ rs, l = done ++ rs.
Proof.
  induction n as [|n IH]; intros done t l t'; cbn [attempts].
  { intros [= <- _]. exists []. by rw app_nil_r. }
  destruct (max <=? _); [done|]. intros (h & t1 & _ & (t2 & t3 & _ & H)%bind_inv)%bind_inv.
  destruct (IH _ _ _ _ H) as [rs ->]. eexists. by rw -app_assoc.
Qed.

Lemma exp2_accounts pd n : ∀ done f t rs t',
  attempts EXP2_MAX_QP (λ _, ibv_create_qp x pd (Some qp_attr)) n done t = Ret (done ++ rs) t' →
  exp2_attempts x pd n (Z.of_nat (length done)) f t = Ret (account (Z.of_nat (length done)) f rs) t'.
Proof.
  induction n as [|n IH]; intros done f t rs t'; cbn [attempts exp2_attempts].
  { intros [= Hl <-]. rw -{1}(app_nil_r done) in Hl. by apply app_inv_head in Hl as <-. }
  destruct (EXP2_MAX_QP <=? _); [done|].
  intros (h & t1 & Hrun & (t2 & t3 & [= -> ->] & H)%bind_inv)%bind_inv.
  rw (bind_Ret _ _ _ _ _ Hrun). set (r := if h =? 0 then _ else _) in H.
  destruct (attempts_extend _ _ _ _ _ _ _ H) as [rs' Hrs]. rw -app_assoc in Hrs.
  apply app_inv_head in Hrs as ->. rw app_assoc in H. specialize (IH _ (account (Z.of_nat (length done)) f [r]) _ _ _ H).
  rw length_app Nat2Z.inj_add in IH. cbn [account length app] in IH |- *.
  assert (handle r = h) as Hh by (unfold r; by destruct (Z.eqb_spec h 0) as [->|]).
  by rw Hh in IH |- *.
Qed.

Lemma account_refused n : ∀ i f, 0 ≤ denied f →
  account i f (replicate n refused) =
    mk_findings (qps_created f) (denied f + Z.of_nat n)
      (if bool_decide (n = 0%nat) || negb (denied f =? 0) then first_denial f else i + 1).
Proof.
  induction n as [|n IH]; intros i f Hf; [destruct f; cbn; by rw Z.add_0_r|].
  cbn [replicate account refused handle Z.eqb negb]. rw IH; [cbn; lia|]. cbn [qps_created denied first_denial].
  f_equal; [lia|]. rw (bool_decide_eq_false_2 (S n = 0%nat)) // (proj2 (Z.eqb_neq (denied f + 1) 0)); [lia|].
  cbn [orb negb]. rw orb_true_r. by destruct (denied f =? 0).
Qed.

Lemma account_granted hs rest : ∀ i f, Forall (λ h, h ≠ 0) hs →
  account i f ((granted <$> hs) ++ rest) =
    account (i + Z.of_nat (length hs)) (mk_findings (qps_created f ++ hs) (denied f) (first_denial f)) rest.
Proof.
  induction hs as [|h hs IH]; intros i f Hhs; cbn [fmap list_fmap app length].
  { rw app_nil_r Z.add_0_r. by destruct f. }
  apply Forall_cons in Hhs as [Hh Hhs]. cbn [account granted handle].
  rw (proj2 (Z.eqb_neq _ _) Hh) IH //. cbn [negb qps_created denied first_denial].
  rw -app_assoc. f_equal. lia.
Qed.

Lemma destroy_all_release hs rest t :
  (∀ t, release (ibv_destroy_qp x) rest t = Ret tt t) →
  destroy_all x hs t = release (ibv_destroy_qp x) ((granted <$> hs) ++ rest) t.
Proof.
  intros Hrest. revert t. induction hs as [|h hs IH]; intros t; cbn [fmap list_fmap app destroy_all]; [by rw Hrest|].
  cbn [release granted handle]. by apply bind_same.
Qed.
End Exp2_loop.

(** ** What the hooks do for one tenant *)

Section Tenant.
Context {Srv D : Type} (x : externals Srv D).
Implicit Types (t : thooks Srv D) (a : store).

(** The QPs or the MRs of a usage. *)
Definition figure (rt : Z) (u : Tenant.tenant_resource_usage_t) : Z :=
  u32 (if rt =? 0 then Tenant.qp_count u else Tenant.mr_count u).

(** Since [a0] the tenant has got [n] objects of that kind more; the other
    tenants and all the bindings are what they were. *)
Record bill (rt : Z) a0 (tid n : Z) a : Prop := {
  bl_owner : owner a = owner a0;
  bl_others k : k ≠ tid → live a k = live a0 k;
  bl_tenant : ∃ v0 v, active a0 tid = Some v0 ∧ active a tid = Some v ∧ v_quota v = v_quota v0 ∧
    Tenant.memory_used (v_usage v) = Tenant.memory_used (v_usage v0) ∧
    figure rt (v_usage v) = u32 (figure rt (v_usage v0) + n);
}.

Lemma bill_start rt a tid v : active a tid = Some v → bill rt a tid 0 a.
Proof.
  intros Hv. split; [done..|]. exists v, v. split_and!; [done..|]. rw Z.add_0_r.
  symmetry. apply u32_small, u32_range.
Qed.

Lemma figure_count rt rt' delta u :
  rt = 0 ∨ rt = 1 →
  figure rt (count_usage rt' delta u) = u32 (figure rt u + (if rt' =? rt then delta else 0)).
Proof.
  intros Hrt. unfold figure, count_usage.
  destruct Hrt as [-> | ->];
    repeat match goal with
    | |- context [?n =? ?m] => destruct (Z.eqb_spec n m)
    | |- context [if ?b then _ else _] => destruct b
    end; subst; cbn; try done; width_lia.
Qed.

Lemma memory_count rt delta u : Tenant.memory_used (count_usage rt delta u) = Tenant.memory_used u.
Proof.
  unfold count_usage. repeat match goal with |- context [if ?b then _ else _] => destruct b; cbn end; done.
Qed.

Lemma bill_counted rt a0 tid n a rt' delta :
  rt = 0 ∨ rt = 1 → bill rt a0 tid n a →
  bill rt a0 tid (n + (if rt' =? rt then delta else 0)) (counted tid rt' delta a).
Proof.
  intros Hrt [Ho Hl (v0 & v & Hv0 & Hv & Hqt & Hm & Hn)].
  destruct (counted_active tid rt' delta a v Hv) as [Ha Hown]. split.
  - by rw Hown.
  - intros k Hk. unfold counted. rw Hv. cbn. rw decide_False //. by apply Hl.
  - eexists v0, _. split_and!; [done|exact Ha|done|..]; cbn [v_usage v_quota update].
    + by rw memory_count.
    + rw figure_count // Hn. width_lia.
Qed.

Lemma bill_trans rt a0 tid m a1 n a2 :
  bill rt a0 tid m a1 → bill rt a1 tid n a2 → bill rt a0 tid (m + n) a2.
Proof.
  intros [Ho1 Hl1 (v0 & v1 & Hv0 & Hv1 & Hq1 & Hm1 & Hn1)] [Ho2 Hl2 (w & v2 & Hw & Hv2 & Hq2 & Hm2 & Hn2)].
  rw Hv1 in Hw. injection Hw as <-. split; [by rw Ho2|intros k Hk; rw Hl2 //; by apply Hl1|].
  exists v0, v2. split_and!; [done|done|by rw Hq2|by rw Hm2|]. rw Hn2 Hn1. width_lia.
Qed.

(** A driver that refuses nothing, and destroys what it has created. *)
Record generous (qps : D → Z) : Prop := {
  gn_pd c d : ret (x_driver x (AllocPd c) d) ≠ 0;
  gn_cq c n cc ch v d : ret (x_driver x (CreateCq c n cc ch v) d) ≠ 0;
  gn_qp pd d : ret (x_driver x (CreateQp pd (Some qp_attr)) d) ≠ 0;
  gn_destroy qp d : 0 < qps d → ret (x_driver x (DestroyQp qp) d) = 0;
  gn_mr pd addr len acc d : ret (x_driver x (RegMr pd addr len acc) d) ≠ 0;
  gn_dereg mr d : ret (x_driver x (DeregMr mr) d) = 0;
}.

(** A process of the active tenant [tid]. *)
Record tenant_process a tid (v : tview) t : Prop := {
  tp_ok : tok a t;
  tp_live : live_hooks t;
  tp_owner : owner a !! pid (base t) = Some tid;
  tp_active : active a tid = Some v;
  tp_quota : is_u32 (Tenant.max_qp_per_tenant (v_quota v)) ∧ is_u32 (Tenant.max_mr_per_tenant (v_quota v));
}.

Lemma tenant_process_id a tid v t : tenant_process a tid v t → (tid =? 0) = false.
Proof.
  intros [Hok _ _ Hv _]. apply Z.eqb_neq. intros ->. by rw (no_default a t Hok) in Hv.
Qed.

Section Qps.
Context (qps : D → Z) (Hq : counts_qps x qps) (Hg : generous qps).
Context (a0 : store) (tid : Z) (v0 : tview) (t0 : thooks Srv D) (Hp : tenant_process a0 tid v0 t0).

(** The process is controlled, with limits of its own on the QPs only. *)
Definition controlled_process : Prop :=
  enable_qp_control (hcfg (base t0)) = true ∧
  type_denied (hcfg (base t0)) (attr_qp_type qp_attr) = false ∧
  global_denied (hcfg (base t0)) (reading (global_usage (base t0))) = false ∧
  is_u32 (max_qp_per_process (hcfg (base t0))).
Context (Hctl : controlled_process).

(** The limit of a process: none is enforced while the process shared memory is not
    mapped, since the count of the process cannot be read. *)
Definition process_limit : Z :=
  if mapped t0 then max_qp_per_process (hcfg (base t0)) else UINT32_MAX.

(** What the quota leaves, at most the limit of a process. *)
Definition qp_room : Z :=
  Z.max 0 (Z.min (Tenant.max_qp_per_tenant (v_quota v0) - figure 0 (v_usage v0)) process_limit).

Lemma process_limit_u32 : is_u32 process_limit.
Proof using Hctl. unfold process_limit. by destruct (mapped t0); [apply Hctl|]. Qed.

Definition qp_holding (k : Z) t : Prop :=
  0 ≤ k ∧ ∃ a, tok a t ∧ kept t0 t ∧ bill 0 a0 tid k a ∧ qps (drv (base t)) = qps (drv (base t0)) + k.

Definition qp_filling (k : Z) t : Prop :=
  k ≤ qp_room ∧ counts_published t ∧ qp_count (hg (base t)) = k ∧ qp_holding k t.

Lemma kept_owner a t : owner a = owner a0 → kept t0 t → tenant_of a t = tid.
Proof using Hp. intros Ho Hk. unfold tenant_of. by rw Ho (kp_pid _ _ Hk) (tp_owner _ _ _ _ Hp). Qed.

Lemma kept_live t : kept t0 t → live_hooks t.
Proof using Hp. intros Hk. eapply live_kept; [exact Hk|apply Hp]. Qed.

Lemma figure_range rt u : is_u32 (figure rt u).
Proof. apply u32_range. Qed.

Lemma qp_verdict k t a :
  k ≤ qp_room → 0 ≤ k → counts_published t → qp_count (hg (base t)) = k → tok a t → kept t0 t →
  bill 0 a0 tid k a → qp_allowed a t qp_attr = (k <? qp_room).
Proof using Hp Hctl.
  intros Hk H0 Hcp Hc Hok Hkt [Ho _ (w0 & v & Hw0 & Hv & Hqt & _ & Hn)].
  rw (tp_active _ _ _ _ Hp) in Hw0. injection Hw0 as <-.
  pose proof process_limit_u32 as H4. destruct Hctl as (H1 & H2 & H3 & _).
  destruct (tp_quota _ _ _ _ Hp) as [H5 _].
  unfold qp_allowed. rw (kp_cfg _ _ Hkt) (kp_global _ _ Hkt) H1 H2 H3. cbn [negb orb andb].
  rw andb_true_r (kept_owner a t Ho Hkt). unfold qp_within. rw (tenant_process_id _ _ _ _ Hp). cbn [orb].
  unfold active in Hv. destruct (live a tid) as [w|]; [|done]. cbn in Hv.
  destruct (is_active w); [|done]. injection Hv as ->. rw Hqt.
  change (u32 (Tenant.qp_count (v_usage v))) with (figure 0 (v_usage v)). rw Hn.
  assert (process_denied (hcfg (base t0)) (reading (process_usage (base t))) =
          (process_limit <? u32 (k + 1)) && mapped t0) as ->.
  { pose proof (kp_mapped _ _ Hkt) as Hm. pose proof (cp_count _ Hcp) as Hcc.
    unfold process_denied, process_usage, process_limit, mapped in *. rw Hm in Hcc |- *.
    destruct (Shm.shm_data_ptr (pshm (base t0))); [|by rw andb_false_r]. rw andb_true_r.
    cbn [reading fst snd default]. by rw (Hcc eq_refl) Hc. }
  pose proof (figure_range 0 (v_usage v0)) as Hf. unfold qp_room, is_u32 in *.
  assert (Hun : mapped t0 = false → process_limit = UINT32_MAX) by (unfold process_limit; by intros ->).
  set (u := figure 0 (v_usage v0)) in *. set (q := Tenant.max_qp_per_tenant (v_quota v0)) in *.
  set (m := process_limit) in *. apply eq_iff_eq_true. destruct (mapped t0).
  - rw andb_true_r andb_true_iff !negb_true_iff Z.leb_gt Z.ltb_ge Z.ltb_lt. width_lia.
  - rw andb_false_r andb_true_r negb_true_iff Z.leb_gt Z.ltb_lt. pose proof (Hun eq_refl). unfold UINT32_MAX in *. width_lia.
Qed.

#[export] Instance qp_meter pd :
  Meter (λ _, ibv_create_qp x pd (Some qp_attr)) (ibv_destroy_qp x) qp_filling qp_holding qp_room.
Proof using Hp Hctl Hg Hq.
  split.
  - unfold qp_room. lia.
  - intros _ k t (Hk & Hcp & Hc & H0 & a & Hok & Hkt & Hb & Hd) Hlt.
    destruct (kept_live t Hkt) as [He Hr].
    destruct (create_qp_run x a t pd qp_attr Hok He (Hr _ (is_hook "ibv_create_qp" eq_refl)))
      as (t' & Hrun & Hok' & Hk' & Hd' & Hc' & _ & Hcp' & _).
    rw (qp_verdict k t a) // (proj2 (Z.ltb_lt _ _) Hlt) in Hrun Hok' Hd' Hc'.
    set (o := x_driver x _ _) in *. pose proof (gn_qp _ Hg pd (drv (base t))) as Hne. fold o in Hne.
    pose proof (qps_create _ _ Hq pd (Some qp_attr) (drv (base t))) as Hn. cbv zeta in Hn. fold o in Hn.
    rw (proj2 (Z.eqb_neq _ _) Hne) in Hok' Hc' Hn. cbn in Hok', Hc'.
    exists (ret o), t'. split_and!; [done|done|].
    refine (conj _ (conj (Hcp' Hcp) (conj _ (conj _ _)))); [lia| |lia|].
    + rw Hc' Hc. apply u32_small. pose proof process_limit_u32. unfold qp_room, is_u32 in *. lia.
    + eexists. split_and!; [exact Hok'|by eapply kept_trans| |rw Hd' Hn; lia].
      rw (kept_owner a t (bl_owner _ _ _ _ _ Hb) Hkt). apply (bill_counted 0 _ _ _ _ 0 1); [by left|done].
  - intros _ k t (Hk & Hcp & Hc & H0 & a & Hok & Hkt & Hb & Hd) Hle.
    destruct (kept_live t Hkt) as [He Hr].
    destruct (create_qp_run x a t pd qp_attr Hok He (Hr _ (is_hook "ibv_create_qp" eq_refl)))
      as (t' & Hrun & Hok' & Hk' & Hd' & Hc' & Herr & Hcp' & _).
    pose proof (qp_verdict k t a Hk H0 Hcp Hc Hok Hkt Hb) as Hv. rw (proj2 (Z.ltb_ge _ _) Hle) in Hv.
    rw Hv in Hrun Hok' Hd' Hc' Herr. exists t'. split_and!; [done|auto|].
    refine (conj Hk (conj (Hcp' Hcp) (conj _ (conj H0 _)))); [by rw Hc'|]. exists a. split_and!; [done|by eapply kept_trans|done|by rw Hd'].
  - by intros k t (_ & _ & _ & ?).
  - intros h k t (H0 & a & Hok & Hkt & Hb & Hd) Hk. destruct (kept_live t Hkt) as [He Hr].
    destruct (destroy_qp_run x a t h Hok He (Hr _ (is_hook "ibv_destroy_qp" eq_refl)))
      as (t' & Hrun & Hok' & Hk' & Hd' & _).
    pose proof (qps_nonneg _ _ Hq (drv (base t0))) as Hnn.
    pose proof (gn_destroy _ Hg h (drv (base t)) ltac:(lia)) as Hz.
    pose proof (qps_destroy _ _ Hq h (drv (base t))) as Hn. cbv zeta in Hn. rw Hz in Hn Hok'. cbn in Hn, Hok'.
    eexists _, t'. split; [exact Hrun|]. split; [lia|]. eexists.
    split_and!; [exact Hok'|by eapply kept_trans| |rw Hd' Hn; lia].
    rw (kept_owner a t (bl_owner _ _ _ _ _ Hb) Hkt). apply (bill_counted 0 _ _ _ _ 0 (-1)); [by left|done].
Qed.
End Qps.

Lemma qp_room_kept v v' t t' :
  kept t t' → v_quota v' = v_quota v → figure 0 (v_usage v') = figure 0 (v_usage v) →
  qp_room v' t' = qp_room v t.
Proof. intros Hk Hqt Hf. unfold qp_room, process_limit. by rw Hqt Hf (kp_cfg _ _ Hk) (kp_mapped _ _ Hk). Qed.

Section Mrs.
Context (qps : D → Z) (Hg : generous qps) (size : Z).
Context (a0 : store) (tid : Z) (v0 : tview) (t0 : thooks Srv D) (Hp : tenant_process a0 tid v0 t0).

(** One region of that size is within the memory quota. *)
Definition size_fits : bool :=
  negb ((0 <? Tenant.max_memory_per_tenant (v_quota v0)) &&
        (Tenant.max_memory_per_tenant (v_quota v0) <? u64 (Tenant.memory_used (v_usage v0) + size))).

Definition mr_left : Z :=
  if size_fits then Z.max 0 (Tenant.max_mr_per_tenant (v_quota v0) - figure 1 (v_usage v0)) else 0.

Definition mr_holding (k : Z) t : Prop :=
  0 ≤ k ∧ ∃ a, tok a t ∧ kept t0 t ∧ bill 1 a0 tid k a.

Definition mr_filling (k : Z) t : Prop := k ≤ mr_left ∧ mr_holding k t.

Lemma mr_verdict k a : k ≤ mr_left → 0 ≤ k → bill 1 a0 tid k a → mr_room a tid size = (k <? mr_left).
Proof using Hp.
  intros Hk H0 [_ _ (w0 & v & Hw0 & Hv & Hqt & Hm & Hn)].
  rw (tp_active _ _ _ _ Hp) in Hw0. injection Hw0 as <-. destruct (tp_quota _ _ _ _ Hp) as [_ H5].
  unfold mr_room. rw (tenant_process_id _ _ _ _ Hp). cbn [orb].
  unfold active in Hv. destruct (live a tid) as [w|]; [|done]. cbn in Hv.
  destruct (is_active w); [|done]. injection Hv as ->.
  unfold mr_within. cbn [Tenant.quota Tenant.usage update Tenant.expand_info]. rw Hqt Hm.
  change (u32 (Tenant.mr_count (v_usage v))) with (figure 1 (v_usage v)). rw Hn. fold size_fits.
  unfold mr_left in *. pose proof (figure_range 1 (v_usage v0)) as Hf. unfold is_u32 in *.
  destruct size_fits; [|by rw (proj2 (Z.ltb_ge k 0)); [lia|]; destruct (_ <=? _)].
  set (u := figure 1 (v_usage v0)) in *. set (q := Tenant.max_mr_per_tenant (v_quota v0)) in *.
  destruct (Z.leb_spec q (u32 (u + k))), (Z.ltb_spec k (Z.max 0 (q - u))); width_lia.
Qed.

(** One region more, or none; and one region less, with what becomes of the store. *)
Lemma mr_attempt_at pd addr access k a t :
  k ≤ mr_left → 0 ≤ k → tok a t → kept t0 t → bill 1 a0 tid k a →
  ∃ h t', ibv_reg_mr x pd addr size access t = Ret h t' ∧ kept t0 t' ∧
    if k <? mr_left then h ≠ 0 ∧ tok (counted tid 1 1 a) t'
    else h = 0 ∧ errno (hproc (base t')) = EPERM ∧ tok a t'.
Proof using Hp Hg.
  intros Hk H0 Hok Hkt Hb. destruct (kept_live _ _ _ _ Hp t Hkt) as [He Hr].
  pose proof (kept_owner _ _ _ _ Hp a t (bl_owner _ _ _ _ _ Hb) Hkt) as Htid.
  destruct (reg_mr_run x a t pd addr size access Hok He (Hr _ (is_hook "ibv_reg_mr" eq_refl)))
    as (t' & Hrun & Hok' & Hk' & _ & Herr).
  pose proof (mr_verdict k a Hk H0 Hb) as Hv. rw Htid Hv in Hrun Hok' Herr. set (o := x_driver x _ _) in *.
  destruct (Z.ltb_spec k mr_left) as [Hlt|Hge].
  - pose proof (gn_mr _ Hg pd addr size access (drv (base t))) as Hne. fold o in Hne.
    rw (proj2 (Z.eqb_neq _ _) Hne) in Hok'. exists (ret o), t'. by split_and!; [|eapply kept_trans|..].
  - exists 0, t'. by split_and!; [|eapply kept_trans| |auto|].
Qed.

Lemma mr_released_at h k a t :
  tok a t → kept t0 t → bill 1 a0 tid k a →
  ∃ t', ibv_dereg_mr x h t = Ret 0 t' ∧ kept t0 t' ∧ tok (counted tid 1 (-1) a) t'.
Proof using Hp Hg.
  intros Hok Hkt Hb. destruct (kept_live _ _ _ _ Hp t Hkt) as [He Hr].
  pose proof (kept_owner _ _ _ _ Hp a t (bl_owner _ _ _ _ _ Hb) Hkt) as Htid.
  destruct (dereg_mr_run x a t h Hok He (Hr _ (is_hook "ibv_dereg_mr" eq_refl)))
    as (t' & Hrun & Hok' & Hk' & _).
  rw (gn_dereg _ Hg) in Hrun, Hok'. rw Htid in Hok'.
  exists t'. by split_and!; [|eapply kept_trans|].
Qed.

Lemma mr_attempt pd addr access k t :
  mr_filling k t →
  ∃ h t', ibv_reg_mr x pd addr size access t = Ret h t' ∧
    if k <? mr_left then h ≠ 0 ∧ mr_filling (k + 1) t'
    else h = 0 ∧ errno (hproc (base t')) = EPERM ∧ mr_filling k t'.
Proof using Hp Hg.
  intros (Hk & H0 & a & Hok & Hkt & Hb).
  destruct (mr_attempt_at pd addr access k a t Hk H0 Hok Hkt Hb) as (h & t' & Hrun & Hk' & Hif).
  exists h, t'. split; [done|]. destruct (Z.ltb_spec k mr_left) as [Hlt|Hge].
  - destruct Hif as [Hh Hok']. split; [done|]. refine (conj _ (conj _ _)); [lia|lia|].
    eexists. split_and!; [exact Hok'|done|]. apply (bill_counted 1 _ _ _ _ 1 1); [by right|done].
  - destruct Hif as (Hh & He & Hok'). split_and!; [done|done|]. refine (conj Hk (conj H0 _)). by exists a.
Qed.

Lemma mr_released h k t :
  mr_holding k t → 0 < k → ∃ t', ibv_dereg_mr x h t = Ret 0 t' ∧ mr_holding (k - 1) t'.
Proof using Hp Hg.
  intros (H0 & a & Hok & Hkt & Hb) Hk.
  destruct (mr_released_at h k a t Hok Hkt Hb) as (t' & Hrun & Hk' & Hok').
  exists t'. split; [exact Hrun|]. split; [lia|]. eexists.
  split_and!; [exact Hok'|done|]. apply (bill_counted 1 _ _ _ _ 1 (-1)); [by right|done].
Qed.

#[export] Instance mr_meter pd (buffer : nat → Z) :
  Meter (λ i, ibv_reg_mr x pd (buffer i) size IBV_ACCESS_LOCAL_WRITE) (ibv_dereg_mr x)
    mr_filling mr_holding mr_left.
Proof using Hp Hg.
  split.
  - unfold mr_left. destruct size_fits; lia.
  - intros i k t Hk Hlt. destruct (mr_attempt pd (buffer i) IBV_ACCESS_LOCAL_WRITE k t Hk) as (h & t' & Hrun & Hif).
    rw (proj2 (Z.ltb_lt _ _) Hlt) in Hif. exists h, t'. by destruct Hif.
  - intros i k t Hk Hle. destruct (mr_attempt pd (buffer i) IBV_ACCESS_LOCAL_WRITE k t Hk) as (h & t' & Hrun & Hif).
    rw (proj2 (Z.ltb_ge _ _) Hle) in Hif. exists t'. by destruct Hif as (-> & ? & ?).
  - by intros k t [_ ?].
  - intros h k t Hh Hk. destruct (mr_released h k t Hh Hk) as (t' & ? & ?). by exists 0, t'.
Qed.
End Mrs.

(** ** The experiments *)

Section Runs.
Context (qps : D → Z) (Hq : counts_qps x qps) (Hg : generous qps).
Context (a0 : store) (tid : Z) (v0 : tview) (t0 : thooks Srv D) (Hp : tenant_process a0 tid v0 t0).

(** What is created and destroyed besides: a protection domain, a completion queue. *)
Lemma created_aside rt n name v rt' a t :
  rt = 0 ∨ rt = 1 → (rt' =? rt) = false → no_qp v → name ∈ needed_names →
  tok a t → kept t0 t → bill rt a0 tid n a →
  let o := x_driver x v (drv (base t)) in
  ∃ t' a', create_hook x name v rt' t = Ret (ret o) t' ∧ tok a' t' ∧ kept t0 t' ∧
    bill rt a0 tid n a' ∧ qps (drv (base t')) = qps (drv (base t)) ∧
    hg (base t') = hg (base t) ∧ pshm (base t') = pshm (base t).
Proof using Hp Hq.
  intros Hrt Hne Hv Hname Hok Hkt Hb o. destruct (kept_live _ _ _ _ Hp t Hkt) as [He Hr].
  destruct (create_hook_run x a t name v rt' Hok He (Hr _ Hname)) as (t' & Hrun & Hok' & Hk' & Hd' & Hg' & Hs').
  fold o in Hrun, Hok', Hd'. rw (kept_owner _ _ _ _ Hp a t (bl_owner _ _ _ _ _ Hb) Hkt) in Hok'.
  eexists t', _. split_and!; [exact Hrun|exact Hok'|by eapply kept_trans| | |done|done].
  - destruct (ret o =? 0); [done|]. rw -(Z.add_0_r n) -{1}(Z.add_0_r n).
    pose proof (bill_counted rt a0 tid n a rt' 1 Hrt Hb) as H. by rw Hne in H; rw !Z.add_0_r in H |- *.
  - rw Hd'. by apply (qps_other _ _ Hq).
Qed.

Lemma destroyed_aside rt n name v rt' a t :
  rt = 0 ∨ rt = 1 → (rt' =? rt) = false → no_qp v → name ∈ needed_names →
  tok a t → kept t0 t → bill rt a0 tid n a →
  ∃ r t' a', destroy_hook x name v rt' t = Ret r t' ∧ tok a' t' ∧ kept t0 t' ∧
    bill rt a0 tid n a' ∧ qps (drv (base t')) = qps (drv (base t)) ∧
    hg (base t') = hg (base t) ∧ pshm (base t') = pshm (base t).
Proof using Hp Hq.
  intros Hrt Hne Hv Hname Hok Hkt Hb. destruct (kept_live _ _ _ _ Hp t Hkt) as [He Hr].
  destruct (destroy_hook_run x a t name v rt' Hok He (Hr _ Hname)) as (t' & Hrun & Hok' & Hk' & Hd' & Hg' & Hs').
  rw (kept_owner _ _ _ _ Hp a t (bl_owner _ _ _ _ _ Hb) Hkt) in Hok'.
  eexists _, t', _. split_and!; [exact Hrun|exact Hok'|by eapply kept_trans| | |done|done].
  - destruct (_ =? 0); [|done].
    pose proof (bill_counted rt a0 tid n a rt' (-1) Hrt Hb) as H. by rw Hne Z.add_0_r in H.
  - rw Hd'. by apply (qps_other _ _ Hq).
Qed.

Lemma unless_null_run p (m : M (thooks Srv D) Z) r t t' :
  p ≠ 0 → m t = Ret r t' → unless_null p m t = Ret tt t'.
Proof. intros Hz Hrun. unfold unless_null. by rw (proj2 (Z.eqb_neq _ _) Hz) (bind_Ret _ _ _ _ _ Hrun). Qed.

(** The common part of experiments 2 and 8, from the first call to the last. *)
Lemma qp_session ctx max n :
  Z.of_nat n ≤ max → controlled_process t0 → counts_published t0 → qp_count (hg (base t0)) = 0 →
  ∃ pd cq rs t1 t2 t3 t4 t5 t6 a' r5 r6,
    (ibv_alloc_pd x ctx t0 = Ret pd t1 ∧ pd ≠ 0) ∧
    (ibv_create_cq x ctx 16 0 0 0 t1 = Ret cq t2 ∧ cq ≠ 0) ∧
    attempts max (λ _, ibv_create_qp x pd (Some qp_attr)) n [] t2 = Ret rs t3 ∧
    release (ibv_destroy_qp x) rs t3 = Ret tt t4 ∧
    ibv_destroy_cq x cq t4 = Ret r5 t5 ∧ ibv_dealloc_pd x pd t5 = Ret r6 t6 ∧
    first_granted n (Nat.min n (Z.to_nat (qp_room v0 t0))) rs ∧
    tok a' t6 ∧ bill 0 a0 tid 0 a' ∧ qps (drv (base t6)) = qps (drv (base t0)).
Proof using Hp Hq Hg.
  intros Hn Hctl Hpub Hzero.
  destruct (created_aside 0 0 "ibv_alloc_pd" (AllocPd ctx) 4 a0 t0)
    as (t1 & a1 & Hrun1 & Hok1 & Hk1 & Hb1 & Hd1 & Hg1 & Hs1);
    try done; [by left|by apply is_hook|apply Hp|by eapply bill_start, Hp|].
  set (pd := ret _) in Hrun1. assert (Hpd : pd ≠ 0) by apply (gn_pd _ Hg).
  destruct (created_aside 0 0 "ibv_create_cq" (CreateCq ctx 16 0 0 0) 3 a1 t1)
    as (t2 & a2 & Hrun2 & Hok2 & Hk2 & Hb2 & Hd2 & Hg2 & Hs2);
    try done; [by left|by apply is_hook|].
  set (cq := ret _) in Hrun2. assert (Hcq : cq ≠ 0) by apply (gn_cq _ Hg).
  pose proof (qp_meter qps Hq Hg a0 tid v0 t0 Hp Hctl pd) as Hmeter.
  destruct (filled_and_released (Hm := Hmeter) max n t2)
    as (rs & t3 & t4 & Hrun3 & Hrun4 & Hrs & H0 & a4 & Hok4 & Hk4 & Hb4 & Hd4); [|done|].
  { refine (conj meter_room (conj _ (conj _ (conj (Z.le_refl 0) _)))); [|by rw Hg2 Hg1|].
    - apply (published_same t0); [by rw Hs2 Hs1|by rw Hg2 Hg1|apply (kp_pid _ _ Hk2)|done].
    - exists a2. split_and!; [done..|]. by rw Hd2 Hd1 Z.add_0_r. }
  destruct (destroyed_aside 0 0 "ibv_destroy_cq" (DestroyCq cq) 3 a4 t4)
    as (r5 & t5 & a5 & Hrun5 & Hok5 & Hk5 & Hb5 & Hd5 & _); try done; [by left|by apply is_hook|].
  destruct (destroyed_aside 0 0 "ibv_dealloc_pd" (DeallocPd pd) 4 a5 t5)
    as (r6 & t6 & a6 & Hrun6 & Hok6 & Hk6 & Hb6 & Hd6 & _); try done; [by left|by apply is_hook|].
  exists pd, cq, rs, t1, t2, t3, t4, t5, t6, a6, r5, r6. split_and!; try done. by rw Hd6 Hd5 Hd4 Z.add_0_r.
Qed.

Lemma qp_experiment_fills_quota_at os c dev :
  parse_qp_args os = inl c → dev_found dev = true → dev_context dev ≠ 0 →
  controlled_process t0 → counts_published t0 → qp_count (hg (base t0)) = 0 →
  let n := Z.to_nat (wanted c) in
  let m := Nat.min n (Z.to_nat (qp_room v0 t0)) in
  ∃ rs t' a', qp_main x dev os t0 = Ret (0, Some (wanted c, Z.of_nat m, rs)) t' ∧
    first_granted n m rs ∧ tok a' t' ∧ bill 0 a0 tid 0 a' ∧
    qps (drv (base t')) = qps (drv (base t0)).
Proof using Hp Hq Hg.
  intros Hc Hdev Hctx Hctl Hpub Hzero n m. pose proof (qp_args_max os c Hc) as Hn. fold n in Hn.
  destruct (qp_session (dev_context dev) MAX_QP n Hn Hctl Hpub Hzero)
    as (pd & cq & rs & t1 & t2 & t3 & t4 & t5 & t6 & a' & r5 & r6 & [Hrun1 Hpd] & [Hrun2 Hcq] & Hrun3 &
        Hrun4 & Hrun5 & Hrun6 & Hrs & Hok & Hb & Hd).
  fold m in Hrs. exists rs, t6, a'. split_and!; try done.
  unfold qp_main. rw Hc. apply main_reports; [|done|lia].
  unfold run_qp_isolation_test. rw Hdev (proj2 (Z.eqb_neq _ _) Hctx).
  cbn [negb]. rw (bind_Ret _ _ _ _ _ Hrun1) (proj2 (Z.eqb_neq _ _) Hpd).
  rw (bind_Ret _ _ _ _ _ Hrun2) (proj2 (Z.eqb_neq _ _) Hcq).
  rw (bind_Ret _ _ _ _ _ Hrun3) (bind_Ret _ _ _ _ _ Hrun4).
  rw (bind_Ret _ _ _ _ _ (unless_null_run _ _ _ _ _ Hcq Hrun5)).
  by rw (bind_Ret _ _ _ _ _ (unless_null_run _ _ _ _ _ Hpd Hrun6)).
Qed.

(** C19: experiment 8 measures the quota.  Run by a fresh process of an active
    tenant, with a driver that refuses nothing, it gets as many QPs as it wants, up
    to what the tenant's quota leaves and the limit of a process; these are its
    first attempts, the others fail with [EPERM]; and when it ends the tenant and
    the driver have as many QPs as before. *)
Theorem qp_experiment_fills_quota os c dev :
  parse_qp_args os = inl c → dev_found dev = true → dev_context dev ≠ 0 →
  controlled_process t0 → counts_published t0 → qp_count (hg (base t0)) = 0 →
  let n := Z.to_nat (wanted c) in
  let m := Nat.min n (Z.to_nat (qp_room v0 t0)) in
  ∃ rs t' a', qp_main x dev os t0 = Ret (0, Some (wanted c, Z.of_nat m, rs)) t' ∧
    first_granted n m rs ∧ tok a' t' ∧ bill 0 a0 tid 0 a' ∧
    qps (drv (base t')) = qps (drv (base t0)).
Proof using Hp Hq Hg.
  exact (qp_experiment_fills_quota_at os c dev).
Qed.

Lemma mr_experiment_fills_quota_at os c dev buffer :
  parse_mr_args os = inl c → dev_found dev = true → dev_context dev ≠ 0 → (∀ i, buffer i ≠ 0) →
  let n := Z.to_nat (wanted c) in
  let m := Nat.min n (Z.to_nat (mr_left (mr_size c) v0)) in
  ∃ rs t' a', mr_main x dev buffer os t0 = Ret (0, Some (wanted c, Z.of_nat m, rs)) t' ∧
    first_granted n m rs ∧ tok a' t' ∧ bill 1 a0 tid 0 a'.
Proof using Hp Hq Hg.
  intros Hc Hdev Hctx Hbuf n m. pose proof (mr_args_max os c Hc) as Hn. fold n in Hn.
  destruct (created_aside 1 0 "ibv_alloc_pd" (AllocPd (dev_context dev)) 4 a0 t0)
    as (t1 & a1 & Hrun1 & Hok1 & Hk1 & Hb1 & _);
    try done; [by right|by apply is_hook|apply Hp|by eapply bill_start, Hp|].
  set (pd := ret _) in Hrun1. assert (Hpd : pd ≠ 0) by apply (gn_pd _ Hg).
  pose proof (mr_meter qps Hg (mr_size c) a0 tid v0 t0 Hp pd buffer) as Hmeter.
  destruct (filled_and_released (Hm := Hmeter) MAX_MR n t1)
    as (rs & t3 & t4 & Hrun3 & Hrun4 & Hrs & H0 & a4 & Hok4 & Hk4 & Hb4); [|done|].
  { refine (conj meter_room (conj (Z.le_refl 0) _)). by exists a1. }
  destruct (destroyed_aside 1 0 "ibv_dealloc_pd" (DeallocPd pd) 4 a4 t4)
    as (r6 & t6 & a6 & Hrun6 & Hok6 & Hk6 & Hb6 & Hd6 & _); try done; [by right|by apply is_hook|].
  fold m in Hrs. exists rs, t6, a6. split_and!; try done.
  unfold mr_main. rw Hc. apply main_reports; [|done|lia].
  unfold run_mr_isolation_test. rw Hdev (proj2 (Z.eqb_neq _ _) Hctx).
  assert (existsb (λ i, buffer i =? 0) (seq 0 (Z.to_nat (wanted c))) = false) as ->.
  { apply not_true_is_false. intros (i & _ & Hi)%existsb_exists. by apply (Hbuf i), Z.eqb_eq. }
  cbn [negb]. rw (bind_Ret _ _ _ _ _ Hrun1) (proj2 (Z.eqb_neq _ _) Hpd).
  rw (bind_Ret _ _ _ _ _ Hrun3) (bind_Ret _ _ _ _ _ Hrun4).
  by rw (bind_Ret _ _ _ _ _ (unless_null_run _ _ _ _ _ Hpd Hrun6)).
Qed.

(** Experiment 9 measures the MR quota: it registers as many regions as it
    wants, up to what the tenant's quota leaves, if one region of that size fits the
    memory quota, and none otherwise; the others fail with [EPERM]; and when it ends
    the tenant has as many regions as before. *)
Theorem mr_experiment_fills_quota os c dev buffer :
  parse_mr_args os = inl c → dev_found dev = true → dev_context dev ≠ 0 → (∀ i, buffer i ≠ 0) →
  let n := Z.to_nat (wanted c) in
  let m := Nat.min n (Z.to_nat (mr_left (mr_size c) v0)) in
  ∃ rs t' a', mr_main x dev buffer os t0 = Ret (0, Some (wanted c, Z.of_nat m, rs)) t' ∧
    first_granted n m rs ∧ tok a' t' ∧ bill 1 a0 tid 0 a'.
Proof using Hp Hq Hg.
  exact (mr_experiment_fills_quota_at os c dev buffer).
Qed.

(** The report of experiment 2 is true: it has made as many attempts as it says,
    created as many QPs as the quota leaves, was first refused right after them, and
    the raw data, written from the number of QPs alone, say of each attempt whether
    it was successful. *)
Theorem exp2_report_true os c dev total :
  parse_exp2_args os = inl c → total_attempts c = Some total → dev_found dev = true →
  controlled_process t0 → counts_published t0 → qp_count (hg (base t0)) = 0 →
  let n := Z.to_nat total in
  let m := Nat.min n (Z.to_nat (qp_room v0 t0)) in
  ∃ rs t' a', exp2_main x dev os t0 =
      Ret (0, Some (mk_report total (Z.of_nat m) (Z.of_nat (n - m)) (if (m <? n)%nat then Z.of_nat m + 1 else 0)
                      (Z.of_nat m <=? exp2_quota c) ((λ r, success r =? 1) <$> take 50 rs))) t' ∧
    first_granted n m rs ∧ tok a' t' ∧ bill 0 a0 tid 0 a' ∧
    qps (drv (base t')) = qps (drv (base t0)).
Proof using Hp Hq Hg.
  intros Hc Htot Hdev Hctl Hpub Hzero n m.
  assert (Hn : Z.of_nat n ≤ EXP2_MAX_QP).
  { unfold total_attempts in Htot. destruct (_ || _); [done|]. injection Htot as <-. unfold n.
    destruct (Z.ltb_spec EXP2_MAX_QP (exp2_quota c + extra_attempts c)); unfold EXP2_MAX_QP in *; lia. }
  destruct (qp_session (dev_context dev) EXP2_MAX_QP n Hn Hctl Hpub Hzero)
    as (pd & cq & rs & t1 & t2 & t3 & t4 & t5 & t6 & a' & r5 & r6 & [Hrun1 _] & [Hrun2 _] & Hrun3 &
        Hrun4 & Hrun5 & Hrun6 & Hrs & Hok & Hb & Hd).
  fold m in Hrs. exists rs, t6, a'. split_and!; try done.
  unfold exp2_main. rw Hc Hdev Htot. cbn [negb].
  rw (bind_Ret _ _ _ _ _ Hrun1) (bind_Ret _ _ _ _ _ Hrun2). fold n.
  rw (bind_Ret _ _ _ _ _ (exp2_accounts x pd n [] (mk_findings [] 0 0) t2 rs t3 Hrun3)).
  assert (Hm : (m ≤ n)%nat) by lia. pose proof (raw_data_true n m rs Hrs Hm) as Hraw.
  destruct Hrs as (hs & Hlen & Hhs & ->).
  rw account_granted // account_refused; [done|]. cbn [qps_created denied first_denial app length Z.of_nat].
  rw (bind_Ret _ _ _ tt t4). { rewrite (destroy_all_release x hs (replicate (n - m) refused)) //. intros t. apply release_refused. }
  rw (bind_Ret _ _ _ _ _ Hrun5) (bind_Ret _ _ _ _ _ Hrun6). unfold exp2_result.
  cbn [qps_created denied first_denial]. rw Hlen -Hraw.
  do 2 f_equal. f_equal. f_equal.
  - destruct (Nat.ltb_spec m n); [rw bool_decide_eq_false_2; [lia|]; cbn; lia|by rw bool_decide_eq_true_2; [lia|]].
  - do 2 f_equal. unfold n. lia.
Qed.
End Runs.

(** What a process of one tenant does leaves the process of another one where it
    was. *)
Lemma bystander_kept a s p t tid v os :
  tok a (load s p) → live_hooks p → tenant_of a p ≠ tid → tenant_process a tid v (load s t) →
  ∃ rs p' a', run_ops x os (load s p) = Ret rs p' ∧
    tenant_process a' tid v (load (Tenant.shm (tshm p')) t).
Proof.
  intros Hok Hl Hne [Hokt Hlt Hot Hv Hqt].
  destruct (ops_keep x (λ b, owner b = owner a ∧ live b tid = live a tid) a (load s p) os Hok)
    as (rs & p' & a' & Hrun & Hok' & Hk & Ho & Hsame); [by destruct Hl|done| |by intros b []|].
  { intros b rt delta [Hob Hlb]. unfold counted. destruct (active b _); [|done].
    split; [done|]. cbn. by rw decide_False. }
  exists rs, p', a'. split; [done|]. split.
  - by eapply tok_other.
  - by destruct Hlt.
  - by rw Ho.
  - unfold active in *. by rw Hsame.
  - done.
Qed.

(** C18: tenants are isolated.  After any hook calls of a process of another tenant,
    successful or refused, both experiments get what they would have got without
    them: what their own tenant's quota leaves. *)
Theorem other_tenants_do_not_matter qps a s p t tid v os qp_opts mr_opts cq cm dev buffer :
  counts_qps x qps → generous qps →
  tok a (load s p) → live_hooks p → tenant_of a p ≠ tid → tenant_process a tid v (load s t) →
  controlled_process t → counts_published t → qp_count (hg (base t)) = 0 →
  dev_found dev = true → dev_context dev ≠ 0 → (∀ i, buffer i ≠ 0) →
  parse_qp_args qp_opts = inl cq → parse_mr_args mr_opts = inl cm →
  ∃ rs p', run_ops x os (load s p) = Ret rs p' ∧
    (∃ rs' t', qp_main x dev qp_opts (load (Tenant.shm (tshm p')) t) =
       Ret (0, Some (wanted cq, Z.min (Z.max 0 (wanted cq)) (qp_room v t), rs')) t') ∧
    (∃ rs' t', mr_main x dev buffer mr_opts (load (Tenant.shm (tshm p')) t) =
       Ret (0, Some (wanted cm, Z.min (Z.max 0 (wanted cm)) (mr_left (mr_size cm) v), rs')) t').
Proof.
  intros Hq Hg Hok Hl Hne Hp Hctl Hpub Hzero Hdev Hctx Hbuf Hcq Hcm.
  destruct (bystander_kept a s p t tid v os Hok Hl Hne Hp) as (rs & p' & a' & Hrun & Hp').
  exists rs, p'. split; [done|].
  assert (0 ≤ qp_room v t ∧ 0 ≤ mr_left (mr_size cm) v) as [H1 H2].
  { unfold qp_room, mr_left. destruct (size_fits _ _); lia. }
  split.
  - destruct (qp_experiment_fills_quota_at qps Hq Hg a' tid v _ Hp' qp_opts cq dev)
      as (rs' & t' & _ & Hrun' & _); try done; [by apply (published_same t)|].
    exists rs', t'. rw Hrun'. do 5 f_equal. change (qp_room v (load _ t)) with (qp_room v t). lia.
  - destruct (mr_experiment_fills_quota_at qps Hq Hg a' tid v _ Hp' mr_opts cm dev buffer)
      as (rs' & t' & _ & Hrun' & _); [done..|].
    exists rs', t'. rw Hrun'. do 5 f_equal. lia.
Qed.
End Tenant.

(** ** Examples *)

#[local] Opaque example_tenant.

Definition example_store : store := spec_store example_setup empty_store.
Definition example_view : tview := mk_view "unnamed" Tenant.TENANT_STATUS_ACTIVE example_quota Tenant.usage_zero.

Lemma toy_generous : generous toy Z.of_nat.
Proof.
  split; try done.
  - intros pd d H. cbn in H. lia.
  - intros qp [|d] H; [cbn in H; lia|done].
Qed.

Lemma example_published cs n : counts_published (example cs n).
Proof.
  assert (Ht : Shm.table (Shm.shm (pshm (example_hooks n))) = ∅) by apply Shm.table_data_zero.
  split; unfold slot_room; cbn [example base]; intros _.
  - right. by rw Ht map_size_empty.
  - by rw Ht lookup_empty.
Qed.

Lemma example_controlled cs n : controlled_process (example cs n).
Proof.
  split_and!; [done..| |by split]. unfold global_usage. cbn [example base].
  by rw (Shm.ready_ptr _ (Shm.shm_fresh_ready _)).
Qed.

Lemma example_process cs tid n v :
  Forall TenantSpec.real cs → 0 < n → owner (spec_store cs empty_store) !! n = Some tid →
  active (spec_store cs empty_store) tid = Some v →
  is_u32 (Tenant.max_qp_per_tenant (v_quota v)) → is_u32 (Tenant.max_mr_per_tenant (v_quota v)) →
  tenant_process (spec_store cs empty_store) tid v (example cs n).
Proof.
  intros Hcs Hn Ho Hv H1 H2. split; [by apply example_tok|apply example_live|done|done|done].
Qed.

Lemma single_process : tenant_process example_store 3 example_view (example example_setup 100).
Proof. apply example_process; [apply example_setup_real|done|vm_compute; reflexivity|vm_compute; reflexivity|done|done]. Qed.

Lemma pair_process : tenant_process pair_store 4 example_view (example pair_setup 101).
Proof. apply example_process; [apply pair_real|done|vm_compute; reflexivity|vm_compute; reflexivity|done|done]. Qed.

(** Ten QPs are wanted, the quota is two. *)
Lemma qp_experiment_fills_quota_witness :
  ∃ rs t', qp_main toy (mk_device true 7) [] (example example_setup 100) = Ret (0, Some (10, 2, rs)) t' ∧
    first_granted 10 2 rs.
Proof.
  destruct (qp_experiment_fills_quota toy Z.of_nat toy_counts toy_generous example_store 3 example_view
    (example example_setup 100) single_process [] default_config (mk_device true 7))
    as (rs & t' & a' & Hrun & Hrs & _).
  - reflexivity.
  - reflexivity.
  - discriminate.
  - apply example_controlled.
  - apply example_published.
  - reflexivity.
  - exists rs, t'. exact (conj Hrun Hrs).
Defined.

(** Twelve regions of 64 bytes are wanted, the quota is ten. *)
Lemma mr_experiment_fills_quota_witness :
  ∃ rs t', mr_main toy (mk_device true 7) (λ _, 4096) [("n"%char, "12"); ("s"%char, "64")]
      (example example_setup 100) = Ret (0, Some (12, 10, rs)) t' ∧
    first_granted 12 10 rs.
Proof.
  destruct (mr_experiment_fills_quota toy Z.of_nat toy_counts toy_generous example_store 3 example_view
    (example example_setup 100) single_process
    [("n"%char, "12"); ("s"%char, "64")] (mk_config 10 12 64 None false) (mk_device true 7) (λ _, 4096))
    as (rs & t' & a' & Hrun & Hrs & _).
  - reflexivity.
  - reflexivity.
  - discriminate.
  - discriminate.
  - exists rs, t'. exact (conj Hrun Hrs).
Defined.

(** A process of tenant 3 tries to create three QPs; then one of tenant 4 runs the
    experiments. *)
Lemma other_tenants_do_not_matter_witness :
  ∃ rs p' rs1 rs2 t1 t2,
    run_ops toy (replicate 3 (OCreateQp 1 qp_attr)) (example pair_setup 100) = Ret rs p' ∧
    qp_main toy (mk_device true 7) [] (load (Tenant.shm (tshm p')) (example pair_setup 101)) =
      Ret (0, Some (10, 2, rs1)) t1 ∧
    mr_main toy (mk_device true 7) (λ _, 4096) [("s"%char, "64")]
      (load (Tenant.shm (tshm p')) (example pair_setup 101)) = Ret (0, Some (10, 10, rs2)) t2.
Proof.
  destruct (other_tenants_do_not_matter toy Z.of_nat pair_store (Tenant.shm (example_tenant pair_setup))
    (example pair_setup 100) (example pair_setup 101) 4 example_view (replicate 3 (OCreateQp 1 qp_attr))
    [] [("s"%char, "64")] default_config (mk_config 10 10 64 None false) (mk_device true 7) (λ _, 4096)
    toy_counts toy_generous)
    as (rs & p' & Hrun & (rs1 & t1 & Hrun1) & (rs2 & t2 & Hrun2)).
  - rewrite load_example. apply example_tok; [apply pair_real|reflexivity].
  - apply example_live.
  - vm_compute. discriminate.
  - rewrite load_example. apply pair_process.
  - apply example_controlled.
  - apply example_published.
  - reflexivity.
  - reflexivity.
  - discriminate.
  - discriminate.
  - reflexivity.
  - reflexivity.
  - rewrite load_example in Hrun. exists rs, p', rs1, rs2, t1, t2. exact (conj Hrun (conj Hrun1 Hrun2)).
Defined.

(** The user says the quota is 2 and asks for three attempts more. *)
Lemma exp2_report_true_witness :
  ∃ t', exp2_main toy (mk_device true 7) [("t"%char, "3"); ("q"%char, "2"); ("e"%char, "3")]
    (example example_setup 100) =
      Ret (0, Some (mk_report 5 2 3 3 true [true; true; false; false; false])) t'.
Proof.
  destruct (exp2_report_true toy Z.of_nat toy_counts toy_generous example_store 3 example_view
    (example example_setup 100) single_process [("t"%char, "3"); ("q"%char, "2"); ("e"%char, "3")]
    (mk_exp2 3 2 3) (mk_device true 7) 5)
    as (rs & t' & a' & Hrun & (hs & Hl & _ & Hrs) & _).
  - reflexivity.
  - reflexivity.
  - reflexivity.
  - apply example_controlled.
  - apply example_published.
  - reflexivity.
  - exists t'. change (length hs = 2%nat) in Hl. change (rs = (granted <$> hs) ++ replicate 3 refused) in Hrs.
    destruct hs as [|h1 [|h2 [|h3 hs]]]; [discriminate..| |discriminate]. subst rs. exact Hrun.
Defined.
End Isolation.
