(* ===== verification/Attack.v ===== *)
(** * The attack with memory registrations

    The attacker of the experiment [exp_mr_dereg] registers some regions and then,
    until its time is over, gives a batch of them back and registers it again.  The
    tenant's quota bounds how many regions it has, not how often it does that: the
    attack is prevented only by a quota smaller than one batch. *)

From S2P Require Import Prelude CString Intercept Core CollectorServer CollectorClient LocalPolicy.
From S2P Require Import SlotTable ShmProcess ShmTenant TenantProps TenantSpec HookBase HooksTenant.
From S2P Require Import HooksTenantProps TenantQuota Isolation.

Module Attack.
Import TenantProps TenantSpec.
Import Intercept Core CollectorClient LocalPolicy HookBase HooksTenant HooksTenantProps TenantQuota.
Import Isolation.

(** ** The program *)

Definition MR_SIZE : Z := 4 * 1024 * 1024.

Record attack_config := mk_attack {
  delay_ms : Z;
  duration_ms : Z;
  num_mrs : Z;
  batch_size : Z;
}.
#[export] Instance expand_attack : Expand attack_config := λ r,
  mk_attack (delay_ms r) (duration_ms r) (num_mrs r) (batch_size r).

Definition default_attack : attack_config := mk_attack 5000 25000 50 10.

Definition attack_option (c : attack_config) (o : option_t) : attack_config + Z :=
  let '(letter, optarg) := o in
  match letter with
  | "d"%char => inl (c <| delay_ms := atoi optarg |>)
  | "t"%char => inl (c <| duration_ms := atoi optarg |>)
  | "n"%char => inl (c <| num_mrs := atoi optarg |>)
  | "b"%char => inl (c <| batch_size := atoi optarg |>)
  | "h"%char => inr 0
  | _ => inr 1
  end.

Fixpoint attack_options (os : list option_t) (c : attack_config) : attack_config + Z :=
  match os with
  | [] => inl c
  | o :: os' => match attack_option c o with inl c' => attack_options os' c' | inr e => inr e end
  end.

Section Program.
Context {Srv D : Type} (x : externals Srv D) (dev : device) (buffer : nat → Z) (calloc : Z → bool).
#[local] Abbreviation attacker := (M (thooks Srv D)).

Definition reg (pd : Z) (i : nat) : attacker Z := ibv_reg_mr x pd (buffer i) MR_SIZE IBV_ACCESS_LOCAL_WRITE.

Definition dereg_unless_null (mr : Z) : attacker unit :=
  if mr =? 0 then mret tt else ibv_dereg_mr x mr;; mret tt.

(** The elements [i], [i + 1], ... of the array [mrs]; [n] of them. *)
Fixpoint register_all (pd : Z) (n i : nat) : attacker (list Z) :=
  match n with
  | O => mret []
  | S n' => mr ← reg pd i; mrs ← register_all pd n' (S i); mret (mr :: mrs)
  end.

(** The first [n] elements are given back; beyond the array is undefined. *)
Fixpoint dereg_batch (n : nat) (mrs : list Z) : attacker (list Z) :=
  match n, mrs with
  | O, _ => mret mrs
  | S _, [] => crash
  | S n', mr :: mrs' => dereg_unless_null mr;; rest ← dereg_batch n' mrs'; mret (0 :: rest)
  end.

(** And registered again, with a second try after a failure. *)
Fixpoint rereg_batch (pd : Z) (n i : nat) (mrs : list Z) : attacker (list Z) :=
  match n, mrs with
  | O, _ => mret mrs
  | S _, [] => crash
  | S n', _ :: mrs' =>
      mr ← reg pd i;
      mr ← (if mr =? 0 then reg pd i else mret mr);
      rest ← rereg_batch pd n' (S i) mrs'; mret (mr :: rest)
  end.

(** One turn per reading of the clock, in milliseconds since the start; while the
    duration is not reached the loop goes on. *)
Fixpoint attack_loop (pd : Z) (c : attack_config) (readings : list Z) (mrs : list Z) (cycles : Z) :
    attacker (list Z * Z) :=
  match readings with
  | [] => hang
  | elapsed :: readings' =>
      if duration_ms c <=? elapsed then mret (mrs, cycles) else
      mrs ← dereg_batch (Z.to_nat (batch_size c)) mrs;
      mrs ← rereg_batch pd (Z.to_nat (batch_size c)) 0 mrs;
      attack_loop pd c readings' mrs (cycles + 1)
  end.

Fixpoint dereg_all (mrs : list Z) : attacker unit :=
  match mrs with
  | [] => mret tt
  | mr :: mrs' => dereg_unless_null mr;; dereg_all mrs'
  end.

Definition count_registered (mrs : list Z) : Z :=
  foldr (λ mr n, if mr =? 0 then n else n + 1) 0 mrs.

(** The exit code, with the regions registered first, the cycles, and the array
    before the cleanup.  [buffer] is what [aligned_alloc] gives, and [calloc] whether the
    two arrays of so many pointers are obtained: they are used without a test.  The delay
    in microseconds is an [int]. *)
Definition attack_main (os : list option_t) (readings : list Z) :
    attacker (Z * option (Z * Z * list Z)) :=
  match attack_options os default_attack with
  | inr e => mret (e, None)
  | inl c =>
      if (0 <? delay_ms c) && (2 ^ 31 <=? delay_ms c * 1000) then crash else
      if negb (dev_found dev) then mret (1, None) else
      pd ← ibv_alloc_pd x (dev_context dev);
      if (0 <? num_mrs c) && negb (calloc (num_mrs c)) then crash else
      mrs ← register_all pd (Z.to_nat (num_mrs c)) 0;
      let registered := count_registered mrs in
      r ← (if registered <? batch_size c then mret (mrs, 0) else attack_loop pd c readings mrs 0);
      dereg_all (fst r);;
      ibv_dealloc_pd x pd;;
      mret (0, Some (registered, snd r, fst r))
  end.
End Program.
(** ** What the quota prevents *)

Section Attack_runs.
Context {Srv D : Type} (x : externals Srv D) (qps : D → Z) (Hg : generous x qps).
Context (a0 : store) (tid : Z) (v0 : tview) (t0 : thooks Srv D) (Hp : tenant_process a0 tid v0 t0).
Context (buffer : nat → Z).
Implicit Types (t : thooks Srv D).

#[local] Abbreviation left := (mr_left MR_SIZE v0).

(** Since the start the tenant has registered [r] regions and given [s] back, and its
    totals say so. *)
Definition turnover (r s : Z) (a : store) : Prop :=
  bill 1 a0 tid (r - s) a ∧ ∃ v, active a tid = Some v ∧
    u64 (Tenant.total_mr_regs (v_usage v)) = u64 (Tenant.total_mr_regs (v_usage v0) + r) ∧
    u64 (Tenant.total_mr_deregs (v_usage v)) = u64 (Tenant.total_mr_deregs (v_usage v0) + s).

Lemma turnover_start : turnover 0 0 a0.
Proof using Hp.
  split; [by eapply bill_start, Hp|]. exists v0. rw !Z.add_0_r. split_and!; [apply Hp|done..].
Qed.

Lemma turnover_counted rt delta r s a :
  (rt = 1 → delta = 1 ∨ delta = -1) → turnover r s a →
  turnover (r + if (rt =? 1) && (0 <? delta) then 1 else 0)
           (s + if (rt =? 1) && (delta <? 0) then 1 else 0) (counted tid rt delta a).
Proof.
  intros Hdelta [Hb (v & Hv & Hr & Hs)].
  destruct (counted_active tid rt delta a v Hv) as [Ha _]. split.
  - pose proof (bill_counted 1 a0 tid _ a rt delta (or_intror eq_refl) Hb) as Hb'.
    set (k := _ - _). assert (k = r - s + (if rt =? 1 then delta else 0)) as ->; [|done].
    unfold k. destruct (Z.eqb_spec rt 1) as [Hrt|]; [|cbn; lia].
    destruct (Hdelta Hrt) as [-> | ->]; cbn; lia.
  - eexists. split; [exact Ha|]. cbn [v_usage update]. unfold count_usage.
    destruct (Z.eqb_spec rt 1) as [->|].
    + destruct (Hdelta eq_refl) as [-> | ->]; cbn; split; width_lia.
    + cbn [andb]. rw !Z.add_0_r -Hr -Hs.
      repeat match goal with |- context [if ?b then _ else _] => destruct b end; done.
Qed.

(** The process so far. *)
Definition has (r s : Z) t : Prop :=
  r - s ≤ left ∧ 0 ≤ r - s ∧ ∃ a, tok a t ∧ kept t0 t ∧ turnover r s a.

Lemma reg_granted pd i r s t :
  has r s t → r - s < left → ∃ mr t', reg x buffer pd i t = Ret mr t' ∧ mr ≠ 0 ∧ has (r + 1) s t'.
Proof using Hp Hg.
  intros (Hk & H0 & a & Hok & Hkt & Ht) Hlt.
  destruct (mr_attempt_at x qps Hg MR_SIZE a0 tid v0 t0 Hp pd (buffer i) IBV_ACCESS_LOCAL_WRITE (r - s) a t Hk H0 Hok Hkt
    (proj1 Ht)) as (h & t' & Hrun & Hk' & Hif). rw (proj2 (Z.ltb_lt _ _) Hlt) in Hif. destruct Hif as [Hh Hok'].
  exists h, t'. split_and!; [done|done|]. refine (conj _ (conj _ _)); [lia|lia|]. eexists. split_and!; [exact Hok'|done|].
  pose proof (turnover_counted 1 1 r s a (λ _, or_introl eq_refl) Ht) as H. by rw Z.add_0_r in H.
Qed.

Lemma reg_refused pd i r s t :
  has r s t → left ≤ r - s → ∃ t', reg x buffer pd i t = Ret 0 t' ∧ has r s t'.
Proof using Hp Hg.
  intros (Hk & H0 & a & Hok & Hkt & Ht) Hle.
  destruct (mr_attempt_at x qps Hg MR_SIZE a0 tid v0 t0 Hp pd (buffer i) IBV_ACCESS_LOCAL_WRITE (r - s) a t Hk H0 Hok Hkt
    (proj1 Ht)) as (h & t' & Hrun & Hk' & Hif). rw (proj2 (Z.ltb_ge _ _) Hle) in Hif. destruct Hif as (-> & _ & Hok').
  exists t'. split; [done|]. refine (conj Hk (conj H0 _)). by exists a.
Qed.

Lemma dereg_run mr r s t :
  has r s t → 0 < r - s → mr ≠ 0 → ∃ t', dereg_unless_null x mr t = Ret tt t' ∧ has r (s + 1) t'.
Proof using Hp Hg.
  intros (Hk & H0 & a & Hok & Hkt & Ht) Hlt Hmr.
  destruct (mr_released_at x qps Hg a0 tid v0 t0 Hp mr (r - s) a t Hok Hkt (proj1 Ht))
    as (t' & Hrun & Hk' & Hok').
  exists t'. split.
  - unfold dereg_unless_null. by rw (proj2 (Z.eqb_neq _ _) Hmr) (bind_Ret _ _ _ _ _ Hrun).
  - refine (conj _ (conj _ _)); [lia|lia|]. eexists. split_and!; [exact Hok'|done|].
    pose proof (turnover_counted 1 (-1) r s a (λ _, or_intror eq_refl) Ht) as H. by rw Z.add_0_r in H.
Qed.

#[local] Abbreviation valid := (Forall (λ mr, mr ≠ 0)).

Lemma register_refused pd n : ∀ i r s t, has r s t → left ≤ r - s →
  ∃ t', register_all x buffer pd n i t = Ret (replicate n 0) t' ∧ has r s t'.
Proof using Hp Hg.
  induction n as [|n IH]; intros i r s t Hk Hle; [by exists t|].
  destruct (reg_refused pd i r s t Hk Hle) as (t1 & Hrun & Hk1).
  destruct (IH (S i) r s t1 Hk1 Hle) as (t2 & Hrun2 & Hk2). exists t2. split; [|done].
  cbn [register_all]. by rw (bind_Ret _ _ _ _ _ Hrun) (bind_Ret _ _ _ _ _ Hrun2).
Qed.

Lemma register_run pd n : ∀ m i r s t,
  has r s t → m = Nat.min n (Z.to_nat (left - (r - s))) →
  ∃ hs t', register_all x buffer pd n i t = Ret (hs ++ replicate (n - m) 0) t' ∧ length hs = m ∧
    valid hs ∧ has (r + Z.of_nat m) s t'.
Proof using Hp Hg.
  induction n as [|n IH]; intros m i r s t Hk ->; [exists [], t; by rw Z.add_0_r|].
  pose proof Hk as [Hle _]. destruct (decide (r - s = left)) as [Heq|Hne].
  { destruct (register_refused pd (S n) i r s t Hk) as (t' & Hrun & Hk'); [lia|].
    exists [], t'. assert (Nat.min (S n) (Z.to_nat (left - (r - s))) = 0%nat) as -> by lia. by rw Z.add_0_r. }
  destruct (reg_granted pd i r s t Hk) as (mr & t1 & Hrun & Hmr & Hk1); [lia|].
  destruct (IH (Nat.min n (Z.to_nat (left - (r + 1 - s)))) (S i) (r + 1) s t1 Hk1)
    as (hs & t2 & Hrun2 & Hl & Hv & Hk2); [done|].
  exists (mr :: hs), t2. cbn [register_all]. rw (bind_Ret _ _ _ _ _ Hrun) (bind_Ret _ _ _ _ _ Hrun2).
  set (m := Nat.min (S n) _). assert (Hm : m = S (length hs)) by lia. clearbody m. subst m.
  split_and!; [by rw Hl|done|by constructor|]. by replace (r + Z.of_nat (S (length hs))) with
    (r + 1 + Z.of_nat (Nat.min n (Z.to_nat (left - (r + 1 - s))))) by lia.
Qed.

Lemma dereg_batch_run hs rest : ∀ r s t,
  has r s t → Z.of_nat (length hs) ≤ r - s → valid hs →
  ∃ t', dereg_batch x (length hs) (hs ++ rest) t = Ret (replicate (length hs) 0 ++ rest) t' ∧
    has r (s + Z.of_nat (length hs)) t'.
Proof using Hp Hg.
  induction hs as [|mr hs IH]; intros r s t Hk Hle Hv; [exists t; by rw Z.add_0_r|].
  apply Forall_cons in Hv as [Hmr Hv]. cbn [length] in *.
  destruct (dereg_run mr r s t Hk) as (t1 & Hrun & Hk1); [lia|done|].
  destruct (IH r (s + 1) t1 Hk1) as (t2 & Hrun2 & Hk2); [lia|done|].
  exists t2. cbn [app dereg_batch]. rw (bind_Ret _ _ _ _ _ Hrun) (bind_Ret _ _ _ _ _ Hrun2).
  split; [done|]. by replace (s + Z.of_nat (S (length hs))) with (s + 1 + Z.of_nat (length hs)) by lia.
Qed.

Lemma rereg_batch_run pd n rest : ∀ i r s t,
  has r s t → r - s + Z.of_nat n ≤ left →
  ∃ hs t', rereg_batch x buffer pd n i (replicate n 0 ++ rest) t = Ret (hs ++ rest) t' ∧
    length hs = n ∧ valid hs ∧ has (r + Z.of_nat n) s t'.
Proof using Hp Hg.
  induction n as [|n IH]; intros i r s t Hk Hle; [exists [], t; by rw Z.add_0_r|].
  destruct (reg_granted pd i r s t Hk) as (mr & t1 & Hrun & Hmr & Hk1); [lia|].
  destruct (IH (S i) (r + 1) s t1 Hk1) as (hs & t2 & Hrun2 & Hl & Hv & Hk2); [lia|].
  exists (mr :: hs), t2. cbn [replicate app rereg_batch]. rw (bind_Ret _ _ _ _ _ Hrun).
  rw (proj2 (Z.eqb_neq _ _) Hmr) (bind_Ret _ _ _ mr t1); [done|]. rw (bind_Ret _ _ _ _ _ Hrun2).
  split_and!; [done|by cbn; f_equal|by constructor|].
  by replace (r + Z.of_nat (S n)) with (r + 1 + Z.of_nat n) by lia.
Qed.

(** One cycle: the batch is given back, and obtained again. *)
Lemma cycle_run pd b hs rest r s t :
  has r s t → r - s = Z.of_nat (length hs) → (b ≤ length hs)%nat → valid hs →
  ∃ hs' t', (mrs ← dereg_batch x b (hs ++ rest); rereg_batch x buffer pd b 0 mrs) t = Ret (hs' ++ rest) t' ∧
    length hs' = length hs ∧ valid hs' ∧ has (r + Z.of_nat b) (s + Z.of_nat b) t'.
Proof using Hp Hg.
  intros Hk Heq Hb Hv. rw -(take_drop b hs) in Hv |- *. apply Forall_app in Hv as [Hv1 Hv2].
  assert (Hl : length (take b hs) = b) by (rw length_take; lia).
  destruct (dereg_batch_run (take b hs) (drop b hs ++ rest) r s t Hk) as (t1 & Hrun & Hk1); [lia|done|].
  rw Hl in Hrun Hk1.
  destruct (rereg_batch_run pd b (drop b hs ++ rest) 0 _ _ t1 Hk1) as (hs' & t2 & Hrun2 & Hl2 & Hv' & Hk2).
  { destruct Hk as [Hk _]. lia. }
  exists (hs' ++ drop b hs), t2. rw -!app_assoc (bind_Ret _ _ _ _ _ Hrun).
  split_and!; [done|rw !length_app length_drop; lia|by apply Forall_app|done].
Qed.

Lemma loop_run pd c es e rest : ∀ hs r s t n,
  has r s t → r - s = Z.of_nat (length hs) → 0 ≤ batch_size c ≤ r - s → valid hs →
  Forall (λ d, d < duration_ms c) es → duration_ms c ≤ e →
  ∃ hs' t', attack_loop x buffer pd c (es ++ [e]) (hs ++ rest) n t =
      Ret (hs' ++ rest, n + Z.of_nat (length es)) t' ∧
    length hs' = length hs ∧ valid hs' ∧
    has (r + Z.of_nat (length es) * batch_size c) (s + Z.of_nat (length es) * batch_size c) t'.
Proof using Hp Hg.
  induction es as [|d es IH]; intros hs r s t n Hk Heq Hb Hv Hes He; cbn [app attack_loop length].
  { exists hs, t. by rw (proj2 (Z.leb_le _ _) He) !Z.add_0_r. }
  apply Forall_cons in Hes as [Hd Hes]. rw (proj2 (Z.leb_gt _ _) Hd).
  destruct (cycle_run pd (Z.to_nat (batch_size c)) hs rest r s t Hk Heq) as (hs' & t1 & Hrun & Hl & Hv' & Hk1);
    [lia|done|]. rw Z2Nat.id in Hk1; [lia|].
  destruct (IH hs' _ _ t1 (n + 1) Hk1) as (hs2 & t2 & Hrun2 & Hl2 & Hv2 & Hk2); [lia..|done|done|done|].
  exists hs2, t2. rw -bind_assoc (bind_Ret _ _ _ _ _ Hrun) Hrun2.
  split_and!; [do 2 f_equal; lia|by rw Hl2|done|].
  rw Nat2Z.inj_succ Z.mul_succ_l !Z.add_assoc.
  by rw -!(Z.add_assoc _ (Z.of_nat (length es) * _)) !(Z.add_comm (Z.of_nat (length es) * _) (batch_size c)) !Z.add_assoc.
Qed.

Lemma dereg_all_run hs n : ∀ r s t,
  has r s t → r - s = Z.of_nat (length hs) → valid hs →
  ∃ t', dereg_all x (hs ++ replicate n 0) t = Ret tt t' ∧ has r r t'.
Proof using Hp Hg.
  induction hs as [|mr hs IH]; intros r s t Hk Heq Hv; cbn [app dereg_all length] in *.
  { assert (s = r) as -> by lia. exists t. split; [|done]. induction n as [|n IHn]; [done|]. cbn. by rw (bind_Ret _ _ _ tt t). }
  apply Forall_cons in Hv as [Hmr Hv].
  destruct (dereg_run mr r s t Hk) as (t1 & Hrun & Hk1); [lia|done|].
  destruct (IH r (s + 1) t1 Hk1) as (t2 & Hrun2 & Hk2); [lia|done|].
  exists t2. by rw (bind_Ret _ _ _ _ _ Hrun).
Qed.

Lemma count_valid hs n : valid hs → count_registered (hs ++ replicate n 0) = Z.of_nat (length hs).
Proof.
  induction 1 as [|mr hs Hmr _ IH]; cbn; [by induction n|]. unfold count_registered in IH.
  rw (proj2 (Z.eqb_neq _ _) Hmr) IH. lia.
Qed.

(** The protection domain does not show in the totals. *)
Lemma pd_created ctx :
  ∃ pd t', ibv_alloc_pd x ctx t0 = Ret pd t' ∧ has 0 0 t'.
Proof using Hp.
  destruct (tp_live _ _ _ _ Hp) as [He Hr]. pose proof (tp_ok _ _ _ _ Hp) as Hok.
  destruct (create_hook_run x a0 t0 "ibv_alloc_pd" (AllocPd ctx) 4 Hok He (Hr _ (is_hook "ibv_alloc_pd" eq_refl)))
    as (t' & Hrun & Hok' & Hk' & _).
  eexists _, t'. split; [exact Hrun|]. refine (conj _ (conj _ _)); [unfold mr_left; destruct (size_fits _ _); lia|lia|].
  eexists. split_and!; [exact Hok'|exact Hk'|]. unfold tenant_of. rw (tp_owner _ _ _ _ Hp). cbn [default].
  destruct (_ =? 0); [exact turnover_start|].
  by apply (turnover_counted 4 1 0 0 a0); [|exact turnover_start].
Qed.

Lemma pd_destroyed pd r t :
  has r r t → ∃ z t' a', ibv_dealloc_pd x pd t = Ret z t' ∧ tok a' t' ∧ turnover r r a'.
Proof using Hp.
  intros (_ & _ & a & Hok & Hkt & Ht). destruct (kept_live a0 tid v0 t0 Hp t Hkt) as [He Hr].
  destruct (destroy_hook_run x a t "ibv_dealloc_pd" (DeallocPd pd) 4 Hok He (Hr _ (is_hook "ibv_dealloc_pd" eq_refl)))
    as (t' & Hrun & Hok' & _).
  eexists _, t', _. split_and!; [exact Hrun|exact Hok'|].
  rw (kept_owner a0 tid v0 t0 Hp a t (bl_owner _ _ _ _ _ (proj1 Ht)) Hkt). destruct (_ =? 0); [|done].
  pose proof (turnover_counted 4 (-1) r r a ltac:(done) Ht) as H. by rw !Z.add_0_r in H.
Qed.

(** C20: the quota bounds the regions an attacker has, not the rate at which it
    registers them.  The attacker gets as many regions as the quota leaves; when that
    is a batch at least, every cycle of the attack, however many, gives the whole batch
    back and registers it again: the totals of the tenant grow by one batch for each
    reading of the clock before the end, besides the regions registered first and given
    back last.  Only below a batch it gives up.  It leaves the tenant with what it had.
    (The driver refuses nothing, the arrays are obtained and the delay in microseconds is
    an [int].) *)
Theorem attack_needs_one_batch os c dev calloc es e :
  attack_options os default_attack = inl c → dev_found dev = true → 0 ≤ batch_size c →
  delay_ms c * 1000 < 2 ^ 31 → calloc (num_mrs c) = true →
  Forall (λ d, d < duration_ms c) es → duration_ms c ≤ e →
  let n := Z.to_nat (num_mrs c) in
  let m := Nat.min n (Z.to_nat left) in
  let cycles := if Z.of_nat m <? batch_size c then 0 else Z.of_nat (length es) in
  let total := Z.of_nat m + cycles * batch_size c in
  ∃ hs t' a' v', attack_main x dev buffer calloc os (es ++ [e]) t0 =
      Ret (0, Some (Z.of_nat m, cycles, hs ++ replicate (n - m) 0)) t' ∧
    length hs = m ∧ valid hs ∧ tok a' t' ∧ bill 1 a0 tid 0 a' ∧ active a' tid = Some v' ∧
    u64 (Tenant.total_mr_regs (v_usage v')) = u64 (Tenant.total_mr_regs (v_usage v0) + total) ∧
    u64 (Tenant.total_mr_deregs (v_usage v')) = u64 (Tenant.total_mr_deregs (v_usage v0) + total).
Proof using Hp Hg.
  intros Hc Hdev Hb0 Hdelay Hcalloc Hes He n m cycles total.
  destruct (pd_created (dev_context dev)) as (pd & t1 & Hrun1 & Hhas).
  destruct (register_run pd n m 0 0 0 t1 Hhas) as (hs & t2 & Hrun2 & Hl & Hv & Hk2); [by rw !Z.sub_0_r|].
  cbn [Z.add] in Hk2.
  assert (∃ hs' t3, (if Z.of_nat m <? batch_size c then mret (hs ++ replicate (n - m) 0, 0)
      else attack_loop x buffer pd c (es ++ [e]) (hs ++ replicate (n - m) 0) 0) t2 =
        Ret (hs' ++ replicate (n - m) 0, cycles) t3 ∧
      length hs' = m ∧ valid hs' ∧ has total (cycles * batch_size c) t3) as (hs' & t3 & Hrun3 & Hl3 & Hv3 & Hk3).
  { unfold total, cycles. destruct (Z.ltb_spec (Z.of_nat m) (batch_size c)); [exists hs, t2; by rw Z.add_0_r|].
    destruct (loop_run pd c es e (replicate (n - m) 0) hs (Z.of_nat m) 0 t2 0)
      as (hs' & t3 & Hrun3 & Hl3 & ? & ?); [done|by rw Hl Z.sub_0_r|lia|done..|]. exists hs', t3. by rw Hrun3 Hl3. }
  destruct (dereg_all_run hs' (n - m) total _ t3 Hk3) as (t4 & Hrun4 & Hk4); [rw Hl3; lia|done|].
  destruct (pd_destroyed pd total t4 Hk4) as (r6 & t6 & a6 & Hrun6 & Hok6 & Hb6 & v6 & Hv6 & Hr6 & Hs6).
  rw Z.sub_diag in Hb6.
  exists hs', t6, a6, v6. split_and!; try done. unfold attack_main. rw Hc Hdev Hcalloc andb_false_r. cbn [negb].
  rw (proj2 (Z.leb_gt _ _) Hdelay) andb_false_r (bind_Ret _ _ _ _ _ Hrun1) (bind_Ret _ _ _ _ _ Hrun2).
  rw count_valid // Hl (bind_Ret _ _ _ _ _ Hrun3) (bind_Ret _ _ _ _ _ Hrun4). by rw (bind_Ret _ _ _ _ _ Hrun6).
Qed.
End Attack_runs.

(** ** Example: a tenant with room for ten regions of that size *)

Definition attack_setup : list TenantProps.call :=
  [Create 3 None (Some (Tenant.mk_quota 2 10 (2 ^ 30) 10 10)); Bind 100 3].

Definition attack_view : tview :=
  mk_view "unnamed" Tenant.TENANT_STATUS_ACTIVE (Tenant.mk_quota 2 10 (2 ^ 30) 10 10) Tenant.usage_zero.

#[local] Opaque example_tenant.

Lemma attack_process :
  tenant_process (spec_store attack_setup empty_store) 3 attack_view (example attack_setup 100).
Proof.
  apply example_process; [repeat constructor; cbn; lia|done|vm_compute; reflexivity|vm_compute; reflexivity|done|done].
Qed.

(** Twelve regions, batches of four, three readings of the clock before the end: 22
    registrations although ten regions are allowed. *)
Lemma attack_needs_one_batch_witness :
  ∃ mrs t' a' v', attack_main toy (mk_device true 7) (λ _, 4096) (λ _, true)
      [("n"%char, "12"); ("b"%char, "4"); ("t"%char, "1000")] [0; 300; 900; 1100]
      (example attack_setup 100) = Ret (0, Some (10, 3, mrs)) t' ∧
    active a' 3 = Some v' ∧ u64 (Tenant.total_mr_regs (v_usage v')) = 22.
Proof.
  destruct (attack_needs_one_batch toy Z.of_nat toy_generous
    (spec_store attack_setup empty_store) 3 attack_view (example attack_setup 100) attack_process (λ _, 4096)
    [("n"%char, "12"); ("b"%char, "4"); ("t"%char, "1000")] (mk_attack 5000 1000 12 4) (mk_device true 7) (λ _, true)
    [0; 300; 900] 1100) as (hs & t' & a' & v' & Hrun & _ & _ & _ & _ & Hv & Hr & _).
  - reflexivity.
  - reflexivity.
  - discriminate.
  - reflexivity.
  - reflexivity.
  - repeat constructor.
  - discriminate.
  - eexists _, t', a', v'. split; [exact Hrun|]. split; [exact Hv|]. rewrite Hr. vm_compute. reflexivity.
Defined.

End Attack.
