(* ===== verification/HotUpdate.v ===== *)
(** * The hot-update experiment

    Experiment 5 ([exp5_dynamic_policy_effect.c]): a process of a tenant tries to create
    twenty QPs, half a second apart, and keeps them; while it sleeps an administrator
    raises the quota of the tenant.  The program reports how many attempts were
    successful before and after the seventh, and the first successful one from there on.
    The times it measures and the layout of the report are left out. *)

From S2P Require Import Prelude CString Intercept Core CollectorServer CollectorClient LocalPolicy.
From S2P Require Import SlotTable ShmProcess ShmTenant TenantProps TenantSpec HookBase HooksTenant.
From S2P Require Import HooksTenantProps TenantQuota Isolation.

Module HotUpdate.
Import TenantProps TenantSpec.
Import Intercept Core CollectorClient LocalPolicy HookBase HooksTenant HooksTenantProps TenantQuota.
Import Isolation.
#[local] Existing Instances Tenant.expand_usage Tenant.expand_info Tenant.expand_shm Tenant.expand_state.

Definition MAX_QP : Z := 20.
Definition update_at_qp : Z := 7.

(** What the report says: the QPs created; the successful and the failed attempts before
    the update and after it; and the number of the first successful one after it (-1:
    none). *)
Record effect_report := mk_effect {
  e_count : Z;
  success_before : Z;
  fail_before : Z;
  success_after : Z;
  fail_after : Z;
  first_success_after_update : Z;
}.

Section Program.
Context {Srv D : Type} (x : externals Srv D) (dev : device).
(** What the other processes do while the program sleeps after an attempt; whether the
    user interrupts it before an attempt; and what the array holds before it is filled. *)
Context (meanwhile : nat → M (thooks Srv D) unit) (interrupted : nat → bool) (junk : nat → Z).
Implicit Types (t : thooks Srv D).

(** The loop, from attempt [i] on, with the attempts made so far. *)
Fixpoint timeline (pd : Z) (n i : nat) (done : list attempt) : M (thooks Srv D) (list attempt) :=
  match n with
  | O => mret done
  | S n' =>
      if interrupted i then mret done else
      qp ← ibv_create_qp x pd (Some qp_attr);
      meanwhile i;;
      timeline pd n' (S i) (done ++ [mk_attempt (if qp =? 0 then 0 else 1) 0 qp])
  end.

(** [attempts[i].success], whether attempt [i] was made or not. *)
Definition outcome (rs : list attempt) (i : nat) : Z :=
  match rs !! i with Some r => success r | None => junk i end.

(** The two loops of the summary. *)
Fixpoint summary (rs : list attempt) (n i : nat) (e : effect_report) : effect_report :=
  match n with
  | O => e
  | S n' =>
      let ok := negb (outcome rs i =? 0) in
      let e' :=
        if Z.of_nat i <? update_at_qp - 1 then
          if ok then mk_effect (e_count e) (success_before e + 1) (fail_before e) (success_after e)
                       (fail_after e) (first_success_after_update e)
          else mk_effect (e_count e) (success_before e) (fail_before e + 1) (success_after e)
                 (fail_after e) (first_success_after_update e)
        else
          if ok then mk_effect (e_count e) (success_before e) (fail_before e) (success_after e + 1)
                       (fail_after e)
                       (if first_success_after_update e =? -1 then Z.of_nat i + 1
                        else first_success_after_update e)
          else mk_effect (e_count e) (success_before e) (fail_before e) (success_after e)
                 (fail_after e + 1) (first_success_after_update e)
      in summary rs n' (S i) e'
  end.

Definition created_qps (rs : list attempt) : list Z := filter (λ q, q ≠ 0) (handle <$> rs).

(** Neither the context nor the domain nor the queue is tested for NULL. *)
Definition main : M (thooks Srv D) (Z * option effect_report) :=
  if negb (dev_found dev) then mret (1, None) else
  pd ← ibv_alloc_pd x (dev_context dev);
  cq ← ibv_create_cq x (dev_context dev) 16 0 0 0;
  rs ← timeline pd (Z.to_nat MAX_QP) 0 [];
  destroy_all x (created_qps rs);;
  ibv_destroy_cq x cq;;
  ibv_dealloc_pd x pd;;
  mret (0, Some (summary rs (Z.to_nat MAX_QP) 0
                   (mk_effect (Z.of_nat (length (created_qps rs))) 0 0 0 0 (-1)))).
End Program.

(** ** Phases between two updates *)

Section Phases.
Context {Srv D : Type} (x : externals Srv D) (pd : Z).
Implicit Types (t : thooks Srv D).

(** The experiment does not keep the error code. *)
Definition plain (r : attempt) : attempt := mk_attempt (success r) 0 (handle r).

Lemma attempt_inv max n prev rs t t' :
  attempts max (λ _, ibv_create_qp x pd (Some qp_attr)) (S n) prev t = Ret (prev ++ rs) t' →
  ∃ h t1 r, ibv_create_qp x pd (Some qp_attr) t = Ret h t1 ∧
    plain r = mk_attempt (if h =? 0 then 0 else 1) 0 h ∧
    attempts max (λ _, ibv_create_qp x pd (Some qp_attr)) n (prev ++ [r]) t1 = Ret (prev ++ rs) t'.
Proof.
  cbn [attempts]. destruct (max <=? _); [done|].
  intros (h & t1 & Hc & (t2 & t3 & [= -> ->] & Hrun)%bind_inv)%bind_inv.
  eexists h, t3, _. split_and!; [done| |exact Hrun]. unfold plain.
  by destruct (Z.eqb_spec h 0) as [->|].
Qed.

Lemma timeline_S meanwhile interrupted n i done t :
  timeline x meanwhile interrupted pd (S n) i done t =
    (if interrupted i then mret done else
     qp ← ibv_create_qp x pd (Some qp_attr);
     meanwhile i;;
     timeline x meanwhile interrupted pd n (S i) (done ++ [mk_attempt (if qp =? 0 then 0 else 1) 0 qp])) t.
Proof. done. Qed.

(** The attempts up to the next update. *)
Lemma timeline_phase meanwhile interrupted max n : ∀ i k done prev t rs t',
  (∀ j, (j < i + S n)%nat → interrupted j = false) →
  (∀ j t, (i ≤ j < i + n)%nat → meanwhile j t = Ret tt t) →
  attempts max (λ _, ibv_create_qp x pd (Some qp_attr)) (S n) prev t = Ret (prev ++ rs) t' →
  timeline x meanwhile interrupted pd (S n + k) i done t =
    (meanwhile (i + n)%nat;; timeline x meanwhile interrupted pd k (i + S n) (done ++ (plain <$> rs))) t'.
Proof.
  induction n as [|n IH]; intros i k done prev t rs t' Hint Hskip Hrun.
  all: apply attempt_inv in Hrun as (h & t1 & r & Hc & Hr & Hrun).
  all: rw Nat.add_succ_l timeline_S Hint; [lia|]; rw (bind_Ret _ _ _ _ _ Hc) -Hr.
  - injection Hrun as Hl <-. apply app_inv_head in Hl as <-. by rw Nat.add_0_r Nat.add_1_r.
  - destruct (attempts_extend _ _ _ _ _ _ _ Hrun) as [rs' Hrs]. rw -app_assoc in Hrs.
    apply app_inv_head in Hrs as ->. rw app_assoc in Hrun.
    rw (bind_Ret _ _ _ tt t1); [apply Hskip; lia|].
    rw (IH (S i) k (done ++ [plain r]) (prev ++ [r]) t1 rs' t'); [intros; apply Hint; lia|intros; apply Hskip; lia|exact Hrun|].
    by rw -app_assoc !Nat.add_succ_r !Nat.add_succ_l.
Qed.
End Phases.

(** ** The update *)

Definition with_quota (tid : Z) (q : Tenant.tenant_quota_t) (a : store) : store :=
  match live a tid with
  | Some v => live_put tid (Some (v <| v_quota := q |>)) a
  | None => a
  end.

Section Update.
Context {Srv D : Type}.
Implicit Types (t : thooks Srv D) (a : store) (q : Tenant.tenant_quota_t).

(** The call of the administrator, on the shared memory both have mapped. *)
Definition update_quota (tid : Z) q : M (thooks Srv D) unit :=
  zoom tshm (Tenant.tenant_update_quota tid (Some q));; mret tt.

Lemma active_with_quota tid q a v :
  active a tid = Some v → active (with_quota tid q a) tid = Some (v <| v_quota := q |>).
Proof.
  unfold active, with_quota. destruct (live a tid) as [w|] eqn:Hw; [|done]. cbn.
  destruct (is_active w) eqn:Hact; [|done]. intros [= ->]. rw decide_True //. cbn.
  change (is_active (v <| v_quota := q |>)) with (is_active v). by rw Hact.
Qed.

Lemma update_quota_run a t tid q v :
  tok a t → 0 ≤ tid → active a tid = Some v →
  ∃ t', update_quota tid q t = Ret tt t' ∧ tok (with_quota tid q a) t' ∧ base t' = base t.
Proof.
  intros Hok H0 Hv. pose proof (active_live _ _ _ Hv) as Hl.
  destruct (quota_answers a (tshm t) (tk_ready _ _ Hok) (tk_store _ _ Hok) tid q H0) as (s' & Hrun & Hr & Ha).
  cbn [respond spec] in Hrun, Ha. rw Hl in Hrun, Ha. cbn [fst snd] in Hrun, Ha.
  apply bind_inv in Hrun as (r & s1 & Hrun & [= -> <-]).
  exists (t <| tshm := s1 |>). split_and!; [| |done].
  - unfold update_quota, zoom, mbind, M_bind. cbn [TenantProps.run_call] in Hrun. by rw Hrun.
  - unfold with_quota. rw Hl. destruct Hok. split; try done. apply (ready_ptr _ Hr).
Qed.

(** What the tenant has got since [a0] it has got since [a0] with the new quota. *)
Lemma bill_with_quota rt a0 tid n a q :
  bill rt a0 tid n a → bill rt (with_quota tid q a0) tid n (with_quota tid q a).
Proof.
  intros [Ho Hl (v0 & v & Hv0 & Hv & Hqt & Hm & Hn)].
  pose proof (active_live _ _ _ Hv0) as H0. pose proof (active_live _ _ _ Hv) as H1. split.
  - unfold with_quota. by rw H0 H1.
  - intros k Hk. unfold with_quota. rw H0 H1. cbn. rw !decide_False //. by apply Hl.
  - eexists _, _. split_and!; [by apply active_with_quota|by apply active_with_quota|done..].
Qed.

Lemma process_with_quota a tid v t t' q :
  tenant_process a tid v t → tok (with_quota tid q a) t' → base t' = base t →
  is_u32 (Tenant.max_qp_per_tenant q) → is_u32 (Tenant.max_mr_per_tenant q) →
  tenant_process (with_quota tid q a) tid (v <| v_quota := q |>) t'.
Proof.
  intros [Hok Hl Ho Hv Hq] Hok' Hb H1 H2. split; [done| | |by apply active_with_quota|by split].
  - destruct Hl as [He Hr]. split; by rw Hb.
  - rw Hb. unfold with_quota. by rw (active_live _ _ _ Hv).
Qed.
End Update.

(** ** The summary *)

Lemma outcome_flags junk rs flags i : success <$> rs = flags → outcome junk rs i = default (junk i) (flags !! i).
Proof. intros <-. unfold outcome. rw list_lookup_fmap. by destruct (rs !! i). Qed.

Lemma summary_flags junk rs rs' n : ∀ i e,
  success <$> rs = success <$> rs' → summary junk rs n i e = summary junk rs' n i e.
Proof.
  induction n as [|n IH]; intros i e Hs; [done|]. cbn [summary].
  by rw (outcome_flags junk rs _ i Hs) -(outcome_flags junk rs' _ i eq_refl) IH.
Qed.

(** What the report says after [b] QPs before the update, all of them among the first
    six attempts, and [m] after it. *)
Lemma summary_effect junk b m rs c :
  (b ≤ 6)%nat → (0 < m ≤ 13)%nat →
  success <$> rs = replicate b 1 ++ replicate (7 - b) 0 ++ replicate m 1 ++ replicate (13 - m) 0 →
  summary junk rs (Z.to_nat MAX_QP) 0 (mk_effect c 0 0 0 0 (-1)) =
    mk_effect c (Z.of_nat b) (6 - Z.of_nat b) (Z.of_nat m) (14 - Z.of_nat m) 8.
Proof.
  intros Hb Hm Hs.
  rw (summary_flags junk rs ((λ z, mk_attempt z 0 0) <$>
    (replicate b 1 ++ replicate (7 - b) 0 ++ replicate m 1 ++ replicate (13 - m) 0))).
  { rw Hs -list_fmap_compose. by rw (list_fmap_id (_ ++ _)). }
  clear rs Hs. destruct b as [|[|[|[|[|[|[|b]]]]]]]; [..|lia].
  all: destruct m as [|[|[|[|[|[|[|[|[|[|[|[|[|[|m]]]]]]]]]]]]]]; [lia|..|lia]; reflexivity.
Qed.

Lemma created_first hs n :
  Forall (λ h, h ≠ 0) hs →
  filter (λ h, h ≠ 0) (handle <$> (plain <$> (granted <$> hs) ++ replicate n refused)) = hs.
Proof.
  intros Hz. rw !fmap_app filter_app !fmap_replicate. trans (hs ++ []); [|apply app_nil_r]. f_equal.
  - induction Hz as [|h hs Hh Hz IH]; [done|]. cbn. rw decide_True //. by f_equal.
  - induction n as [|n IH]; [done|]. exact IH.
Qed.

Lemma successes_first hs n :
  success <$> (plain <$> (granted <$> hs) ++ replicate n refused) = replicate (length hs) 1 ++ replicate n 0.
Proof.
  rw !fmap_app !fmap_replicate. f_equal. induction hs as [|h hs IH]; [done|]. cbn. by f_equal.
Qed.

(** After an interruption the summary counts attempts that were never made: here none
    was, and whatever is not zero on the stack is a success. *)
Lemma interrupted_summary_junk :
  summary (λ _, 1) [] (Z.to_nat MAX_QP) 0 (mk_effect 0 0 0 0 0 (-1)) = mk_effect 0 6 0 14 0 7.
Proof. reflexivity. Qed.

(** ** The experiment *)

Section Experiment.
Context {Srv D : Type} (x : externals Srv D) (qps : D → Z) (Hq : counts_qps x qps) (Hg : generous x qps).
Context (a0 : store) (tid : Z) (v0 : tview) (t0 : thooks Srv D) (Hp : tenant_process a0 tid v0 t0).
Context (Hctl : controlled_process t0).
Context (q : Tenant.tenant_quota_t).
Context (Hq1 : is_u32 (Tenant.max_qp_per_tenant q)) (Hq2 : is_u32 (Tenant.max_mr_per_tenant q)).
Implicit Types (t : thooks Srv D) (a : store).

#[local] Abbreviation v1 := (v0 <| v_quota := q |>).
#[local] Abbreviation room0 := (qp_room v0 t0).
#[local] Abbreviation room1 := (qp_room v1 t0).

Lemma tid_nonneg : 0 ≤ tid.
Proof using Hp.
  pose proof (tenant_of_nonneg _ _ (tp_ok _ _ _ _ Hp)) as H. unfold tenant_of in H.
  by rw (tp_owner _ _ _ _ Hp) in H.
Qed.

(** The quota is raised under a process that holds [k] QPs: from now on it is a process
    of the tenant with the new quota. *)
Lemma raise_quota :
  ∃ t0', base t0' = base t0 ∧ tenant_process (with_quota tid q a0) tid v1 t0' ∧
    ∀ k t, qp_filling qps a0 tid v0 t0 k t → k ≤ room1 →
      ∃ t', update_quota tid q t = Ret tt t' ∧ qp_filling qps (with_quota tid q a0) tid v1 t0' k t'.
Proof using Hp Hq1 Hq2.
  pose proof tid_nonneg as H0.
  destruct (update_quota_run a0 t0 tid q v0 (tp_ok _ _ _ _ Hp) H0 (tp_active _ _ _ _ Hp))
    as (t0' & _ & Hok0 & Hb0).
  exists t0'. split_and!; [done|by eapply process_with_quota|].
  intros k t (Hk & Hpub & Hc & Hk0 & a & Hok & Hkt & Hb & Hd) Hroom.
  destruct (bl_tenant _ _ _ _ _ Hb) as (w0 & w & _ & Hw & _).
  destruct (update_quota_run a t tid q w Hok H0 Hw) as (t' & Hrun & Hok' & Hb').
  exists t'. split; [done|]. refine (conj _ (conj _ (conj _ (conj Hk0 _)))).
  - by rw (qp_room_kept v1 v1 t0 t0' (kept_base _ _ Hb0)).
  - apply (published_same t); by rw ?Hb'.
  - by rw Hb'.
  - exists (with_quota tid q a). split_and!; [done| |by apply bill_with_quota|by rw Hb' Hb0].
    eapply kept_trans; [by apply kept_base|]. eapply kept_trans; [exact Hkt|by apply kept_base].
Qed.

(** The two phases of the loop, and the end. *)
Lemma timeline_run pd t n k :
  qp_filling qps a0 tid v0 t0 0 t → room0 ≤ room1 → (n + S k < 256)%nat →
  let m0 := Nat.min (S n) (Z.to_nat room0) in
  let m1 := Nat.min (S k) (Z.to_nat (room1 - Z.of_nat m0)) in
  ∃ rs t1 t2 a2,
    timeline x (λ i, if (i =? n)%nat then update_quota tid q else mret tt) (λ _, false) pd
      (S n + S k) 0 [] t = Ret rs t1 ∧
    success <$> rs = replicate m0 1 ++ replicate (S n - m0) 0 ++ replicate m1 1 ++ replicate (S k - m1) 0 ∧
    length (created_qps rs) = (m0 + m1)%nat ∧
    destroy_all x (created_qps rs) t1 = Ret tt t2 ∧
    tok a2 t2 ∧ kept t0 t2 ∧ bill 0 (with_quota tid q a0) tid 0 a2 ∧
    qps (drv (base t2)) = qps (drv (base t0)).
Proof using Hp Hq Hg Hctl Hq1 Hq2.
  intros Hf Hle Hlen m0 m1. destruct raise_quota as (t0' & Hb0 & Hp' & Hraise).
  assert (Hctl' : controlled_process t0') by (unfold controlled_process, global_usage in *; by rw Hb0).
  assert (Hroom' : qp_room v1 t0' = room1) by (by apply qp_room_kept; [apply kept_base|..]).
  pose proof (qp_meter x qps Hq Hg a0 tid v0 t0 Hp Hctl pd) as M0.
  pose proof (qp_meter x qps Hq Hg _ tid _ t0' Hp' Hctl' pd) as M1.
  assert (Hr0 : 0 ≤ room0) by apply (meter_room (Meter := M0)).
  destruct (attempts_run (Hm := M0) 256 (S n) m0 0 t [] Hf Hr0) as (rs0 & t1 & Hrun0 & Hf1 & hs0 & Hl0 & Hz0 & ->);
    [cbn; lia|by rw Z.sub_0_r|].
  destruct (Hraise _ _ Hf1) as (t2 & Hup & Hf2); [lia|].
  destruct (attempts_run (Hm := M1) 256 (S k) m1 (0 + Z.of_nat m0) t2 [] Hf2) as
    (rs1 & t3 & Hrun1 & Hf3 & hs1 & Hl1 & Hz1 & ->); [rw Hroom'; lia|cbn; lia|by rw Hroom' Z.add_0_l|].
  pose proof (meter_full (Meter := M1) _ _ Hf3) as Hh.
  destruct (release_run (Hm := M1) (hs0 ++ hs1) [] _ t3 Hh) as (t4 & Hrel & Hh4);
    [rw length_app; lia|by apply Forall_app|done|].
  destruct Hh4 as (_ & a4 & Hok4 & Hk4 & Hb4 & Hd4).
  rw length_app Nat2Z.inj_add Hl0 Hl1 in Hb4, Hd4.
  replace (0 + Z.of_nat m0 + Z.of_nat m1 - (Z.of_nat m0 + Z.of_nat m1)) with 0 in Hb4, Hd4 by lia.
  set (l0 := _ ++ _) in Hrun0. set (l1 := _ ++ _) in Hrun1.
  assert (Hcreated : created_qps ((plain <$> l0) ++ (plain <$> l1)) = hs0 ++ hs1).
  { unfold created_qps. rw fmap_app filter_app. f_equal; by apply created_first. }
  exists ((plain <$> l0) ++ (plain <$> l1)), t3, t4, a4. rw Hcreated. split_and!.
  - rw (timeline_phase x pd _ _ 256 n 0 (S k) [] [] t l0 t1 (λ j _, eq_refl)).
    { intros j u Hj. by rw (proj2 (Nat.eqb_neq j n)); [lia|]. }
    { exact Hrun0. }
    rw Nat.eqb_refl (bind_Ret _ _ _ _ _ Hup) -(Nat.add_0_r (S k)).
    rw (timeline_phase x pd _ _ 256 k _ 0 _ [] t2 l1 t3 (λ j _, eq_refl)).
    { intros j u Hj. by rw (proj2 (Nat.eqb_neq j n)); [lia|]. }
    { exact Hrun1. }
    by rw (proj2 (Nat.eqb_neq (0 + S n + k) n)); [lia|].
  - by rw fmap_app !successes_first Hl0 Hl1 -app_assoc.
  - rw length_app. lia.
  - rw app_nil_r in Hrel. by rw (destroy_all_release x _ []) // app_nil_r.
  - exact Hok4.
  - eapply kept_trans; [|exact Hk4]. by apply kept_base.
  - exact Hb4.
  - rw Hd4 Hb0. lia.
Qed.

(** The administrator acts during the sleep that follows the seventh attempt. *)
Definition after_seventh (i : nat) : M (thooks Srv D) unit :=
  if (i =? 6)%nat then update_quota tid q else mret tt.

(** C22: a raised quota takes effect at once.  When the quota of the tenant is used up
    within the first six attempts and is raised after the seventh, the eighth attempt is
    the first successful one after the update; the QPs of the process are what the old
    quota left and then what the new one adds; and when the program ends the tenant,
    with its new quota, and the driver have as many QPs as before. *)
Theorem hot_update_takes_effect dev junk :
  dev_found dev = true → counts_published t0 → qp_count (hg (base t0)) = 0 →
  room0 ≤ 6 → room0 < room1 →
  let m := Z.min 13 (room1 - room0) in
  ∃ t' a', main x dev after_seventh (λ _, false) junk t0 =
      Ret (0, Some (mk_effect (room0 + m) room0 (6 - room0) m (14 - m) 8)) t' ∧
    tok a' t' ∧ bill 0 (with_quota tid q a0) tid 0 a' ∧ qps (drv (base t')) = qps (drv (base t0)).
Proof using Hp Hq Hg Hctl Hq1 Hq2.
  intros Hdev Hpub Hzero H6 Hlt m. set (ctx := dev_context dev).
  assert (H0 : 0 ≤ room0) by (unfold qp_room; lia).
  destruct (created_aside x qps Hq a0 tid v0 t0 Hp 0 0 "ibv_alloc_pd" (AllocPd ctx) 4 a0 t0)
    as (t1 & a1 & Hrun1 & Hok1 & Hk1 & Hb1 & Hd1 & Hg1 & Hs1);
    try done; [by left|by apply is_hook|apply Hp|by eapply bill_start, Hp|].
  set (pd := ret _) in Hrun1.
  destruct (created_aside x qps Hq a0 tid v0 t0 Hp 0 0 "ibv_create_cq" (CreateCq ctx 16 0 0 0) 3 a1 t1)
    as (t2 & a2 & Hrun2 & Hok2 & Hk2 & Hb2 & Hd2 & Hg2 & Hs2); try done; [by left|by apply is_hook|].
  set (cq := ret _) in Hrun2.
  destruct (timeline_run pd t2 6 12) as (rs & t3 & t4 & a4 & Hrun3 & Hrs & Hlen & Hrun4 & Hok4 & Hk4 & Hb4 & Hd4);
    [|lia|lia|].
  { refine (conj H0 (conj _ (conj _ (conj (Z.le_refl 0) _)))); [|by rw Hg2 Hg1|].
    - apply (published_same t0); [by rw Hs2 Hs1|by rw Hg2 Hg1|apply (kp_pid _ _ Hk2)|done].
    - exists a2. split_and!; [done..|]. by rw Hd2 Hd1 Z.add_0_r. }
  destruct raise_quota as (t0' & Hb0 & Hp' & _).
  assert (Hk4' : kept t0' t4) by (eapply kept_trans; [by apply kept_base|exact Hk4]).
  destruct (destroyed_aside x qps Hq _ tid _ t0' Hp' 0 0 "ibv_destroy_cq" (DestroyCq cq) 3 a4 t4)
    as (r5 & t5 & a5 & Hrun5 & Hok5 & Hk5 & Hb5 & Hd5 & _); try done; [by left|by apply is_hook|].
  destruct (destroyed_aside x qps Hq _ tid _ t0' Hp' 0 0 "ibv_dealloc_pd" (DeallocPd pd) 4 a5 t5)
    as (r6 & t6 & a6 & Hrun6 & Hok6 & Hk6 & Hb6 & Hd6 & _); try done; [by left|by apply is_hook|].
  exists t6, a6. split_and!; [|done|done|by rw Hd6 Hd5].
  unfold main. rw Hdev. cbn [negb]. fold ctx.
  rw (bind_Ret _ _ _ _ _ Hrun1) (bind_Ret _ _ _ _ _ Hrun2).
  change (Z.to_nat MAX_QP) with (7 + 13)%nat at 1. rw (bind_Ret _ _ _ _ _ Hrun3).
  rw (bind_Ret _ _ _ _ _ Hrun4) (bind_Ret _ _ _ _ _ Hrun5) (bind_Ret _ _ _ _ _ Hrun6).
  rw (summary_effect junk (Z.to_nat room0) (Z.to_nat m)); [lia|lia| |].
  - rw Hrs. replace (Nat.min 7 (Z.to_nat room0)) with (Z.to_nat room0) by lia.
    by replace (Nat.min 13 _) with (Z.to_nat m) by lia.
  - rw Hlen. repeat f_equal; lia.
Qed.
End Experiment.

(** The set-up of the experiment, with the quotas of the example: two QPs, then four. *)
Definition raised_quota : Tenant.tenant_quota_t := Tenant.mk_quota 4 10 100 10 10.

Lemma hot_update_takes_effect_witness :
  ∃ t', main toy (mk_device true 7) (after_seventh 3 raised_quota) (λ _, false) (λ _, 1)
      (example example_setup 100) = Ret (0, Some (mk_effect 4 2 4 2 12 8)) t'.
Proof.
  destruct (hot_update_takes_effect toy Z.of_nat toy_counts toy_generous example_store 3 example_view
    (example example_setup 100) single_process (example_controlled _ _) raised_quota
    ltac:(by split) ltac:(by split) (mk_device true 7) (λ _, 1)) as (t' & a' & Hrun & _).
  - reflexivity.
  - apply example_published.
  - reflexivity.
  - vm_compute. discriminate.
  - vm_compute. reflexivity.
  - exists t'. exact Hrun.
Defined.
End HotUpdate.
