(* ===== verification/Churn.v ===== *)
(** * Programs that destroy every QP at once

    Three programs create a QP, destroy it, and create the next one: the latency test of
    experiment 5 ([exp5_hot_update_latency.c]), the tenant processes of the scalability
    test of experiment 3 ([exp3_scalability.c]), and [test_intercept.c] of experiment 2.
    A process that never holds more than one QP never meets its tenant's quota, however
    small, and never notices that it is changed: all its attempts are successful, unless
    its own limit is one, which its record keeps against it.

    The times measured and the layout of the reports are left out. *)

From S2P Require Import Prelude CString Intercept Core CollectorServer CollectorClient LocalPolicy.
From S2P Require Import SlotTable ShmProcess ShmTenant TenantProps TenantSpec HookBase HooksTenant.
From S2P Require Import HooksTenantProps TenantQuota Isolation HotUpdate.

Module Churn.
Import TenantProps TenantSpec.
Import Intercept Core CollectorClient LocalPolicy HookBase HooksTenant HooksTenantProps TenantQuota.
Import Isolation HotUpdate.
#[local] Existing Instances Tenant.expand_usage Tenant.expand_info Tenant.expand_shm Tenant.expand_state.

(** ** The programs *)

(** How many attempts were successful, and how many were not. *)
Record tally := mk_tally { succeeded : Z; failed : Z }.

Section Programs.
Context {Srv D : Type} (x : externals Srv D) (dev : device).
#[local] Abbreviation program := (M (thooks Srv D)).

(** One attempt: a QP that is created is destroyed. *)
Definition try_create_qp (pd : Z) (attr : ibv_qp_init_attr) : program Z :=
  qp ← ibv_create_qp x pd (Some attr);
  if negb (qp =? 0) then ibv_destroy_qp x qp;; mret 1 else mret 0.

(** Attempts [i], [i + 1], ..., [n] of them; after each the others have their turn. *)
Fixpoint try_all (meanwhile : nat → program unit) (pd : Z) (attr : ibv_qp_init_attr) (n i : nat)
    (c : tally) : program tally :=
  match n with
  | O => mret c
  | S n' =>
      r ← try_create_qp pd attr;
      meanwhile i;;
      try_all meanwhile pd attr n' (S i)
        (if r =? 1 then mk_tally (succeeded c + 1) (failed c) else mk_tally (succeeded c) (failed c + 1))
  end.

(** [exp5_hot_update_latency]: a hundred attempts; the quota is to be raised during the
    pauses.  The file is opened after the objects are created, which stay behind when it
    cannot be. *)
Definition hot_update_latency (meanwhile : nat → program unit) (file_opens : bool) :
    program (Z * option tally) :=
  if negb (dev_found dev) then mret (1, None) else
  pd ← ibv_alloc_pd x (dev_context dev);
  cq ← ibv_create_cq x (dev_context dev) 16 0 0 0;
  if negb file_opens then mret (1, None) else
  c ← try_all meanwhile pd qp_attr 100 0 (mk_tally 0 0);
  ibv_destroy_cq x cq;;
  ibv_dealloc_pd x pd;;
  mret (0, Some c).

(** [test_intercept]: five attempts. *)
Definition test_intercept : program (Z * option tally) :=
  if negb (dev_found dev) then mret (1, None) else
  pd ← ibv_alloc_pd x (dev_context dev);
  cq ← ibv_create_cq x (dev_context dev) 16 0 0 0;
  c ← try_all (λ _, mret tt) pd qp_attr 5 0 (mk_tally 0 0);
  ibv_destroy_cq x cq;;
  ibv_dealloc_pd x pd;;
  mret (0, Some c).

(** ** Experiment 3 *)

Definition QP_PER_TENANT : Z := 10.
Definition EXP3_MAX_TENANTS : Z := 200.
Definition small_attr : ibv_qp_init_attr := mk_attr IBV_QPT_RC 1 1.

(** A child: its exit code, and the number of successes it sends to the parent.  The
    number of the tenant is only printed. *)
Definition exp3_tenant_process (num_qp warmup : Z) : program (Z * option Z) :=
  if negb (dev_found dev) then mret (1, None) else
  pd ← ibv_alloc_pd x (dev_context dev);
  cq ← ibv_create_cq x (dev_context dev) (num_qp + 10) 0 0 0;
  try_all (λ _, mret tt) pd small_attr (Z.to_nat warmup) 0 (mk_tally 0 0);;
  c ← try_all (λ _, mret tt) pd small_attr (Z.to_nat num_qp) 0 (mk_tally 0 0);
  ibv_destroy_cq x cq;;
  ibv_dealloc_pd x pd;;
  mret (0, Some (succeeded c)).
End Programs.

Record exp3_config := mk_exp3 { num_tenants : Z; warm_up : Z; output_file : string }.
#[export] Instance expand_exp3 : Expand exp3_config := λ c,
  mk_exp3 (num_tenants c) (warm_up c) (output_file c).

Definition exp3_option (c : exp3_config) (o : option_t) : exp3_config + Z :=
  let '(letter, optarg) := o in
  match letter with
  | "t"%char => inl (c <| num_tenants := atoi optarg |>)
  | "w"%char => inl (c <| warm_up := atoi optarg |>)
  | "o"%char => inl (c <| output_file := optarg |>)
  | "h"%char => inr 0
  | _ => inr 1
  end.

Fixpoint exp3_options (os : list option_t) (c : exp3_config) : exp3_config + Z :=
  match os with
  | [] => inl c
  | o :: os' => match exp3_option c o with inl c' => exp3_options os' c' | inr e => inr e end
  end.

(** The parent's sum over the children; of a child that has sent nothing it counts what
    its array holds. *)
Fixpoint collect (junk : Z) (rs : list (option Z)) (total_success : Z) : Z :=
  match rs with
  | [] => total_success
  | r :: rs' => collect junk rs' (i32 (total_success + default junk r))
  end.

(** [child i] is what the [i]th child sends, [starts i] whether its pipe and its process
    could be made.  The exit code, and the QPs created, out of those wanted. *)
Definition exp3_main (starts : nat → bool) (child : exp3_config → nat → option Z) (junk : Z)
    (os : list option_t) : Z * option (Z * Z) :=
  match exp3_options os (mk_exp3 10 1 "results.csv") with
  | inr e => (e, None)
  | inl c =>
      if EXP3_MAX_TENANTS <? num_tenants c then (1, None) else
      let n := Z.to_nat (num_tenants c) in
      if negb (forallb starts (seq 0 n)) then (1, None) else
      (0, Some (collect junk (child c <$> seq 0 n) 0, num_tenants c * QP_PER_TENANT))
  end.

(** ** At most one QP *)

Section One.
Context {Srv D : Type} (x : externals Srv D) (qps : D → Z) (Hq : counts_qps x qps) (Hg : generous x qps).
Context (attr : ibv_qp_init_attr) (Hmade : ∀ pd d, ret (x_driver x (CreateQp pd (Some attr)) d) ≠ 0).
Implicit Types (t : thooks Srv D) (a : store) (q : Tenant.tenant_quota_t).

(** Between two attempts: the process holds none of the QPs it has created, and there is
    room for one, in the quota of the tenant and below the limit of the process, whose
    record still says one after the first attempt. *)
Record idle a tid (used : Z) t : Prop := {
  id_process : ∃ v, tenant_process a tid v t ∧ figure 0 (v_usage v) = used ∧
    used < Tenant.max_qp_per_tenant (v_quota v);
  id_control : enable_qp_control (hcfg (base t)) = true →
    type_denied (hcfg (base t)) (attr_qp_type attr) = false ∧
    global_denied (hcfg (base t)) (reading (global_usage (base t))) = false ∧
    (mapped t = true → 2 ≤ max_qp_per_process (hcfg (base t)));
  id_count : qp_count (hg (base t)) = 0;
  id_room : mapped t = true → slot_room t;
  id_slot : mapped t = true → u32 (Shm.qp_count (default Shm.usage_zero
              (Shm.table (Shm.shm (pshm (base t))) !! pid (base t)))) ≤ 1;
}.

Lemma idle_allowed a tid used t : idle a tid used t → qp_allowed a t attr = true.
Proof.
  intros [(v & Hp & Hu & Hr) Hc _ _ Hs]. unfold qp_allowed.
  destruct (enable_qp_control (hcfg (base t))); [|done]. destruct (Hc eq_refl) as (H1 & H2 & H3).
  rw H1 H2. cbn [negb orb andb]. rw andb_true_r. apply andb_true_iff. split.
  - unfold tenant_of. rw (tp_owner _ _ _ _ Hp). cbn [default]. unfold qp_within.
    rw (tenant_process_id _ _ _ _ Hp) (active_live _ _ _ (tp_active _ _ _ _ Hp)). cbn [orb].
    apply negb_true_iff, Z.leb_gt. unfold figure in Hu. cbn in Hu. lia.
  - unfold process_denied, process_usage, mapped in *. destruct (Shm.shm_data_ptr _); [|done].
    specialize (Hs eq_refl). specialize (H3 eq_refl). cbn [reading fst snd default Z.eqb andb].
    apply negb_true_iff, Z.ltb_ge.
    pose proof (u32_range (Shm.qp_count (default Shm.usage_zero
              (Shm.table (Shm.shm (pshm (base t))) !! pid (base t))))).
    set (n := u32 _) in *. unfold is_u32 in *. rw u32_small; unfold is_u32; lia.
Qed.

(** The process has given back what it got. *)
Record restored a tid t a' t' : Prop := {
  rs_bill : bill 0 a tid 0 a';
  rs_kept : kept t t';
  rs_qps : qps (drv (base t')) = qps (drv (base t));
}.

Lemma restored_trans a tid t a1 t1 a2 t2 :
  restored a tid t a1 t1 → restored a1 tid t1 a2 t2 → restored a tid t a2 t2.
Proof.
  intros [Hb1 Hk1 Hd1] [Hb2 Hk2 Hd2].
  split; [exact (bill_trans 0 a tid 0 a1 0 a2 Hb1 Hb2)|by eapply kept_trans|by rw Hd2].
Qed.

(** An attempt is successful, and leaves the process as it was. *)
Lemma try_idle a tid used pd t :
  idle a tid used t → ∃ a' t', try_create_qp x pd attr t = Ret 1 t' ∧ idle a' tid used t' ∧
    restored a tid t a' t'.
Proof using Hq Hg Hmade.
  intros Hi. pose proof (idle_allowed _ _ _ _ Hi) as Hal.
  destruct Hi as [(v & Hp & Hu & Hr) Hc Hcnt Hroom Hs].
  pose proof (tp_ok _ _ _ _ Hp) as Hok. destruct (tp_live _ _ _ _ Hp) as [He Hreal].
  destruct (create_qp_run x a t pd attr Hok He (Hreal _ (is_hook "ibv_create_qp" eq_refl)))
    as (t1 & Hrun1 & Hok1 & Hk1 & Hd1 & Hc1 & _ & _ & Hpub1).
  set (o := x_driver x _ _) in *. pose proof (Hmade pd (drv (base t))) as Hne. fold o in Hne.
  pose proof (qps_create _ _ Hq pd (Some attr) (drv (base t))) as Hn. cbv zeta in Hn. fold o in Hn.
  rw Hal in Hrun1, Hok1, Hd1, Hc1, Hpub1. rw (proj2 (Z.eqb_neq _ _) Hne) in Hok1, Hc1, Hn, Hpub1.
  cbn [negb andb] in *. destruct (Hpub1 eq_refl Hroom) as [Hroom1 Hs1].
  rw Hc1 Hcnt in Hs1. assert (Hm1 : mapped t1 = mapped t) by apply Hk1. set (h := ret o) in *.
  pose proof (bill_counted 0 a tid 0 a 0 1 (or_introl eq_refl) (bill_start 0 a tid v (tp_active _ _ _ _ Hp))) as Hb1.
  unfold tenant_of in Hok1. rw (tp_owner _ _ _ _ Hp) in Hok1. cbn [default] in Hok1.
  set (a1 := counted tid 0 1 a) in *. destruct (kept_live a tid v t Hp t1 Hk1) as [He1 Hreal1].
  destruct (destroy_qp_run x a1 t1 h Hok1 He1 (Hreal1 _ (is_hook "ibv_destroy_qp" eq_refl)))
    as (t2 & Hrun2 & Hok2 & Hk2 & Hd2 & Hc2 & Hs2).
  pose proof (qps_nonneg _ _ Hq (drv (base t))) as Hnn.
  assert (Hz : ret (x_driver x (DestroyQp h) (drv (base t1))) = 0) by (apply (gn_destroy _ _ Hg); rw Hd1 Hn; lia).
  rw Hz Z.eqb_refl in Hok2, Hc2. rw (kept_owner a tid v t Hp a1 t1 (bl_owner _ _ _ _ _ Hb1) Hk1) in Hok2.
  pose proof (bill_counted 0 a tid _ a1 0 (-1) (or_introl eq_refl) Hb1) as Hb2. cbn [Z.eqb] in Hb2.
  set (a2 := counted tid 0 (-1) a1) in *. pose proof (kept_trans _ _ _ Hk1 Hk2) as Hkt.
  exists a2, t2. pose proof Hb2 as Hb. split_and!; [|split|split; [exact Hb|done|]].
  - unfold try_create_qp. rw (bind_Ret _ _ _ _ _ Hrun1) (proj2 (Z.eqb_neq _ _) Hne). cbn [negb].
    by rw (bind_Ret _ _ _ _ _ Hrun2).
  - destruct Hb2 as [Ho _ (w & v2 & Hw & Hv2 & Hqt & _ & Hf)].
    rw (tp_active _ _ _ _ Hp) in Hw. injection Hw as <-. exists v2. split_and!.
    + split; [done|by eapply (kept_live a tid v t Hp)|by rw Ho (kp_pid _ _ Hkt) (tp_owner _ _ _ _ Hp)|done|].
      rw Hqt. apply Hp.
    + rw Hf -Hu. change (0 + 1 + -1) with 0. rw Z.add_0_r. apply u32_small, figure_range.
    + by rw Hqt.
  - by rw (kp_cfg _ _ Hkt) (kp_global _ _ Hkt) (kp_mapped _ _ Hkt).
  - by rw Hc2 Hc1 Hcnt.
  - rw (kp_mapped _ _ Hk2) => Hm. unfold slot_room. rw Hs2 (kp_pid _ _ Hk2). by apply Hroom1.
  - rw (kp_mapped _ _ Hk2) => Hm. rw Hs2 (kp_pid _ _ Hk2) (Hs1 Hm). done.
  - pose proof (qps_destroy _ _ Hq h (drv (base t1))) as Hn2. cbv zeta in Hn2. rw Hz in Hn2.
    rw Hd2 Hn2 Hd1 Hn. cbn [Z.eqb]. lia.
Qed.

(** A limit of one QP for the process is another matter: the record says one after the
    first attempt, so that the second one is refused although no QP is held. *)
Theorem limit_of_one_refuses a tid v pd t :
  tenant_process a tid v t → figure 0 (v_usage v) < Tenant.max_qp_per_tenant (v_quota v) →
  enable_qp_control (hcfg (base t)) = true → max_qp_per_process (hcfg (base t)) = 1 →
  type_denied (hcfg (base t)) (attr_qp_type attr) = false →
  global_denied (hcfg (base t)) (reading (global_usage (base t))) = false →
  mapped t = true → counts_published t → qp_count (hg (base t)) = 0 →
  ∃ t1 t2, try_create_qp x pd attr t = Ret 1 t1 ∧ qps (drv (base t1)) = qps (drv (base t)) ∧
    try_create_qp x pd attr t1 = Ret 0 t2.
Proof using Hq Hg Hmade.
  intros Hp Hr Hctl Hmax Hty Hgl Hm Hpub Hcnt.
  pose proof (tp_ok _ _ _ _ Hp) as Hok. destruct (tp_live _ _ _ _ Hp) as [He Hreal].
  assert (Hdenied : ∀ t', kept t t' →
    process_denied (hcfg (base t')) (reading (process_usage (base t'))) =
      (1 <? u32 (u32 (Shm.qp_count (default Shm.usage_zero
        (Shm.table (Shm.shm (pshm (base t'))) !! pid (base t')))) + 1))).
  { intros t' Hk. pose proof (kp_mapped _ _ Hk) as Hm'. rw Hm in Hm'. unfold process_denied, process_usage, mapped in *.
    rw (kp_cfg _ _ Hk) Hmax Hm'. done. }
  assert (Hal : qp_allowed a t attr = true).
  { unfold qp_allowed. rw Hctl Hty Hgl (Hdenied t (kept_refl t)) (cp_count _ Hpub Hm) Hcnt. cbn [negb orb andb].
    unfold tenant_of. rw (tp_owner _ _ _ _ Hp). cbn [default]. rw andb_true_r andb_true_iff. split; [|done].
    by eapply active_within; [apply Hp|]. }
  destruct (create_qp_run x a t pd attr Hok He (Hreal _ (is_hook "ibv_create_qp" eq_refl)))
    as (t1 & Hrun1 & Hok1 & Hk1 & Hd1 & Hc1 & _ & Hpub1 & _).
  set (o := x_driver x _ _) in *. pose proof (Hmade pd (drv (base t))) as Hne. fold o in Hne.
  pose proof (qps_create _ _ Hq pd (Some attr) (drv (base t))) as Hn. cbv zeta in Hn. fold o in Hn.
  rw Hal in Hrun1, Hok1, Hd1, Hc1. rw (proj2 (Z.eqb_neq _ _) Hne) in Hok1, Hc1, Hn. cbn [negb andb] in *.
  rw Hcnt in Hc1. specialize (Hpub1 Hpub). destruct (kept_live a tid v t Hp t1 Hk1) as [He1 Hreal1]. set (h := ret o) in *.
  destruct (destroy_qp_run x _ t1 h Hok1 He1 (Hreal1 _ (is_hook "ibv_destroy_qp" eq_refl)))
    as (t2 & Hrun2 & Hok2 & Hk2 & Hd2 & Hc2 & Hs2).
  pose proof (qps_nonneg _ _ Hq (drv (base t))) as Hnn.
  assert (Hz : ret (x_driver x (DestroyQp h) (drv (base t1))) = 0) by (apply (gn_destroy _ _ Hg); rw Hd1 Hn; lia).
  pose proof (kept_trans _ _ _ Hk1 Hk2) as Hkt. destruct (kept_live a tid v t Hp t2 Hkt) as [He2 Hreal2].
  destruct (create_qp_run x _ t2 pd attr Hok2 He2 (Hreal2 _ (is_hook "ibv_create_qp" eq_refl)))
    as (t3 & Hrun3 & _).
  assert (Hno : qp_allowed (if ret (x_driver x (DestroyQp h) (drv (base t1))) =? 0
      then counted (tenant_of (counted (tenant_of a t) 0 1 a) t1) 0 (-1) (counted (tenant_of a t) 0 1 a)
      else counted (tenant_of a t) 0 1 a) t2 attr = false).
  { unfold qp_allowed. rw (kp_cfg _ _ Hkt) Hctl -(kp_cfg _ _ Hkt) (Hdenied t2 Hkt) Hs2 (kp_pid _ _ Hk2).
    rw (cp_count _ Hpub1); [by rw (kp_mapped _ _ Hk1)|]. rw Hc1.
    change (1 <? u32 (u32 (0 + 1) + 1)) with true. cbn [negb orb]. by rw andb_false_r. }
  rw Hno in Hrun3. exists t2, t3. split_and!.
  - unfold try_create_qp. rw (bind_Ret _ _ _ _ _ Hrun1) (proj2 (Z.eqb_neq _ _) Hne). cbn [negb].
    by rw (bind_Ret _ _ _ _ _ Hrun2).
  - pose proof (qps_destroy _ _ Hq h (drv (base t1))) as Hn2. cbv zeta in Hn2. rw Hz in Hn2.
    rw Hd2 Hn2 Hd1 Hn. cbn [Z.eqb]. lia.
  - unfold try_create_qp. by rw (bind_Ret _ _ _ _ _ Hrun3).
Qed.

(** What the others do between two attempts leaves the process idle. *)
Definition harmless_turn (meanwhile : M (thooks Srv D) unit) (tid used : Z) : Prop :=
  ∀ a t, idle a tid used t → ∃ a' t', meanwhile t = Ret tt t' ∧ idle a' tid used t' ∧ base t' = base t.

Lemma try_all_idle meanwhile tid used pd n : ∀ i c a t,
  idle a tid used t → (∀ i, harmless_turn (meanwhile i) tid used) →
  ∃ a' t', try_all x meanwhile pd attr n i c t = Ret (mk_tally (succeeded c + Z.of_nat n) (failed c)) t' ∧
    idle a' tid used t' ∧ kept t t'.
Proof using Hq Hg Hmade.
  induction n as [|n IH]; intros i c a t Hi Hm.
  { exists a, t. rw Z.add_0_r. split_and!; [by destruct c|done..]. }
  destruct (try_idle a tid used pd t Hi) as (a1 & t1 & Hrun1 & Hi1 & [_ Hk1 _]).
  destruct (Hm i a1 t1 Hi1) as (a2 & t2 & Hrun2 & Hi2 & Hb2).
  destruct (IH (S i) (mk_tally (succeeded c + 1) (failed c)) a2 t2 Hi2 Hm) as (a3 & t3 & Hrun3 & Hi3 & Hk3).
  exists a3, t3. split_and!; [|done|].
  - cbn [try_all]. rw (bind_Ret _ _ _ _ _ Hrun1) (bind_Ret _ _ _ _ _ Hrun2). cbn [Z.eqb]. rw Hrun3.
    cbn [succeeded failed]. do 2 f_equal. lia.
  - eapply kept_trans; [exact Hk1|]. eapply kept_trans; [by apply kept_base|done].
Qed.

Lemma nothing_harmless tid used : harmless_turn (mret tt) tid used.
Proof. intros a t Hi. by exists a, t. Qed.

(** A change of the quota that leaves room for one QP. *)
Lemma update_harmless tid used q :
  used < Tenant.max_qp_per_tenant q → is_u32 (Tenant.max_qp_per_tenant q) →
  is_u32 (Tenant.max_mr_per_tenant q) → harmless_turn (update_quota tid q) tid used.
Proof.
  intros Hr H1 H2 a t [(v & Hp & Hu & Hv) Hc Hcnt Hroom Hs].
  destruct (update_quota_run a t tid q v (tp_ok _ _ _ _ Hp) (tid_nonneg a tid v t Hp) (tp_active _ _ _ _ Hp))
    as (t' & Hrun & Hok' & Hb).
  eexists _, t'. split_and!; [exact Hrun| |exact Hb]. split; unfold slot_room, mapped in *; rw ?Hb; try done.
  exists (v <| v_quota := q |>). split_and!; [by eapply process_with_quota|done|done].
Qed.
(** What is created and destroyed besides. *)
Lemma idle_aside a a' tid used t t' :
  idle a tid used t → tok a' t' → kept t t' → bill 0 a tid 0 a' →
  qp_count (hg (base t')) = qp_count (hg (base t)) → pshm (base t') = pshm (base t) → idle a' tid used t'.
Proof.
  intros [(v & Hp & Hu & Hv) Hc Hcnt Hroom Hs] Hok Hk [Ho _ (w & v2 & Hw & Hv2 & Hqt & _ & Hf)] Hg' Hs'.
  rw (tp_active _ _ _ _ Hp) in Hw. injection Hw as <-. split.
  - exists v2. rw Hqt. split_and!; [|rw Hf Z.add_0_r Hu; apply u32_small; rw -Hu; apply figure_range|done].
    split; [done|by eapply (kept_live a tid v t Hp)|by rw Ho (kp_pid _ _ Hk) (tp_owner _ _ _ _ Hp)|done|].
    rw Hqt. apply Hp.
  - by rw (kp_cfg _ _ Hk) (kp_global _ _ Hk) (kp_mapped _ _ Hk).
  - by rw Hg'.
  - unfold slot_room in *. by rw (kp_mapped _ _ Hk) Hs' (kp_pid _ _ Hk).
  - by rw (kp_mapped _ _ Hk) Hs' (kp_pid _ _ Hk).
Qed.

(** The objects every program creates first. *)
Lemma objects_idle ctx n a tid used t :
  idle a tid used t →
  ∃ pd cq t1 t2 a2, ibv_alloc_pd x ctx t = Ret pd t1 ∧ ibv_create_cq x ctx n 0 0 0 t1 = Ret cq t2 ∧
    idle a2 tid used t2 ∧ restored a tid t a2 t2.
Proof using Hq.
  intros Hi. pose proof (id_process _ _ _ _ Hi) as (v & Hp & _).
  destruct (created_aside x qps Hq a tid v t Hp 0 0 "ibv_alloc_pd" (AllocPd ctx) 4 a t)
    as (t1 & a1 & Hrun1 & Hok1 & Hk1 & Hb1 & Hd1 & Hg1 & Hs1);
    try done; [by left|by apply is_hook|apply Hp|by eapply bill_start, Hp|].
  destruct (created_aside x qps Hq a tid v t Hp 0 0 "ibv_create_cq" (CreateCq ctx n 0 0 0) 3 a1 t1)
    as (t2 & a2 & Hrun2 & Hok2 & Hk2 & Hb2 & Hd2 & Hg2 & Hs2); try done; [by left|by apply is_hook|].
  eexists _, _, t1, t2, a2. split_and!; [exact Hrun1|exact Hrun2| |split; [done|done|by rw Hd2 Hd1]].
  by eapply idle_aside; [exact Hi|done..|rw Hg2 Hg1|rw Hs2 Hs1].
Qed.

(** And destroys last. *)
Lemma objects_destroyed pd cq a tid used t :
  idle a tid used t →
  ∃ r t1 r' t2 a2, ibv_destroy_cq x cq t = Ret r t1 ∧ ibv_dealloc_pd x pd t1 = Ret r' t2 ∧
    idle a2 tid used t2 ∧ restored a tid t a2 t2.
Proof using Hq.
  intros Hi. pose proof (id_process _ _ _ _ Hi) as (v & Hp & _).
  destruct (destroyed_aside x qps Hq a tid v t Hp 0 0 "ibv_destroy_cq" (DestroyCq cq) 3 a t)
    as (r5 & t5 & a5 & Hrun5 & Hok5 & Hk5 & Hb5 & Hd5 & Hg5 & Hs5);
    try done; [by left|by apply is_hook|apply Hp|by eapply bill_start, Hp|].
  destruct (destroyed_aside x qps Hq a tid v t Hp 0 0 "ibv_dealloc_pd" (DeallocPd pd) 4 a5 t5)
    as (r6 & t6 & a6 & Hrun6 & Hok6 & Hk6 & Hb6 & Hd6 & Hg6 & Hs6); try done; [by left|by apply is_hook|].
  exists r5, t5, r6, t6, a6. split_and!; [exact Hrun5|exact Hrun6| |split; [done|done|by rw Hd6 Hd5]].
  by eapply idle_aside; [exact Hi|done..|rw Hg6 Hg5|rw Hs6 Hs5].
Qed.

(** A program, piece by piece. *)
Section Pieces.
Context {A B : Type} (tid used : Z) (Q : B → thooks Srv D → Prop).

Lemma objects_wp ctx n a t (k : Z → Z → M (thooks Srv D) B) :
  idle a tid used t → (∀ pd cq a' t', idle a' tid used t' → wp (k pd cq) Q t') →
  wp (pd ← ibv_alloc_pd x ctx; cq ← ibv_create_cq x ctx n 0 0 0; k pd cq) Q t.
Proof using Hq.
  intros Hi Hk. destruct (objects_idle ctx n a tid used t Hi) as (pd & cq & t1 & t2 & a2 & H1 & H2 & Hi2 & _).
  apply wp_bind. eapply wp_eq; [exact H1|]. apply wp_bind. eapply wp_eq; [exact H2|]. by eapply Hk.
Qed.

Lemma try_wp meanwhile pd n i a t (k : tally → M (thooks Srv D) B) :
  idle a tid used t → (∀ i, harmless_turn (meanwhile i) tid used) →
  (∀ a' t', idle a' tid used t' → wp (k (mk_tally (Z.of_nat n) 0)) Q t') →
  wp (try_all x meanwhile pd attr n i (mk_tally 0 0) ≫= k) Q t.
Proof using Hq Hg Hmade.
  intros Hi Hm Hk.
  destruct (try_all_idle meanwhile tid used pd n i (mk_tally 0 0) a t Hi Hm) as (a' & t' & H & Hi' & _).
  apply wp_bind. eapply wp_eq; [exact H|]. by eapply Hk.
Qed.

Lemma end_wp pd cq a t (r : B) :
  idle a tid used t → (∀ t', Q r t') → wp (ibv_destroy_cq x cq;; ibv_dealloc_pd x pd;; mret r) Q t.
Proof using Hq.
  intros Hi HQ. destruct (objects_destroyed pd cq a tid used t Hi) as (r1 & t1 & r2 & t2 & a2 & H1 & H2 & _).
  apply wp_bind. eapply wp_eq; [exact H1|]. apply wp_bind. eapply wp_eq; [exact H2|]. by apply wp_ret.
Qed.
End Pieces.
End One.

Lemma wp_result {S A} (m : M S A) r s : wp m (λ a _, a = r) s → ∃ s', m s = Ret r s'.
Proof. intros (a & s' & Hm & ->). by exists s'. Qed.

(** The changes an administrator makes: the quotas he sets after the attempts. *)
Definition turns {Srv D} (tid : Z) (updates : nat → option Tenant.tenant_quota_t) (i : nat) :
    M (thooks Srv D) unit :=
  match updates i with Some q => update_quota tid q | None => mret tt end.

(** C23: a program that destroys each QP before it creates the next one is never refused
    by the quota of its tenant, however small and however it is changed meanwhile, as long
    as the quota has room for one QP.  (The process itself must be allowed two QPs, if its
    record is kept at all: the record says one after the first attempt; with a limit of
    one the second attempt is refused.  The driver refuses nothing.)  So the latency test
    counts a hundred successes and no failure, and cannot see the update it is to time;
    and the tenants of the scalability test create all their QPs under the small quota as
    under the large one. *)
Theorem churn_never_refused {Srv D} (x : externals Srv D) qps dev a tid used t updates :
  counts_qps x qps → generous x qps →
  (∀ pd d, ret (x_driver x (CreateQp pd (Some small_attr)) d) ≠ 0) →
  dev_found dev = true → idle qp_attr a tid used t →
  (∀ i q, updates i = Some q → used < Tenant.max_qp_per_tenant q ∧
     is_u32 (Tenant.max_qp_per_tenant q) ∧ is_u32 (Tenant.max_mr_per_tenant q)) →
  (∃ t', hot_update_latency x dev (turns tid updates) true t = Ret (0, Some (mk_tally 100 0)) t') ∧
  (∃ t', test_intercept x dev t = Ret (0, Some (mk_tally 5 0)) t') ∧
  ∀ warmup, ∃ t', exp3_tenant_process x dev QP_PER_TENANT warmup t = Ret (0, Some 10) t'.
Proof.
  intros Hq Hg Hsmall Hdev Hi Hup.
  assert (Hturn : ∀ i, harmless_turn (Srv := Srv) (D := D) qp_attr (turns tid updates i) tid used).
  { intros i. unfold turns. destruct (updates i) as [q|] eqn:E; [|apply nothing_harmless].
    destruct (Hup i q E) as (? & ? & ?). by apply update_harmless. }
  assert (Hi' : idle small_attr a tid used t) by (destruct Hi; by split).
  split_and!; [apply wp_result..|intros warmup; apply wp_result].
  - unfold hot_update_latency. rw Hdev. eapply (objects_wp x qps Hq qp_attr); [exact Hi|].
    intros pd cq a2 t2 Hi2. eapply (try_wp x qps Hq Hg qp_attr (gn_qp _ _ Hg)); [exact Hi2|done|].
    intros a3 t3 Hi3. by eapply (end_wp x qps Hq qp_attr).
  - unfold test_intercept. rw Hdev. eapply (objects_wp x qps Hq qp_attr); [exact Hi|].
    intros pd cq a2 t2 Hi2.
    eapply (try_wp x qps Hq Hg qp_attr (gn_qp _ _ Hg)); [exact Hi2|intros; apply nothing_harmless|].
    intros a3 t3 Hi3. by eapply (end_wp x qps Hq qp_attr).
  - unfold exp3_tenant_process. rw Hdev. eapply (objects_wp x qps Hq small_attr); [exact Hi'|].
    intros pd cq a2 t2 Hi2.
    eapply (try_wp x qps Hq Hg small_attr Hsmall); [exact Hi2|intros; apply nothing_harmless|].
    intros a3 t3 Hi3.
    eapply (try_wp x qps Hq Hg small_attr Hsmall); [exact Hi3|intros; apply nothing_harmless|].
    intros a4 t4 Hi4. by eapply (end_wp x qps Hq small_attr).
Qed.

(** Two QPs are allowed, and four after the seventh attempt. *)
Lemma example_idle : idle qp_attr example_store 3 0 (example example_setup 100).
Proof.
  destruct (example_published example_setup 100) as [Hr Hc]. split; try done.
  - exists example_view. split_and!; [apply single_process|reflexivity|reflexivity].
Qed.

Lemma churn_never_refused_witness :
  ∃ t', hot_update_latency toy (mk_device true 7)
      (turns 3 (λ i, if (i =? 6)%nat then Some raised_quota else None)) true (example example_setup 100) =
    Ret (0, Some (mk_tally 100 0)) t'.
Proof.
  destruct (churn_never_refused toy Z.of_nat (mk_device true 7) example_store 3 0 (example example_setup 100)
    (λ i, if (i =? 6)%nat then Some raised_quota else None) toy_counts toy_generous) as (H & _).
  - intros pd d H. cbn in H. lia.
  - reflexivity.
  - exact example_idle.
  - intros i q. destruct (i =? 6)%nat; [|discriminate]. intros [= <-]. by split_and!.
  - exact H.
Defined.
End Churn.
