(* ===== verification/Microbench.v ===== *)
(** * The micro-benchmark

    Experiment 1 measures what the interception costs: [exp1_microbenchmark.c] creates and
    destroys one QP and one region at a time, [exp1_microbenchmark_v2.c] first keeps ten
    QPs and then creates up to a thousand more.  Both run under the library as a process of
    a tenant, so that what they measure depends on its quota.

    The times are readings of [CLOCK_MONOTONIC]; the layout of the reports is left out. *)

From stdpp Require Import sorting.
From S2P Require Import Prelude CString CFloat Intercept Core CollectorServer CollectorClient LocalPolicy.
From S2P Require Import SlotTable ShmProcess ShmTenant TenantProps TenantSpec HookBase HooksTenant.
From S2P Require Import HooksTenantProps TenantQuota Isolation HotUpdate Churn.

Module Microbench.
Import TenantProps TenantSpec.
Import Intercept Core CollectorClient LocalPolicy HookBase HooksTenant HooksTenantProps TenantQuota Isolation.
#[local] Existing Instances Tenant.expand_usage Tenant.expand_info Tenant.expand_shm Tenant.expand_state.

(** ** Statistics *)

Definition plus (a b : spec_float) : spec_float := SFadd 53 1024 a b.
Definition minus (a b : spec_float) : spec_float := SFsub 53 1024 a b.
Definition times (a b : spec_float) : spec_float := SFmul 53 1024 a b.
Definition over (a b : spec_float) : spec_float := SFdiv 53 1024 a b.

Definition zero : spec_float := S754_zero false.
Definition minus_one : spec_float := double_of (-1).
Definition half : spec_float := S754_finite false 4503599627370496 (-53).
Definition q95 : spec_float := S754_finite false 8556839292003942 (-53).
Definition q99 : spec_float := S754_finite false 8917127262193582 (-53).

(** [(int) x] *)
Definition truncated (a : spec_float) : Z :=
  match a with
  | S754_finite s m e =>
      let n := if 0 <=? e then Z.pos m * 2 ^ e else Z.pos m ÷ 2 ^ (- e) in
      if s then - n else n
  | _ => 0
  end.

(** [tv_sec * 1e6 + tv_nsec / 1e3] *)
Definition microseconds (ts : Z * Z) : spec_float :=
  plus (times (double_of (fst ts)) (double_of 1000000)) (over (double_of (snd ts)) (double_of 1000)).

Definition compare_double (a b : spec_float) : Z := Z.b2z (below b a) - Z.b2z (below a b).

Definition in_order (a b : spec_float) : Prop := compare_double a b ≤ 0.
#[export] Instance in_order_dec : RelDecision in_order.
Proof. intros a b. unfold in_order. apply _. Defined.

(** [qsort] with that comparison; the numbers are never NaN, so that any sort gives the
    same array. *)
Definition qsort (l : list spec_float) : list spec_float :=
  merge_sort in_order l.

#[export] Instance in_order_total : Total in_order.
Proof. intros a b. unfold in_order, compare_double. lia. Qed.

Lemma qsort_sorts l : qsort l ≡ₚ l ∧ Sorted in_order (qsort l).
Proof. split; [apply merge_sort_Permutation|apply Sorted_merge_sort, _]. Qed.

Record stats_t := mk_stats { mean : spec_float; std : spec_float; smallest : spec_float; largest : spec_float;
  p50 : spec_float; p95 : spec_float; p99 : spec_float }.

Definition stats_zero : stats_t := mk_stats zero zero zero zero zero zero zero.

(** The element of an array of [n] at the fraction [q]; behind the numbers that have been
    stored the array is zero. *)
Definition at_fraction (l : list spec_float) (q : spec_float) : spec_float :=
  default zero (l !! Z.to_nat (truncated (times (double_of (Z.of_nat (length l))) q))).

Definition sum_of (l : list spec_float) : spec_float := foldl plus zero l.

(** The statistics of the numbers [l], which are in the array [sorted] once it is sorted. *)
Definition summary (l sorted : list spec_float) : stats_t :=
  let n := double_of (Z.of_nat (length l)) in
  let avg := over (sum_of l) n in
  mk_stats avg
    (SFsqrt 53 1024 (minus (over (sum_of ((λ a, times a a) <$> l)) n) (times avg avg)))
    (foldl (λ m a, if below a m then a else m) (double_of 1000000000) l)
    (foldl (λ m a, if below m a then a else m) zero l)
    (at_fraction sorted half) (at_fraction sorted q95) (at_fraction sorted q99).

(** The array after the call, and the statistics.  The first program: only positive numbers
    count, and the array is sorted if there are any. *)
Definition positive (l : list spec_float) : list spec_float := filter (λ a, below zero a = true) l.
Definition calculate_stats (data : list spec_float) : list spec_float * stats_t :=
  if bool_decide (positive data = []) then (data, stats_zero) else
  let data' := qsort data in (data', summary (positive data) (positive data')).

(** The second: all do; of none the mean is not a number. *)
Definition calculate_stats_v2 (data : list spec_float) : list spec_float * stats_t :=
  let data' := qsort data in (data', summary data data').

(** The fractions of up to a thousand numbers are among them. *)
Lemma fraction_among l q :
  l ≠ [] → (length l ≤ 1000)%nat → q ∈ [half; q95; q99] → at_fraction l q ∈ l.
Proof.
  intros Hne Hle Hq.
  assert (Hall : forallb (λ n, forallb (λ q, truncated (times (double_of (Z.of_nat n)) q) <? Z.of_nat n)
    [half; q95; q99]) (seq 1 1000) = true) by by vm_compute.
  rewrite forallb_forall in Hall. specialize (Hall (length l)). rewrite in_seq in Hall.
  assert (Hpos : (0 < length l)%nat) by (destruct l; [done|cbn; lia]).
  specialize (Hall ltac:(lia)). rewrite forallb_forall in Hall.
  specialize (Hall q (proj1 (list_elem_of_In _ _) Hq)). apply Z.ltb_lt in Hall.
  unfold at_fraction. set (i := truncated _) in *.
  destruct (lookup_lt_is_Some_2 l (Z.to_nat i)) as [b Hb]; [lia|]. rw Hb. by eapply list_elem_of_lookup_2.
Qed.

(** ** The programs *)

Definition NUM_ITERATIONS : nat := 1000.
Definition NUM_WARMUP : nat := 100.
Definition NUM_HOT_QPS : nat := 10.
Definition TEST_MR_SIZE : Z := 4096.

Record micro_report := mk_micro { qp_create_stats : stats_t; qp_destroy_stats : stats_t; mr_reg_stats : stats_t }.

(** What the second report says: the latencies of the first and the tenth kept QP, the
    statistics of the QPs and the regions of the test, and the raw data, a hundred rows of
    either at most. *)
Record hot_report := mk_hot { cold_first : spec_float; cold_tenth : spec_float;
  qp_stats : stats_t; mr_stats : stats_t; raw_qp : list spec_float; raw_mr : list spec_float }.

Section Programs.
Context {Srv D : Type} (x : externals Srv D) (dev : device).

(** The process and the readings of the clock. *)
Record bench := mk_bench { proc : thooks Srv D; ticks : nat → Z * Z }.
#[export] Instance expand_bench : Expand bench := λ r, mk_bench (proc r) (ticks r).

Definition hook {A} (m : M (thooks Srv D) A) : M bench A := zoom proc m.

Definition get_time_us : M bench spec_float := λ s,
  Ret (microseconds (ticks s 0%nat)) (s <| ticks := λ n, ticks s (S n) |>).

(** A call, and how long it took. *)
Definition timed {A} (m : M bench A) : M bench (A * spec_float) :=
  start ← get_time_us; r ← m; stop ← get_time_us; mret (r, minus stop start).

Definition create (pd : Z) : M bench Z := hook (ibv_create_qp x pd (Some qp_attr)).
Definition destroy (qp : Z) : M bench unit := hook (ibv_destroy_qp x qp);; mret tt.
Definition register (pd buf : Z) : M bench Z := hook (ibv_reg_mr x pd buf TEST_MR_SIZE IBV_ACCESS_LOCAL_WRITE).
Definition deregister (mr : Z) : M bench unit := hook (ibv_dereg_mr x mr);; mret tt.

Fixpoint warm (pd : Z) (n : nat) : M bench unit :=
  match n with
  | O => mret tt
  | S n' => qp ← create pd; (if qp =? 0 then mret tt else destroy qp);; warm pd n'
  end.

Fixpoint create_latencies (pd : Z) (n : nat) : M bench (list spec_float) :=
  match n with
  | O => mret []
  | S n' =>
      r ← timed (create pd);
      l ← (if fst r =? 0 then mret minus_one else destroy (fst r);; mret (snd r));
      rest ← create_latencies pd n';
      mret (l :: rest)
  end.

(** A QP that is not created leaves the zero of its element. *)
Fixpoint destroy_latencies (pd : Z) (n : nat) : M bench (list spec_float) :=
  match n with
  | O => mret []
  | S n' =>
      qp ← create pd;
      l ← (if qp =? 0 then mret zero else r ← timed (destroy qp); mret (snd r));
      rest ← destroy_latencies pd n';
      mret (l :: rest)
  end.

Fixpoint reg_latencies (pd buf : Z) (n : nat) : M bench (list spec_float) :=
  match n with
  | O => mret []
  | S n' =>
      r ← timed (register pd buf);
      l ← (if fst r =? 0 then mret minus_one else deregister (fst r);; mret (snd r));
      rest ← reg_latencies pd buf n';
      mret (l :: rest)
  end.

(** [exp1_microbenchmark.c].  The context and the objects are not checked; without an output
    file the objects stay. *)
Definition micro_main (buf : Z) (output_opens : bool) : M bench (Z * option micro_report) :=
  if negb (dev_found dev) then mret (1, None) else
  pd ← hook (ibv_alloc_pd x (dev_context dev));
  cq ← hook (ibv_create_cq x (dev_context dev) 16 0 0 0);
  warm pd NUM_WARMUP;;
  qp_create ← create_latencies pd NUM_ITERATIONS;
  qp_destroy ← destroy_latencies pd NUM_ITERATIONS;
  mr_reg ← reg_latencies pd buf NUM_ITERATIONS;
  let report := mk_micro (snd (calculate_stats qp_create)) (snd (calculate_stats qp_destroy))
                  (snd (calculate_stats mr_reg)) in
  if negb output_opens then mret (1, None) else
  hook (ibv_destroy_cq x cq);;
  hook (ibv_dealloc_pd x pd);;
  mret (0, Some report).

(** The QPs that are created and kept, with their latencies, until one is refused, and
    whether none was. *)
Fixpoint create_kept (pd : Z) (n : nat) : M bench (list (Z * spec_float) * bool) :=
  match n with
  | O => mret ([], true)
  | S n' =>
      r ← timed (create pd);
      if fst r =? 0 then mret ([], false) else
      rest ← create_kept pd n';
      mret (r :: fst rest, snd rest)
  end.

(** The regions, one at a time, until one is refused. *)
Fixpoint register_each (pd buf : Z) (n : nat) : M bench (list spec_float) :=
  match n with
  | O => mret []
  | S n' =>
      r ← timed (register pd buf);
      if fst r =? 0 then mret [] else
      deregister (fst r);;
      rest ← register_each pd buf n';
      mret (snd r :: rest)
  end.

Fixpoint destroy_each (qps : list (Z * spec_float)) : M bench unit :=
  match qps with
  | [] => mret tt
  | r :: qps' => (if fst r =? 0 then mret tt else destroy (fst r));; destroy_each qps'
  end.

(** [exp1_microbenchmark_v2.c].  A kept QP that is refused ends the program, and so does an
    output file that cannot be opened: the QPs there are stay behind. *)
Definition hot_main (buf : Z) (output_opens : bool) : M bench (Z * option hot_report) :=
  if negb (dev_found dev) then mret (1, None) else
  pd ← hook (ibv_alloc_pd x (dev_context dev));
  cq ← hook (ibv_create_cq x (dev_context dev) 16 0 0 0);
  hot ← create_kept pd NUM_HOT_QPS;
  if negb (snd hot) then mret (1, None) else
  tests ← create_kept pd NUM_ITERATIONS;
  mrs ← register_each pd buf NUM_ITERATIONS;
  let cold i := default zero ((snd <$> fst hot) !! i) in
  let '(qp_data, qp_stats) := calculate_stats_v2 (snd <$> fst tests) in
  let '(mr_data, mr_stats) := calculate_stats_v2 mrs in
  let report := mk_hot (cold 0%nat) (cold 9%nat) qp_stats mr_stats (take 100 qp_data) (take 100 mr_data) in
  if negb output_opens then mret (1, None) else
  destroy_each (fst hot);;
  destroy_each (fst tests);;
  hook (ibv_destroy_cq x cq);;
  hook (ibv_dealloc_pd x pd);;
  mret (0, Some report).
End Programs.

(** ** What a process of a tenant gets *)

(** The latencies read off the clock, two readings each from the [c]th on. *)
Fixpoint laps (tk : nat → Z * Z) (n c : nat) : list spec_float :=
  match n with
  | O => []
  | S n' => minus (microseconds (tk (S c))) (microseconds (tk c)) :: laps tk n' (S (S c))
  end.

Section Bench.
Context {Srv D : Type} (x : externals Srv D) (qps : D → Z) (Hq : counts_qps x qps) (Hg : generous x qps).
Context (a0 : store) (tid : Z) (v0 : tview) (t0 : thooks Srv D) (Hp : tenant_process a0 tid v0 t0).
Context (Hctl : controlled_process t0).
Implicit Types (t : thooks Srv D) (a : store) (s : @bench Srv D).

(** The tenant has [k] QPs and [m] regions more than at the start, all of the process. *)
Definition holds (k m : Z) t : Prop :=
  0 ≤ k ∧ 0 ≤ m ∧ ∃ a, tok a t ∧ kept t0 t ∧ bill 0 a0 tid k a ∧ bill 1 a0 tid m a ∧
    qps (drv (base t)) = qps (drv (base t0)) + k.

(** What does not touch the QPs. *)
Definition same_qps t t' : Prop :=
  qp_count (hg (base t')) = qp_count (hg (base t)) ∧ pshm (base t') = pshm (base t).

Lemma holds_kept k m t : holds k m t → kept t0 t.
Proof. by intros (_ & _ & a & _ & ? & _). Qed.

(** Counting one object more or less. *)
Lemma both_counted k m a rt delta :
  bill 0 a0 tid k a → bill 1 a0 tid m a →
  bill 0 a0 tid (k + (if rt =? 0 then delta else 0)) (counted tid rt delta a) ∧
  bill 1 a0 tid (m + (if rt =? 1 then delta else 0)) (counted tid rt delta a).
Proof. intros H1 H2. split; apply bill_counted; auto. Qed.

(** A QP is created where the checks allow it. *)
Lemma made k m t pd :
  holds k m t → (∀ a, tok a t → kept t0 t → bill 0 a0 tid k a → qp_allowed a t qp_attr = true) →
  ∃ h t', ibv_create_qp x pd (Some qp_attr) t = Ret h t' ∧ h ≠ 0 ∧ holds (k + 1) m t' ∧
    qp_count (hg (base t')) = u32 (qp_count (hg (base t)) + 1) ∧
    ((mapped t = true → slot_room t) → counts_published t').
Proof using Hp Hq Hg.
  intros (H0 & Hm & a & Hok & Hkt & Hb & Hb1 & Hd) Hall. destruct (kept_live _ _ _ _ Hp t Hkt) as [He Hr].
  destruct (create_qp_run x a t pd qp_attr Hok He (Hr _ (is_hook "ibv_create_qp" eq_refl)))
    as (t' & Hrun & Hok' & Hk' & Hd' & Hc' & _ & _ & Hpub).
  rw (Hall a Hok Hkt Hb) in Hrun, Hok', Hd', Hc', Hpub. set (o := x_driver x _ _) in *.
  pose proof (gn_qp _ _ Hg pd (drv (base t))) as Hne. fold o in Hne.
  pose proof (qps_create _ _ Hq pd (Some qp_attr) (drv (base t))) as Hn. cbv zeta in Hn. fold o in Hn.
  rw (proj2 (Z.eqb_neq _ _) Hne) in Hok', Hc', Hn, Hpub. cbn [negb andb] in *.
  rw (kept_owner _ _ _ _ Hp a t (bl_owner _ _ _ _ _ Hb) Hkt) in Hok'.
  destruct (both_counted k m a 0 1 Hb Hb1) as [Hb' Hb1']. cbn [Z.eqb] in Hb', Hb1'. rw Z.add_0_r in Hb1'.
  exists (ret o), t'. split_and!; [done|done| |done|by apply Hpub].
  split_and!; [lia|done|]. eexists. split_and!; [exact Hok'|by eapply kept_trans|done|done|rw Hd' Hn; lia].
Qed.

(** One of the QPs is destroyed. *)
Lemma unmade k m t h :
  holds k m t → 0 < k →
  ∃ r t', ibv_destroy_qp x h t = Ret r t' ∧ holds (k - 1) m t' ∧ pshm (base t') = pshm (base t) ∧
    qp_count (hg (base t')) =
      (if 0 <? qp_count (hg (base t)) then qp_count (hg (base t)) - 1 else qp_count (hg (base t))).
Proof using Hp Hq Hg.
  intros (H0 & Hm & a & Hok & Hkt & Hb & Hb1 & Hd) Hk. destruct (kept_live _ _ _ _ Hp t Hkt) as [He Hr].
  destruct (destroy_qp_run x a t h Hok He (Hr _ (is_hook "ibv_destroy_qp" eq_refl)))
    as (t' & Hrun & Hok' & Hk' & Hd' & Hc' & Hs').
  pose proof (qps_nonneg _ _ Hq (drv (base t0))) as Hnn.
  pose proof (gn_destroy _ _ Hg h (drv (base t)) ltac:(lia)) as Hz.
  pose proof (qps_destroy _ _ Hq h (drv (base t))) as Hn. cbv zeta in Hn. rw Hz in Hn Hok' Hc'.
  cbn [Z.eqb andb] in *. rw (kept_owner _ _ _ _ Hp a t (bl_owner _ _ _ _ _ Hb) Hkt) in Hok'.
  destruct (both_counted k m a 0 (-1) Hb Hb1) as [Hb' Hb1']. cbn [Z.eqb] in Hb', Hb1'. rw Z.add_0_r in Hb1'.
  eexists _, t'. split_and!; [exact Hrun| |done|done].
  split_and!; [lia|done|]. eexists. split_and!; [exact Hok'|by eapply kept_trans|done|done|rw Hd' Hn; lia].
Qed.

#[local] Abbreviation left := (mr_left TEST_MR_SIZE v0).

(** A region is registered while the quota leaves one, and refused otherwise. *)
Lemma registered k m t pd buf :
  holds k m t → m ≤ left →
  ∃ h t', ibv_reg_mr x pd buf TEST_MR_SIZE IBV_ACCESS_LOCAL_WRITE t = Ret h t' ∧
    (if m <? left then h ≠ 0 ∧ holds k (m + 1) t' else h = 0 ∧ holds k m t') ∧ same_qps t t'.
Proof using Hp Hg Hq.
  intros (H0 & Hm & a & Hok & Hkt & Hb & Hb1 & Hd) Hle. destruct (kept_live _ _ _ _ Hp t Hkt) as [He Hr].
  pose proof (kept_owner _ _ _ _ Hp a t (bl_owner _ _ _ _ _ Hb) Hkt) as Htid.
  destruct (reg_mr_run x a t pd buf TEST_MR_SIZE IBV_ACCESS_LOCAL_WRITE Hok He
    (Hr _ (is_hook "ibv_reg_mr" eq_refl))) as (t' & Hrun & Hok' & Hk' & (Hd' & Hc' & Hs') & _).
  rw Htid (mr_verdict TEST_MR_SIZE a0 tid v0 t0 Hp m a Hle Hm Hb1) in Hrun, Hok', Hd'.
  set (o := x_driver x _ _) in *.
  pose proof (gn_mr _ _ Hg pd buf TEST_MR_SIZE IBV_ACCESS_LOCAL_WRITE (drv (base t))) as Hne. fold o in Hne.
  rw (proj2 (Z.eqb_neq _ _) Hne) in Hok'. eexists _, t'. split_and!; [exact Hrun| |split; done].
  assert (Hdr : qps (dstate o) = qps (drv (base t))) by by apply (qps_other _ _ Hq).
  destruct (m <? left); cbn [andb negb] in Hok'; (split; [done|]); (split_and!; [done|lia|]).
  - destruct (both_counted k m a 1 1 Hb Hb1) as [Hb' Hb1']. cbn [Z.eqb Z.compare Pos.compare] in Hb', Hb1'.
    rw Z.add_0_r in Hb'. eexists. split_and!; [exact Hok'|by eapply kept_trans|done|done|by rw Hd' Hdr].
  - exists a. split_and!; [done|by eapply kept_trans|done|done|by rw Hd'].
Qed.

Lemma deregistered k m t h :
  holds k m t → 0 < m → ∃ r t', ibv_dereg_mr x h t = Ret r t' ∧ holds k (m - 1) t' ∧ same_qps t t'.
Proof using Hp Hg Hq.
  intros (H0 & Hm & a & Hok & Hkt & Hb & Hb1 & Hd) Hpos. destruct (kept_live _ _ _ _ Hp t Hkt) as [He Hr].
  pose proof (kept_owner _ _ _ _ Hp a t (bl_owner _ _ _ _ _ Hb) Hkt) as Htid.
  destruct (dereg_mr_run x a t h Hok He (Hr _ (is_hook "ibv_dereg_mr" eq_refl)))
    as (t' & Hrun & Hok' & Hk' & Hd' & Hc' & Hs').
  rw (gn_dereg _ _ Hg) Htid in Hok'. cbn [Z.eqb] in Hok'.
  destruct (both_counted k m a 1 (-1) Hb Hb1) as [Hb' Hb1']. cbn [Z.eqb Z.compare Pos.compare] in Hb', Hb1'.
  rw Z.add_0_r in Hb'. eexists _, t'. split_and!; [exact Hrun| |split; done].
  split_and!; [done|lia|]. eexists. split_and!; [exact Hok'|by eapply kept_trans|done|done|].
  rw Hd' -Hd. by apply (qps_other _ _ Hq).
Qed.

(** The domain and the queue are of no account. *)
Lemma aside_created name v rt k m t :
  holds k m t → no_qp v → name ∈ needed_names → (rt =? 0) = false → (rt =? 1) = false →
  ∃ t', create_hook x name v rt t = Ret (ret (x_driver x v (drv (base t)))) t' ∧ holds k m t' ∧ same_qps t t'.
Proof using Hp Hq.
  intros (H0 & Hm & a & Hok & Hkt & Hb & Hb1 & Hd) Hv Hname Hrt0 Hrt1.
  destruct (kept_live _ _ _ _ Hp t Hkt) as [He Hr].
  destruct (create_hook_run x a t name v rt Hok He (Hr _ Hname)) as (t' & Hrun & Hok' & Hk' & Hd' & Hg' & Hs').
  rw (kept_owner _ _ _ _ Hp a t (bl_owner _ _ _ _ _ Hb) Hkt) in Hok'.
  exists t'. split_and!; [exact Hrun| |split; [by rw Hg'|done]]. split_and!; [done|done|].
  destruct (both_counted k m a rt 1 Hb Hb1) as [Hb' Hb1']. rw Hrt0 Z.add_0_r in Hb'. rw Hrt1 Z.add_0_r in Hb1'.
  eexists. split_and!; [exact Hok'|by eapply kept_trans|..].
  1,2: by destruct (ret _ =? 0).
  rw Hd' -Hd. by apply (qps_other _ _ Hq).
Qed.

Lemma aside_destroyed name v rt k m t :
  holds k m t → no_qp v → name ∈ needed_names → (rt =? 0) = false → (rt =? 1) = false →
  ∃ h t', destroy_hook x name v rt t = Ret h t' ∧ holds k m t' ∧ same_qps t t'.
Proof using Hp Hq.
  intros (H0 & Hm & a & Hok & Hkt & Hb & Hb1 & Hd) Hv Hname Hrt0 Hrt1.
  destruct (kept_live _ _ _ _ Hp t Hkt) as [He Hr].
  destruct (destroy_hook_run x a t name v rt Hok He (Hr _ Hname)) as (t' & Hrun & Hok' & Hk' & Hd' & Hg' & Hs').
  rw (kept_owner _ _ _ _ Hp a t (bl_owner _ _ _ _ _ Hb) Hkt) in Hok'.
  eexists _, t'. split_and!; [exact Hrun| |split; [by rw Hg'|done]]. split_and!; [done|done|].
  destruct (both_counted k m a rt (-1) Hb Hb1) as [Hb' Hb1']. rw Hrt0 Z.add_0_r in Hb'. rw Hrt1 Z.add_0_r in Hb1'.
  eexists. split_and!; [exact Hok'|by eapply kept_trans|..].
  1,2: by destruct (ret _ =? 0).
  rw Hd' -Hd. by apply (qps_other _ _ Hq).
Qed.
(** ** One at a time *)

(** The process has none of its QPs left, and its record says one at most. *)
Definition rested t : Prop :=
  qp_count (hg (base t)) = 0 ∧
  (mapped t = true → slot_room t ∧ u32 (Shm.qp_count (default Shm.usage_zero
     (Shm.table (Shm.shm (pshm (base t))) !! pid (base t)))) ≤ 1).

Lemma rested_same t t' : same_qps t t' → kept t0 t → kept t0 t' → rested t → rested t'.
Proof.
  intros [Hc Hs] Hk Hk' [H1 H2]. unfold rested, slot_room in *.
  by rw Hc Hs (kp_mapped _ _ Hk') (kp_pid _ _ Hk') -(kp_mapped _ _ Hk) -(kp_pid _ _ Hk).
Qed.

Section Single.
Context (Hroom : 0 < qp_room v0 t0) (Hslack : mapped t0 = true → 2 ≤ max_qp_per_process (hcfg (base t0))).

Lemma rested_allowed a t :
  rested t → tok a t → kept t0 t → bill 0 a0 tid 0 a → qp_allowed a t qp_attr = true.
Proof using Hp Hctl Hroom Hslack.
  intros [Hc Hs] Hok Hk [Ho _ (w & v & Hw & Hv & Hqt & _ & Hf)].
  rw (tp_active _ _ _ _ Hp) in Hw. injection Hw as <-. rw Z.add_0_r u32_small in Hf; [apply figure_range|].
  apply (Churn.idle_allowed qp_attr a tid (figure 0 (v_usage v))). split.
  - exists v. split_and!; [|done|].
    + split; [done|by eapply (kept_live a0 tid v0 t0 Hp)|by rw Ho (kp_pid _ _ Hk) (tp_owner _ _ _ _ Hp)|done|].
      rw Hqt. apply Hp.
    + rw Hf Hqt. unfold qp_room in Hroom. lia.
  - intros _. rw (kp_cfg _ _ Hk) (kp_global _ _ Hk) (kp_mapped _ _ Hk).
    destruct Hctl as (_ & ? & ? & _). by split_and!.
  - done.
  - intros Hm. by apply Hs.
  - intros Hm. by apply Hs.
Qed.

Lemma qp_cycle pd m t :
  holds 0 m t → rested t →
  ∃ h t1 r t2, ibv_create_qp x pd (Some qp_attr) t = Ret h t1 ∧ h ≠ 0 ∧ ibv_destroy_qp x h t1 = Ret r t2 ∧
    holds 0 m t2 ∧ rested t2.
Proof using Hp Hq Hg Hctl Hroom Hslack.
  intros Hh Hr. pose proof Hr as [Hc Hs].
  destruct (made 0 m t pd Hh) as (h & t1 & Hrun1 & Hne & Hh1 & Hc1 & Hpub); [intros a; by apply rested_allowed|].
  destruct (unmade (0 + 1) m t1 h Hh1) as (r & t2 & Hrun2 & Hh2 & Hs2 & Hc2); [done|].
  exists h, t1, r, t2. split_and!; [done..|]. rw Hc1 Hc in Hc2. split; [exact Hc2|].
  destruct Hpub as [Hroom1 Hcount1]; [intros Hm; by apply Hs|]. rw Hc1 Hc in Hcount1.
  pose proof (holds_kept _ _ _ Hh1) as Hk1. pose proof (holds_kept _ _ _ Hh2) as Hk2.
  rw (kp_mapped _ _ Hk2) -(kp_mapped _ _ Hk1). intros Hm. unfold slot_room.
  rw Hs2 (kp_pid _ _ Hk2) -(kp_pid _ _ Hk1). split; [by apply Hroom1|]. by rw (Hcount1 Hm).
Qed.
End Single.

Lemma mr_cycle pd buf k m t :
  holds k m t → m < left →
  ∃ h t1 r t2, ibv_reg_mr x pd buf TEST_MR_SIZE IBV_ACCESS_LOCAL_WRITE t = Ret h t1 ∧ h ≠ 0 ∧
    ibv_dereg_mr x h t1 = Ret r t2 ∧ holds k m t2 ∧ same_qps t t2.
Proof using Hp Hq Hg.
  intros Hh Hlt. destruct (registered k m t pd buf Hh) as (h & t1 & Hrun1 & Hif & Hs1); [lia|].
  rw (proj2 (Z.ltb_lt _ _) Hlt) in Hif. destruct Hif as [Hne Hh1].
  destruct (deregistered k (m + 1) t1 h Hh1) as (r & t2 & Hrun2 & Hh2 & Hs2); [destruct Hh; lia|].
  exists h, t1, r, t2. split_and!; [done..| |].
  - by replace m with (m + 1 - 1) by lia.
  - destruct Hs1 as [H1 H2], Hs2 as [H3 H4]. split; [by rw H3|by rw H4].
Qed.

(** ** The loops *)

Context (tk : nat → Z * Z).

(** [c] readings of the clock have been taken. *)
Definition clocked (c : nat) s : Prop := ∀ n, ticks s n = tk (c + n)%nat.

Lemma hook_run {A} (m : M (thooks Srv D) A) s r t' :
  m (Microbench.proc s) = Ret r t' → hook m s = Ret r (mk_bench t' (ticks s)).
Proof. intros Hm. unfold hook, zoom. rw Hm. by destruct s. Qed.

Lemma hooked_unit_run (m : M (thooks Srv D) Z) s r t' :
  m (Microbench.proc s) = Ret r t' → (hook m;; mret tt) s = Ret tt (mk_bench t' (ticks s)).
Proof. intros Hm. by rw (bind_Ret _ _ _ _ _ (hook_run _ _ _ _ Hm)). Qed.

Lemma timed_run {A} (m : M (@bench Srv D) A) c s r t' :
  clocked c s → (∀ tk', m (mk_bench (Microbench.proc s) tk') = Ret r (mk_bench t' tk')) →
  ∃ s', timed m s = Ret (r, minus (microseconds (tk (S c))) (microseconds (tk c))) s' ∧
    Microbench.proc s' = t' ∧ clocked (S (S c)) s'.
Proof.
  intros Hc Hm. exists (mk_bench t' (λ n, ticks s (S (S n)))). split; [|split].
  - unfold timed, get_time_us. run. destruct s as [p ts]. cbn. rw Hm. cbn.
    pose proof (Hc 0%nat) as H0. pose proof (Hc 1%nat) as H1. cbn in H0, H1. rw H0 H1.
    rw Nat.add_0_r Nat.add_1_r. reflexivity.
  - done.
  - intros n. cbn. rw (Hc (S (S n))). f_equal. lia.
Qed.

(** The first program between two of its steps. *)
Definition at_rest (c : nat) s : Prop :=
  holds 0 0 (Microbench.proc s) ∧ rested (Microbench.proc s) ∧ clocked c s.

Section First.
Context (Hroom : 0 < qp_room v0 t0) (Hslack : mapped t0 = true → 2 ≤ max_qp_per_process (hcfg (base t0))).
Context (Hleft : 0 < left).

Lemma warm_run pd n : ∀ c s, at_rest c s → ∃ s', warm x pd n s = Ret tt s' ∧ at_rest c s'.
Proof using Hp Hq Hg Hctl Hroom Hslack.
  induction n as [|n IH]; intros c s Hs; [by exists s|]. pose proof Hs as (Hh & Hr & Hc).
  destruct (qp_cycle Hroom Hslack pd 0 _ Hh Hr) as (h & t1 & r & t2 & H1 & Hne & H2 & Hh2 & Hr2).
  destruct (IH c (mk_bench t2 (ticks s))) as (s' & Hrun & Hs'); [done|].
  exists s'. split; [|done]. cbn [warm]. unfold create, destroy.
  rw (bind_Ret _ _ _ _ _ (hook_run _ _ _ _ H1)) (proj2 (Z.eqb_neq _ _) Hne).
  by rw (bind_Ret _ _ _ _ _ (hooked_unit_run (ibv_destroy_qp x h) (mk_bench t1 (ticks s)) _ _ H2)).
Qed.

Lemma create_latencies_run pd n : ∀ c s,
  at_rest c s → ∃ s', create_latencies x pd n s = Ret (laps tk n c) s' ∧ at_rest (c + 2 * n) s'.
Proof using Hp Hq Hg Hctl Hroom Hslack.
  induction n as [|n IH]; intros c s Hs; [exists s; by rw Nat.add_0_r|]. pose proof Hs as (Hh & Hr & Hc).
  destruct (qp_cycle Hroom Hslack pd 0 _ Hh Hr) as (h & t1 & r & t2 & H1 & Hne & H2 & Hh2 & Hr2).
  destruct (timed_run (create x pd) c s h t1 Hc) as (s1 & Ht & Hp1 & Hc1).
  { intros tk'. unfold create. by rw (hook_run _ (mk_bench _ tk') _ _ H1). }
  rw -Hp1 in H2. destruct (IH (S (S c)) (mk_bench t2 (ticks s1))) as (s' & Hrun & Hs'); [done|].
  exists s'. split; [|by replace (c + 2 * S n)%nat with (S (S c) + 2 * n)%nat by lia].
  cbn [create_latencies laps]. rw (bind_Ret _ _ _ _ _ Ht). cbn [fst snd]. rw (proj2 (Z.eqb_neq _ _) Hne).
  rw (bind_Ret _ _ s1 (minus (microseconds (tk (S c))) (microseconds (tk c))) (mk_bench t2 (ticks s1))).
  { unfold destroy. by rw (bind_Ret _ _ _ _ _ (hooked_unit_run _ _ _ _ H2)). }
  by rw (bind_Ret _ _ _ _ _ Hrun).
Qed.

Lemma destroy_latencies_run pd n : ∀ c s,
  at_rest c s → ∃ s', destroy_latencies x pd n s = Ret (laps tk n c) s' ∧ at_rest (c + 2 * n) s'.
Proof using Hp Hq Hg Hctl Hroom Hslack.
  induction n as [|n IH]; intros c s Hs; [exists s; by rw Nat.add_0_r|]. pose proof Hs as (Hh & Hr & Hc).
  destruct (qp_cycle Hroom Hslack pd 0 _ Hh Hr) as (h & t1 & r & t2 & H1 & Hne & H2 & Hh2 & Hr2).
  destruct (timed_run (destroy x h) c (mk_bench t1 (ticks s)) tt t2 Hc) as (s1 & Ht & Hp1 & Hc1).
  { intros tk'. unfold destroy. by rw (hooked_unit_run _ (mk_bench t1 tk') _ _ H2). }
  destruct (IH (S (S c)) s1) as (s' & Hrun & Hs'); [by split; rw ?Hp1|].
  exists s'. split; [|by replace (c + 2 * S n)%nat with (S (S c) + 2 * n)%nat by lia].
  cbn [destroy_latencies laps]. unfold create. rw (bind_Ret _ _ _ _ _ (hook_run _ _ _ _ H1)).
  rw (proj2 (Z.eqb_neq _ _) Hne).
  rw (bind_Ret _ _ _ (minus (microseconds (tk (S c))) (microseconds (tk c))) s1).
  { by rw (bind_Ret _ _ _ _ _ Ht). }
  by rw (bind_Ret _ _ _ _ _ Hrun).
Qed.

Lemma reg_latencies_run pd buf n : ∀ c s,
  at_rest c s → ∃ s', reg_latencies x pd buf n s = Ret (laps tk n c) s' ∧ at_rest (c + 2 * n) s'.
Proof using Hp Hq Hg Hleft.
  induction n as [|n IH]; intros c s Hs; [exists s; by rw Nat.add_0_r|]. pose proof Hs as (Hh & Hr & Hc).
  destruct (mr_cycle pd buf 0 0 _ Hh Hleft) as (h & t1 & r & t2 & H1 & Hne & H2 & Hh2 & Hs2).
  assert (Hr2 : rested t2) by (eapply rested_same; [exact Hs2|by eapply holds_kept..|done]).
  destruct (timed_run (register x pd buf) c s h t1 Hc) as (s1 & Ht & Hp1 & Hc1).
  { intros tk'. unfold register. by rw (hook_run _ (mk_bench _ tk') _ _ H1). }
  rw -Hp1 in H2. destruct (IH (S (S c)) (mk_bench t2 (ticks s1))) as (s' & Hrun & Hs'); [done|].
  exists s'. split; [|by replace (c + 2 * S n)%nat with (S (S c) + 2 * n)%nat by lia].
  cbn [reg_latencies laps]. rw (bind_Ret _ _ _ _ _ Ht). cbn [fst snd]. rw (proj2 (Z.eqb_neq _ _) Hne).
  rw (bind_Ret _ _ s1 (minus (microseconds (tk (S c))) (microseconds (tk c))) (mk_bench t2 (ticks s1))).
  { unfold deregister. by rw (bind_Ret _ _ _ _ _ (hooked_unit_run _ _ _ _ H2)). }
  by rw (bind_Ret _ _ _ _ _ Hrun).
Qed.
End First.

(** The objects both programs create first, and destroy last. *)
Lemma bench_objects_created ctx k m c s :
  holds k m (Microbench.proc s) → clocked c s →
  ∃ pd s1 cq s2, hook (ibv_alloc_pd x ctx) s = Ret pd s1 ∧ hook (ibv_create_cq x ctx 16 0 0 0) s1 = Ret cq s2 ∧
    holds k m (Microbench.proc s2) ∧ clocked c s2 ∧ same_qps (Microbench.proc s) (Microbench.proc s2).
Proof using Hp Hq.
  intros Hh Hc.
  destruct (aside_created "ibv_alloc_pd" (AllocPd ctx) 4 k m _ Hh) as (t1 & H1 & Hh1 & Hc1 & Hs1);
    [done|by apply is_hook|done..|].
  destruct (aside_created "ibv_create_cq" (CreateCq ctx 16 0 0 0) 3 k m t1 Hh1) as (t2 & H2 & Hh2 & Hc2 & Hs2);
    [done|by apply is_hook|done..|].
  eexists _, (mk_bench t1 (ticks s)), _, (mk_bench t2 (ticks s)).
  split_and!; [by apply hook_run|by apply (hook_run _ (mk_bench t1 (ticks s)))|done|done|].
  split; [by rw Hc2|by rw Hs2].
Qed.

Lemma bench_objects_destroyed pd cq k m s :
  holds k m (Microbench.proc s) →
  ∃ r s1 r' s2, hook (ibv_destroy_cq x cq) s = Ret r s1 ∧ hook (ibv_dealloc_pd x pd) s1 = Ret r' s2 ∧
    holds k m (Microbench.proc s2).
Proof using Hp Hq.
  intros Hh.
  destruct (aside_destroyed "ibv_destroy_cq" (DestroyCq cq) 3 k m _ Hh) as (r & t1 & H1 & Hh1 & _);
    [done|by apply is_hook|done..|].
  destruct (aside_destroyed "ibv_dealloc_pd" (DeallocPd pd) 4 k m t1 Hh1) as (r' & t2 & H2 & Hh2 & _);
    [done|by apply is_hook|done..|].
  exists r, (mk_bench t1 (ticks s)), r', (mk_bench t2 (ticks s)).
  split_and!; [by apply hook_run|by apply (hook_run _ (mk_bench t1 (ticks s)))|done].
Qed.

Lemma start_holds : holds 0 0 t0.
Proof using Hp.
  split_and!; [done|done|]. exists a0. rw Z.add_0_r.
  split_and!; [apply Hp|done|by eapply bill_start, Hp|by eapply bill_start, Hp|done].
Qed.

(** The first benchmark measures what it says it does: in a fresh process of a tenant whose
    quota leaves one QP and one region, no attempt is refused, the report is made of all
    the readings of the clock, and the program leaves the tenant and the driver with as
    many QPs and regions as before, with or without its output file. *)
Theorem micro_benchmark_measures_all dev buf opens :
  dev_found dev = true → rested t0 → 0 < qp_room v0 t0 →
  (mapped t0 = true → 2 ≤ max_qp_per_process (hcfg (base t0))) → 0 < left →
  ∃ s', micro_main x dev buf opens (mk_bench t0 tk) =
      Ret (if opens
           then (0, Some (mk_micro (snd (calculate_stats (laps tk 1000 0)))
                            (snd (calculate_stats (laps tk 1000 2000))) (snd (calculate_stats (laps tk 1000 4000)))))
           else (1, None)) s' ∧
    holds 0 0 (Microbench.proc s').
Proof using Hp Hq Hg Hctl.
  intros Hdev Hrest Hroom Hslack Hleft.
  destruct (bench_objects_created (dev_context dev) 0 0 0 (mk_bench t0 tk) start_holds)
    as (pd & s1 & cq & s2 & H1 & H2 & Hh2 & Hc2 & Hs2); [done|].
  assert (Hr2 : at_rest 0 s2).
  { split_and!; [done| |done]. eapply rested_same; [exact Hs2|done|by eapply holds_kept|done]. }
  destruct (warm_run Hroom Hslack pd NUM_WARMUP 0 s2 Hr2) as (s3 & H3 & Hr3).
  destruct (create_latencies_run Hroom Hslack pd NUM_ITERATIONS 0 s3 Hr3) as (s4 & H4 & Hr4).
  destruct (destroy_latencies_run Hroom Hslack pd NUM_ITERATIONS _ s4 Hr4) as (s5 & H5 & Hr5).
  destruct (reg_latencies_run Hleft pd buf NUM_ITERATIONS _ s5 Hr5) as (s6 & H6 & Hr6).
  destruct (bench_objects_destroyed pd cq 0 0 s6 (proj1 Hr6)) as (r7 & s7 & r8 & s8 & H7 & H8 & Hh8).
  unfold micro_main. rw Hdev. cbn [negb].
  rw (bind_Ret _ _ _ _ _ H1) (bind_Ret _ _ _ _ _ H2) (bind_Ret _ _ _ _ _ H3) (bind_Ret _ _ _ _ _ H4).
  rw (bind_Ret _ _ _ _ _ H5) (bind_Ret _ _ _ _ _ H6). destruct opens; cbn [negb].
  - exists s8. split; [|done]. by rw (bind_Ret _ _ _ _ _ H7) (bind_Ret _ _ _ _ _ H8).
  - exists s6. split; [done|apply Hr6].
Qed.

(** ** Many at a time *)

(** The process has created [k] QPs, and its record says so. *)
Definition recorded (k : Z) t : Prop := qp_count (hg (base t)) = k ∧ counts_published t.

Lemma recorded_same k t t' :
  same_qps t t' → kept t0 t → kept t0 t' → recorded k t → recorded k t'.
Proof.
  intros [Hc Hs] Hk Hk' [H1 [Hr Hn]]. unfold recorded. split; [by rw Hc|].
  split; unfold slot_room, mapped in *; by rw Hs (kp_pid _ _ Hk') -(kp_pid _ _ Hk) ?Hc.
Qed.

Lemma another pd k m t :
  holds k m t → recorded k t → k < qp_room v0 t0 →
  ∃ h t', ibv_create_qp x pd (Some qp_attr) t = Ret h t' ∧ h ≠ 0 ∧ holds (k + 1) m t' ∧ recorded (k + 1) t'.
Proof using Hp Hq Hg Hctl.
  intros Hh [Hc Hpub] Hlt. destruct (made k m t pd Hh) as (h & t' & Hrun & Hne & Hh' & Hc' & Hpub').
  { intros a Hok Hk Hb. rw (qp_verdict a0 tid v0 t0 Hp Hctl k t a) //; [lia|apply Hh|]. by apply Z.ltb_lt. }
  exists h, t'. split_and!; [done..|]. split; [|apply Hpub', Hpub]. rw Hc' Hc. apply u32_small.
  pose proof (process_limit_u32 t0 Hctl). destruct Hh. unfold qp_room, is_u32 in *. lia.
Qed.

Lemma no_more pd k m t :
  holds k m t → recorded k t → k = qp_room v0 t0 →
  ∃ t', ibv_create_qp x pd (Some qp_attr) t = Ret 0 t' ∧ holds k m t' ∧ recorded k t'.
Proof using Hp Hctl.
  intros (H0 & Hm & a & Hok & Hkt & Hb & Hb1 & Hd) [Hc Hpub] Heq. destruct (kept_live _ _ _ _ Hp t Hkt) as [He Hr].
  destruct (create_qp_run x a t pd qp_attr Hok He (Hr _ (is_hook "ibv_create_qp" eq_refl)))
    as (t' & Hrun & Hok' & Hk' & Hd' & Hc' & _ & Hpub' & _).
  rw (qp_verdict a0 tid v0 t0 Hp Hctl k t a) // in Hrun, Hok', Hd', Hc'; [lia|].
  rw (proj2 (Z.ltb_ge k _)) in Hrun, Hok', Hd', Hc'; [lia|]. exists t'. split_and!; [done|split_and!; [done..|]|].
  - exists a. split_and!; [done|by eapply kept_trans|done|done|by rw Hd'].
  - split; [by rw Hc'|by apply Hpub'].
Qed.
Lemma laps_length n : ∀ c, length (laps tk n c) = n.
Proof using. induction n as [|n IH]; intros c; cbn; [done|]. by rw IH. Qed.

#[local] Abbreviation room := (qp_room v0 t0).

(** QPs are created until there is no room, and kept. *)
Lemma create_kept_run pd m n : ∀ k c s,
  holds k m (Microbench.proc s) → recorded k (Microbench.proc s) → k ≤ room → clocked c s →
  let r := Z.to_nat (room - k) in
  let j := Nat.min n r in
  ∃ hs s', create_kept x pd n s = Ret (hs, bool_decide (n ≤ r)%nat) s' ∧
    Forall (λ h, fst h ≠ 0) hs ∧ snd <$> hs = laps tk j c ∧
    holds (k + Z.of_nat j) m (Microbench.proc s') ∧ recorded (k + Z.of_nat j) (Microbench.proc s') ∧
    clocked (c + 2 * Nat.min n (S r)) s'.
Proof using Hp Hq Hg Hctl.
  induction n as [|n IH]; intros k c s Hh Hr Hk Hc r j.
  { exists [], s. rw bool_decide_eq_true_2; [lia|]. rw Z.add_0_r Nat.add_0_r. by split_and!. }
  destruct (decide (k = room)) as [Heq|Hne].
  - destruct (no_more pd k m _ Hh Hr Heq) as (t1 & H1 & Hh1 & Hr1).
    destruct (timed_run (create x pd) c s 0 t1 Hc) as (s1 & Ht & Hp1 & Hc1).
    { intros tk'. unfold create. by rw (hook_run _ (mk_bench _ tk') _ _ H1). }
    assert (r = 0%nat) as E by (unfold r; lia). unfold j. rw E. cbn [Nat.min laps].
    exists [], s1. rw bool_decide_eq_false_2; [lia|]. rw Z.add_0_r Hp1.
    replace (c + 2 * S (Nat.min n 0))%nat with (S (S c)) by lia. split_and!; try done.
    cbn [create_kept]. by rw (bind_Ret _ _ _ _ _ Ht).
  - destruct (another pd k m _ Hh Hr) as (h & t1 & H1 & Hnz & Hh1 & Hr1); [lia|].
    destruct (timed_run (create x pd) c s h t1 Hc) as (s1 & Ht & Hp1 & Hc1).
    { intros tk'. unfold create. by rw (hook_run _ (mk_bench _ tk') _ _ H1). }
    rw -Hp1 in Hh1, Hr1. destruct (IH (k + 1) (S (S c)) s1 Hh1 Hr1) as (hs & s' & Hrun & Hv & Hl & Hh' & Hr' & Hc');
      [lia|done|].
    set (r1 := Z.to_nat (room - (k + 1))) in *. assert (Er : r = S r1) by (unfold r, r1; lia).
    exists ((h, minus (microseconds (tk (S c))) (microseconds (tk c))) :: hs), s'. unfold j. rw Er.
    cbn [Nat.min laps fmap list_fmap]. split_and!.
    + cbn [create_kept]. rw (bind_Ret _ _ _ _ _ Ht). cbn [fst]. rw (proj2 (Z.eqb_neq _ _) Hnz).
      rw (bind_Ret _ _ _ _ _ Hrun). cbn [fst snd]. do 2 f_equal. apply bool_decide_ext. lia.
    + by constructor.
    + f_equal. exact Hl.
    + by replace (k + Z.of_nat (S (Nat.min n r1))) with (k + 1 + Z.of_nat (Nat.min n r1)) by lia.
    + by replace (k + Z.of_nat (S (Nat.min n r1))) with (k + 1 + Z.of_nat (Nat.min n r1)) by lia.
    + by replace (c + 2 * S (Nat.min n (S r1)))%nat with (S (S c) + 2 * Nat.min n (S r1))%nat by lia.
Qed.

(** Regions are registered one at a time if there is one, and not at all otherwise. *)
Lemma register_each_run pd buf k n : ∀ c s,
  holds k 0 (Microbench.proc s) → recorded k (Microbench.proc s) → clocked c s →
  ∃ s', register_each x pd buf n s = Ret (if 0 <? left then laps tk n c else []) s' ∧
    holds k 0 (Microbench.proc s') ∧ recorded k (Microbench.proc s').
Proof using Hp Hq Hg.
  induction n as [|n IH]; intros c s Hh Hr Hc; [exists s; by destruct (0 <? left)|].
  destruct (Z.ltb_spec 0 left) as [Hlt|Hge].
  - destruct (mr_cycle pd buf k 0 _ Hh Hlt) as (h & t1 & r & t2 & H1 & Hne & H2 & Hh2 & Hs2).
    assert (Hr2 : recorded k t2) by (eapply recorded_same; [exact Hs2|by eapply holds_kept..|done]).
    destruct (timed_run (register x pd buf) c s h t1 Hc) as (s1 & Ht & Hp1 & Hc1).
    { intros tk'. unfold register. by rw (hook_run _ (mk_bench _ tk') _ _ H1). }
    rw -Hp1 in H2. destruct (IH (S (S c)) (mk_bench t2 (ticks s1))) as (s' & Hrun & Hs'); [done..|].
    exists s'. split; [|done]. cbn [register_each laps]. rw (bind_Ret _ _ _ _ _ Ht). cbn [fst snd].
    rw (proj2 (Z.eqb_neq _ _) Hne). unfold deregister.
    by rw (bind_Ret _ _ _ _ _ (hooked_unit_run _ _ _ _ H2)) (bind_Ret _ _ _ _ _ Hrun).
  - pose proof (meter_room (Meter := mr_meter x qps Hg TEST_MR_SIZE a0 tid v0 t0 Hp pd (λ _, buf))) as H0.
    destruct (registered k 0 _ pd buf Hh H0) as (h & t1 & H1 & Hif & Hs1).
    rw (proj2 (Z.ltb_ge _ _) Hge) in Hif. destruct Hif as [-> Hh1].
    destruct (timed_run (register x pd buf) c s 0 t1 Hc) as (s1 & Ht & Hp1 & Hc1).
    { intros tk'. unfold register. by rw (hook_run _ (mk_bench _ tk') _ _ H1). }
    exists s1. rw Hp1. split_and!; [|done|eapply recorded_same; [exact Hs1|by eapply holds_kept..|done]].
    cbn [register_each]. by rw (bind_Ret _ _ _ _ _ Ht).
Qed.

Lemma destroy_each_run m hs : ∀ k s,
  holds k m (Microbench.proc s) → Z.of_nat (length hs) ≤ k → Forall (λ h, fst h ≠ 0) hs →
  ∃ s', destroy_each x hs s = Ret tt s' ∧ holds (k - Z.of_nat (length hs)) m (Microbench.proc s').
Proof using Hp Hq Hg.
  induction hs as [|h hs IH]; intros k s Hh Hle Hv; [exists s; by rw Z.sub_0_r|].
  apply Forall_cons in Hv as [Hne Hv]. cbn [length] in *.
  destruct (unmade k m _ (fst h) Hh) as (r & t1 & H1 & Hh1 & _); [lia|].
  destruct (IH (k - 1) (mk_bench t1 (ticks s)) Hh1) as (s' & Hrun & Hs'); [lia|done|].
  exists s'. cbn [destroy_each]. rw (proj2 (Z.eqb_neq _ _) Hne). unfold destroy.
  rw (bind_Ret _ _ _ _ _ (hooked_unit_run _ _ _ _ H1)). split; [done|].
  by replace (k - Z.of_nat (S (length hs))) with (k - 1 - Z.of_nat (length hs)) by lia.
Qed.

(** C24: the second benchmark needs a quota, and leaks without it.  It keeps ten QPs: if the
    quota and the limit of the process leave fewer, it ends at once with exit code 1, and
    the QPs it has created stay counted for the tenant.  Otherwise it measures as many
    more as there is room for, a thousand at most, and the regions if the quota leaves one,
    reports the statistics of exactly these readings of the clock, and gives everything
    back; but with an output file that cannot be opened it leaks all its QPs.  The raw data
    of the report are not the first measurements but the smallest, in order: the
    statistics have sorted the arrays. *)
Theorem hot_benchmark_needs_quota dev buf opens :
  dev_found dev = true → counts_published t0 → qp_count (hg (base t0)) = 0 →
  let n := Nat.min NUM_ITERATIONS (Z.to_nat (room - 10)) in
  let c := (20 + 2 * Nat.min NUM_ITERATIONS (S (Z.to_nat (room - 10))))%nat in
  let mrs := if 0 <? left then laps tk NUM_ITERATIONS c else [] in
  ∃ s', hot_main x dev buf opens (mk_bench t0 tk) =
      Ret (if negb (10 <=? room) || negb opens then (1, None)
           else (0, Some (mk_hot (minus (microseconds (tk 1%nat)) (microseconds (tk 0%nat)))
                            (minus (microseconds (tk 19%nat)) (microseconds (tk 18%nat)))
                            (summary (laps tk n 20) (qsort (laps tk n 20))) (summary mrs (qsort mrs))
                            (take 100 (qsort (laps tk n 20))) (take 100 (qsort mrs))))) s' ∧
    holds (if 10 <=? room then if opens then 0 else 10 + Z.of_nat n else room) 0 (Microbench.proc s').
Proof using Hp Hq Hg Hctl.
  intros Hdev Hpub Hzero n c mrs.
  destruct (bench_objects_created (dev_context dev) 0 0 0 (mk_bench t0 tk) start_holds)
    as (pd & s1 & cq & s2 & H1 & H2 & Hh2 & Hc2 & Hs2); [done|].
  assert (Hr2 : recorded 0 (Microbench.proc s2)).
  { eapply recorded_same; [exact Hs2|done|by eapply holds_kept|done]. }
  assert (Hroom : 0 ≤ room) by (unfold qp_room; lia).
  destruct (create_kept_run pd 0 NUM_HOT_QPS 0 0 s2 Hh2 Hr2 Hroom Hc2) as (hs & s3 & H3 & Hv3 & Hl3 & Hh3 & Hr3 & Hc3).
  rw Z.sub_0_r in H3, Hl3, Hh3, Hr3, Hc3. cbn [Z.add] in Hh3, Hr3.
  unfold hot_main. rw Hdev. cbn [negb].
  rw (bind_Ret _ _ _ _ _ H1) (bind_Ret _ _ _ _ _ H2) (bind_Ret _ _ _ _ _ H3). cbn [fst snd].
  unfold NUM_HOT_QPS in *. destruct (Z.leb_spec 10 room) as [Hten|Hten]; cycle 1.
  { rw bool_decide_eq_false_2; [lia|]. cbn [negb orb]. exists s3. split; [done|].
    by replace (Z.of_nat (Nat.min 10 (Z.to_nat room))) with room in Hh3 by lia. }
  rw bool_decide_eq_true_2; [lia|]. cbn [negb orb].
  replace (Nat.min 10 (Z.to_nat room)) with 10%nat in Hl3, Hh3, Hr3 by lia.
  replace (Nat.min 10 (S (Z.to_nat room))) with 10%nat in Hc3 by lia.
  destruct (create_kept_run pd 0 NUM_ITERATIONS (Z.of_nat 10) (0 + 2 * 10) s3 Hh3 Hr3 Hten Hc3)
    as (hs' & s4 & H4 & Hv4 & Hl4 & Hh4 & Hr4 & Hc4).
  change (Z.of_nat 10) with 10 in *. fold n in Hl4, Hh4, Hr4. change (0 + 2 * 10)%nat with 20%nat in *. fold c in Hc4.
  rw (bind_Ret _ _ _ _ _ H4). cbn [fst snd].
  destruct (register_each_run pd buf _ NUM_ITERATIONS c s4 Hh4 Hr4 Hc4) as (s5 & H5 & Hh5 & _).
  rw (bind_Ret _ _ _ _ _ H5). fold mrs. rw Hl3 Hl4. unfold calculate_stats_v2. cbn iota beta. destruct opens; cbn [negb]; [|by exists s5].
  assert (Hn3 : length hs = 10%nat) by by rw -(length_fmap snd) Hl3 laps_length.
  assert (Hn4 : length hs' = n) by by rw -(length_fmap snd) Hl4 laps_length.
  destruct (destroy_each_run 0 hs _ s5 Hh5) as (s6 & H6 & Hh6); [rw Hn3; lia|done|].
  rw (bind_Ret _ _ _ _ _ H6).
  rw Hn3 in Hh6. replace (10 + Z.of_nat n - Z.of_nat 10) with (Z.of_nat n) in Hh6 by lia.
  destruct (destroy_each_run 0 hs' _ s6 Hh6) as (s7 & H7 & Hh7); [by rw Hn4|done|].
  rw (bind_Ret _ _ _ _ _ H7). rw Hn4 Z.sub_diag in Hh7.
  destruct (bench_objects_destroyed pd cq 0 0 s7 Hh7) as (r8 & s8 & r9 & s9 & H8 & H9 & Hh9).
  exists s9. split; [|done]. by rw (bind_Ret _ _ _ _ _ H8) (bind_Ret _ _ _ _ _ H9).
Qed.
End Bench.

(** ** Example: the quota is two QPs, ten are wanted *)

#[local] Opaque example_tenant.

Lemma hot_benchmark_needs_quota_witness :
  ∃ s', hot_main toy (mk_device true 7) 4096 true (mk_bench (example example_setup 100) (λ n, (Z.of_nat n, 0))) =
      Ret (1, None) s' ∧ Z.of_nat (drv (base (Microbench.proc s'))) = 2.
Proof.
  destruct (hot_benchmark_needs_quota toy Z.of_nat toy_counts toy_generous example_store 3 example_view
    (example example_setup 100) single_process (example_controlled _ _) (λ n, (Z.of_nat n, 0))
    (mk_device true 7) 4096 true) as (s' & Hrun & Hh).
  - reflexivity.
  - apply example_published.
  - reflexivity.
  - exists s'. destruct Hh as (_ & _ & a & _ & _ & _ & _ & Hd). split; [exact Hrun|]. exact Hd.
Defined.

End Microbench.
