(* ===== verification/Abuse.v ===== *)
(** * The abuse of deregistration

    The program [exp_mr_dereg_abuse.cpp] of [src/paper_results/exp_mr_dereg] registers up
    to [num_mrs] regions and then, until its time is over, goes round them in batches: the
    regions of a batch are given back, and registered again.  Unlike the attacker of
    [Attack] it does not need a batch to begin with: whatever the quota leaves it, one
    region will do, is registered again in every round.

    The clock is the stream of readings of [Microbench]; progress reports and messages are
    left out.  Signed overflow, an index outside an array and the division by zero are
    [Crash], as is the exception of [resize], which nothing catches. *)

From S2P Require Import Prelude CString CFloat Intercept Core CollectorServer CollectorClient LocalPolicy.
From S2P Require Import SlotTable ShmProcess ShmTenant TenantProps TenantSpec HookBase HooksTenant.
From S2P Require Import HooksTenantProps TenantQuota Isolation HotUpdate Churn Microbench.

Module Abuse.
Import TenantProps TenantSpec.
Import Intercept Core CollectorClient LocalPolicy HookBase HooksTenant HooksTenantProps TenantQuota.
Import Isolation Microbench.

(** ** The program *)

Record TestConfig := mk_test {
  dev_name : string;
  duration_sec : Z;
  num_mrs : Z;
  mr_size : Z;     (* size_t *)
  batch_size : Z;
}.
#[export] Instance expand_test : Expand TestConfig := λ r,
  mk_test (dev_name r) (duration_sec r) (num_mrs r) (mr_size r) (batch_size r).

Definition default_test : TestConfig := mk_test "mlx5_0" 30 100 (4 * 1024 * 1024) 10.

(** The arguments, without the name of the program; [None] after [--help]. *)
Fixpoint parse_args (args : list string) (c : TestConfig) : option TestConfig :=
  match args with
  | [] => Some c
  | a :: rest =>
      let opt (short long : string) := String.eqb a short || String.eqb a long in
      if opt "-d" "--device" then
        match rest with v :: rest' => parse_args rest' (c <| dev_name := v |>) | [] => Some c end
      else if opt "-t" "--time" then
        match rest with v :: rest' => parse_args rest' (c <| duration_sec := atoi v |>) | [] => Some c end
      else if opt "-n" "--num-mrs" then
        match rest with v :: rest' => parse_args rest' (c <| num_mrs := atoi v |>) | [] => Some c end
      else if opt "-s" "--size" then
        match rest with v :: rest' => parse_args rest' (c <| mr_size := u64 (atoll v) |>) | [] => Some c end
      else if opt "-b" "--batch" then
        match rest with v :: rest' => parse_args rest' (c <| batch_size := atoi v |>) | [] => Some c end
      else if opt "-h" "--help" then None
      else parse_args rest c
  end.

(** What libibverbs answers: the names of the devices, if there is a list, and the context
    of each (0: it cannot be opened); and the buffers of [aligned_alloc]. *)
Record machine := mk_machine {
  dev_list : option (list string);
  dev_open : nat → Z;
  aligned_alloc : nat → Z;
}.

Definition access : Z := Z.lor IBV_ACCESS_LOCAL_WRITE (Z.lor 4 2).

(** The fields of the test that hooks and loops use, after [Init]. *)
Record members := mk_members { pd_ : Z; mrs_ : list Z }.

(** The variables of the loop, and the array. *)
Record tally := mk_tally {
  batch_idx : Z;
  total_ops : Z;
  dereg_lat_total : Z;
  reg_lat_total : Z;
  t_mrs : list Z;
}.

(** What the program prints: cycles, operations, average latencies if there are any, and
    the regions given back at the end. *)
Record abuse_report := mk_report {
  cycles : Z;
  operations : Z;
  averages : option (Z * Z);
  deregistered : Z;
}.

Section Program.
Context {Srv D : Type} (x : externals Srv D) (y : machine).
#[local] Abbreviation abuse := (M (@bench Srv D)).

(** [GetTimeUs]; [tv_usec] is the second number of a reading. *)
Definition GetTimeUs : abuse Z := λ s,
  Ret (u64 (fst (ticks s 0%nat) * 1000000 + snd (ticks s 0%nat))) (s <| ticks := λ n, ticks s (S n) |>).

(** A call, and how long it took. *)
Definition lasting (m : abuse Z) : abuse (Z * Z) :=
  start ← GetTimeUs; r ← m; stop ← GetTimeUs; mret (r, u64 (stop - start)).

(** The result of an operation on [int]. *)
Definition int (z : Z) : abuse Z := if (- 2 ^ 31 <=? z) && (z <? 2 ^ 31) then mret z else crash.

Definition modulo (a b : Z) : abuse Z := if b =? 0 then crash else mret (Z.rem a b).

Definition element (mrs : list Z) (i : Z) : abuse Z :=
  if i <? 0 then crash else match mrs !! Z.to_nat i with Some mr => mret mr | None => crash end.

Definition put (i v : Z) (mrs : list Z) : list Z := <[Z.to_nat i := v]> mrs.

Definition find_device (c : TestConfig) (names : list string) : option nat :=
  fst <$> list_find (λ n, n = dev_name c) names.

Definition reg (c : TestConfig) (pd i : Z) : abuse Z :=
  hook (ibv_reg_mr x pd (aligned_alloc y (Z.to_nat i)) (mr_size c) access).

Definition Init (c : TestConfig) : abuse (bool * members) :=
  match dev_list y with
  | None => mret (false, mk_members 0 [])
  | Some names =>
      match find_device c names with
      | None => mret (false, mk_members 0 [])
      | Some i =>
          if dev_open y i =? 0 then mret (false, mk_members 0 []) else
          pd ← hook (ibv_alloc_pd x (dev_open y i));
          if pd =? 0 then mret (false, mk_members 0 []) else
          if num_mrs c <? 0 then crash else
          let n := Z.to_nat (num_mrs c) in
          if forallb (λ j, negb (aligned_alloc y j =? 0)) (seq 0 n)
          then mret (true, mk_members pd (replicate n 0))
          else mret (false, mk_members pd [])
      end
  end.

Definition dereg_unless_null (mr : Z) : abuse unit :=
  if mr =? 0 then mret tt else hook (ibv_dereg_mr x mr);; mret tt.

Fixpoint dereg_each (mrs : list Z) : abuse unit :=
  match mrs with
  | [] => mret tt
  | mr :: mrs' => dereg_unless_null mr;; dereg_each mrs'
  end.

Definition Cleanup (m : members) : abuse unit :=
  dereg_each (mrs_ m);;
  if pd_ m =? 0 then mret tt else hook (ibv_dealloc_pd x (pd_ m));; mret tt.

(** The elements from [i] on, [n] of them, until one is refused. *)
Fixpoint AllocPhase (c : TestConfig) (pd : Z) (n : nat) (i : Z) (mrs : list Z) : abuse (list Z) :=
  match n with
  | O => mret mrs
  | S n' =>
      mr ← reg c pd i;
      let mrs := put i mr mrs in
      if mr =? 0 then mret mrs else AllocPhase c pd n' (i + 1) mrs
  end.

(** The elements of a batch from the [i]th on, [n] of them. *)
Fixpoint dereg_batch (c : TestConfig) (start : Z) (n : nat) (i : Z) (mrs : list Z) (lat : Z) :
    abuse (list Z * Z) :=
  match n with
  | O => mret (mrs, lat)
  | S n' =>
      v ← int (start + i); idx ← modulo v (num_mrs c);
      mr ← element mrs idx;
      if mr =? 0 then dereg_batch c start n' (i + 1) mrs lat else
      r ← lasting (hook (ibv_dereg_mr x mr));
      if negb (fst r =? 0) then dereg_batch c start n' (i + 1) mrs lat else
      dereg_batch c start n' (i + 1) (put idx 0 mrs) (u64 (lat + snd r))
  end.

Fixpoint rereg_batch (c : TestConfig) (pd start : Z) (n : nat) (i : Z) (mrs : list Z) (lat ops : Z) :
    abuse (list Z * Z * Z) :=
  match n with
  | O => mret (mrs, lat, ops)
  | S n' =>
      v ← int (start + i); idx ← modulo v (num_mrs c);
      mr ← element mrs idx;
      if negb (mr =? 0) then rereg_batch c pd start n' (i + 1) mrs lat ops else
      r ← lasting (reg c pd idx);
      let mrs := put idx (fst r) mrs in
      if fst r =? 0 then rereg_batch c pd start n' (i + 1) mrs lat ops else
      rereg_batch c pd start n' (i + 1) mrs (u64 (lat + snd r)) (u64 (ops + 1))
  end.

(** One turn of the loop.  The last reading of the clock is for the progress report. *)
Definition cycle (c : TestConfig) (pd : Z) (s : tally) : abuse tally :=
  v ← int (batch_idx s * batch_size c); start ← modulo v (num_mrs c);
  let b := Z.to_nat (batch_size c) in
  d ← dereg_batch c start b 0 (t_mrs s) (dereg_lat_total s);
  r ← rereg_batch c pd start b 0 (fst d) (reg_lat_total s) (total_ops s);
  k ← int (batch_idx s + 1);
  _ ← GetTimeUs;
  mret (mk_tally k (snd r) (snd d) (snd (fst r)) (fst (fst r))).

(** [fuel] turns at most; the loop that has not ended then has not ended. *)
Fixpoint abuse_loop (fuel : nat) (c : TestConfig) (pd end_time : Z) (s : tally) : abuse tally :=
  match fuel with
  | O => hang
  | S fuel' =>
      now ← GetTimeUs;
      if now <? end_time then s ← cycle c pd s; abuse_loop fuel' c pd end_time s else mret s
  end.

Definition AbusePhase (fuel : nat) (c : TestConfig) (pd : Z) (mrs : list Z) : abuse tally :=
  start_time ← GetTimeUs;
  d ← int (duration_sec c * 1000000);
  abuse_loop fuel c pd (u64 (start_time + u64 d)) (mk_tally 0 0 0 0 mrs).

(** The array afterwards, and how many regions were given back. *)
Fixpoint DeallocPhase (mrs : list Z) : abuse (list Z * Z) :=
  match mrs with
  | [] => mret ([], 0)
  | mr :: mrs' =>
      dereg_unless_null mr;;
      rest ← DeallocPhase mrs';
      mret (0 :: fst rest, (if mr =? 0 then 0 else 1) + snd rest)
  end.

Definition Run (fuel : nat) (c : TestConfig) : abuse (members * option abuse_report) :=
  r ← Init c;
  if negb (fst r) then mret (snd r, None) else
  mrs ← AllocPhase c (pd_ (snd r)) (Z.to_nat (num_mrs c)) 0 (mrs_ (snd r));
  s ← AbusePhase fuel c (pd_ (snd r)) mrs;
  d ← DeallocPhase (t_mrs s);
  mret (mk_members (pd_ (snd r)) (fst d),
        Some (mk_report (batch_idx s) (total_ops s)
          (if 0 <? total_ops s then Some (dereg_lat_total s / total_ops s, reg_lat_total s / total_ops s) else None)
          (snd d))).

(** The exit code is 0 whatever happens; the test is cleaned up by its destructor. *)
Definition abuse_main (fuel : nat) (args : list string) : abuse (Z * option abuse_report) :=
  match parse_args args default_test with
  | None => mret (0, None)
  | Some c => r ← Run fuel c; Cleanup (fst r);; mret (0, snd r)
  end.
End Program.

(** ** Batches that go round *)

Section Rounds.
Context (n : Z) (Hn : 0 < n).
Implicit Types (l : list Z) (v i : Z) (b : nat).

(** The element of visit [v], and the elements of the [b] visits from [v] on. *)
Definition slot v : nat := Z.to_nat (v mod n).
Definition within v (b : Z) (p : nat) : Prop := ∃ i, 0 ≤ i < b ∧ slot (v + i) = p.

#[export] Instance within_dec v (b : Z) p : Decision (within v b p).
Proof.
  refine (match decide (Exists (λ i, slot (v + i) = p) (seqZ 0 b)) with left H => left _ | right H => right _ end).
  all: rewrite Exists_exists in H.
  - destruct H as (i & Hi%elem_of_seqZ & Hs). by exists i.
  - intros (i & Hi & Hs). apply H. exists i. by rewrite elem_of_seqZ.
Defined.

Lemma slot_lt v l : Z.of_nat (length l) = n → (slot v < length l)%nat.
Proof using Hn. intros Hl. unfold slot. pose proof (Z.mod_pos_bound v n Hn). lia. Qed.

Lemma slot_mod v i : slot (v mod n + i) = slot (v + i).
Proof using Hn. unfold slot. by rw Zplus_mod_idemp_l. Qed.

(** The first visit, and the others. *)
Lemma within_succ v b p :
  within v (Z.of_nat (S b)) p ↔ p = slot v ∨ within (v + 1) (Z.of_nat b) p.
Proof.
  split.
  - intros (i & Hi & Hs). destruct (decide (i = 0)) as [->|Hne]; [left; by rw -Hs Z.add_0_r|].
    right. exists (i - 1). split; [lia|]. rw -Hs. f_equal. lia.
  - intros [->|(i & Hi & Hs)]; [exists 0; rw Z.add_0_r; split; [lia|done]|].
    exists (1 + i). split; [lia|]. rw -Hs. f_equal. lia.
Qed.

(** The regions there are. *)
Definition filled l : nat := length (filter (λ h, h ≠ 0) l).

Lemma filled_put l (j : nat) h h' :
  l !! j = Some h →
  (filled (<[j := h']> l) + (if (h =? 0)%Z then 0 else 1) = filled l + (if (h' =? 0)%Z then 0 else 1))%nat.
Proof.
  intros Hi. unfold filled. revert j Hi. induction l as [|a l IH]; intros [|j] Hi; [done..| |]; cbn in Hi.
  - injection Hi as ->. change (<[0%nat := h']> (h :: l)) with (h' :: l). rewrite !filter_cons.
    destruct (Z.eqb_spec h 0), (Z.eqb_spec h' 0), (decide (h ≠ 0)), (decide (h' ≠ 0)); cbn; try done; lia.
  - change (<[S j := h']> (a :: l)) with (a :: <[j := h']> l). rewrite !filter_cons.
    specialize (IH j Hi). destruct (decide (a ≠ 0)); cbn; lia.
Qed.

Lemma filled_le l : (filled l ≤ length l)%nat.
Proof. apply length_filter. Qed.

(** The elements of [b] visits set to null. *)
Fixpoint clear v (b : nat) l : list Z :=
  match b with
  | O => l
  | S b' => clear (v + 1) b' (<[slot v := 0]> l)
  end.

Lemma length_clear b : ∀ v l, length (clear v b l) = length l.
Proof. induction b as [|b IH]; intros v l; [done|]. cbn. by rw IH length_insert. Qed.

Lemma clear_mod b v : ∀ i l, clear (v mod n + i) b l = clear (v + i) b l.
Proof using Hn.
  induction b as [|b IH]; intros i l; [done|]. cbn. by rw slot_mod -!Z.add_assoc IH.
Qed.

Lemma clear_app a b : ∀ v l, clear v (a + b) l = clear (v + Z.of_nat a) b (clear v a l).
Proof.
  induction a as [|a IH]; intros v l; [by rw Z.add_0_r|]. cbn [clear Nat.add]. rw IH. f_equal. lia.
Qed.

Lemma clear_out b p : ∀ v l, ¬ within v (Z.of_nat b) p → clear v b l !! p = l !! p.
Proof.
  induction b as [|b IH]; intros v l Hp; [done|]. cbn. rewrite within_succ in Hp.
  rw IH; [by auto|]. apply list_lookup_insert_ne. intros <-. by auto.
Qed.

Lemma clear_zero b p : ∀ v l, l !! p = Some 0 → clear v b l !! p = Some 0.
Proof.
  induction b as [|b IH]; intros v l Hl; [done|]. cbn. apply IH.
  destruct (decide (slot v = p)) as [->|Hne]; [|by rw list_lookup_insert_ne].
  apply list_lookup_insert_eq. by eapply lookup_lt_Some.
Qed.

Lemma clear_in b p : ∀ v l, (p < length l)%nat → within v (Z.of_nat b) p → clear v b l !! p = Some 0.
Proof.
  induction b as [|b IH]; intros v l Hl Hp; [destruct Hp as (i & Hi & _); lia|]. cbn.
  apply within_succ in Hp as [->|Hp]; [|by apply IH; [rw length_insert|]].
  apply clear_zero. by apply list_lookup_insert_eq.
Qed.

(** Enough visits reach every element. *)
Lemma within_all v (b : Z) p l : Z.of_nat (length l) = n → n ≤ b → (p < length l)%nat → within v b p.
Proof using Hn.
  intros Hl Hb Hp. exists ((Z.of_nat p - v) mod n).
  pose proof (Z.mod_pos_bound (Z.of_nat p - v) n Hn). split; [lia|]. unfold slot.
  rw Zplus_mod_idemp_r. replace (v + (Z.of_nat p - v)) with (Z.of_nat p) by lia.
  rw Z.mod_small; lia.
Qed.

Lemma filled_zero l : (∀ p, (p < length l)%nat → l !! p = Some 0) → filled l = 0%nat.
Proof.
  intros Hl. unfold filled. induction l as [|h l IH]; [done|].
  pose proof (Hl 0%nat ltac:(cbn; lia)) as H0. cbn in H0. injection H0 as ->.
  rewrite filter_cons_False; [auto|]. apply IH. intros p Hp. apply (Hl (S p)). cbn. lia.
Qed.

Lemma clear_all v b l : Z.of_nat (length l) = n → n ≤ Z.of_nat b → filled (clear v b l) = 0%nat.
Proof using Hn.
  intros Hl Hb. apply filled_zero. intros p. rw length_clear. intros Hp.
  apply clear_in; [done|]. by eapply within_all.
Qed.

(** An array with regions at fewer places. *)
Definition below : list Z → list Z → Prop := Forall2 (λ h h', h ≠ 0 → h' ≠ 0).

Lemma below_filled l l' : below l l' → (filled l ≤ filled l')%nat.
Proof.
  unfold filled. induction 1 as [|h h' l l' Hh _ IH]; [done|]. rewrite !filter_cons.
  destruct (decide (h ≠ 0)) as [H1|], (decide (h' ≠ 0)) as [|H2]; cbn; (lia || by destruct H2; auto).
Qed.

Lemma below_lookup l l' :
  length l = length l' →
  (∀ p h h', l !! p = Some h → l' !! p = Some h' → h ≠ 0 → h' ≠ 0) → below l l'.
Proof. intros Hl Hp. apply Forall2_same_length_lookup. by split; eauto. Qed.

(** Where there are fewer, a batch takes fewer. *)
Lemma clear_fewer b : ∀ v l l', below l l' → Z.of_nat (length l) = n →
  (filled l + filled (clear v b l') ≤ filled l' + filled (clear v b l))%nat.
Proof using Hn.
  induction b as [|b IH]; intros v l l' Hb Hl; [cbn [clear]; lia|]. cbn [clear].
  pose proof (Forall2_length _ _ _ Hb) as Hlen.
  destruct (lookup_lt_is_Some_2 l (slot v)) as [h Hh]; [by apply slot_lt|].
  destruct (lookup_lt_is_Some_2 l' (slot v)) as [h' Hh']; [rw -Hlen; by apply slot_lt|].
  pose proof (filled_put l _ h 0 Hh) as H1. pose proof (filled_put l' _ h' 0 Hh') as H2.
  assert (Hb' : below (<[slot v := 0]> l) (<[slot v := 0]> l')) by (by apply Forall2_insert).
  specialize (IH (v + 1) _ _ Hb'). rw length_insert in IH. specialize (IH Hl). cbn in H1, H2.
  pose proof (Forall2_lookup_lr _ _ _ _ _ _ Hb Hh Hh') as Hne. cbn in Hne.
  destruct (Z.eqb_spec h 0), (Z.eqb_spec h' 0); lia.
Qed.

Lemma clear_few b : ∀ v l, Z.of_nat (length l) = n → (filled l ≤ filled (clear v b l) + b)%nat.
Proof using Hn.
  induction b as [|b IH]; intros v l Hl; [cbn [clear]; lia|]. cbn [clear].
  destruct (lookup_lt_is_Some_2 l (slot v)) as [h Hh]; [by apply slot_lt|].
  pose proof (filled_put l _ h 0 Hh) as H1. specialize (IH (v + 1) (<[slot v := 0]> l)).
  rw length_insert in IH. specialize (IH Hl). destruct (Z.eqb_spec h 0); lia.
Qed.

(** One batch of [b] from visit [v] on: elsewhere nothing changes, and as many regions are
    there as before. *)
Record batch (b : nat) v l l' : Prop := {
  bt_length : length l' = length l;
  bt_out p : ¬ within v (Z.of_nat b) p → l' !! p = l !! p;
  bt_filled : filled l' = filled l;
}.

(** [k] batches, one after the other, and the regions they took and gave back. *)
Inductive turns (b : nat) : nat → Z → list Z → list Z → nat → Prop :=
| turns_none v l : turns b 0 v l l 0
| turns_one k v l l1 l2 ops :
    batch b v l l1 → turns b k (v + Z.of_nat b) l1 l2 ops →
    turns b (S k) v l l2 (filled l - filled (clear v b l) + ops).

Lemma turns_filled b k v l l' ops : turns b k v l l' ops → filled l' = filled l ∧ length l' = length l.
Proof. induction 1 as [|k v l l1 l2 ops [Hl _ Hf] _ [IH1 IH2]]; [done|]. split; congruence. Qed.

Lemma turns_split b j k v l l' ops :
  turns b (j + k) v l l' ops →
  ∃ l1 o1 o2, turns b j v l l1 o1 ∧ turns b k (v + Z.of_nat (j * b)) l1 l' o2 ∧ ops = (o1 + o2)%nat.
Proof.
  revert v l ops. induction j as [|j IH]; intros v l ops H.
  { exists l, 0%nat, ops. rw Z.add_0_r. split_and!; [constructor|done|done]. }
  inversion H as [|? ? ? l1 ? o Hb Ht]; subst. destruct (IH _ _ _ Ht) as (l2 & o1 & o2 & H1 & H2 & ->).
  exists l2, (filled l - filled (clear v b l) + o1)%nat, o2. split_and!; [by econstructor| |lia].
  by replace (v + Z.of_nat (S j * b)) with (v + Z.of_nat b + Z.of_nat (j * b)) by lia.
Qed.

(** The batches up to visit [v] leave the rest of the array alone: what is there was there
    in the beginning, and a batch takes what it finds of it. *)
Lemma turns_cover b k v l l' ops :
  turns b k v l l' ops → ∀ w l0, Z.of_nat (length l0) = n → length l = length l0 →
  (∀ p, ¬ within (v - Z.of_nat w) (Z.of_nat w) p → l !! p = l0 !! p) →
  (filled (clear (v - Z.of_nat w) w l0) ≤ ops + filled (clear (v - Z.of_nat w) (w + k * b) l0))%nat.
Proof using Hn.
  induction 1 as [v l|k v l l1 l2 ops [Hl Hout Hf] _ IH]; intros w l0 Hl0 Hlen Hun; [by rw Nat.add_0_r|].
  set (u := v - Z.of_nat w) in *.
  assert (Hu : v + Z.of_nat b - Z.of_nat (w + b) = u) by lia.
  specialize (IH (w + b)%nat l0 Hl0 ltac:(congruence)). rw Hu in IH.
  assert (Hun' : ∀ p, ¬ within u (Z.of_nat (w + b)) p → l1 !! p = l0 !! p).
  { intros p Hp. rw Hout.
    - intros (i & Hi & Hs). apply Hp. exists (Z.of_nat w + i). split; [lia|]. rw -Hs. f_equal. lia.
    - apply Hun. intros (i & Hi & Hs). apply Hp. exists i. split; [lia|done]. }
  specialize (IH Hun'). replace (w + b + k * b)%nat with (w + S k * b)%nat in IH by lia.
  rw (clear_app w b u l0) in IH. replace (u + Z.of_nat w) with v in IH by lia.
  assert (Hb : below (clear u w l0) l).
  { apply below_lookup; [by rw length_clear|]. intros p h h' H1 H2 Hne.
    destruct (decide (within u (Z.of_nat w) p)) as [Hw|Hw].
    - pose proof (clear_in w p u l0) as H3. apply lookup_lt_Some in H2. rw H3 in H1; [lia|done|]. congruence.
    - pose proof (clear_out w p u l0 Hw) as H3. pose proof (Hun p Hw). congruence. }
  pose proof (clear_fewer b v _ _ Hb) as Hfew. rw length_clear in Hfew. specialize (Hfew Hl0). lia.
Qed.

(** As many batches as it takes to go round take every region there is once. *)
Lemma turns_round b q v l l' ops :
  Z.of_nat (length l) = n → n ≤ Z.of_nat (q * b) → turns b q v l l' ops → (filled l ≤ ops)%nat.
Proof using Hn.
  intros Hl Hr Ht. pose proof (turns_cover b q v l l' ops Ht 0%nat l Hl eq_refl) as Hc.
  cbn [clear Nat.add] in Hc. rw (clear_all _ _ l Hl) in Hc; [done|]. rewrite Nat.add_0_r in Hc.
  apply Hc. done.
Qed.

Lemma turns_least b q v l l' ops j r :
  Z.of_nat (length l) = n → n ≤ Z.of_nat (q * b) → turns b (j * q + r) v l l' ops → (j * filled l ≤ ops)%nat.
Proof using Hn.
  intros Hl Hr. revert v l ops Hl. induction j as [|j IH]; intros v l ops Hl Ht; [lia|].
  replace (S j * q + r)%nat with (q + (j * q + r))%nat in Ht by lia.
  destruct (turns_split _ _ _ _ _ _ _ Ht) as (l1 & o1 & o2 & H1 & H2 & ->).
  destruct (turns_filled _ _ _ _ _ _ H1) as [Hf Hlen].
  pose proof (turns_round b q v l l1 o1 Hl Hr H1). specialize (IH _ l1 o2 ltac:(by rw Hlen) H2). rw Hf in IH. lia.
Qed.

Lemma turns_most b k v l l' ops :
  Z.of_nat (length l) = n → turns b k v l l' ops → (ops ≤ k * Nat.min (filled l) b)%nat.
Proof using Hn.
  intros Hl Ht. induction Ht as [v l|k v l l1 l2 ops [Hl1 _ Hf] _ IH]; [lia|].
  specialize (IH ltac:(by rw Hl1)). rw Hf in IH. pose proof (clear_few b v l Hl). lia.
Qed.
End Rounds.

(** ** The abuse under a quota *)

Section Runs.
Context {Srv D : Type} (x : externals Srv D) (qps : D → Z) (Hq : counts_qps x qps) (Hg : generous x qps).
Context (a0 : store) (tid : Z) (v0 : tview) (t0 : thooks Srv D) (Hp : tenant_process a0 tid v0 t0).
Context (y : machine) (c : TestConfig) (tk : nat → Z * Z).
Context (Hn : 0 < num_mrs c) (Hb : 1 ≤ batch_size c) (Hsum : num_mrs c + batch_size c < 2 ^ 31).
Implicit Types (t : thooks Srv D) (s : @bench Srv D).

#[local] Abbreviation has := (mr_filling (mr_size c) a0 tid v0 t0).
#[local] Abbreviation left := (mr_left (mr_size c) v0).
#[local] Abbreviation n := (num_mrs c).

(** The process has the regions of the array, and [k] readings have been taken. *)
Definition owns (mrs : list Z) (k : nat) s : Prop :=
  Z.of_nat (length mrs) = n ∧ has (Z.of_nat (filled mrs)) (proc s) ∧ clocked tk k s.

Definition time_us (k : nat) : Z := u64 (fst (tk k) * 1000000 + snd (tk k)).

Definition later s : bench := mk_bench (proc s) (λ k, ticks s (S k)).

Lemma time_run k s : clocked tk k s → GetTimeUs s = Ret (time_us k) (later s) ∧ clocked tk (S k) (later s).
Proof.
  intros Hc. split.
  - unfold GetTimeUs, time_us. pose proof (Hc 0%nat) as H0. rw Nat.add_0_r in H0. rw H0. by destruct s.
  - intros i. cbn. rw (Hc (S i)). f_equal. lia.
Qed.

Lemma lasting_run (m : M (thooks Srv D) Z) k s r t' :
  clocked tk k s → m (proc s) = Ret r t' →
  ∃ lat s', lasting (hook m) s = Ret (r, lat) s' ∧ proc s' = t' ∧ clocked tk (S (S k)) s'.
Proof.
  intros Hc Hm. destruct (time_run k s Hc) as [H1 Hc1].
  pose proof (hook_run m (later s) r t' Hm) as H2. set (s2 := mk_bench t' (ticks (later s))) in *.
  destruct (time_run (S k) s2 Hc1) as [H3 Hc3].
  eexists _, (later s2). split_and!; [|done|done]. unfold lasting.
  by rw (bind_Ret _ _ _ _ _ H1) (bind_Ret _ _ _ _ _ H2) (bind_Ret _ _ _ _ _ H3).
Qed.

Lemma int_run z s : - 2 ^ 31 ≤ z < 2 ^ 31 → int z s = Ret z s.
Proof. intros Hz. unfold int. by rw (proj2 (Z.leb_le _ _) (proj1 Hz)) (proj2 (Z.ltb_lt _ _) (proj2 Hz)). Qed.

Lemma abuse_modulo_run z s : 0 ≤ z → modulo z n s = Ret (z mod n) s.
Proof using Hn.
  intros Hz. unfold modulo. rw (proj2 (Z.eqb_neq _ _)); [lia|]. by rw Z.rem_mod_nonneg; [|lia|].
Qed.

(** The index of a turn of the inner loops is an element of the array. *)
Lemma index_run start i mrs s :
  0 ≤ start < n → 0 ≤ i < batch_size c → Z.of_nat (length mrs) = n →
  ∃ mr, mrs !! slot n (start + i) = Some mr ∧
    ∀ A (f : Z → Z → M (@bench Srv D) A),
    (v ← int (start + i); idx ← modulo v n; mr ← element mrs idx; f idx mr) s =
      f (Z.of_nat (slot n (start + i))) mr s.
Proof using Hn Hsum.
  intros Hs Hi Hl. destruct (lookup_lt_is_Some_2 mrs (slot n (start + i))) as [mr Hmr]; [by apply slot_lt|].
  exists mr. split; [done|]. intros A f. pose proof (Z.mod_pos_bound (start + i) n Hn).
  rw (bind_Ret _ _ _ _ _ (int_run (start + i) s ltac:(lia))).
  rw (bind_Ret _ _ _ _ _ (abuse_modulo_run (start + i) s ltac:(lia))).
  unfold element. rw (proj2 (Z.ltb_ge _ _)); [lia|]. unfold slot in *. rw Hmr Z2Nat.id; [lia|]. done.
Qed.

Lemma put_slot v h mrs : put (Z.of_nat (slot n v)) h mrs = <[slot n v := h]> mrs.
Proof. unfold put. by rw Nat2Z.id. Qed.

(** The regions of a batch are given back. *)
Lemma abuse_dereg_batch_run start cnt : ∀ i mrs lat k s,
  0 ≤ start < n → 0 ≤ i → i + Z.of_nat cnt ≤ batch_size c → owns mrs k s →
  ∃ lat' s' k', dereg_batch x c start cnt i mrs lat s = Ret (clear n (start + i) cnt mrs, lat') s' ∧
    owns (clear n (start + i) cnt mrs) k' s' ∧ (k ≤ k' ≤ k + 2 * cnt)%nat.
Proof using Hp Hg Hn Hsum.
  induction cnt as [|cnt IH]; intros i mrs lat k s Hs Hi Hle Ho; [exists lat, s, k; split_and!; [done|done|lia..]|].
  destruct Ho as (Hl & Hk & Hc). cbn [dereg_batch clear].
  destruct (index_run start i mrs s) as (mr & Hmr & Hrun); [done|lia|done|]. rw Hrun. clear Hrun.
  pose proof (filled_put mrs _ mr 0 Hmr) as Hf. cbn [Z.eqb] in Hf. rw put_slot.
  rewrite -Z.add_assoc. destruct (Z.eqb_spec mr 0) as [->|Hne].
  - rw (list_insert_id _ _ _ Hmr). destruct (IH (i + 1) mrs lat k s) as (lat' & s' & k' & Hrun & Ho & Hk');
      [done|lia|lia|done|]. exists lat', s', k'. split_and!; [done|done|lia..].
  - destruct (mr_released x qps Hg a0 tid v0 t0 Hp mr (Z.of_nat (filled mrs)) (proc s) (proj2 Hk)) as (t1 & H1 & Hh1);
      [lia|].
    destruct (lasting_run _ k s _ _ Hc H1) as (d & s1 & H2 & <- & Hc1).
    rw (bind_Ret _ _ _ _ _ H2). cbn [fst snd Z.eqb negb].
    edestruct (IH (i + 1) (<[slot n (start + i) := 0]> mrs)) as (lat' & s' & k' & Hrun & Ho & Hk');
      [done|lia|lia| |].
    { split_and!; [by rw length_insert| |exact Hc1]. destruct Hk as [Hle' _]. split; [lia|].
      by replace (Z.of_nat (filled (<[slot n (start + i) := 0]> mrs))) with (Z.of_nat (filled mrs) - 1) by lia. }
    exists lat', s', k'. split_and!; [done|done|lia..].
Qed.

(** An attempt to register; the figures are those of the array. *)
Lemma reg_run pd i mrs k s :
  owns mrs k s →
  ∃ h lat s', lasting (reg x y c pd i) s = Ret (h, lat) s' ∧ clocked tk (S (S k)) s' ∧
    (if Z.of_nat (filled mrs) <? left then h ≠ 0 ∧ has (Z.of_nat (filled mrs) + 1) (proc s')
     else h = 0 ∧ has (Z.of_nat (filled mrs)) (proc s')).
Proof using Hp Hg.
  intros (Hl & Hk & Hc). destruct (mr_attempt x qps Hg (mr_size c) a0 tid v0 t0 Hp pd
    (aligned_alloc y (Z.to_nat i)) access _ _ Hk) as (h & t' & H1 & Hif).
  destruct (lasting_run _ k s _ _ Hc H1) as (lat & s' & H2 & <- & Hc'). exists h, lat, s'.
  split_and!; [exact H2|done|]. destruct (_ <? _); naive_solver.
Qed.

(** And registered again, while the quota leaves one. *)
Lemma abuse_rereg_batch_run pd start cnt : ∀ i mrs lat ops k s,
  0 ≤ start < n → 0 ≤ i → i + Z.of_nat cnt ≤ batch_size c → owns mrs k s → 0 ≤ ops →
  ops + Z.of_nat cnt < 2 ^ 64 →
  ∃ mrs' lat' s' k',
    rereg_batch x y c pd start cnt i mrs lat ops s =
      Ret (mrs', lat', ops + Z.of_nat (filled mrs' - filled mrs)) s' ∧
    owns mrs' k' s' ∧ (k ≤ k' ≤ k + 2 * cnt)%nat ∧
    (∀ p h, mrs !! p = Some h → h ≠ 0 → mrs' !! p = Some h) ∧
    (∀ p, ¬ within n (start + i) (Z.of_nat cnt) p → mrs' !! p = mrs !! p) ∧
    (Z.of_nat (filled mrs') = left ∨
     ∀ p, within n (start + i) (Z.of_nat cnt) p → ∃ h, mrs' !! p = Some h ∧ h ≠ 0) ∧
    (filled mrs ≤ filled mrs' ≤ filled mrs + cnt)%nat.
Proof using Hp Hg Hn Hsum.
  induction cnt as [|cnt IH]; intros i mrs lat ops k s Hs Hi Hle Ho H0 Hops.
  { exists mrs, lat, s, k. rw Nat.sub_diag Z.add_0_r. split_and!; try done; try lia.
    right. intros p (j & Hj & _). lia. }
  pose proof Ho as (Hl & Hk & Hc). cbn [rereg_batch].
  destruct (index_run start i mrs s) as (mr & Hmr & Hrun); [done|lia|done|]. rw Hrun. clear Hrun.
  set (p0 := slot n (start + i)) in *.
  setoid_rewrite within_succ. fold p0. rw -Z.add_assoc.
  destruct (Z.eqb_spec mr 0) as [->|Hne]; cbn [negb]; cycle 1.
  { destruct (IH (i + 1) mrs lat ops k s) as (mrs' & lat' & s' & k' & H1 & H2 & H3 & H4 & H5 & H6 & H7);
      [done|lia|lia|done|done|lia|].
    exists mrs', lat', s', k'. split_and!; try done; try lia.
    - intros p Hw. apply H5. by auto.
    - destruct H6 as [?|H6]; [by left|right]. intros p [->|Hw]; [|by apply H6]. exists mr. auto. }
  destruct (reg_run pd (Z.of_nat p0) mrs k s Ho) as (h & d & s1 & H1 & Hc1 & Hif).
  rw (bind_Ret _ _ _ _ _ H1). cbn [fst snd]. unfold p0 at 1 2. rw !put_slot. fold p0.
  pose proof (filled_put mrs _ 0 h Hmr) as Hf. cbn [Z.eqb] in Hf.
  destruct (Z.ltb_spec (Z.of_nat (filled mrs)) left) as [Hlt|Hge].
  - destruct Hif as [Hh Hk1]. rw (proj2 (Z.eqb_neq _ _) Hh) in Hf |- *.
    rw (u64_small (ops + 1)); [unfold is_u64; lia|].
    destruct (IH (i + 1) (<[p0 := h]> mrs) (u64 (lat + d)) (ops + 1) (S (S k)) s1)
      as (mrs' & lat' & s' & k' & H2 & H3 & H4 & H5 & H6 & H7 & H8); [done|lia|lia| |lia|lia|].
    { split_and!; [by rw length_insert| |exact Hc1].
      by replace (Z.of_nat (filled (<[p0 := h]> mrs))) with (Z.of_nat (filled mrs) + 1) by lia. }
    assert (Hp0 : mrs' !! p0 = Some h).
    { apply H5; [|done]. apply list_lookup_insert_eq. by eapply lookup_lt_Some. }
    exists mrs', lat', s', k'. rw H2. split_and!; try done; try lia.
    + do 2 f_equal. lia.
    + intros p h' Hp' Hne'. destruct (decide (p = p0)) as [->|Hpp]; [congruence|].
      apply H5; [|done]. by rw list_lookup_insert_ne.
    + intros p Hw. rw H6; [by auto|]. apply list_lookup_insert_ne. intros <-. by auto.
    + destruct H7 as [?|H7]; [by left|right]. intros p [->|Hw]; [|by apply H7]. by exists h.
  - destruct Hif as [-> Hk1]. cbn [Z.eqb]. rw (list_insert_id _ _ _ Hmr).
    destruct (IH (i + 1) mrs lat ops (S (S k)) s1)
      as (mrs' & lat' & s' & k' & H2 & H3 & H4 & H5 & H6 & H7 & H8); [done|lia|lia|done|lia|lia|].
    exists mrs', lat', s', k'. rw H2. split_and!; try done; try lia.
    + intros p Hw. apply H6. by auto.
    + left. destruct H3 as (_ & [H9 _] & _). lia.
Qed.

Definition obtained : nat := Nat.min (Z.to_nat n) (Z.to_nat left).
#[local] Abbreviation b := (Z.to_nat (batch_size c)).

Lemma within_mod v p : within n (v mod n + 0) (Z.of_nat b) p ↔ within n v (Z.of_nat b) p.
Proof using Hn. unfold within. setoid_rewrite <-Z.add_assoc. by setoid_rewrite slot_mod. Qed.

Lemma owns_most mrs k s : owns mrs k s → (filled mrs ≤ obtained)%nat.
Proof. intros (Hl & [Hk _] & _). pose proof (filled_le mrs). unfold obtained. lia. Qed.

(** One turn: the batch is taken and given back, and no region gets lost. *)
Lemma abuse_cycle_run pd (j : nat) u k s :
  owns (t_mrs u) k s → filled (t_mrs u) = obtained → batch_idx u = Z.of_nat j →
  Z.of_nat j * batch_size c < 2 ^ 31 - 1 → 0 ≤ total_ops u < 2 ^ 32 →
  ∃ u' s' k', cycle x y c pd u s = Ret u' s' ∧ batch_idx u' = Z.of_nat (S j) ∧
    batch n b (Z.of_nat (j * b)) (t_mrs u) (t_mrs u') ∧
    total_ops u' = total_ops u +
      Z.of_nat (filled (t_mrs u) - filled (clear n (Z.of_nat (j * b)) b (t_mrs u))) ∧
    owns (t_mrs u') k' s' ∧ (k + 1 ≤ k' ≤ k + 4 * b + 1)%nat.
Proof using Hp Hg Hn Hb Hsum.
  intros Ho Hm Hj Hjb Hops. unfold cycle. rw Hj. set (v := Z.of_nat j * batch_size c) in *.
  assert (Hv : Z.of_nat (j * b) = v) by (unfold v; lia). rw Hv.
  assert (Hv0 : 0 ≤ v) by (unfold v; nia).
  rw (bind_Ret _ _ _ _ _ (int_run v s ltac:(lia))) (bind_Ret _ _ _ _ _ (abuse_modulo_run v s Hv0)).
  pose proof (Z.mod_pos_bound v n Hn) as Hstart.
  destruct (abuse_dereg_batch_run (v mod n) b 0 (t_mrs u) (dereg_lat_total u) k s) as (l1 & s1 & k1 & H1 & Ho1 & Hk1);
    [lia|lia|lia|done|].
  rw (bind_Ret _ _ _ _ _ H1). cbn [fst snd]. rw (clear_mod n Hn) Z.add_0_r in Ho1 |- *.
  set (mrs1 := clear n v b (t_mrs u)) in *.
  destruct (abuse_rereg_batch_run pd (v mod n) b 0 mrs1 (reg_lat_total u) (total_ops u) k1 s1)
    as (mrs2 & l2 & s2 & k2 & H2 & Ho2 & Hk2 & H3 & H4 & H5 & H6); [lia|lia|lia|done|lia|lia|].
  rw (bind_Ret _ _ _ _ _ H2). cbn [fst snd].
  rw (bind_Ret _ _ _ _ _ (int_run (Z.of_nat j + 1) s2 ltac:(nia))).
  destruct (time_run k2 s2 (proj2 (proj2 Ho2))) as [H7 Hc3]. rw (bind_Ret _ _ _ _ _ H7).
  assert (Hlen : length mrs2 = length (t_mrs u)) by (destruct Ho2, Ho; lia).
  assert (Hout : ∀ p, ¬ within n v (Z.of_nat b) p → mrs2 !! p = t_mrs u !! p).
  { intros p Hw. rw H4; [by rw within_mod|]. by apply clear_out. }
  assert (Hf : filled mrs2 = filled (t_mrs u)).
  { pose proof (owns_most _ _ _ Ho2) as Hmost. destruct H5 as [Hfull|H5]; [unfold obtained in *; lia|].
    assert (Hbel : below (t_mrs u) mrs2); [|pose proof (below_filled _ _ Hbel); lia].
    apply below_lookup; [done|]. intros p h h' Hp1 Hp2 Hne. destruct (decide (within n v (Z.of_nat b) p)) as [Hw|Hw].
    - destruct (H5 p) as (h2 & Hh2 & ?); [by rw within_mod|]. congruence.
    - rw Hout in Hp2; [done|]. congruence. }
  eexists _, _, (S k2). split_and!; [reflexivity|cbn; lia|by split| | |lia|lia]; cbn [total_ops t_mrs].
  - by rw Hf.
  - by destruct Ho2 as (? & ? & _).
Qed.

(** The loop, with a clock that is before [e] at the readings up to [early], and past it
    from [late] on. *)
Lemma abuse_loop_run pd e early late :
  (∀ i, (0 < i < early)%nat → time_us i < e) → (∀ i, (late ≤ i)%nat → e ≤ time_us i) →
  Z.of_nat late * batch_size c < 2 ^ 31 - 1 →
  ∀ fuel (j : nat) u k s,
  (late ≤ k + 2 * fuel)%nat → (0 < k)%nat → (2 * j ≤ k)%nat →
  owns (t_mrs u) k s → filled (t_mrs u) = obtained → batch_idx u = Z.of_nat j →
  0 ≤ total_ops u ≤ Z.of_nat (j * b) →
  ∃ i u' o s' k', abuse_loop x y (S fuel) c pd e u s = Ret u' s' ∧ batch_idx u' = Z.of_nat (j + i) ∧
    turns n b i (Z.of_nat (j * b)) (t_mrs u) (t_mrs u') o ∧ total_ops u' = total_ops u + Z.of_nat o ∧
    owns (t_mrs u') k' s' ∧ (i = 0 ∨ k + 2 * i ≤ late + 1)%nat ∧ (early ≤ k + i * (4 * b + 2))%nat.
Proof using Hp Hg Hn Hb Hsum.
  intros Hearly Hlate Hmax. induction fuel as [|fuel IH]; intros j u k s Hfuel Hk0 Hjk Ho Hm Hj Hops.
  all: pose proof Ho as (Hl & Hk & Hc); destruct (time_run k s Hc) as [H1 Hc1].
  all: cbn [abuse_loop]; rw (bind_Ret _ _ _ _ _ H1).
  all: destruct (Z.ltb_spec (time_us k) e) as [Hlt|Hge].
  1: specialize (Hlate k ltac:(lia)); lia.
  2: {
    assert (Hkl : (k < late)%nat) by (destruct (decide (k < late)%nat); [done|]; specialize (Hlate k ltac:(lia)); lia).
    destruct (abuse_cycle_run pd j u (S k) (later s)) as (u1 & s1 & k1 & H2 & Hj1 & Hbt & Hops1 & Ho1 & Hk1);
      [done|done|done|nia|nia|].
    rw (bind_Ret _ _ _ _ _ H2). pose proof (clear_few n Hn b (Z.of_nat (j * b)) (t_mrs u) Hl) as Hfew.
    destruct (IH (S j) u1 k1 s1) as (i & u' & o & s' & k' & H3 & H4 & H5 & H6 & H7 & H8 & H9);
      [lia|lia|lia|done|by rw (bt_filled _ _ _ _ _ Hbt)|done|lia|].
    exists (S i), u', (filled (t_mrs u) - filled (clear n (Z.of_nat (j * b)) b (t_mrs u)) + o)%nat, s', k'.
    split_and!; [exact H3|rw H4; lia| |lia|done|lia|nia].
    econstructor; [exact Hbt|]. by replace (Z.of_nat (j * b) + Z.of_nat b) with (Z.of_nat (S j * b)) by lia. }
  all: exists 0%nat, u, 0%nat, (later s), (S k); split_and!; try done; [by rw Nat.add_0_r|constructor|lia|by left|].
  all: destruct (decide (early ≤ k)%nat); [lia|]; specialize (Hearly k ltac:(lia)); lia.
Qed.

(** The regions registered first: as many as the quota leaves. *)
Lemma alloc_run pd cnt : ∀ (i : nat) mrs k s,
  owns mrs k s → filled mrs = i → (i + cnt = length mrs)%nat →
  (∀ p, (i ≤ p < length mrs)%nat → mrs !! p = Some 0) →
  ∃ mrs' s', AllocPhase x y c pd cnt (Z.of_nat i) mrs s = Ret mrs' s' ∧ owns mrs' k s' ∧ filled mrs' = obtained.
Proof using Hp Hg Hn.
  induction cnt as [|cnt IH]; intros i mrs k s Ho Hf Hl Hz.
  { exists mrs, s. split_and!; [done|done|]. pose proof (owns_most _ _ _ Ho).
    destruct Ho as (Hlen & _). unfold obtained in *. lia. }
  destruct Ho as (Hlen & Hk & Hc). cbn [AllocPhase].
  destruct (mr_attempt x qps Hg (mr_size c) a0 tid v0 t0 Hp pd (aligned_alloc y (Z.to_nat (Z.of_nat i))) access _ _ Hk)
    as (h & t' & H1 & Hif).
  unfold reg. rw (bind_Ret _ _ _ _ _ (hook_run _ s _ _ H1)). cbv zeta.
  unfold put. rw Nat2Z.id in Hif |- *. pose proof (Hz i ltac:(lia)) as Hi.
  pose proof (filled_put mrs _ 0 h Hi) as Hput. cbn [Z.eqb] in Hput.
  destruct (Z.ltb_spec (Z.of_nat (filled mrs)) left) as [Hlt|Hge].
  - destruct Hif as [Hh Hk1]. rw (proj2 (Z.eqb_neq _ _) Hh) in Hput |- *.
    replace (Z.of_nat i + 1) with (Z.of_nat (S i)) by lia. apply IH.
    + split_and!; [by rw length_insert| |done].
      by replace (Z.of_nat (filled (<[i := h]> mrs))) with (Z.of_nat (filled mrs) + 1) by lia.
    + lia.
    + rw length_insert. lia.
    + rw length_insert. intros p Hp'. rw list_lookup_insert_ne; [lia|]. apply Hz. lia.
  - destruct Hif as (-> & _ & Hk1). cbn [Z.eqb]. rw (list_insert_id _ _ _ Hi).
    exists mrs, (mk_bench t' (ticks s)). split; [done|]. split; [exact (conj Hlen (conj Hk1 Hc))|].
    destruct Hk as [Hle _]. unfold obtained. lia.
Qed.

(** All regions are given back. *)
Lemma dealloc_run mrs : ∀ s,
  has (Z.of_nat (filled mrs)) (proc s) →
  ∃ s', DeallocPhase x mrs s = Ret (replicate (length mrs) 0, Z.of_nat (filled mrs)) s' ∧ has 0 (proc s').
Proof using Hp Hg.
  induction mrs as [|h mrs IH]; intros s Hk; [by exists s|]. cbn [DeallocPhase length replicate].
  unfold filled in *. rewrite filter_cons in Hk |- *. unfold dereg_unless_null.
  destruct (decide (h ≠ 0)) as [Hne|Heq]; cycle 1.
  - assert (h = 0) as -> by (destruct (decide (h = 0)); [done|by destruct Heq]). cbn [Z.eqb].
    rw (bind_Ret _ _ s tt s); [done|]. destruct (IH s Hk) as (s' & H1 & H2).
    exists s'. by rw (bind_Ret _ _ _ _ _ H1).
  - rw (proj2 (Z.eqb_neq _ _) Hne). cbn [length] in Hk |- *. destruct Hk as [Hle Hk].
    destruct (mr_released x qps Hg a0 tid v0 t0 Hp h _ (proc s) Hk) as (t' & H1 & Hk1); [lia|].
    rw (bind_Ret _ _ _ _ _ (hooked_unit_run _ s _ _ H1)).
    destruct (IH (mk_bench t' (ticks s))) as (s' & H2 & H3).
    { split; [lia|]. cbn [proc]. by replace (Z.of_nat (length (filter (λ h, h ≠ 0) mrs))) with
        (Z.of_nat (S (length (filter (λ h, h ≠ 0) mrs))) - 1) by lia. }
    exists s'. rw (bind_Ret _ _ _ _ _ H2). cbn [fst snd]. split; [|done]. do 2 f_equal. lia.
Qed.

Lemma dereg_none_run k s : dereg_each x (replicate k 0) s = Ret tt s.
Proof. induction k as [|k IH]; [done|]. cbn [replicate dereg_each]. unfold dereg_unless_null. by rw (bind_Ret _ _ s tt s). Qed.

(** What the test needs of the machine. *)
Definition supplied (names : list string) (i : nat) : Prop :=
  dev_list y = Some names ∧ find_device c names = Some i ∧ dev_open y i ≠ 0 ∧
  ∀ j, (j < Z.to_nat n)%nat → aligned_alloc y j ≠ 0.

Lemma abuse_init_run names i :
  supplied names i → clocked tk 0 (mk_bench t0 tk) ∧
  ∃ pd s, Init x y c (mk_bench t0 tk) = Ret (true, mk_members pd (replicate (Z.to_nat n) 0)) s ∧ pd ≠ 0 ∧
    owns (replicate (Z.to_nat n) 0) 0 s.
Proof using Hp Hq Hg Hn.
  intros (Hlist & Hfind & Hopen & Hbuf). split; [by intros k|]. unfold Init. rw Hlist Hfind.
  rw (proj2 (Z.eqb_neq _ _) Hopen).
  destruct (created_aside x qps Hq a0 tid v0 t0 Hp 1 0 "ibv_alloc_pd" (AllocPd (dev_open y i)) 4 a0 t0)
    as (t1 & a1 & H1 & Hok1 & Hk1 & Hb1 & _);
    try done; [by right|by apply is_hook|apply Hp|by eapply bill_start, Hp|].
  set (pd := ret _) in H1. assert (Hpd : pd ≠ 0) by apply (gn_pd _ _ Hg).
  rw (bind_Ret _ _ _ _ _ (hook_run _ (mk_bench t0 tk) _ _ H1)).
  rw (proj2 (Z.eqb_neq _ _) Hpd) (proj2 (Z.ltb_ge n 0)); [lia|].
  rw (proj2 (forallb_forall _ _)).
  { intros j Hj%in_seq. apply negb_true_iff, Z.eqb_neq, Hbuf. lia. }
  exists pd, (mk_bench t1 tk). split_and!; [done|done|]. split_and!; [rw length_replicate; lia| |by intros k].
  rw filled_zero.
  { intros p Hp'. rw length_replicate in Hp'. by apply lookup_replicate. }
  refine (conj _ (conj (Z.le_refl 0) _)); [|by exists a1]. unfold mr_left. destruct (size_fits _ _); cbn; lia.
Qed.

(** C21: the abuse needs no batch to begin with.  Whatever the quota leaves the process, it
    registers as many regions, and it keeps them until the end: in every so many turns of
    the loop as it takes to go round the array it gives each of them back and registers it
    again, one region as well as a thousand.  How many turns there are depends on the
    clock only; the time is over when the clock says so, and then everything is given
    back. *)
Theorem abuse_goes_round args names i early late fuel q :
  parse_args args default_test = Some c → supplied names i → is_i32 (duration_sec c * 1000000) →
  let e := u64 (time_us 0 + u64 (duration_sec c * 1000000)) in
  (∀ j, (0 < j < early)%nat → time_us j < e) → (∀ j, (late ≤ j)%nat → e ≤ time_us j) →
  Z.of_nat late * batch_size c < 2 ^ 31 - 1 → (late < fuel)%nat →
  (0 < q)%nat → n ≤ Z.of_nat q * batch_size c →
  ∃ turns ops avg s' a', abuse_main x y fuel args (mk_bench t0 tk) =
      Ret (0, Some (mk_report (Z.of_nat turns) (Z.of_nat ops) avg (Z.of_nat obtained))) s' ∧
    (turns / q * obtained ≤ ops ≤ turns * Nat.min obtained b)%nat ∧
    (2 * turns ≤ late)%nat ∧ (early ≤ 1 + turns * (4 * b + 2))%nat ∧
    tok a' (proc s') ∧ bill 1 a0 tid 0 a'.
Proof using Hp Hq Hg Hn Hb Hsum.
  intros Hargs Hsup Hdur e Hearly Hlate Hmax Hfuel Hq0 Hround.
  destruct (abuse_init_run names i Hsup) as [_ (pd & s1 & H1 & Hpd & Ho1)].
  destruct (alloc_run pd (Z.to_nat n) 0 _ 0 s1 Ho1) as (mrs & s2 & H2 & Ho2 & Hf2).
  { apply filled_zero. intros p Hp'. rw length_replicate in Hp'. by apply lookup_replicate. }
  { by rw length_replicate. }
  { intros p Hp'. rw length_replicate in Hp'. apply lookup_replicate. by split; [|lia]. }
  destruct (time_run 0 s2 (proj2 (proj2 Ho2))) as [H3 Hc3].
  destruct fuel as [|fuel]; [lia|].
  destruct (abuse_loop_run pd e early late Hearly Hlate Hmax fuel 0 (mk_tally 0 0 0 0 mrs) 1 (later s2))
    as (k & u & o & s4 & k4 & H4 & Hk & Hturns & Hops & Ho4 & Hl4 & He4); cbn [t_mrs batch_idx total_ops];
    [lia|lia|lia|by destruct Ho2 as (? & ? & _)|done|done|lia|].
  cbn [t_mrs batch_idx total_ops Nat.add Z.add] in *.
  destruct (turns_filled _ _ _ _ _ _ _ Hturns) as [Hf4 Hlen4]. rw Hf2 in Hf4.
  destruct (dealloc_run (t_mrs u) s4 (proj1 (proj2 Ho4))) as (s5 & H5 & Hk5). rw Hf4 in H5.
  destruct Hk5 as (_ & _ & a5 & Hok5 & Hkt5 & Hb5).
  destruct (destroyed_aside x qps Hq a0 tid v0 t0 Hp 1 0 "ibv_dealloc_pd" (DeallocPd pd) 4 a5 (proc s5))
    as (r6 & t6 & a6 & H6 & Hok6 & _ & Hb6 & _); try done; [by right|by apply is_hook|].
  assert (Habuse : AbusePhase x y (S fuel) c pd mrs s2 = Ret u s4).
  { unfold AbusePhase. by rw (bind_Ret _ _ _ _ _ H3) (bind_Ret _ _ _ _ _ (int_run _ _ Hdur)). }
  assert (Hlow : (k / q * obtained ≤ o)%nat).
  { rw -Hf2. apply (turns_least n Hn b q 0 mrs (t_mrs u) o (k / q) (k mod q)); [apply Ho2|lia|].
    by rw Nat.mul_comm -Nat.div_mod; [lia|]. }
  pose proof (turns_most n Hn b k 0 mrs (t_mrs u) o (proj1 Ho2) Hturns) as Hhigh. rw Hf2 in Hhigh.
  eexists k, o, _, (mk_bench t6 (ticks s5)), a6. split_and!; try done; try lia.
  unfold abuse_main. rw Hargs. erewrite (bind_Ret _ _ _ _ s5); cycle 1.
  { unfold Run. rw (bind_Ret _ _ _ _ _ H1). cbn [fst snd negb pd_ mrs_].
    rw (bind_Ret _ _ _ _ _ H2) (bind_Ret _ _ _ _ _ Habuse) (bind_Ret _ _ _ _ _ H5). reflexivity. }
  cbn [fst snd]. erewrite (bind_Ret _ _ _ _ _); cycle 1.
  { unfold Cleanup. cbn [mrs_ pd_]. rw (bind_Ret _ _ _ _ _ (dereg_none_run _ s5)) (proj2 (Z.eqb_neq _ _) Hpd).
    exact (hooked_unit_run _ s5 _ _ H6). }
  rw Hk Hops. reflexivity.
Qed.
End Runs.

(** ** Example: a quota of one region *)

Definition single_setup : list TenantProps.call :=
  [Create 3 None (Some (Tenant.mk_quota 2 1 (2 ^ 30) 10 10)); Bind 100 3].

Definition single_view : tview :=
  mk_view "unnamed" Tenant.TENANT_STATUS_ACTIVE (Tenant.mk_quota 2 1 (2 ^ 30) 10 10) Tenant.usage_zero.

#[local] Opaque example_tenant.

Lemma single_region :
  tenant_process (spec_store single_setup empty_store) 3 single_view (example single_setup 100).
Proof.
  apply example_process; [repeat constructor; cbn; lia|done|vm_compute; reflexivity|vm_compute; reflexivity|done|done].
Qed.

(** A reading every millisecond, for a second. *)
Definition steady (k : nat) : Z * Z := (0, 1000 * Z.of_nat (Nat.min k 1000)).

Lemma steady_time k : time_us steady k = 1000 * Z.of_nat (Nat.min k 1000).
Proof. unfold time_us, steady. cbn [fst snd]. rw u64_small; [unfold is_u64|]; lia. Qed.

(** Twelve regions are asked for, one is there; batches of four, one second. *)
Definition single_args : list string := ["-n"; "12"; "-b"; "4"; "--time"; "1"]%string.
Definition single_test : TestConfig := mk_test "mlx5_0" 1 12 (4 * 1024 * 1024) 4.
Definition single_machine : machine := mk_machine (Some ["mlx5_0"]%string) (λ _, 7) (λ _, 4096).

Lemma abuse_goes_round_witness :
  ∃ turns ops avg s', abuse_main toy single_machine 1002 single_args (mk_bench (example single_setup 100) steady) =
      Ret (0, Some (mk_report (Z.of_nat turns) (Z.of_nat ops) avg 1)) s' ∧ (18 ≤ ops)%nat.
Proof.
  destruct (abuse_goes_round toy Z.of_nat toy_counts toy_generous (spec_store single_setup empty_store) 3
    single_view (example single_setup 100) single_region single_machine single_test steady
    ltac:(reflexivity) ltac:(discriminate) ltac:(reflexivity) single_args ["mlx5_0"]%string 0 1000 1000 1002 3)
    as (turns & ops & avg & s' & a' & Hrun & [Hops _] & _ & Hearly & _).
  - reflexivity.
  - split_and!; [reflexivity|reflexivity|discriminate|intros; discriminate].
  - split; [discriminate|reflexivity].
  - intros j Hj. rw !steady_time. change (u64 _) with 1000000. lia.
  - intros j Hj. rw !steady_time. change (u64 _) with 1000000. lia.
  - reflexivity.
  - lia.
  - lia.
  - discriminate.
  - exists turns, ops, avg, s'. split; [exact Hrun|].
    change (Z.to_nat (batch_size single_test)) with 4%nat in Hearly.
    assert (18 ≤ turns / 3)%nat by (apply Nat.div_le_lower_bound; lia).
    change (obtained single_view single_test) with 1%nat in Hops. lia.
Defined.
End Abuse.
