(* ===== verification/ResourceTests.v ===== *)
(** * Tests of the resources

    Three more programs of [src/tests].  [test_intercept_ebpf.c] expects the third QP to be
    refused, [test_shm_version.c] uses one of everything and looks for the shared memory,
    [test_collector_comm.c] asks the collector two questions over one connection.

    A pointer of a test is null, live, or dangling after its object was destroyed; to use it
    then is undefined.  What the tests print is left out but for what they found out. *)

From S2P Require Import Prelude CString CFloat Intercept Core CollectorServer CollectorClient LocalPolicy.
From S2P Require Import SlotTable ShmProcess ShmTenant TenantProps TenantSpec HookBase HooksTenant.
From S2P Require Import HooksTenantProps TenantQuota Isolation HotUpdate Churn Microbench.

Module ResourceTests.
Import TenantProps TenantSpec.
Import Intercept Core CollectorClient LocalPolicy HookBase HooksTenant HooksTenantProps TenantQuota.
Import Isolation Microbench.

Inductive pointer := Null | Live (h : Z) | Freed.

Definition pointer_of (h : Z) : pointer := if h =? 0 then Null else Live h.

Section Programs.
Context {Srv D : Type} (x : externals Srv D) (dev : device).
#[local] Abbreviation program := (M (thooks Srv D)).

Definition give_back (destroy : Z → program Z) (p : pointer) : program unit :=
  match p with Null => mret tt | Live h => destroy h;; mret tt | Freed => crash end.

Fixpoint give_all_back (destroy : Z → program Z) (ps : list pointer) : program unit :=
  match ps with
  | [] => mret tt
  | p :: ps' => give_back destroy p;; give_all_back destroy ps'
  end.

(** ** [test_intercept_ebpf.c] *)

(** The objects are created one after the other until one is refused; whether none was. *)
Fixpoint obtain {I} (create : I → program Z) (args : list I) : program (list pointer * bool) :=
  match args with
  | [] => mret ([], true)
  | i :: args' =>
      h ← create i;
      if h =? 0 then mret ([], false) else
      rest ← obtain create args';
      mret (Live h :: fst rest, snd rest)
  end.

(** The label [cleanup]; the pointers not given are null. *)
Definition cleanup (qps mrs : list pointer) (cq pd : Z) : program unit :=
  give_all_back (ibv_destroy_qp x) qps;;
  give_all_back (ibv_dereg_mr x) mrs;;
  unless_null cq (ibv_destroy_cq x cq);;
  unless_null pd (ibv_dealloc_pd x pd).

(** The exit code, and whether the third QP was refused, if it came to that.  When it was
    not it is destroyed, and the pointer to it stays.  Without a queue the clean-up frees
    buffers that were never set. *)
Definition intercept_ebpf (bufs : Z * Z * Z) : program (Z * option bool) :=
  if negb (dev_found dev) then mret (1, None) else
  let context := dev_context dev in
  if context =? 0 then mret (1, None) else
  pd ← ibv_alloc_pd x context;
  if pd =? 0 then mret (1, None) else
  cq ← ibv_create_cq x context 30 0 0 0;
  if cq =? 0 then crash else
  let '(buf1, buf2, buf3) := bufs in
  if (buf1 =? 0) || (buf2 =? 0) || (buf3 =? 0) then cleanup [] [] cq pd;; mret (0, None) else
  mrs ← obtain (λ buf, ibv_reg_mr x pd buf 4096 IBV_ACCESS_LOCAL_WRITE) [buf1; buf2; buf3];
  if negb (snd mrs) then cleanup [] (fst mrs) cq pd;; mret (0, None) else
  qps ← obtain (λ _, ibv_create_qp x pd (Some qp_attr)) [1; 2];
  if negb (snd qps) then cleanup (fst qps) (fst mrs) cq pd;; mret (0, None) else
  qp3 ← ibv_create_qp x pd (Some qp_attr);
  (if qp3 =? 0 then mret tt else ibv_destroy_qp x qp3;; mret tt);;
  cleanup (fst qps ++ [if qp3 =? 0 then Null else Freed]) (fst mrs) cq pd;;
  mret (0, Some (qp3 =? 0)).

(** ** [test_shm_version.c] *)

(** What [test_rdma_resources] finds out: whether it gets a queue, a QP and a region. *)
Record resources := mk_resources { got_cq : bool; got_qp : bool; got_mr : bool }.

(** [buf] is what [malloc] returns; [query] the answer of [ibv_query_device]. *)
Definition test_rdma_resources (query buf : Z) : program (Z * option resources) :=
  if negb (dev_found dev) then mret (-1, None) else
  let context := dev_context dev in
  if context =? 0 then mret (-1, None) else
  if negb (query =? 0) then mret (-1, None) else
  pd ← ibv_alloc_pd x context;
  if pd =? 0 then mret (-1, None) else
  cq ← ibv_create_cq x context 10 0 0 0;
  qp ← (if cq =? 0 then mret 0 else
        qp ← ibv_create_qp x pd (Some qp_attr);
        unless_null qp (ibv_destroy_qp x qp);;
        ibv_destroy_cq x cq;; mret qp);
  mr ← (if buf =? 0 then mret 0 else
        mr ← ibv_reg_mr x pd buf 4096 IBV_ACCESS_LOCAL_WRITE;
        unless_null mr (ibv_dereg_mr x mr);; mret mr);
  ibv_dealloc_pd x pd;;
  mret (0, Some (mk_resources (negb (cq =? 0)) (negb (qp =? 0)) (negb (mr =? 0)))).

(** The objects in the shared memory of the system, and whether one can be mapped. *)
Definition SHM_NAMES : list string := ["/rdma_intercept_shm_v2"; "/rdma_intercept_tenant_shm_v2"].

Definition test_shared_memory (objects : list string) (maps : bool) : Z :=
  if negb (bool_decide ("/rdma_intercept_shm"%string ∈ objects)) then -1 else if maps then 0 else -1.

(** The exit code, and the results of both tests. *)
Definition shm_version (objects : list string) (maps : bool) (query buf : Z) : program (Z * Z * option resources) :=
  let shm := test_shared_memory objects maps in
  r ← test_rdma_resources query buf;
  mret (0, shm, snd r).
End Programs.

(** ** What the tests get under a quota *)

Section Runs.
Context {Srv D : Type} (x : externals Srv D) (qps : D → Z) (Hq : counts_qps x qps) (Hg : generous x qps).
Context (a0 : store) (tid : Z) (v0 : tview) (t0 : thooks Srv D) (Hp : tenant_process a0 tid v0 t0).
Context (Hctl : controlled_process t0) (Hpub : counts_published t0) (Hzero : qp_count (hg (base t0)) = 0).
Context (dev : device) (Hdev : dev_found dev = true) (Hctx : dev_context dev ≠ 0).
Implicit Types (t : thooks Srv D).

#[local] Abbreviation room := (qp_room v0 t0).
#[local] Abbreviation left := (mr_left 4096 v0).

(** The process has [k] QPs, as its record says, and [m] regions. *)
Definition uses (k m : Z) t : Prop := holds qps a0 tid t0 k m t ∧ recorded k t.

Lemma uses_same k m m' t t' :
  uses k m t → holds qps a0 tid t0 k m' t' → same_qps t t' → uses k m' t'.
Proof.
  intros [Hh Hr] Hh' Hs. split; [done|]. eapply (recorded_same t0); [exact Hs|by eapply holds_kept..|done].
Qed.

Definition live (ps : list pointer) : Prop := Forall (λ p, ∃ h, p = Live h ∧ h ≠ 0) ps.

(** Objects that are counted one by one. *)
Lemma obtain_run {I} (create : I → M (thooks Srv D) Z) (P : Z → thooks Srv D → Prop) (most : Z) :
  (∀ i k t, P k t → k ≤ most →
     ∃ h t', create i t = Ret h t' ∧ if k <? most then h ≠ 0 ∧ P (k + 1) t' else h = 0 ∧ P k t') →
  ∀ args k t, P k t → 0 ≤ k ≤ most →
  let n := Z.min (Z.of_nat (length args)) (most - k) in
  ∃ ps t', obtain create args t = Ret (ps, Z.of_nat (length args) <=? most - k) t' ∧
    P (k + n) t' ∧ live ps ∧ Z.of_nat (length ps) = n.
Proof using.
  intros Hstep args. induction args as [|i args IH]; intros k t Hk Hle n.
  { exists [], t. assert (n = 0) as -> by (unfold n; cbn; lia). rw (proj2 (Z.leb_le _ _)); [cbn; lia|].
    rw Z.add_0_r. split_and!; [done|done|constructor|done]. }
  destruct (Hstep i k t Hk) as (h & t1 & H1 & Hif); [lia|]. cbn [obtain]. rw (bind_Ret _ _ _ _ _ H1).
  destruct (Z.ltb_spec k most) as [Hlt|Hge].
  - destruct Hif as [Hne Hk1]. rw (proj2 (Z.eqb_neq _ _) Hne).
    destruct (IH (k + 1) t1 Hk1) as (ps & t2 & H2 & Hk2 & Hl & Hn); [lia|].
    exists (Live h :: ps), t2. rw (bind_Ret _ _ _ _ _ H2). cbn [fst snd length] in *. split_and!.
    + do 2 f_equal. destruct (Z.leb_spec (Z.of_nat (length args)) (most - (k + 1))),
        (Z.leb_spec (Z.of_nat (S (length args))) (most - k)); lia.
    + by replace (k + n) with (k + 1 + Z.min (Z.of_nat (length args)) (most - (k + 1))) by (unfold n; cbn; lia).
    + constructor; [by eexists|done].
    + unfold n. cbn. lia.
  - destruct Hif as [-> Hk1]. cbn [Z.eqb]. exists [], t1. cbn [length] in *.
    assert (n = 0) as -> by (unfold n; cbn; lia). rw (proj2 (Z.leb_gt _ _)); [lia|].
    rw Z.add_0_r. split_and!; [done|done|constructor|done].
Qed.

Lemma give_all_back_run (destroy : Z → M (thooks Srv D) Z) (P : Z → thooks Srv D → Prop) :
  (∀ h k t, P k t → 0 < k → ∃ r t', destroy h t = Ret r t' ∧ P (k - 1) t') →
  ∀ ps k t, live ps → P k t → Z.of_nat (length ps) ≤ k →
  ∃ t', give_all_back destroy ps t = Ret tt t' ∧ P (k - Z.of_nat (length ps)) t'.
Proof using.
  intros Hstep ps. induction ps as [|p ps IH]; intros k t Hl Hk Hle; [exists t; by rw Z.sub_0_r|].
  apply Forall_cons in Hl as [(h & -> & Hne) Hl]. cbn [length give_all_back give_back] in *.
  destruct (Hstep h k t Hk) as (r & t1 & H1 & Hk1); [lia|].
  destruct (IH (k - 1) t1 Hl Hk1) as (t2 & H2 & Hk2); [lia|]. exists t2.
  rw (bind_Ret _ _ t tt t1); [by rw (bind_Ret _ _ _ _ _ H1)|]. split; [done|].
  by replace (k - Z.of_nat (S (length ps))) with (k - 1 - Z.of_nat (length ps)) by lia.
Qed.

(** With one pointer more, that is null or dangling. *)
Lemma give_back_last (destroy : Z → M (thooks Srv D) Z) ps p t t1 :
  give_all_back destroy ps t = Ret tt t1 →
  give_all_back destroy (ps ++ [p]) t = give_back destroy p t1.
Proof using.
  revert t. induction ps as [|p' ps IH]; intros t H; cbn [app give_all_back] in *.
  - injection H as <-. unfold mbind, M_bind, mret, M_ret. by destruct (give_back destroy p t) as [[] ?| |].
  - apply bind_inv in H as ([] & t' & H1 & H2). rw (bind_Ret _ _ _ _ _ H1). by apply IH.
Qed.

Lemma region_step pd k buf m t :
  uses k m t → m ≤ left →
  ∃ h t', ibv_reg_mr x pd buf 4096 IBV_ACCESS_LOCAL_WRITE t = Ret h t' ∧
    if m <? left then h ≠ 0 ∧ uses k (m + 1) t' else h = 0 ∧ uses k m t'.
Proof using Hp Hq Hg.
  intros Hu Hle. destruct (registered x qps Hq Hg a0 tid v0 t0 Hp k m t pd buf (proj1 Hu) Hle) as (h & t' & H1 & Hif & Hs).
  exists h, t'. split; [exact H1|]. change TEST_MR_SIZE with 4096 in Hif.
  destruct (m <? left); destruct Hif as [? ?]; (split; [done|by eapply uses_same]).
Qed.

Lemma region_back k h m t :
  holds qps a0 tid t0 k m t → 0 < m → ∃ r t', ibv_dereg_mr x h t = Ret r t' ∧ holds qps a0 tid t0 k (m - 1) t'.
Proof using Hp Hq Hg.
  intros Hh Hm. destruct (deregistered x qps Hq Hg a0 tid v0 t0 Hp k m t h Hh Hm) as (r & t' & H1 & Hh' & _).
  by exists r, t'.
Qed.

Lemma qp_step pd m k t :
  uses k m t → k ≤ room →
  ∃ h t', ibv_create_qp x pd (Some qp_attr) t = Ret h t' ∧
    if k <? room then h ≠ 0 ∧ uses (k + 1) m t' else h = 0 ∧ uses k m t'.
Proof using Hp Hq Hg Hctl.
  intros [Hh Hr] Hle. destruct (Z.ltb_spec k room) as [Hlt|Hge].
  - destruct (another x qps Hq Hg a0 tid v0 t0 Hp Hctl pd k m t Hh Hr Hlt) as (h & t' & H1 & Hne & Hh' & Hr').
    exists h, t'. by split_and!.
  - destruct (no_more x qps a0 tid v0 t0 Hp Hctl pd k m t Hh Hr) as (t' & H1 & Hh' & Hr'); [lia|].
    exists 0, t'. by split_and!.
Qed.

(** What is left of the quotas once QPs are given back; the record of the process is of no
    account any more. *)
Lemma qp_back m h k t :
  holds qps a0 tid t0 k m t → 0 < k → ∃ r t', ibv_destroy_qp x h t = Ret r t' ∧ holds qps a0 tid t0 (k - 1) m t'.
Proof using Hp Hq Hg.
  intros Hh Hk. destruct (unmade x qps Hq Hg a0 tid v0 t0 Hp k m t h Hh Hk) as (r & t' & ? & ? & _). by exists r, t'.
Qed.

Lemma objects_run n :
  ∃ pd cq t1 t2, ibv_alloc_pd x (dev_context dev) t0 = Ret pd t1 ∧
    ibv_create_cq x (dev_context dev) n 0 0 0 t1 = Ret cq t2 ∧ pd ≠ 0 ∧ cq ≠ 0 ∧ uses 0 0 t2.
Proof using Hp Hq Hg Hpub Hzero.
  pose proof (start_holds qps a0 tid v0 t0 Hp) as Hh.
  destruct (aside_created x qps Hq a0 tid v0 t0 Hp "ibv_alloc_pd" (AllocPd (dev_context dev)) 4 0 0 t0 Hh)
    as (t1 & H1 & Hh1 & Hc1 & Hs1); [done|by apply is_hook|done..|].
  destruct (aside_created x qps Hq a0 tid v0 t0 Hp "ibv_create_cq" (CreateCq (dev_context dev) n 0 0 0) 3 0 0 t1 Hh1)
    as (t2 & H2 & Hh2 & Hc2 & Hs2); [done|by apply is_hook|done..|].
  eexists _, _, t1, t2. split_and!; [exact H1|exact H2|apply (gn_pd _ _ Hg)|apply (gn_cq _ _ Hg)|].
  apply (uses_same 0 0 0 t0); [by split|done|]. split; [by rw Hc2|by rw Hs2].
Qed.

Lemma objects_back pd cq k m t :
  holds qps a0 tid t0 k m t →
  ∃ r t1 r' t2, ibv_destroy_cq x cq t = Ret r t1 ∧ ibv_dealloc_pd x pd t1 = Ret r' t2 ∧
    holds qps a0 tid t0 k m t2.
Proof using Hp Hq.
  intros Hh.
  destruct (aside_destroyed x qps Hq a0 tid v0 t0 Hp "ibv_destroy_cq" (DestroyCq cq) 3 k m t Hh)
    as (r & t1 & H1 & Hh1 & _); [done|by apply is_hook|done..|].
  destruct (aside_destroyed x qps Hq a0 tid v0 t0 Hp "ibv_dealloc_pd" (DeallocPd pd) 4 k m t1 Hh1)
    as (r' & t2 & H2 & Hh2 & _); [done|by apply is_hook|done..|].
  by exists r, t1, r', t2.
Qed.

(** The clean-up gives everything back, when no pointer dangles. *)
Lemma tests_cleaned ps ms cq pd t :
  holds qps a0 tid t0 (Z.of_nat (length ps)) (Z.of_nat (length ms)) t → live ps → live ms → cq ≠ 0 → pd ≠ 0 →
  ∃ t', cleanup x ps ms cq pd t = Ret tt t' ∧ holds qps a0 tid t0 0 0 t'.
Proof using Hp Hq Hg.
  intros Hh Hps Hms Hcq Hpd.
  destruct (give_all_back_run (ibv_destroy_qp x) (λ k, holds qps a0 tid t0 k (Z.of_nat (length ms)))
    (qp_back (Z.of_nat (length ms))) ps _ t Hps Hh) as (t1 & H1 & Hh1); [done|]. rw Z.sub_diag in Hh1.
  destruct (give_all_back_run (ibv_dereg_mr x) (λ m, holds qps a0 tid t0 0 m)
    (region_back 0)
    ms _ t1 Hms Hh1) as (t2 & H2 & Hh2); [done|]. rw Z.sub_diag in Hh2.
  destruct (objects_back pd cq 0 0 t2 Hh2) as (r3 & t3 & r4 & t4 & H3 & H4 & Hh4).
  exists t4. split; [|done]. unfold cleanup. rw (bind_Ret _ _ _ _ _ H1) (bind_Ret _ _ _ _ _ H2).
  rw (bind_Ret _ _ _ _ _ (unless_null_run cq _ _ _ _ Hcq H3)). exact (unless_null_run pd _ _ _ _ Hpd H4).
Qed.

(** The test that expects a refusal crashes without it.  [test_intercept_ebpf.c] ends
    with exit code 0 whenever the quota leaves less than three regions or three QPs, whether
    it got the two QPs it counts on or not, and gives everything back; when a third QP is
    created, which it is there to report, the program destroys it twice. *)
Theorem ebpf_test_crashes_unrefused buf1 buf2 buf3 :
  buf1 ≠ 0 → buf2 ≠ 0 → buf3 ≠ 0 →
  if (3 <=? left) && (3 <=? room) then intercept_ebpf x dev (buf1, buf2, buf3) t0 = Crash
  else ∃ t', intercept_ebpf x dev (buf1, buf2, buf3) t0 =
      Ret (0, if (3 <=? left) && (room =? 2) then Some true else None) t' ∧ holds qps a0 tid t0 0 0 t'.
Proof using All.
  intros Hb1 Hb2 Hb3. destruct (objects_run 30) as (pd & cq & t1 & t2 & H1 & H2 & Hpd & Hcq & Hu).
  assert (Hleft : 0 ≤ left) by (unfold mr_left; destruct (size_fits _ _); lia).
  assert (Hroom : 0 ≤ room) by (unfold qp_room; lia).
  destruct (obtain_run (λ buf, ibv_reg_mr x pd buf 4096 IBV_ACCESS_LOCAL_WRITE) (uses 0) left
    (λ buf m t, region_step pd 0 buf m t) [buf1; buf2; buf3] 0 t2 Hu)
    as (ms & t3 & H3 & Hu3 & Hlm & Hnm); [lia|].
  change (Z.of_nat (length [buf1; buf2; buf3])) with 3 in *.
  unfold intercept_ebpf. rw Hdev (proj2 (Z.eqb_neq _ _) Hctx). cbn [negb].
  rw (bind_Ret _ _ _ _ _ H1) (proj2 (Z.eqb_neq _ _) Hpd) (bind_Ret _ _ _ _ _ H2) (proj2 (Z.eqb_neq _ _) Hcq).
  rw (proj2 (Z.eqb_neq _ _) Hb1) (proj2 (Z.eqb_neq _ _) Hb2) (proj2 (Z.eqb_neq _ _) Hb3). cbn [orb].
  rw (bind_Ret _ _ _ _ _ H3). cbn [fst snd]. rw Z.sub_0_r in Hnm, Hu3 |- *. cbn [Z.add] in Hu3. rw -Hnm in Hu3.
  destruct (Z.leb_spec 3 left) as [Hl3|Hl3]; cbn [negb andb]; cycle 1.
  { destruct (tests_cleaned [] ms cq pd t3 (proj1 Hu3)) as (t4 & H4 & Hh4); [constructor|done..|].
    exists t4. by rw (bind_Ret _ _ _ _ _ H4). }
  destruct (obtain_run (λ _ : Z, ibv_create_qp x pd (Some qp_attr)) (λ k, uses k (Z.of_nat (length ms))) room
    (λ _ k t, qp_step pd _ k t) [1; 2] 0 t3 Hu3) as (ps & t4 & H4 & Hu4 & Hlp & Hnp); [lia|].
  change (Z.of_nat (length [1; 2])) with 2 in *.
  rw (bind_Ret _ _ _ _ _ H4). cbn [fst snd]. rw Z.sub_0_r in Hnp, Hu4 |- *. cbn [Z.add] in Hu4. rw -Hnp in Hu4.
  destruct (Z.leb_spec 2 room) as [Hr2|Hr2]; cbn [negb]; cycle 1.
  { rw (proj2 (Z.leb_gt 3 room)); [lia|]. rw (proj2 (Z.eqb_neq room 2)); [lia|].
    destruct (tests_cleaned ps ms cq pd t4 (proj1 Hu4)) as (t5 & H5 & Hh5); [done..|].
    exists t5. by rw (bind_Ret _ _ _ _ _ H5). }
  assert (Hps : Z.of_nat (length ps) = 2) by lia. rw Hps in Hu4.
  destruct (qp_step pd _ 2 t4 Hu4) as (h & t5 & H5 & Hif); [lia|]. rw (bind_Ret _ _ _ _ _ H5).
  destruct (Z.ltb_spec 2 room) as [Hlt|Hge].
  - destruct Hif as [Hne Hu5]. rw (proj2 (Z.eqb_neq _ _) Hne) (proj2 (Z.leb_le 3 room)); [lia|].
    destruct (qp_back _ h 3 t5 (proj1 Hu5)) as (r6 & t6 & H6 & Hh6); [lia|].
    rw (bind_Ret _ _ t5 tt t6); [by rw (bind_Ret _ _ _ _ _ H6)|].
    destruct (give_all_back_run (ibv_destroy_qp x) (λ k, holds qps a0 tid t0 k (Z.of_nat (length ms)))
      (qp_back (Z.of_nat (length ms))) ps _ t6 Hlp Hh6) as (t7 & H7 & _); [lia|].
    unfold cleanup, mbind, M_bind. by rw (give_back_last _ _ Freed _ _ H7).
  - destruct Hif as [-> Hu5]. cbn [Z.eqb]. rw (proj2 (Z.leb_gt 3 room)); [lia|]. rw (proj2 (Z.eqb_eq room 2)); [lia|].
    rw (bind_Ret _ _ t5 tt t5); [done|].
    destruct (tests_cleaned ps ms cq pd t5) as (t6 & H6 & Hh6); [rw Hps; apply Hu5|done..|].
    exists t6. split; [|done]. apply bind_inv in H6 as ([] & t7 & H7 & H8).
    unfold cleanup. rw (bind_Ret _ _ t5 tt t6); [|done].
    rw (bind_Ret _ _ t5 tt t7); [by rw (give_back_last _ _ Null _ _ H7)|done].
Qed.

(** [test_shm_version.c] shows what the quota leaves and gives it back, but reports a failure
    of the shared memory whatever there is: it looks for an object of another name than
    those of the library. *)
Theorem shm_version_always_fails objects maps buf :
  objects ⊆ SHM_NAMES → buf ≠ 0 →
  ∃ t', shm_version x dev objects maps 0 buf t0 =
      Ret (0, -1, Some (mk_resources true (0 <? room) (0 <? left))) t' ∧ holds qps a0 tid t0 0 0 t'.
Proof using All.
  intros Hobj Hbuf. destruct (objects_run 10) as (pd & cq & t1 & t2 & H1 & H2 & Hpd & Hcq & Hu).
  assert (Hleft : 0 ≤ left) by (unfold mr_left; destruct (size_fits _ _); lia).
  assert (Hroom : 0 ≤ room) by (unfold qp_room; lia).
  assert (Hshm : test_shared_memory objects maps = -1).
  { unfold test_shared_memory. rw bool_decide_eq_false_2; [|done]. intros Hin%Hobj.
    unfold SHM_NAMES in Hin. set_solver. }
  destruct (qp_step pd 0 0 t2 Hu Hroom) as (qp & t3 & H3 & Hqp).
  assert (∃ t4, unless_null qp (ibv_destroy_qp x qp) t3 = Ret tt t4 ∧ holds qps a0 tid t0 0 0 t4 ∧
    negb (qp =? 0) = (0 <? room)) as (t4 & H4 & Hh4 & Hgot).
  { destruct (0 <? room); destruct Hqp as [Hz Hu3].
    - destruct (qp_back 0 qp 1 t3 (proj1 Hu3)) as (r & t4 & H4 & Hh4); [done|]. exists t4.
      split_and!; [exact (unless_null_run qp _ _ _ _ Hz H4)|done|by rw (proj2 (Z.eqb_neq _ _) Hz)].
    - subst qp. exists t3. split_and!; [done|apply Hu3|done]. }
  destruct (aside_destroyed x qps Hq a0 tid v0 t0 Hp "ibv_destroy_cq" (DestroyCq cq) 3 0 0 t4 Hh4)
    as (r5 & t5 & H5 & Hh5 & _); [done|by apply is_hook|done..|].
  destruct (registered x qps Hq Hg a0 tid v0 t0 Hp 0 0 t5 pd buf Hh5 Hleft) as (mr & t6 & H6 & Hmr & _).
  change TEST_MR_SIZE with 4096 in H6, Hmr.
  assert (∃ t7, unless_null mr (ibv_dereg_mr x mr) t6 = Ret tt t7 ∧ holds qps a0 tid t0 0 0 t7 ∧
    negb (mr =? 0) = (0 <? left)) as (t7 & H7 & Hh7 & Hgot').
  { destruct (0 <? left); destruct Hmr as [Hz Hh6].
    - destruct (region_back 0 mr 1 t6 Hh6) as (r & t7 & H7 & Hh7); [done|]. exists t7.
      split_and!; [exact (unless_null_run mr _ _ _ _ Hz H7)|done|by rw (proj2 (Z.eqb_neq _ _) Hz)].
    - subst mr. by exists t6. }
  destruct (aside_destroyed x qps Hq a0 tid v0 t0 Hp "ibv_dealloc_pd" (DeallocPd pd) 4 0 0 t7 Hh7)
    as (r8 & t8 & H8 & Hh8 & _); [done|by apply is_hook|done..|].
  exists t8. split; [|done]. unfold shm_version. rw Hshm.
  rw (bind_Ret _ _ t0 (0, Some (mk_resources true (0 <? room) (0 <? left))) t8); [|done].
  unfold test_rdma_resources. rw Hdev (proj2 (Z.eqb_neq _ _) Hctx). cbn [negb Z.eqb].
  rw (bind_Ret _ _ _ _ _ H1) (proj2 (Z.eqb_neq _ _) Hpd) (bind_Ret _ _ _ _ _ H2) (proj2 (Z.eqb_neq _ _) Hcq).
  rw (bind_Ret _ _ t2 qp t5).
  { rw (bind_Ret _ _ _ _ _ H3) (bind_Ret _ _ _ _ _ H4). by rw (bind_Ret _ _ _ _ _ H5). }
  rw (proj2 (Z.eqb_neq _ _) Hbuf) (bind_Ret _ _ t5 mr t7); [by rw (bind_Ret _ _ _ _ _ H6) (bind_Ret _ _ _ _ _ H7)|].
  rw (bind_Ret _ _ _ _ _ H8). by rw Hgot Hgot'.
Qed.
End Runs.

(** ** Example: three QPs are allowed *)

Definition generous_setup : list TenantProps.call :=
  [Create 3 None (Some (Tenant.mk_quota 3 10 (2 ^ 30) 10 10)); Bind 100 3].

Definition generous_view : tview :=
  mk_view "unnamed" Tenant.TENANT_STATUS_ACTIVE (Tenant.mk_quota 3 10 (2 ^ 30) 10 10) Tenant.usage_zero.

#[local] Opaque example_tenant.

Lemma generous_tenant :
  tenant_process (spec_store generous_setup empty_store) 3 generous_view (example generous_setup 100).
Proof.
  apply example_process; [repeat constructor; cbn; lia|done|vm_compute; reflexivity|vm_compute; reflexivity|done|done].
Qed.

Lemma ebpf_test_crashes_unrefused_witness :
  intercept_ebpf toy (mk_device true 7) (1, 2, 3) (example generous_setup 100) = Crash.
Proof.
  exact (ebpf_test_crashes_unrefused toy Z.of_nat toy_counts toy_generous (spec_store generous_setup empty_store) 3
    generous_view (example generous_setup 100) generous_tenant (example_controlled _ _) (example_published _ _)
    eq_refl (mk_device true 7) eq_refl ltac:(discriminate) 1 2 3 ltac:(discriminate) ltac:(discriminate)
    ltac:(discriminate)).
Defined.
End ResourceTests.
