(* ===== verification/HookTests.v ===== *)
(** * The tests of the interception

    Two programs of [src/tests] that run under the library: [test_intercept_functionality.c],
    which tries to exceed the limit of a process and the quota of a tenant, and
    [test_global_limit.c].  The environment variables, the files and the device are what
    the system gives them; messages are left out, except the lines of the log that are
    shown. *)

From S2P Require Import Prelude CString Intercept Core CollectorServer CollectorClient LocalPolicy.
From S2P Require Import SlotTable ShmProcess ShmTenant TenantProps TenantSpec HookBase HooksTenant.
From S2P Require Import HooksTenantProps TenantQuota Isolation Churn.

Module HookTests.
Import TenantProps TenantSpec.
Import Intercept Core CollectorClient LocalPolicy HookBase HooksTenant HooksTenantProps TenantQuota.
Import Isolation Churn.
#[local] Existing Instances Tenant.expand_usage Tenant.expand_info Tenant.expand_shm Tenant.expand_state.

Section Programs.
Context {Srv D : Type} (x : externals Srv D) (dev : device).
Context (getenv : string → option string) (files : string → option string).
#[local] Abbreviation program := (M (thooks Srv D) Z).

(** ** [test_intercept_functionality.c] *)

(** [TEST_ASSERT]: the test function returns -1 when the condition fails. *)
Definition test_assert (cond : bool) (k : program) : program := if cond then k else mret (-1).

Definition check_rdma_device : Z := if dev_found dev then 0 else -1.

Definition test_basic_qp_creation : program :=
  if negb (check_rdma_device =? 0) then mret 0 else
  pd ← ibv_alloc_pd x (dev_context dev);
  cq ← ibv_create_cq x (dev_context dev) 10 0 0 0;
  qp ← ibv_create_qp x pd (Some qp_attr);
  test_assert (negb (qp =? 0)) (
  (if negb (qp =? 0) then ibv_destroy_qp x qp;; mret tt else mret tt);;
  ibv_destroy_cq x cq;;
  ibv_dealloc_pd x pd;;
  mret 0).

Definition test_intercept_library_loaded : Z :=
  match getenv "LD_PRELOAD" with
  | Some ld_preload => match strstr "librdma_intercept" ld_preload with Some _ => 0 | None => -1 end
  | None => -1
  end.

(** At most [n] QPs, until one is refused; the handles are not kept. *)
Fixpoint create_until_refused (pd : Z) (n : nat) (created : Z) : program :=
  match n with
  | O => mret created
  | S n' =>
      qp ← ibv_create_qp x pd (Some qp_attr);
      if negb (qp =? 0) then create_until_refused pd n' (created + 1) else mret created
  end.

Definition max_qp : Z :=
  match getenv "RDMA_INTERCEPT_MAX_QP_PER_PROCESS" with Some v => atoi v | None => 0 end.

(** [max_qp + 3] is computed as an [int]. *)
Definition test_qp_limit_enforcement : program :=
  if negb (check_rdma_device =? 0) then mret 0 else
  if max_qp <=? 0 then mret 0 else
  pd ← ibv_alloc_pd x (dev_context dev);
  cq ← ibv_create_cq x (dev_context dev) 10 0 0 0;
  if 2 ^ 31 <=? max_qp + 3 then crash else
  created ← create_until_refused pd (Z.to_nat (max_qp + 3)) 0;
  ibv_destroy_cq x cq;;
  ibv_dealloc_pd x pd;;
  mret (if created <=? max_qp then 0 else -1).

Definition test_tenant_qp_limit : program :=
  if negb (check_rdma_device =? 0) then mret 0 else
  match getenv "RDMA_TENANT_ID" with
  | None => mret 0
  | Some tenant_id_str =>
      if atoi tenant_id_str =? 0 then mret 0 else
      pd ← ibv_alloc_pd x (dev_context dev);
      cq ← ibv_create_cq x (dev_context dev) 10 0 0 0;
      create_until_refused pd 20 0;;
      ibv_destroy_cq x cq;;
      ibv_dealloc_pd x pd;;
      mret 0
  end.

(** The result, and the lines of the log it shows. *)
Definition test_intercept_logging : Z * list string :=
  let log_file := default "/tmp/rdma_intercept.log"%string (getenv "RDMA_INTERCEPT_LOG_FILE_PATH") in
  match files log_file with
  | Some text => (0, take 5 (fgets_lines 256 text))
  | None => (0, [])
  end.

(** The exit code is the number of tests that failed; that the library is not loaded is
    not counted. *)
Definition main : program :=
  r2 ← test_basic_qp_creation;
  r3 ← test_qp_limit_enforcement;
  r4 ← test_tenant_qp_limit;
  mret (Z.of_nat (length (filter (λ r, r ≠ 0) [r2; r3; r4; fst test_intercept_logging]))).

(** ** [test_global_limit.c] *)

(** What is left to do at the label [cleanup]: the QP and the region (null: none), the
    queue and the domain. *)
Definition cleanup (qp mr cq pd : Z) : program :=
  (if negb (qp =? 0) then ibv_destroy_qp x qp;; mret tt else mret tt);;
  (if negb (mr =? 0) then ibv_dereg_mr x mr;; mret tt else mret tt);;
  (if negb (cq =? 0) then ibv_destroy_cq x cq;; mret tt else mret tt);;
  (if negb (pd =? 0) then ibv_dealloc_pd x pd;; mret tt else mret tt);;
  mret 0.

(** [buf] is what [malloc] returns.  Without a queue the clean-up tests a pointer that
    was never set; without a region it frees the buffer a second time. *)
Definition global_limit_test (buf : Z) : program :=
  if negb (dev_found dev) then mret 1 else
  let context := dev_context dev in
  if context =? 0 then mret 1 else
  pd ← ibv_alloc_pd x context;
  if pd =? 0 then mret 1 else
  cq ← ibv_create_cq x context 10 0 0 0;
  if cq =? 0 then crash else
  if buf =? 0 then cleanup 0 0 cq pd else
  mr ← ibv_reg_mr x pd buf 4096 IBV_ACCESS_LOCAL_WRITE;
  if mr =? 0 then crash else
  qp ← ibv_create_qp x pd (Some small_attr);
  if qp =? 0 then cleanup 0 mr cq pd else
  ibv_create_qp x pd (Some small_attr);;
  qp3 ← ibv_create_qp x pd (Some small_attr);
  (if negb (qp3 =? 0) then ibv_destroy_qp x qp3;; mret tt else mret tt);;
  cleanup qp mr cq pd.
End Programs.

(** ** Creating until refused *)

Section Loop.
Context {Srv D : Type} (x : externals Srv D) (pd : Z).
Context `{Hm : !Meter (λ _, ibv_create_qp x pd (Some qp_attr)) destroy filling holding room}.

Lemma create_until_run n : ∀ k c t,
  filling k t → k ≤ room →
  let m := Z.min (Z.of_nat n) (room - k) in
  ∃ t', create_until_refused x pd n c t = Ret (c + m) t' ∧ filling (k + m) t'.
Proof using Hm.
  induction n as [|n IH]; intros k c t Hf Hk m.
  { exists t. assert (m = 0) as -> by (unfold m; lia). by rw !Z.add_0_r. }
  cbn [create_until_refused]. destruct (decide (k = room)) as [->|Hne].
  - destruct (meter_refuse (Meter := Hm) 0 room t Hf (Z.le_refl room)) as (t1 & Hrun & _ & Hf1). exists t1.
    rw (bind_Ret _ _ _ _ _ Hrun). assert (m = 0) as -> by (unfold m; lia). by rw !Z.add_0_r.
  - destruct (meter_grant (Meter := Hm) 0 k t Hf ltac:(lia)) as (h & t1 & Hrun & Hh & Hf1).
    destruct (IH (k + 1) (c + 1) t1 Hf1 ltac:(lia)) as (t2 & Hrun2 & Hf2). exists t2.
    rw (bind_Ret _ _ _ _ _ Hrun) (proj2 (Z.eqb_neq _ _) Hh). cbn [negb]. split.
    + rw Hrun2. f_equal. unfold m. lia.
    + replace (k + m) with (k + 1 + Z.min (Z.of_nat n) (room - (k + 1))) by (unfold m; lia). done.
Qed.
End Loop.

Section Tests.
Context {Srv D : Type} (x : externals Srv D) (qps : D → Z) (Hq : counts_qps x qps) (Hg : generous x qps).
Implicit Types (t : thooks Srv D) (a : store).

(** An idle process has room for a QP. *)
Lemma idle_room a tid v t :
  tenant_process a tid v t → idle qp_attr a tid (figure 0 (v_usage v)) t → controlled_process t →
  0 < qp_room v t.
Proof.
  intros Hp [(w & Hw & _ & Hr) Hc _ _ _] Hctl.
  pose proof (tp_active _ _ _ _ Hw) as Hact. rw (tp_active _ _ _ _ Hp) in Hact. injection Hact as <-.
  destruct (Hc (proj1 Hctl)) as (_ & _ & H2). unfold qp_room, process_limit.
  destruct (mapped t); [specialize (H2 eq_refl); lia|].
  destruct (tp_quota _ _ _ _ Hp) as [Hu _]. pose proof (figure_range 0 (v_usage v)).
  unfold is_u32, UINT32_MAX in *. lia.
Qed.

(** The first QP after the ones that were given back. *)
Lemma first_creation pd a tid v t :
  tenant_process a tid v t → idle qp_attr a tid (figure 0 (v_usage v)) t → controlled_process t →
  ∃ h t', ibv_create_qp x pd (Some qp_attr) t = Ret h t' ∧ h ≠ 0 ∧ qp_filling qps a tid v t 1 t'.
Proof using Hq Hg.
  intros Hp Hi Hctl. pose proof (idle_allowed qp_attr a tid _ t Hi) as Hal.
  pose proof Hi as [_ _ Hcnt Hroom _].
  pose proof (tp_ok _ _ _ _ Hp) as Hok. destruct (tp_live _ _ _ _ Hp) as [He Hreal].
  destruct (create_qp_run x a t pd qp_attr Hok He (Hreal _ (is_hook "ibv_create_qp" eq_refl)))
    as (t1 & Hrun & Hok1 & Hk & Hd & Hc1 & _ & _ & Hpub).
  set (o := x_driver x _ _) in *. pose proof (gn_qp _ _ Hg pd (drv (base t))) as Hne. fold o in Hne.
  pose proof (qps_create _ _ Hq pd (Some qp_attr) (drv (base t))) as Hn. cbv zeta in Hn. fold o in Hn.
  rw Hal in Hrun, Hok1, Hd, Hc1, Hpub. rw (proj2 (Z.eqb_neq _ _) Hne) in Hok1, Hc1, Hn, Hpub.
  cbn [negb andb] in *. exists (ret o), t1. split_and!; [done|done|].
  refine (conj _ (conj (Hpub eq_refl Hroom) (conj _ (conj _ _)))); [|by rw Hc1 Hcnt|lia|].
  - pose proof (idle_room a tid v t Hp Hi Hctl). lia.
  - exists (counted tid 0 1 a). split_and!; [|done| |by rw Hd Hn].
    + unfold tenant_of in Hok1. by rw (tp_owner _ _ _ _ Hp) in Hok1.
    + apply (bill_counted 0 a tid 0 a 0 1); [by left|by eapply bill_start, Hp].
Qed.

Section Filling.
Context (a0 : store) (tid : Z) (v0 : tview) (t0 : thooks Srv D) (Hp : tenant_process a0 tid v0 t0).
#[local] Abbreviation filling := (qp_filling qps a0 tid v0 t0).

(** Other objects are created and destroyed with the QPs still there. *)
Lemma filling_aside k t t' a' :
  filling k t → tok a' t' → kept t0 t' → bill 0 a0 tid k a' → kept t t' →
  qps (drv (base t')) = qps (drv (base t)) → hg (base t') = hg (base t) → pshm (base t') = pshm (base t) →
  filling k t'.
Proof.
  intros (Hk & Hcp & Hc & H0 & a & _ & _ & _ & Hd) Hok Hkt Hb Hkk Hd' Hg' Hs'.
  refine (conj Hk (conj _ (conj _ (conj H0 _)))); [|by rw Hg'|].
  - apply (published_same t); [done|done|by rw (kp_pid _ _ Hkk)|done].
  - exists a'. split_and!; [done..|]. by rw Hd'.
Qed.

Lemma kept_from t t' : kept t0 t → kept t0 t' → kept t t'.
Proof. intros [] []. split; congruence. Qed.

Lemma objects_filling ctx n k t :
  filling k t → ∃ pd cq t1 t2, ibv_alloc_pd x ctx t = Ret pd t1 ∧ ibv_create_cq x ctx n 0 0 0 t1 = Ret cq t2 ∧
    filling k t2.
Proof using Hq Hp.
  intros Hf. pose proof Hf as (_ & _ & _ & _ & a & Hok & Hkt & Hb & _).
  destruct (created_aside x qps Hq a0 tid v0 t0 Hp 0 k "ibv_alloc_pd" (AllocPd ctx) 4 a t)
    as (t1 & a1 & Hrun1 & Hok1 & Hk1 & Hb1 & Hd1 & Hg1 & Hs1); try done; [by left|by apply is_hook|].
  destruct (created_aside x qps Hq a0 tid v0 t0 Hp 0 k "ibv_create_cq" (CreateCq ctx n 0 0 0) 3 a1 t1)
    as (t2 & a2 & Hrun2 & Hok2 & Hk2 & Hb2 & Hd2 & Hg2 & Hs2); try done; [by left|by apply is_hook|].
  eexists _, _, t1, t2. split_and!; [exact Hrun1|exact Hrun2|].
  eapply (filling_aside k t); [done..|by eapply kept_from|by rw Hd2 Hd1|by rw Hg2 Hg1|by rw Hs2 Hs1].
Qed.

Lemma objects_unfilling pd cq k t :
  filling k t → ∃ r t1 r' t2, ibv_destroy_cq x cq t = Ret r t1 ∧ ibv_dealloc_pd x pd t1 = Ret r' t2 ∧
    filling k t2.
Proof using Hq Hp.
  intros Hf. pose proof Hf as (_ & _ & _ & _ & a & Hok & Hkt & Hb & _).
  destruct (destroyed_aside x qps Hq a0 tid v0 t0 Hp 0 k "ibv_destroy_cq" (DestroyCq cq) 3 a t)
    as (r & t1 & a1 & Hrun1 & Hok1 & Hk1 & Hb1 & Hd1 & Hg1 & Hs1); try done; [by left|by apply is_hook|].
  destruct (destroyed_aside x qps Hq a0 tid v0 t0 Hp 0 k "ibv_dealloc_pd" (DeallocPd pd) 4 a1 t1)
    as (r' & t2 & a2 & Hrun2 & Hok2 & Hk2 & Hb2 & Hd2 & Hg2 & Hs2); try done; [by left|by apply is_hook|].
  exists r, t1, r', t2. split_and!; [exact Hrun1|exact Hrun2|].
  eapply (filling_aside k t); [done..|by eapply kept_from|by rw Hd2 Hd1|by rw Hg2 Hg1|by rw Hs2 Hs1].
Qed.
End Filling.

(** ** The tests, one by one *)

Section Runs.
Context (dev : device) (Hdev : dev_found dev = true) (getenv files : string → option string).

Lemma basic_test_run a tid used t :
  idle qp_attr a tid used t →
  ∃ a' t', test_basic_qp_creation x dev t = Ret 0 t' ∧ idle qp_attr a' tid used t' ∧ restored qps a tid t a' t'.
Proof using Hq Hg Hdev.
  intros Hi. destruct (objects_idle x qps Hq qp_attr (dev_context dev) 10 a tid used t Hi)
    as (pd & cq & t1 & t2 & a2 & Hrun1 & Hrun2 & Hi2 & Hr2).
  destruct (try_idle x qps Hq Hg qp_attr (gn_qp _ _ Hg) a2 tid used pd t2 Hi2) as (a3 & t3 & Hrun3 & Hi3 & Hr3).
  destruct (objects_destroyed x qps Hq qp_attr pd cq a3 tid used t3 Hi3)
    as (r5 & t5 & r6 & t6 & a6 & Hrun5 & Hrun6 & Hi6 & Hr6).
  exists a6, t6. split_and!; [|exact Hi6|by eapply restored_trans; [exact Hr2|eapply restored_trans]].
  unfold try_create_qp in Hrun3. apply bind_inv in Hrun3 as (h & t4 & Hc & Hd).
  unfold test_basic_qp_creation, check_rdma_device. rw Hdev. cbn [Z.eqb negb].
  rw (bind_Ret _ _ _ _ _ Hrun1) (bind_Ret _ _ _ _ _ Hrun2) (bind_Ret _ _ _ _ _ Hc).
  destruct (negb (h =? 0)); [|by injection Hd]. cbn [test_assert]. apply bind_inv in Hd as (r & t4' & Hd & [= ->]).
  rw (bind_Ret _ _ _ tt t3); [by rw (bind_Ret _ _ _ _ _ Hd)|].
  by rw (bind_Ret _ _ _ _ _ Hrun5) (bind_Ret _ _ _ _ _ Hrun6).
Qed.

(** The test of the limit creates as many QPs as there is room for, three more than the
    limit at most, and keeps them; it passes when they are not more than the limit. *)
Lemma limit_run a tid v t :
  tenant_process a tid v t → idle qp_attr a tid (figure 0 (v_usage v)) t → controlled_process t →
  0 < max_qp getenv < 2 ^ 31 - 3 →
  let m := Z.min (max_qp getenv + 3) (qp_room v t) in
  ∃ a0 v0 t0 t', test_qp_limit_enforcement x dev getenv t = Ret (if m <=? max_qp getenv then 0 else -1) t' ∧
    tenant_process a0 tid v0 t0 ∧
    controlled_process t0 ∧ restored qps a tid t a0 t0 ∧ qp_room v0 t0 = qp_room v t ∧
    qp_filling qps a0 tid v0 t0 m t'.
Proof using Hq Hg Hdev.
  intros Hp Hi Hctl [Hmax Hlt] m.
  destruct (objects_idle x qps Hq qp_attr (dev_context dev) 10 a tid _ t Hi)
    as (pd & cq & t1 & t2 & a2 & Hrun1 & Hrun2 & Hi2 & Hr2).
  destruct (id_process _ _ _ _ _ Hi2) as (v2 & Hp2 & Hu2 & Hv2).
  pose proof Hr2 as [Hb2 Hk2 _].
  assert (Hctl2 : controlled_process t2) by (unfold controlled_process; by rw (kp_cfg _ _ Hk2) (kp_global _ _ Hk2)).
  assert (Hroom : qp_room v2 t2 = qp_room v t).
  { destruct Hb2 as [_ _ (w & w2 & Hw & Hw2 & Hqt & _)].
    rw (tp_active _ _ _ _ Hp) in Hw. injection Hw as <-. rw (tp_active _ _ _ _ Hp2) in Hw2. injection Hw2 as <-.
    by apply qp_room_kept. }
  rw -Hu2 in Hi2. destruct (first_creation pd a2 tid v2 t2 Hp2 Hi2 Hctl2) as (h & t3 & Hrun3 & Hh & Hf3).
  assert (H1 : 1 ≤ qp_room v2 t2) by apply Hf3.
  pose proof (qp_meter x qps Hq Hg a2 tid v2 t2 Hp2 Hctl2 pd) as Hm.
  set (n := Z.to_nat (max_qp getenv + 2)).
  destruct (create_until_run x pd (Hm := Hm) n 1 1 t3 Hf3 H1) as (t4 & Hrun4 & Hf4).
  replace (1 + Z.min (Z.of_nat n) (qp_room v2 t2 - 1)) with m in Hrun4, Hf4 by lia.
  destruct (objects_unfilling a2 tid v2 t2 Hp2 pd cq _ t4 Hf4) as (r5 & t5 & r6 & t6 & Hrun5 & Hrun6 & Hf6).
  exists a2, v2, t2, t6. split_and!; [|done|done|done|done|exact Hf6].
  unfold test_qp_limit_enforcement, check_rdma_device. rw Hdev (proj2 (Z.leb_gt (max_qp getenv) 0)); [lia|].
  cbn [Z.eqb negb]. rw (bind_Ret _ _ _ _ _ Hrun1) (bind_Ret _ _ _ _ _ Hrun2) (proj2 (Z.leb_gt _ _)); [lia|].
  replace (Z.to_nat (max_qp getenv + 3)) with (S n) by lia.
  rw (bind_Ret _ _ t2 m t4).
  { cbn [create_until_refused]. rw (bind_Ret _ _ _ _ _ Hrun3) (proj2 (Z.eqb_neq _ _) Hh). exact Hrun4. }
  by rw (bind_Ret _ _ _ _ _ Hrun5) (bind_Ret _ _ _ _ _ Hrun6).
Qed.

(** With the room filled the test of the tenant creates nothing. *)
Lemma tenant_run a0 tid v0 t0 t :
  tenant_process a0 tid v0 t0 → controlled_process t0 → qp_filling qps a0 tid v0 t0 (qp_room v0 t0) t →
  ∃ t', test_tenant_qp_limit x dev getenv t = Ret 0 t' ∧ qp_filling qps a0 tid v0 t0 (qp_room v0 t0) t'.
Proof using Hq Hg Hdev.
  intros Hp Hctl Hf. unfold test_tenant_qp_limit, check_rdma_device. rw Hdev. cbn [Z.eqb negb].
  destruct (getenv "RDMA_TENANT_ID") as [s|]; [|by exists t]. destruct (atoi s =? 0); [by exists t|].
  destruct (objects_filling a0 tid v0 t0 Hp (dev_context dev) 10 _ t Hf)
    as (pd & cq & t1 & t2 & Hrun1 & Hrun2 & Hf2).
  pose proof (qp_meter x qps Hq Hg a0 tid v0 t0 Hp Hctl pd) as Hm.
  destruct (create_until_run x pd (Hm := Hm) 20 _ 0 t2 Hf2 (Z.le_refl _)) as (t4 & Hrun4 & Hf4).
  rw Z.sub_diag in Hrun4, Hf4. change (Z.min (Z.of_nat 20) 0) with 0 in Hrun4, Hf4. rw Z.add_0_r in Hf4.
  destruct (objects_unfilling a0 tid v0 t0 Hp pd cq _ t4 Hf4) as (r5 & t5 & r6 & t6 & Hrun5 & Hrun6 & Hf6).
  exists t6. split; [|exact Hf6].
  rw (bind_Ret _ _ _ _ _ Hrun1) (bind_Ret _ _ _ _ _ Hrun2) (bind_Ret _ _ _ _ _ Hrun4).
  by rw (bind_Ret _ _ _ _ _ Hrun5) (bind_Ret _ _ _ _ _ Hrun6).
Qed.

(** C26: the test of the interception passes, and leaks what it creates: when the room the
    library leaves is at most the limit in the environment, the test of the limit creates as
    many QPs as the tenant's quota and the limit of the process allow, and no more; it
    never destroys them, so that the test of the tenant after it creates none, and at the
    end the driver and the tenant's count have that many QPs more than before. *)
Theorem interception_test_leaks a tid v t :
  tenant_process a tid v t → idle qp_attr a tid (figure 0 (v_usage v)) t → controlled_process t →
  qp_room v t ≤ max_qp getenv → max_qp getenv < 2 ^ 31 - 3 →
  ∃ t' a', main x dev getenv files t = Ret 0 t' ∧ 0 < qp_room v t ∧
    tok a' t' ∧ bill 0 a tid (qp_room v t) a' ∧ qps (drv (base t')) = qps (drv (base t)) + qp_room v t.
Proof using Hq Hg Hdev.
  intros Hp Hi Hctl Hmax Hlt. assert (Hpos : 0 < qp_room v t) by by apply (idle_room a tid).
  destruct (basic_test_run a tid _ t Hi) as (a1 & t1 & Hrun1 & Hi1 & Hr1).
  destruct (id_process _ _ _ _ _ Hi1) as (v1 & Hp1 & Hu1 & _). pose proof Hr1 as [Hb1 Hk1 Hd1].
  assert (Hroom1 : qp_room v1 t1 = qp_room v t).
  { destruct Hb1 as [_ _ (w & w1 & Hw & Hw1 & Hqt & _)].
    rw (tp_active _ _ _ _ Hp) in Hw. injection Hw as <-. rw (tp_active _ _ _ _ Hp1) in Hw1. injection Hw1 as <-.
    by apply qp_room_kept. }
  rw -Hu1 in Hi1. destruct (limit_run a1 tid v1 t1 Hp1 Hi1) as
    (a0 & v0 & t0 & t2 & Hrun2 & Hp0 & Hctl0 & [Hb0 Hk0 Hd0] & Hroom0 & Hf2); [|lia|].
  { unfold controlled_process. by rw (kp_cfg _ _ Hk1) (kp_global _ _ Hk1). }
  replace (Z.min _ _) with (qp_room v0 t0) in Hrun2, Hf2 by lia. rw (proj2 (Z.leb_le (qp_room v0 t0) _)) in Hrun2; [lia|].
  destruct (tenant_run a0 tid v0 t0 t2 Hp0 Hctl0 Hf2) as (t3 & Hrun3 & Hf3).
  destruct Hf3 as (_ & _ & _ & _ & a3 & Hok3 & _ & Hb3 & Hd3).
  exists t3, a3. rw Hroom0 Hroom1 in Hb3, Hd3. split_and!; [|done|done| |by rw Hd3 Hd0 Hd1].
  - unfold main. rw (bind_Ret _ _ _ _ _ Hrun1) (bind_Ret _ _ _ _ _ Hrun2) (bind_Ret _ _ _ _ _ Hrun3).
    unfold test_intercept_logging. by destruct (files _).
  - exact (bill_trans 0 a tid 0 a1 _ a3 Hb1 (bill_trans 0 a1 tid 0 a0 _ a3 Hb0 Hb3)).
Qed.

(** While the process shared memory is not mapped, which is what the library makes of it
    without the monitor, the limit of a process is not enforced, and the test that looks
    for it says so: it creates three QPs more than the limit when the quota leaves them. *)
Lemma unmapped_limit_not_enforced a tid v t :
  tenant_process a tid v t → idle qp_attr a tid (figure 0 (v_usage v)) t → controlled_process t →
  mapped t = false → 0 < max_qp getenv < 2 ^ 31 - 3 →
  max_qp getenv < Tenant.max_qp_per_tenant (v_quota v) - figure 0 (v_usage v) →
  ∃ t', test_qp_limit_enforcement x dev getenv t = Ret (-1) t' ∧
    qps (drv (base t')) = qps (drv (base t)) +
      Z.min (max_qp getenv + 3) (Tenant.max_qp_per_tenant (v_quota v) - figure 0 (v_usage v)).
Proof using Hq Hg Hdev.
  intros Hp Hi Hctl Hm Hmax Hleft.
  destruct (limit_run a tid v t Hp Hi Hctl Hmax) as (a0 & v0 & t0 & t' & Hrun & _ & _ & [_ _ Hd0] & _ & Hf).
  assert (Hroom : qp_room v t = Tenant.max_qp_per_tenant (v_quota v) - figure 0 (v_usage v)).
  { destruct (tp_quota _ _ _ _ Hp) as [Hu _]. pose proof (figure_range 0 (v_usage v)).
    unfold qp_room, process_limit. rw Hm. unfold is_u32, UINT32_MAX in *. lia. }
  rw Hroom in Hrun, Hf. destruct Hf as (_ & _ & _ & _ & a' & _ & _ & _ & Hd).
  exists t'. rw (proj2 (Z.leb_gt _ _)) in Hrun; [lia|]. by rw Hd Hd0.
Qed.
End Runs.

(** The test of the global limit, in a tenant that has no room for the region: the
    refusal, which is what the library is for, makes the program free its buffer twice. *)
Lemma refused_region_frees_twice dev buf a tid v t :
  dev_found dev = true → dev_context dev ≠ 0 → buf ≠ 0 →
  tenant_process a tid v t → mr_left 4096 v = 0 → global_limit_test x dev buf t = Crash.
Proof using Hq Hg.
  intros Hdev Hctx Hbuf Hp Hleft. set (ctx := dev_context dev) in *.
  destruct (created_aside x qps Hq a tid v t Hp 1 0 "ibv_alloc_pd" (AllocPd ctx) 4 a t)
    as (t1 & a1 & Hrun1 & Hok1 & Hk1 & Hb1 & _);
    try done; [by right|by apply is_hook|apply Hp|by eapply bill_start, Hp|].
  destruct (created_aside x qps Hq a tid v t Hp 1 0 "ibv_create_cq" (CreateCq ctx 10 0 0 0) 3 a1 t1)
    as (t2 & a2 & Hrun2 & Hok2 & Hk2 & Hb2 & _); try done; [by right|by apply is_hook|].
  pose proof (gn_pd _ _ Hg ctx (drv (base t))) as Hpd. pose proof (gn_cq _ _ Hg ctx 10 0 0 0 (drv (base t1))) as Hcq.
  set (pd := ret _) in Hrun1, Hpd. set (cq := ret _) in Hrun2, Hcq.
  destruct (kept_live a tid v t Hp t2 Hk2) as [He Hr].
  destruct (reg_mr_run x a2 t2 pd buf 4096 IBV_ACCESS_LOCAL_WRITE Hok2 He (Hr _ (is_hook "ibv_reg_mr" eq_refl)))
    as (t3 & Hrun3 & _).
  rw (kept_owner a tid v t Hp a2 t2 (bl_owner _ _ _ _ _ Hb2) Hk2) (mr_verdict 4096 a tid v t Hp 0 a2) in Hrun3;
    [lia|done|done|]. rw Hleft in Hrun3. cbn [Z.ltb Z.compare] in Hrun3.
  unfold global_limit_test. fold ctx. rw Hdev (proj2 (Z.eqb_neq _ _) Hctx). cbn [negb].
  rw (bind_Ret _ _ _ _ _ Hrun1) (proj2 (Z.eqb_neq _ _) Hpd) (bind_Ret _ _ _ _ _ Hrun2).
  rw (proj2 (Z.eqb_neq _ _) Hcq) (proj2 (Z.eqb_neq _ _) Hbuf). by rw (bind_Ret _ _ _ _ _ Hrun3).
Qed.
End Tests.

(** ** Examples *)

#[local] Opaque example_tenant.

(** Two QPs are allowed to the tenant, and a thousand to a process. *)
Definition example_env (name : string) : option string :=
  if String.eqb name "RDMA_INTERCEPT_MAX_QP_PER_PROCESS" then
    Some (print_dec (max_qp_per_process (hcfg (base (example example_setup 100)))))
  else if String.eqb name "RDMA_TENANT_ID" then Some "3" else None.

Lemma interception_test_leaks_witness :
  ∃ t', main toy (mk_device true 7) example_env (λ _, None) (example example_setup 100) = Ret 0 t' ∧
    Z.of_nat (drv (base t')) = 2.
Proof.
  destruct (interception_test_leaks toy Z.of_nat toy_counts toy_generous (mk_device true 7) eq_refl example_env
    (λ _, None) example_store 3 example_view (example example_setup 100) single_process example_idle
    (example_controlled _ _)) as (t' & a' & Hrun & _ & _ & _ & Hd); [by vm_compute|by vm_compute|].
  exists t'. split; [exact Hrun|exact Hd].
Defined.
End HookTests.
