(* ===== verification/MeasureLatency.v ===== *)
(** * The latency of quota updates

    Experiment 5 ([exp5_measure_latency.c]): a process under the library that asks the
    tenant manager daemon ten times for a new quota of tenant 30, and takes the time.
    The hooks of the process and the daemon work on one object, the tenant shared
    memory, so that the program composes all of the tenant management: JSON, socket,
    daemon, store, hooks. *)

From S2P Require Import Prelude CString CFloat Intercept Core CollectorServer CollectorClient LocalPolicy.
From S2P Require Import SlotTable ShmProcess ShmTenant TenantProps TenantSpec.
From S2P Require Import JsonC TenantDaemon TenantClient TenantRequests.
From S2P Require Import HookBase HooksTenant HooksTenantProps TenantQuota Isolation HotUpdate Churn.

Module MeasureLatency.
Import TenantProps TenantSpec.
Import Intercept Core CollectorClient LocalPolicy HookBase HooksTenant HooksTenantProps TenantQuota.
Import Isolation HotUpdate Churn.
Import Daemon TenantRequests.
#[local] Existing Instances Tenant.expand_usage Tenant.expand_info Tenant.expand_shm Tenant.expand_state
  expand_daemon expand_thooks.

Definition NUM_MEASUREMENTS : Z := 10.
Definition RESPONSE_SIZE : Z := 1024.

(** What becomes of an attempt to talk to the daemon; once that is dead the others find it
    unreachable. *)
Inductive link :=
| Unreachable        (* no socket, or nobody accepts the connection *)
| SendFails
| Connected          (* the answer and its newline arrive before the program reads *)
| Cut.               (* it reads the answer and closes; the newline kills the daemon *)

(** What the report says of the latencies that count. *)
Record report := mk_report {
  valid_count : Z;
  avg_latency : spec_float;
  min_latency : spec_float;
  max_latency : spec_float;
}.

Section Program.
Context {J : Type} `{!JsonC J} {Srv D : Type} (x : externals Srv D) (dev : device).

(** The process, the daemon, the readings of [CLOCK_MONOTONIC], and the links.  The
    object both have mapped is the one of the process. *)
Record system := mk_system {
  proc : thooks Srv D;
  dmn : daemon;
  clock : nat → Z * Z;
  links : nat → link;
}.
#[export] Instance expand_system : Expand system := λ s,
  mk_system (proc s) (dmn s) (clock s) (links s).

Definition double_zero : spec_float := S754_zero false.
Definition minus_one : spec_float := double_of (-1).

(** [ts.tv_sec * 1000.0 + ts.tv_nsec / 1e6] *)
Definition milliseconds (ts : Z * Z) : spec_float :=
  SFadd 53 1024 (SFmul 53 1024 (double_of (fst ts)) (double_of 1000))
    (SFdiv 53 1024 (double_of (snd ts)) (double_of 1000000)).

Definition get_time_ms : M system spec_float := λ s,
  Ret (milliseconds (clock s 0%nat)) (s <| clock := λ n, clock s (S n) |>).

Definition next_link : M system link := λ s,
  Ret (links s 0%nat) (s <| links := λ n, links s (S n) |>).

(** The daemon as it sees the object now. *)
Definition attached (s : system) : daemon :=
  (dmn s) <| store ::= λ d, d <| Tenant.shm := Tenant.shm (tshm (proc s)) |> |>.

(** The daemon serves the command and answers; a daemon that dies closes the
    connection, one that hangs never answers. *)
Definition exchange (out : delivery) (text : string) : M system (option string) := λ s,
  match handle_client (Some text) out (attached s) with
  | Ret _ d => Ret (received 2 (attached s) d) (s <| dmn := d |> <| proc ::= load (Tenant.shm (store d)) |>)
  | Crash => Ret None s
  | Hang => Hang
  end.

Definition command (tenant_id new_qp_limit : Z) : string :=
  json_object_to_json_string (json_obj
    [("cmd", json_object_new_string "UPDATE_QUOTA");
     ("tenant", json_object_new_int tenant_id);
     ("qp", json_object_new_int new_qp_limit);
     ("mr", json_object_new_int 100)]).

(** The latency in milliseconds; -1: failed.  An answer that is not a success is given
    back to the JSON library twice. *)
Definition measure_update_latency (tenant_id new_qp_limit : Z) : M system spec_float :=
  l ← next_link;
  match l with
  | Unreachable => mret minus_one
  | SendFails => get_time_ms;; mret minus_one
  | Connected | Cut =>
      start_time ← get_time_ms;
      n ← exchange (match l with Cut => mk_delivery Sent Peer_gone | _ => whole end)
            (command tenant_id new_qp_limit);
      end_time ← get_time_ms;
      match n with
      | None | Some EmptyString => mret minus_one
      | Some text =>
          let resp := json_tokener_parse (String.substring 0 (Z.to_nat (RESPONSE_SIZE - 1)) text) in
          if is_null resp then mret minus_one else
          match json_object_object_get_ex resp "success" with
          | None => mret minus_one
          | Some success_obj =>
              if negb (json_object_get_boolean success_obj =? 0)
              then mret (SFsub 53 1024 end_time start_time) else crash
          end
      end
  end.

(** [n] rounds from [round] on, and the latencies that count. *)
Fixpoint measure_all (n : nat) (round : Z) (latencies : list spec_float) : M system (list spec_float) :=
  match n with
  | O => mret latencies
  | S n' =>
      api_latency ← measure_update_latency 30 (5 + round + 1);
      measure_all n' (round + 1)
        (if below double_zero api_latency then latencies ++ [api_latency] else latencies)
  end.

Definition statistics (latencies : list spec_float) : report :=
  let sum := foldl (SFadd 53 1024) double_zero latencies in
  mk_report (Z.of_nat (length latencies))
    (match latencies with [] => sum | _ => SFdiv 53 1024 sum (double_of (Z.of_nat (length latencies))) end)
    (foldl (λ m l, if below l m then l else m) (double_of 1000000000) latencies)
    (foldl (λ m l, if below m l then l else m) double_zero latencies).

(** The file is opened after the objects are created, which stay behind when it
    cannot be. *)
Definition main (file_opens : bool) : M system (Z * option report) :=
  if negb (dev_found dev) then mret (1, None) else
  pd ← zoom proc (ibv_alloc_pd x (dev_context dev));
  cq ← zoom proc (ibv_create_cq x (dev_context dev) 16 0 0 0);
  if negb file_opens then mret (1, None) else
  latencies ← measure_all (Z.to_nat NUM_MEASUREMENTS) 0 [];
  zoom proc (ibv_destroy_cq x cq);;
  zoom proc (ibv_dealloc_pd x pd);;
  mret (0, Some (statistics latencies)).
End Program.

(** ** What the daemon does for a command *)

Section Daemon_side.
Context {J : Type} `{!JsonC J, !JsonLaws J}.

Lemma command_performed qp d :
  0 ≤ qp ≤ 15 → process_command (command (J := J) 30 qp) d = perform (Update 30 qp 100 1073741824) d.
Proof.
  intros Hqp. unfold command. rw (process_obj _ "UPDATE_QUOTA"); [|done|].
  { split; [by vm_compute|]. repeat apply Forall_cons_2; [..|by apply Forall_nil_2];
      [apply nested_string|apply nested_int; unfold is_i32; lia..]. }
  change (dispatch "UPDATE_QUOTA") with (handle_update_quota (J := J)).
  unfold handle_update_quota, int_field, memory_field, get_ex.
  do 4 (rw json_get_obj; [by vm_compute|]). cbn [assoc String.eqb Ascii.eqb Bool.eqb andb].
  rw !json_int; [unfold is_i32; lia..|]. by rw (u32_small 30); [split|].
Qed.

(** The store after an update, successful or not. *)
Definition updated (qp : Z) (a : TenantSpec.store) : TenantSpec.store :=
  with_quota 30 (quota_of qp 100 1073741824) a.

Definition verdict (a : TenantSpec.store) : string :=
  match live a 30 with
  | Some _ => answer (J := J) true ("Quota updated for tenant " +:+ print_dec 30)
  | None => answer (J := J) false "Failed to update quota"
  end.

Lemma update_performed a qp d :
  ready (store d) → refines a (Tenant.shm (store d)) →
  ∃ d', perform (J := J) (Update 30 qp 100 1073741824) d = Ret (verdict a) d' ∧
    ready (store d') ∧ refines (updated qp a) (Tenant.shm (store d')) ∧ sent d' = sent d.
Proof.
  intros Hr Ha. set (q := quota_of qp 100 1073741824).
  destruct (quota_answers a (store d) Hr Ha 30 q ltac:(lia)) as (s' & Hrun & Hr' & Ha').
  cbn [respond spec run_call] in Hrun, Ha'. apply bind_inv in Hrun as (r & s1 & Hrun & [= Hres <-]).
  set (d1 := d <| store := s1 |>). change (ready (store d1)) in Hr'.
  assert (Hz : zoom store (Tenant.tenant_update_quota 30 (Some q)) d = Ret r d1)
    by (unfold zoom; by rw Hrun).
  cbn [perform]. fold q. rw (bind_Ret _ _ _ _ _ Hz). unfold verdict, updated, with_quota. fold q.
  destruct (live a 30) as [v|]; cbn [fst snd] in Hres, Ha'; injection Hres as ->; cbn [negb Z.eqb].
  - rw (bind_Ret _ _ _ _ _ (store_ptr d1 Hr')).
    unfold monotonic_ns, mbind, M_bind. cbn [monotonic].
    change (monotonic d1 0%nat) with (monotonic d 0%nat).
    destruct (monotonic d 0%nat) as [sec nsec]. eexists. split_and!; [reflexivity|..]; cbn.
    + destruct Hr' as [Hp Hl Hs]. split; [done..|]. by apply (shm_ok_same (Tenant.shm s1)).
    + by eapply refines_same; [|exact Ha'].
    + done.
  - eexists. split_and!; [reflexivity|exact Hr'|exact Ha'|done].
Qed.
End Daemon_side.

(** ** The process and the daemon *)

Section Together.
Context {J : Type} `{!JsonC J, !JsonLaws J}.
Context {Srv D : Type} (x : externals Srv D) (qps : D → Z) (Hq : counts_qps x qps).
Implicit Types (t : thooks Srv D) (a : TenantSpec.store) (s : @system Srv D).

(** Commands and answers fit the buffers. *)
Context (Hcommand : ∀ qp, 0 ≤ qp ≤ 15 → (String.length (command (J := J) 30 qp) < 4096)%nat).
Context (Hanswer : ∀ a, (String.length (verdict (J := J) a +:+ newline) < 1024)%nat).

(** The process is idle, and the daemon has mapped the object. *)
Record joint a (tid used : Z) s : Prop := {
  jt_idle : idle qp_attr a tid used (proc s);
  jt_mapped : Tenant.g_tenant_shm (store (dmn s)) = true;
}.

(** The tenant of the process is given room by every new quota. *)
Definition roomy (tid used : Z) : Prop := tid = 30 → used < 6.

Lemma joint_tok a tid used s : joint a tid used s → tok a (proc s).
Proof. intros [Hi _]. destruct (id_process _ _ _ _ _ Hi) as (v & Hp & _). apply Hp. Qed.

Lemma tok_loaded a a' t m :
  tok a t → Tenant.lock m = 0 → shm_ok m → refines a' m → tok a' (load m t).
Proof. intros [] Hl Hs Ha. by split. Qed.

Lemma idle_updated a tid used t t' qp :
  idle qp_attr a tid used t → 6 ≤ qp ≤ 15 → roomy tid used → tok (updated qp a) t' → base t' = base t →
  idle qp_attr (updated qp a) tid used t'.
Proof.
  intros [(v & Hp & Hu & Hv) Hc Hcnt Hroom Hs] Hqp Hr Hok Hb.
  assert (Hq1 : is_u32 (u32 qp) ∧ u32 qp = qp) by (unfold is_u32; width_lia).
  split; unfold slot_room, mapped in *; rw ?Hb; try done. destruct (decide (tid = 30)) as [->|Hne].
  - eexists. split_and!; [apply (process_with_quota a 30 v t t' _ Hp Hok Hb); cbn; [apply Hq1|by split]|exact Hu|].
    cbn. pose proof (Hr eq_refl). destruct Hq1 as [_ ->]. lia.
  - exists v. split_and!; [|done|done]. destruct Hp as [_ [He Hreal] Ho Hact Hqt].
    assert (Hl : ∀ k, k ≠ 30 → live (updated qp a) k = live a k).
    { intros k Hk. unfold updated, with_quota. destruct (live a 30); [|done]. cbn. by rw decide_False. }
    split; [done|by split; rw Hb| | |done].
    + rw Hb. unfold updated, with_quota. by destruct (live a 30).
    + unfold active in *. by rw Hl.
Qed.

Lemma exchange_run a tid used s qp :
  joint a tid used s → 0 ≤ qp ≤ 15 →
  ∃ s', exchange (J := J) whole (command (J := J) 30 qp) s = Ret (Some (verdict (J := J) a +:+ newline)) s' ∧
    tok (updated qp a) (proc s') ∧ base (proc s') = base (proc s) ∧
    Tenant.g_tenant_shm (store (dmn s')) = true ∧ clock s' = clock s ∧ links s' = links s.
Proof using JsonLaws0 Hcommand.
  intros Hj Hqp. pose proof (joint_tok _ _ _ _ Hj) as Hok. destruct Hj as [_ Hm].
  destruct (update_performed (J := J) a qp (attached s)) as (d' & Hrun & Hr' & Ha' & Hs').
  { destruct (tk_ready _ _ Hok) as [_ Hl Hsm]. split; [exact Hm|exact Hl|exact Hsm]. }
  { exact (tk_store _ _ Hok). }
  set (d2 := d' <| sent := sent d' ++ delivered whole (verdict (J := J) a) |>).
  assert (Hc : handle_client (Some (command (J := J) 30 qp)) whole (attached s) = Ret true d2).
  { unfold handle_client. rw substring_all; [pose proof (Hcommand qp Hqp); unfold BUFFER_SIZE; lia|].
    erewrite bind_Ret; [|rw command_performed; [done|exact Hrun]]. by rw reply_run. }
  assert (Hrecv : received 2 (attached s) d2 = Some (verdict (J := J) a +:+ newline)).
  { unfold received. cbn [sent d2 update]. by rw Hs' drop_app_length. }
  eexists. unfold exchange. rw Hc Hrecv. split_and!; [reflexivity| |done|apply Hr'|done|done].
  cbn [proc]. destruct Hr' as [_ Hl Hsm]. exact (tok_loaded a _ (proc s) _ Hok Hl Hsm Ha').
Qed.

(** The latency the clock gives to the [i]th measurement from [s] on. *)
Definition latency s (i : nat) : spec_float :=
  SFsub 53 1024 (milliseconds (clock s (2 * i + 1)%nat)) (milliseconds (clock s (2 * i)%nat)).

Lemma verdict_text a :
  ∃ c text, verdict (J := J) a +:+ newline = String c text.
Proof.
  assert (H : ∀ v, ∃ c text, v +:+ newline = String c text).
  { intros [|c v]; [by exists "010"%char, EmptyString|by exists c, (v +:+ newline)]. }
  apply H.
Qed.

Lemma answer_readable ok message :
  readable ([("success", json_object_new_boolean (J := J) ok); ("message", json_object_new_string message)] ++ []).
Proof.
  split; [by vm_compute|]. repeat apply Forall_cons_2; [apply nested_boolean|apply nested_string|by apply Forall_nil_2].
Qed.

Lemma answer_success ok message :
  json_object_object_get_ex (json_tokener_parse (answer (J := J) ok message +:+ newline)) "success" =
    Some (json_object_new_boolean (if ok then 1 else 0)).
Proof.
  unfold answer, build_response. rw parse_obj; [apply answer_readable|by right|]. by rw json_get_obj; [by vm_compute|].
Qed.

Lemma answer_not_null ok message :
  is_null (json_tokener_parse (answer (J := J) ok message +:+ newline)) = false.
Proof. unfold answer, build_response. rw parse_obj; [apply answer_readable|by right|]. apply json_obj_not_null. Qed.

Lemma measure_run a tid used s qp :
  joint a tid used s → 6 ≤ qp ≤ 15 → roomy tid used → links s 0%nat = Connected →
  match live a 30 with
  | Some _ => ∃ s', measure_update_latency (J := J) 30 qp s = Ret (latency s 0) s' ∧
      joint (updated qp a) tid used s' ∧ (∀ n, clock s' n = clock s (2 + n)%nat) ∧
      (∀ n, links s' n = links s (S n))
  | None => measure_update_latency (J := J) 30 qp s = Crash
  end.
Proof using JsonLaws0 Hcommand Hanswer.
  intros Hj Hqp Hroom Hl.
  set (s1 := s <| links := λ n, links s (S n) |> <| clock := λ n, clock s (S n) |>).
  destruct (exchange_run a tid used s1 qp) as (s2 & Hrun & Hok & Hb & Hm & Hclk & Hlk); [by destruct Hj|lia|].
  set (s3 := s2 <| clock := λ n, clock s2 (S n) |>).
  assert (H : measure_update_latency (J := J) 30 qp s =
    match live a 30 with Some _ => Ret (latency s 0) s3 | None => Crash end).
  { unfold measure_update_latency. unfold mbind at 1, M_bind at 1. unfold next_link at 1. rw Hl.
    unfold mbind at 1, M_bind at 1. unfold get_time_ms at 1. fold s1.
    unfold mbind at 1, M_bind at 1. change (clock (s <| links := _ |>)) with (clock s).
    rw Hrun. unfold mbind at 1, M_bind at 1. unfold get_time_ms at 1. fold s3.
    destruct (verdict_text a) as (c & text & Ht). rw Ht -Ht.
    rw substring_all; [pose proof (Hanswer a); unfold RESPONSE_SIZE; lia|].
    unfold verdict. destruct (live a 30); rw answer_not_null answer_success json_boolean; [|done].
    cbn [Z.eqb negb]. unfold latency. by rw Hclk. }
  rw H. destruct (live a 30) as [v|]; [|done]. exists s3. split_and!; [done| |..].
  - split; [|exact Hm]. destruct Hj as [Hi _]. by apply (idle_updated a tid used (proc s)).
  - intros n. cbn. by rw Hclk.
  - intros n. cbn. by rw Hlk.
Qed.

(** The latencies that count, of [n] measurements. *)
Definition counting s (n : nat) : list spec_float :=
  filter (λ l, below double_zero l) (latency s <$> seq 0 n).

Lemma counting_S s s' n :
  (∀ k, clock s' k = clock s (2 + k)%nat) →
  counting s (S n) = (if below double_zero (latency s 0) then [latency s 0] else []) ++ counting s' n.
Proof.
  intros Hc. unfold counting. cbn [seq]. rw fmap_cons filter_cons -fmap_S_seq -list_fmap_compose.
  rw (list_fmap_ext (latency s ∘ S) (latency s') (seq 0 n)).
  { intros i k _. unfold latency. cbn. rw !Hc. by repeat f_equal; lia. }
  destruct (below double_zero (latency s 0)); by case_decide.
Qed.

Lemma updated_live qp a v :
  live a 30 = Some v → live (updated qp a) 30 = Some (v <| v_quota := quota_of qp 100 1073741824 |>).
Proof. intros Hv. unfold updated, with_quota. rw Hv. done. Qed.

(** The tenant 30 is there, and what its quota is. *)
Definition has_quota a (q : Tenant.tenant_quota_t) : Prop := ∃ v, live a 30 = Some v ∧ v_quota v = q.

Lemma measure_all_run tid used n : ∀ round lats q a s,
  joint a tid used s → 0 ≤ round → round + Z.of_nat n ≤ 10 → roomy tid used →
  (∀ i, (i < n)%nat → links s i = Connected) → has_quota a q →
  ∃ a' s', measure_all (J := J) n round lats s = Ret (lats ++ counting s n) s' ∧ joint a' tid used s' ∧
    has_quota a' (if decide (n = O) then q else quota_of (5 + round + Z.of_nat n) 100 1073741824).
Proof using JsonLaws0 Hcommand Hanswer.
  induction n as [|n IH]; intros round lats q a s Hj H0 H10 Hroom Hl (v & Hv & Hvq).
  { exists a, s. cbn [measure_all]. rw app_nil_r. split_and!; [done..|]. by exists v. }
  pose proof (measure_run a tid used s (5 + round + 1) Hj ltac:(lia) Hroom (Hl 0%nat ltac:(lia))) as H.
  rw Hv in H. destruct H as (s1 & Hrun & Hj1 & Hc1 & Hl1).
  set (l := latency s 0) in *. set (lats' := if below double_zero l then lats ++ [l] else lats).
  destruct (IH (round + 1) lats' (quota_of (5 + round + 1) 100 1073741824) _ s1 Hj1 ltac:(lia) ltac:(lia) Hroom) as (a2 & s2 & Hrun2 & Hj2 & Hq2).
  { intros i Hi. rw Hl1. apply Hl. lia. }
  { eexists. split; [by apply updated_live|reflexivity]. }
  exists a2, s2. split_and!; [|exact Hj2|].
  - cbn [measure_all]. rw (bind_Ret _ _ _ _ _ Hrun). fold l lats'. rw Hrun2 (counting_S s s1 n Hc1). fold l.
    unfold lats'. destruct (below double_zero l); [by rw -app_assoc|done].
  - change (has_quota a2 (quota_of (5 + round + Z.of_nat (S n)) 100 1073741824)). destruct n as [|n].
    + exact Hq2.
    + by replace (5 + round + Z.of_nat (S (S n))) with (5 + (round + 1) + Z.of_nat (S n)) by lia.
Qed.

(** What the process does besides leaves the other tenants alone, and the quota of its
    own. *)
Lemma bill_quota a tid a' v q :
  active a tid = Some v → bill 0 a tid 0 a' →
  (live a 30 = None → live a' 30 = None) ∧ (has_quota a q → has_quota a' q).
Proof.
  intros Hv [_ Ho (w & v' & Hw & Hv' & Hqt & _)]. unfold has_quota. destruct (decide (tid = 30)) as [->|Hne].
  - rw (active_live _ _ _ Hw) (active_live _ _ _ Hv'). split; [done|]. intros (u & [= <-] & <-). by exists v'.
  - by rw (Ho 30 ltac:(done)).
Qed.

Lemma on_proc {A} (m : M (thooks Srv D) A) s r t :
  m (proc s) = Ret r t → zoom proc m s = Ret r (s <| proc := t |>).
Proof. intros H. unfold zoom. by rw H. Qed.

End Together.

(** ** An example

    Process 100 of tenant 3 measures; tenant 30 exists in the first system only. *)
Import JsonTree.

Definition with_thirty : list TenantProps.call := example_setup ++ [TenantProps.Create 30 (Some "EXP5") None].

#[local] Opaque example_tenant.

Definition system_of (cs : list TenantProps.call) : @system unit nat :=
  mk_system (example cs 100)
    (mk_daemon 1 4 (example_tenant cs) (λ _, (12, 34)) (mk_os 0 true 4 0 0) false true [])
    (λ n, (7, 1000000 * Z.of_nat n)) (λ _, Connected).

Lemma system_joint cs :
  Forall TenantSpec.real cs → owner (spec_store cs empty_store) !! 100 = Some 3 →
  active (spec_store cs empty_store) 3 = Some example_view → joint (spec_store cs empty_store) 3 0 (system_of cs).
Proof.
  intros Hcs Ho Hv. destruct (example_published cs 100) as [Hr Hc]. split.
  - split; try done. exists example_view. split_and!; [|done|done].
    by apply example_process.
  - cbn. apply (tk_tenant _ _ (example_tok cs 100 Hcs eq_refl)).
Qed.

Lemma commands_fit qp : 0 ≤ qp ≤ 15 → (String.length (command (J := json) 30 qp) < 4096)%nat.
Proof.
  intros Hqp. apply Nat.ltb_lt.
  assert (H : Forall (λ q, (String.length (command (J := json) 30 q) <? 4096)%nat = true)
    (Z.of_nat <$> seq 0 16)) by (repeat constructor; by vm_compute).
  rewrite Forall_forall in H. apply H. apply list_elem_of_fmap. exists (Z.to_nat qp).
  split; [lia|]. apply elem_of_seq. lia.
Qed.

Lemma answers_fit a : (String.length (verdict (J := json) a +:+ newline) < 1024)%nat.
Proof. apply Nat.ltb_lt. unfold verdict. destruct (live a 30); by vm_compute. Qed.

End MeasureLatency.
