(* ===== verification/Hooks.v ===== *)
(** * The per-process hooks ([src/rdma_hooks.c])

    The first version of the hooks, without tenants: QPs are limited by the count
    the process shared memory holds for the process, falling back to the eBPF
    monitor and then to the local count, by the global count, and by the work
    requests asked for; MRs by the same chain and by the collector. *)

From S2P Require Import Prelude CString Intercept Core CollectorServer CollectorClient LocalPolicy.
From S2P Require Import SlotTable ShmProcess HookBase.

Module Hooks.
Import Intercept Core CollectorClient LocalPolicy HookBase.

Section Process_hooks.
Context {Srv D : Type} (x : externals Srv D).
Abbreviation H := (hooks Srv D).

(** ** Initialisation *)

Definition hook_names : list string :=
  ["ibv_create_qp"; "ibv_destroy_qp"; "ibv_create_cq"; "ibv_destroy_cq"; "ibv_alloc_pd";
   "ibv_dealloc_pd"; "ibv_dereg_mr"; "ibv_reg_mr"; "ibv_create_mr"; "ibv_destroy_mr";
   "ibv_create_srq"; "ibv_modify_srq"; "ibv_query_srq"; "ibv_destroy_srq";
   "ibv_create_ah"; "ibv_modify_ah"; "ibv_destroy_ah"; "ibv_create_qp_ex"].

Definition init_function_pointers : M H unit :=
  zproc init_if_needed;;
  h ← get;
  if negb (sys_dlopen (sys (hproc h))) then mret tt else
  resolve hook_names;;
  zoom pol (init_dynamic_policy (x_exchange x));;
  init_ebpf x.

Definition once : M H unit :=
  h ← get;
  if hooks_init_once h then mret tt
  else init_function_pointers;; modify (λ h, h <| hooks_init_once := true |>).

(** The beginning of every hook. *)
Definition hooked (name : string) (v : verb) (failure : Z) (body : M H Z) : M H Z :=
  once;;
  h ← get;
  if negb (enabled h) || negb (real h name) then
    if real h name then call x v else fail_with ENOSYS failure
  else body.

(** Messages behind a test of the configured level. *)
Definition debug (msg : string) : M H unit :=
  h ← get;
  if log_level (hcfg h) <=? LOG_LEVEL_DEBUG then rlog LOG_LEVEL_DEBUG msg else mret tt.
Definition info (msg : string) : M H unit :=
  h ← get;
  if log_level (hcfg h) <=? LOG_LEVEL_INFO then rlog LOG_LEVEL_INFO msg else mret tt.

(** ** Logging a new QP *)

Definition log_qp_creation (pd : Z) (qp_init_attr : option ibv_qp_init_attr) (result_qp : Z)
    (function_name : string) : M H unit :=
  h ← get;
  if negb (enabled h) || negb (Intercept.log_qp_creation (hcfg h)) then mret tt else
  now ← zoom pol time;
  match qp_init_attr with
  | Some a =>
      if pd =? 0 then crash else    (* pd->context *)
      let info := mk_qp_info now (pid h) (attr_qp_type a) (cap_max_send_wr a) (cap_max_recv_wr a) in
      rlog LOG_LEVEL_INFO ("QP Creation [" +:+ function_name +:+ "]");;
      zproc (rdma_intercept_log_qp_creation (Some info))
  | None => crash
  end.

(** ** The checks before a QP is created *)

(** [(count + 1) <= max_qp_per_process], a [uint32_t] sum. *)
Definition qp_room (c : intercept_config_t) (count : Z) : bool :=
  u32 (count + 1) <=? max_qp_per_process c.

Definition deny (msg : string) : M H bool := rlog LOG_LEVEL_ERROR msg;; mret false.

(** The local count as the last resort, tested under [resource_mutex]. *)
Definition check_local_count : M H bool :=
  lock_resources;;
  h ← get;
  let allow_creation := qp_room (hcfg h) (qp_count (hg h)) in
  (if allow_creation then mret tt else rlog LOG_LEVEL_ERROR "QP creation denied: local count");;
  unlock_resources;;
  mret allow_creation.

(** The count of the eBPF monitor; it is not believed when it says zero and the
    local count does not. *)
Definition check_ebpf_count (u : Shm.resource_usage_t) : M H bool :=
  lock_resources;;
  h ← get;
  let effective_qp_count :=
    if (Shm.qp_count u =? 0) && (0 <? qp_count (hg h)) then qp_count (hg h)
    else u32 (Shm.qp_count u) in
  let allow_creation := qp_room (hcfg h) effective_qp_count in
  unlock_resources;;
  if negb allow_creation then deny "QP creation denied: max QP per process" else mret true.

Definition check_process_count : M H bool :=
  h ← get;
  r ← get_process_resources_via_shared_memory (pid h) (Some Shm.usage_zero);
  if fst r =? 0 then
    let effective_qp_count := u32 (Shm.qp_count (default Shm.usage_zero (snd r))) in
    if negb (qp_room (hcfg h) effective_qp_count)
    then deny "QP creation denied: max QP per process" else mret true
  else if ebpf_initialized h then
    ebpf ← ebpf_get_process_resources x (pid h);
    match ebpf with
    | Some u => check_ebpf_count u
    | None => check_local_count
    end
  else check_local_count.

Definition check_qp_creation_restrictions (pd : Z) (qp_init_attr : option ibv_qp_init_attr) :
    M H bool :=
  rlog LOG_LEVEL_INFO "checking QP creation";;
  h ← get;
  if negb (enable_qp_control (hcfg h)) then
    rlog LOG_LEVEL_INFO "QP control is off";; mret true
  else
  rlog LOG_LEVEL_INFO "QP control is on";;
  match qp_init_attr with
  | None => crash
  | Some a =>
      if type_denied (hcfg h) (attr_qp_type a) then deny "QP creation denied by config" else
      (if (attr_qp_type a =? IBV_QPT_RC) || (attr_qp_type a =? IBV_QPT_UC)
            || (attr_qp_type a =? IBV_QPT_UD)
       then mret tt else rlog LOG_LEVEL_DEBUG "allowing QP creation with another type");;
      allowed ← check_process_count;
      if negb allowed then mret false else
      glob ← get_global_resources_via_shared_memory (Some Shm.usage_zero);
      if (fst glob =? 0) &&
         (Intercept.max_global_qp (hcfg h)
            <=? u32 (Shm.qp_count (default Shm.usage_zero (snd glob))))
      then deny "QP creation denied: global QP limit" else
      (if fst glob =? 0 then mret tt else rlog LOG_LEVEL_WARN "global limit not checked");;
      if max_send_wr_limit (hcfg h) <? cap_max_send_wr a
      then deny "QP creation denied: send WR limit" else
      if max_recv_wr_limit (hcfg h) <? cap_max_recv_wr a
      then deny "QP creation denied: recv WR limit" else
      rlog LOG_LEVEL_INFO "all QP checks passed";;
      mret true
  end.

(** ** QPs *)

(** An assignment to the local counts, under [resource_mutex]. *)
Definition count_local (f : intercept_state_t → intercept_state_t) : M H unit :=
  lock_resources;; set_g f;; unlock_resources.

Definition publish_local : M H unit :=
  h ← get;
  update_err ← zoom pshm (Shm.shm_update_process_resources (pid h) (Some (local_usage h)));
  if negb (update_err =? 0)
  then rlog LOG_LEVEL_WARN "shared memory not updated"
  else rlog LOG_LEVEL_DEBUG "shared memory updated".

Definition ibv_create_qp (pd : Z) (qp_init_attr : option ibv_qp_init_attr) : M H Z :=
  hooked "ibv_create_qp" (CreateQp pd qp_init_attr) 0
   (debug "Intercepting ibv_create_qp";;
    allowed ← check_qp_creation_restrictions pd qp_init_attr;
    if negb allowed then fail_with EPERM 0 else
    r ← call_attr x (CreateQp pd qp_init_attr);
    let qp := fst r in
    (* the attributes, as the driver may have rewritten them *)
    let attr := (λ a, default a (snd r)) <$> qp_init_attr in
    (if negb (qp =? 0) then
       log_qp_creation pd attr qp "ibv_create_qp";;
       count_local (λ s, s <| qp_count ::= λ n, u32 (n + 1) |>);;
       publish_local;;
       info "QP created successfully"
     else rlog LOG_LEVEL_ERROR "Failed to create QP");;
    mret qp).

(** The figures shown after an object is gone: from the shared memory, the eBPF
    monitor or the local counts. *)
Definition shown_usage (collector : Z * option Shm.resource_usage_t) : M H Shm.resource_usage_t :=
  h ← get;
  if fst collector =? 0 then mret (default Shm.usage_zero (snd collector))
  else if ebpf_initialized h then
    ebpf ← ebpf_get_process_resources x (pid h);
    mret (default (local_usage h) ebpf)
  else mret (local_usage h).

(** The end of a hook that changed the local counts: the shared memory is read,
    and what it says is shown. *)
Definition report (msg : string) (figure : Shm.resource_usage_t → Z) : M H unit :=
  h ← get;
  collector ← get_process_resources_via_shared_memory (pid h) (Some Shm.usage_zero);
  if log_level (hcfg h) <=? LOG_LEVEL_INFO then
    u ← shown_usage collector;
    rlog LOG_LEVEL_INFO (msg +:+ " (current count: " +:+ print_dec (u32 (figure u)) +:+ ")")
  else mret tt.

Definition ibv_destroy_qp (qp : Z) : M H Z :=
  hooked "ibv_destroy_qp" (DestroyQp qp) (-1)
   (debug "Intercepting ibv_destroy_qp";;
    result ← call x (DestroyQp qp);
    (if result =? 0 then
       count_local (λ s, s <| qp_count ::= λ n, if 0 <? n then n - 1 else n |>);;
       report "QP destroyed successfully" Shm.qp_count
     else rlog LOG_LEVEL_ERROR "Failed to destroy QP");;
    mret result).

(** ** Memory regions *)

(** The two tests on a registration of [length] bytes; the sum is a [uint64_t]. *)
Definition check_mr_usage (mr_count memory_used length : Z) : M H bool :=
  h ← get;
  if max_mr_per_process (hcfg h) <=? mr_count then deny "MR registration denied: max MR" else
  if max_memory_per_process (hcfg h) <? u64 (memory_used + length)
  then deny "MR registration denied: max memory" else mret true.

Definition check_shared_mr (u : Shm.resource_usage_t) (length : Z) : M H bool :=
  check_mr_usage (u32 (Shm.mr_count u)) (Shm.memory_used u) length.

Definition check_local_mr (length : Z) : M H bool :=
  h ← get; check_mr_usage (mr_count (hg h)) (memory_used (hg h)) length.

Definition check_mr_restrictions (length : Z) : M H bool :=
  h ← get;
  r ← get_process_resources_via_shared_memory (pid h) (Some Shm.usage_zero);
  if negb (enable_mr_control (hcfg h)) then mret true
  else if fst r =? 0 then check_shared_mr (default Shm.usage_zero (snd r)) length
  else if ebpf_initialized h then
    ebpf ← ebpf_get_process_resources x (pid h);
    match ebpf with
    | Some u => check_shared_mr u length
    | None => check_local_mr length
    end
  else check_local_mr length.

Definition ibv_reg_mr (pd addr length access : Z) : M H Z :=
  hooked "ibv_reg_mr" (RegMr pd addr length access) 0
   (debug "Intercepting ibv_reg_mr";;
    allowed ← check_mr_restrictions length;
    if negb allowed then fail_with EPERM 0 else
    over ← zoom pol (zoom cl (collector_check_global_memory_limit (x_exchange x) length));
    if over : bool then
      rlog LOG_LEVEL_ERROR "MR registration denied: global memory";; fail_with EPERM 0
    else
    mr ← call x (RegMr pd addr length access);
    (if negb (mr =? 0) then
       set_g (λ s, s <| mr_count ::= λ n, u32 (n + 1) |>);;
       set_g (λ s, s <| memory_used ::= λ n, u64 (n + length) |>);;
       report "MR registered successfully" Shm.mr_count
     else rlog LOG_LEVEL_ERROR "Failed to register MR");;
    mret mr).

Definition ibv_dereg_mr (mr : Z) : M H Z :=
  hooked "ibv_dereg_mr" (DeregMr mr) (-1)
   (debug "Intercepting ibv_dereg_mr";;
    h ← get;
    let mr_length := if mr =? 0 then 0 else u64 (x_mr_length x mr (drv h)) in
    result ← call x (DeregMr mr);
    (if result =? 0 then
       set_g (λ s, s <| mr_count ::= λ n, if 0 <? n then n - 1 else n |>);;
       set_g (λ s, s <| memory_used ::= λ n, if mr_length <=? n then n - mr_length else n |>);;
       report "MR deregistered successfully" Shm.mr_count
     else rlog LOG_LEVEL_ERROR "Failed to deregister MR");;
    mret result).

(** ** The hooks that only log *)

(** Verbs that return an object, and verbs that return a status. *)
Definition object_hook (name : string) (v : verb) : M H Z :=
  hooked name v 0
   (debug ("Intercepting " +:+ name);;
    p ← call x v;
    (if negb (p =? 0) then info (name +:+ ": done") else rlog LOG_LEVEL_ERROR (name +:+ ": failed"));;
    mret p).

Definition status_hook (name : string) (v : verb) : M H Z :=
  hooked name v (-1)
   (debug ("Intercepting " +:+ name);;
    result ← call x v;
    (if result =? 0 then info (name +:+ ": done") else rlog LOG_LEVEL_ERROR (name +:+ ": failed"));;
    mret result).

Definition ibv_create_ah (pd ah_attr : Z) : M H Z := object_hook "ibv_create_ah" (CreateAh pd ah_attr).
Definition ibv_modify_ah (ah ah_attr : Z) : M H Z := status_hook "ibv_modify_ah" (ModifyAh ah ah_attr).
Definition ibv_destroy_ah (ah : Z) : M H Z := status_hook "ibv_destroy_ah" (DestroyAh ah).
Definition ibv_create_srq (pd srq_init_attr : Z) : M H Z :=
  object_hook "ibv_create_srq" (CreateSrq pd srq_init_attr).
Definition ibv_modify_srq (srq srq_attr attr_mask : Z) : M H Z :=
  status_hook "ibv_modify_srq" (ModifySrq srq srq_attr attr_mask).
Definition ibv_query_srq (srq srq_attr : Z) : M H Z :=
  status_hook "ibv_query_srq" (QuerySrq srq srq_attr).
Definition ibv_destroy_srq (srq : Z) : M H Z := status_hook "ibv_destroy_srq" (DestroySrq srq).
Definition ibv_destroy_mr (mr : Z) : M H Z := status_hook "ibv_destroy_mr" (DestroyMr mr).
Definition ibv_create_cq (context cqe cq_context channel comp_vector : Z) : M H Z :=
  object_hook "ibv_create_cq" (CreateCq context cqe cq_context channel comp_vector).
Definition ibv_destroy_cq (cq : Z) : M H Z := status_hook "ibv_destroy_cq" (DestroyCq cq).
Definition ibv_alloc_pd (context : Z) : M H Z := object_hook "ibv_alloc_pd" (AllocPd context).
Definition ibv_dealloc_pd (pd : Z) : M H Z := status_hook "ibv_dealloc_pd" (DeallocPd pd).
End Process_hooks.

End Hooks.
