(* ===== verification/HooksProps.v ===== *)
(** * Correctness of the per-process hooks

    What [ibv_create_qp] of [rdma_hooks.c] decides and from which count, the limit
    on the QPs of a process over any sequence of its calls, the pass-through of a
    disabled library, and what the limits do not cover. *)

From S2P Require Import Prelude CString Intercept Core CollectorServer CollectorClient LocalPolicy.
From S2P Require Import SlotTable ShmProcess HookBase Hooks.

Module HooksProps.
Import Intercept Core CollectorClient LocalPolicy HookBase Hooks.
#[local] Existing Instances Shm.expand_usage Shm.expand_data Shm.expand_state.

Section Props.
Context {Srv D : Type} (x : externals Srv D).
Implicit Types h : hooks Srv D.

(** ** States *)

Record pok h : Prop := {
  pk_ok : hooks_ok h;
  pk_shm : shm_usable h;
  pk_once : hooks_init_once h = true;
  pk_pid : 0 < pid h;
}.

Lemma pok_quiet h h' : quiet h h' → pok h → pok h'.
Proof.
  intros Hq [H1 H2 H3 H4]. split; [by eapply quiet_ok| | |].
  - unfold shm_usable. by rw (q_shm _ _ Hq).
  - by rw (q_once _ _ Hq).
  - by rw (q_pid _ _ Hq).
Qed.

(** What no hook changes. *)
Record pkept h h' : Prop := {
  pk_cfg : hcfg h' = hcfg h;
  pk_init : initialized (hg h') = initialized (hg h);
  pk_real : real h' = real h;
  pk_pid_same : pid h' = pid h;
  pk_ebpf : ebpf_initialized h' = ebpf_initialized h;
  pk_ptr : Shm.shm_data_ptr (pshm h') = Shm.shm_data_ptr (pshm h);
  pk_global : Shm.global_stats (Shm.shm (pshm h')) = Shm.global_stats (Shm.shm (pshm h));
}.

Lemma pkept_trans h1 h2 h3 : pkept h1 h2 → pkept h2 h3 → pkept h1 h3.
Proof. intros [] []. split; congruence. Qed.

Lemma pkept_quiet h h' : quiet h h' → pkept h h'.
Proof. intros Hq. split; try by destruct Hq; congruence. by apply quiet_cfg. Qed.

Lemma pkept_enabled h h' : pkept h h' → enabled h' = enabled h.
Proof.
  intros [Hc Hi _ _ _ _ _]. unfold hcfg, hg in *.
  unfold enabled, rdma_intercept_is_enabled, gcfg. by rw Hc Hi.
Qed.

(** ** A program logic for the hooks

    [quiet h0 h]: since [h0] only messages were written. *)

Section Quiet.
Context (h0 : hooks Srv D) (Hok : pok h0).

Lemma wp_log level msg (Q : unit → hooks Srv D → Prop) h :
  quiet h0 h → (∀ h', quiet h0 h' → Q tt h') → wp (rlog level msg) Q h.
Proof using Hok.
  intros Hq HQ. destruct (rlog_run level msg h) as (h' & Hrun & Hq' & _).
  { apply (q_log _ _ Hq), (hk_log _ (pk_ok _ Hok)). }
  exists tt, h'. split; [done|]. apply HQ. by eapply quiet_trans.
Qed.

Lemma wp_deny msg (Q : bool → hooks Srv D → Prop) h :
  quiet h0 h → (∀ h', quiet h0 h' → Q false h') → wp (deny msg) Q h.
Proof using Hok.
  intros Hq HQ. apply wp_bind, wp_log; [done|]. intros h' Hq'. by apply wp_ret, HQ.
Qed.

Lemma wp_debug msg (Q : unit → hooks Srv D → Prop) h :
  quiet h0 h → (∀ h', quiet h0 h' → Q tt h') → wp (debug msg) Q h.
Proof using Hok.
  intros Hq HQ. apply wp_get, wp_if; intros _; [by apply wp_log|by apply wp_ret, HQ].
Qed.

Lemma wp_info msg (Q : unit → hooks Srv D → Prop) h :
  quiet h0 h → (∀ h', quiet h0 h' → Q tt h') → wp (info msg) Q h.
Proof using Hok.
  intros Hq HQ. apply wp_get, wp_if; intros _; [by apply wp_log|by apply wp_ret, HQ].
Qed.

Lemma wp_process u (Q : _ → hooks Srv D → Prop) h :
  quiet h0 h → (∀ h', quiet h0 h' → Q (reading (process_usage h0)) h') →
  wp (get_process_resources_via_shared_memory (pid h) (Some u)) Q h.
Proof using Hok.
  intros Hq HQ. pose proof (pok_quiet _ _ Hq Hok) as Hp.
  eapply wp_eq; [apply process_reading; apply Hp|].
  unfold process_usage. rw (q_shm _ _ Hq) (q_pid _ _ Hq). by apply HQ.
Qed.

Lemma wp_global u (Q : _ → hooks Srv D → Prop) h :
  quiet h0 h → (∀ h', quiet h0 h' → Q (reading (global_usage h0)) h') →
  wp (get_global_resources_via_shared_memory (Some u)) Q h.
Proof using Hok.
  intros Hq HQ. eapply wp_eq; [apply global_reading|].
  unfold global_usage. rw (q_shm _ _ Hq). by apply HQ.
Qed.

(** A section of code under [resource_mutex] that only logs. *)
Lemma locked_quiet h : quiet h0 h → lock_resources h = Ret tt (with_g (λ s, s <| resource_mutex := true |>) h).
Proof using Hok. intros Hq. apply lock_run, (quiet_ok _ _ Hq), Hok. Qed.

(** Assigning to [g_intercept_state] commutes with being quiet. *)
Lemma quiet_with_g f h h' :
  (∀ s, log_file (f s) = log_file s) → quiet h h' → quiet (with_g f h) (with_g f h').
Proof using.
  intros Hf [Hg ? ? ? ? ? ? ? Hl]. split; try done; [by unfold hg in *; cbn; rw Hg|].
  intros [Ho ? ? ?].
  assert (log_ok (hproc h)) as Hk by (split; try done; intros f'; specialize (Ho f'); cbn in Ho; by rw Hf in Ho).
  destruct (Hl Hk) as [Ho' ? ? ?]. split; try done. intros f'. cbn. rw Hf. apply Ho'.
Qed.

Lemma quiet_unlocked h :
  quiet (with_g (λ s, s <| resource_mutex := true |>) h0) h →
  quiet h0 (with_g (λ s, s <| resource_mutex := false |>) h).
Proof using Hok.
  intros Hq. apply (quiet_with_g (λ s, s <| resource_mutex := false |>)) in Hq; [|done].
  assert (Heq : with_g (λ s, s <| resource_mutex := false |>)
    (with_g (λ s, s <| resource_mutex := true |>) h0) = h0).
  { pose proof (hk_mutex _ (pk_ok _ Hok)) as Hm. destruct h0 as [[[[[]]]]]. cbn in Hm.
    unfold with_g, update. cbn. cbn in Hm. by subst. }
  by rw Heq in Hq.
Qed.

(** The count the process is judged by, and whether one more fits. *)
Definition count_source h : Z :=
  match process_usage h with
  | Some u => u32 (Shm.qp_count u)
  | None =>
      match (if ebpf_initialized h
             then x_ebpf_get_process_resources x (pid h) (pshm h) else None) with
      | Some u =>
          if (Shm.qp_count u =? 0) && (0 <? qp_count (hg h)) then qp_count (hg h)
          else u32 (Shm.qp_count u)
      | None => qp_count (hg h)
      end
  end.

Lemma locked_log_ok h :
  quiet (with_g (λ s, s <| resource_mutex := true |>) h0) h → log_ok (hproc h).
Proof using Hok. intros Hq. apply (q_log _ _ Hq). by destruct (hk_log _ (pk_ok _ Hok)). Qed.

Lemma wp_local_count (Q : bool → hooks Srv D → Prop) h :
  quiet h0 h → (∀ h', quiet h0 h' → Q (qp_room (hcfg h0) (qp_count (hg h0))) h') →
  wp check_local_count Q h.
Proof using Hok.
  intros Hq HQ. unfold check_local_count. apply wp_bind.
  eapply wp_eq; [by apply locked_quiet|]. apply wp_get. unfold hcfg, hg in *. cbn.
  pose proof (q_g _ _ Hq) as Hg. unfold hg in Hg. rw Hg.
  assert (Hq1 : quiet (with_g (λ s, s <| resource_mutex := true |>) h0)
    (with_g (λ s, s <| resource_mutex := true |>) h)) by by apply quiet_with_g.
  apply wp_bind, wp_if; intros Hroom.
  - apply wp_ret, wp_bind. eapply wp_eq; [apply set_g_run|]. apply wp_ret, HQ. by apply quiet_unlocked.
  - destruct (rlog_run LOG_LEVEL_ERROR "QP creation denied: local count"
      (with_g (λ s, s <| resource_mutex := true |>) h)) as (h' & Hrun & Hq' & _); [by apply locked_log_ok|].
    eapply wp_eq; [done|]. apply wp_bind. eapply wp_eq; [apply set_g_run|]. apply wp_ret, HQ.
    apply quiet_unlocked. by eapply quiet_trans.
Qed.

Lemma wp_room_answer (b : bool) msg (Q : bool → hooks Srv D → Prop) h :
  quiet h0 h → (∀ h', quiet h0 h' → Q b h') →
  wp (if negb b then deny msg else mret true) Q h.
Proof using Hok.
  intros Hq HQ. apply wp_if; intros Hb; destruct b; try done; [by apply wp_deny|by apply wp_ret, HQ].
Qed.

Lemma wp_ebpf_count u (Q : bool → hooks Srv D → Prop) h :
  quiet h0 h →
  (∀ h', quiet h0 h' → Q (qp_room (hcfg h0)
     (if (Shm.qp_count u =? 0) && (0 <? qp_count (hg h0)) then qp_count (hg h0)
      else u32 (Shm.qp_count u))) h') →
  wp (check_ebpf_count u) Q h.
Proof using Hok.
  intros Hq HQ. unfold check_ebpf_count. apply wp_bind.
  eapply wp_eq; [by apply locked_quiet|]. apply wp_get. unfold hcfg, hg in *. cbn.
  pose proof (q_g _ _ Hq) as Hg. unfold hg in Hg. rw Hg.
  apply wp_bind. eapply wp_eq; [apply set_g_run|]. apply wp_room_answer; [|done].
  apply quiet_unlocked. by apply quiet_with_g.
Qed.

Lemma wp_process_count (Q : bool → hooks Srv D → Prop) h :
  quiet h0 h → (∀ h', quiet h0 h' → Q (qp_room (hcfg h0) (count_source h0)) h') →
  wp (check_process_count x) Q h.
Proof using Hok.
  intros Hq HQ. unfold check_process_count. apply wp_get, wp_bind, wp_process; [done|].
  intros h1 Hq1. unfold count_source in HQ. rw (quiet_cfg _ _ Hq).
  destruct (process_usage h0) as [u|]; cbn; [by apply wp_room_answer|].
  rw (q_ebpf _ _ Hq) (q_pid _ _ Hq). destruct (ebpf_initialized h0); [|by apply wp_local_count].
  apply wp_bind, wp_get, wp_ret. rw (q_shm _ _ Hq1).
  destruct (x_ebpf_get_process_resources x (pid h0) (pshm h0)); [by apply wp_ebpf_count|by apply wp_local_count].
Qed.

(** Every test of [check_qp_creation_restrictions]. *)
Definition verdict h (a : ibv_qp_init_attr) : bool :=
  let c := hcfg h in
  negb (enable_qp_control c) ||
  (negb (type_denied c (attr_qp_type a)) && qp_room c (count_source h)
     && match global_usage h with
        | Some u => u32 (Shm.qp_count u) <? Intercept.max_global_qp c
        | None => true
        end
     && (cap_max_send_wr a <=? max_send_wr_limit c) && (cap_max_recv_wr a <=? max_recv_wr_limit c)).

Lemma wp_restrictions pd a (Q : bool → hooks Srv D → Prop) h :
  quiet h0 h → (∀ h', quiet h0 h' → Q (verdict h0 a) h') →
  wp (check_qp_creation_restrictions x pd (Some a)) Q h.
Proof using Hok.
  intros Hq HQ. unfold check_qp_creation_restrictions, verdict in *.
  apply wp_bind, wp_log; [done|]. intros h1 Hq1. apply wp_get. rw (quiet_cfg _ _ Hq1).
  destruct (enable_qp_control (hcfg h0)); cbn [negb orb] in *;
    [|apply wp_bind, wp_log; [done|]; intros h2 Hq2; by apply wp_ret, HQ].
  apply wp_bind, wp_log; [done|]. intros h2 Hq2.
  destruct (type_denied _ _); cbn [negb andb] in *; [by apply wp_deny|].
  apply wp_bind, wp_if; intros _; [apply wp_ret|apply wp_log; [done|]; intros h2' Hq2'].
  all: apply wp_bind, wp_process_count; [done|]; intros h3 Hq3.
  all: destruct (qp_room _ _); cbn [negb andb] in *; [|by apply wp_ret, HQ].
  all: apply wp_bind, wp_global; [done|]; intros h4 Hq4.
  all: assert (Hg : (fst (reading (global_usage h0)) =? 0) && (Intercept.max_global_qp (hcfg h0)
         <=? u32 (Shm.qp_count (default Shm.usage_zero (snd (reading (global_usage h0))))))
       = negb match global_usage h0 with
              | Some u => u32 (Shm.qp_count u) <? Intercept.max_global_qp (hcfg h0)
              | None => true
              end) by (destruct (global_usage h0); [|done]; cbn; by rw Z.leb_antisym).
  all: rw Hg; destruct (match global_usage h0 with Some _ => _ | None => _ end);
    cbn [negb andb] in *; [|by apply wp_deny].
  all: apply wp_bind, wp_if; intros _; [apply wp_ret|apply wp_log; [done|]; intros h5 Hq5].
  all: rw !Z.ltb_antisym; destruct (cap_max_send_wr a <=? _); cbn [negb andb] in *; [|by apply wp_deny].
  all: destruct (cap_max_recv_wr a <=? _); cbn [negb andb] in *; [|by apply wp_deny].
  all: apply wp_bind, wp_log; [done|]; intros h6 Hq6; by apply wp_ret, HQ.
Qed.

Lemma wp_qp_event pd a qp name (Q : unit → hooks Srv D → Prop) h :
  pd ≠ 0 → quiet h0 h → (∀ h', quiet h0 h' → Q tt h') → wp (log_qp_creation pd (Some a) qp name) Q h.
Proof using Hok.
  intros Hpd Hq HQ. unfold log_qp_creation. apply wp_get, wp_if; intros _; [by apply wp_ret, HQ|].
  apply wp_bind. eexists _, _. split; [reflexivity|]. rw (proj2 (Z.eqb_neq pd 0) Hpd).
  match goal with |- wp _ _ ?s => assert (Hq1 : quiet h0 s) by (eapply quiet_trans; [exact Hq|by split]) end.
  apply wp_bind, wp_log; [done|]. intros h2 Hq2.
  pose proof (q_log _ _ Hq2 (hk_log _ (pk_ok _ Hok))) as Hlog.
  unfold wp, zproc, rdma_intercept_log_qp_creation, zoom. run. fold (hproc h2).
  destruct (_ || _).
  { exists tt, h2. split; [by destruct h2 as [[[]]]|by apply HQ]. }
  rw write_log_run //. eexists tt, _. split; [reflexivity|]. apply HQ.
  eapply quiet_trans; [exact Hq2|]. destruct (log_file (g (hproc h2))); [|by split].
  split; try done. intros [? ? ? ?]. by split.
Qed.
End Quiet.

(** ** Running the hooks *)

Lemma pok_base h h' :
  pok h → hooks_ok h' → pshm h' = pshm h → hooks_init_once h' = hooks_init_once h →
  pid h' = pid h → pok h'.
Proof.
  intros [H1 H2 H3 H4] Hok Hs Ho Hp. split; [done|unfold shm_usable; by rw Hs|by rw Ho|by rw Hp].
Qed.

Lemma pok_driver h d : pok h → pok (h <| drv := d |>).
Proof. intros Hok. eapply pok_base; try done. by destruct (pk_ok _ Hok); split. Qed.

Definition harmless (f : intercept_state_t → intercept_state_t) : Prop :=
  plain f ∧ ∀ s, config (f s) = config s ∧ initialized (f s) = initialized s ∧
    log_file (f s) = log_file s ∧
    (is_u32 (qp_count s) → is_u32 (mr_count s) → is_u64 (memory_used s) →
     is_u32 (qp_count (f s)) ∧ is_u32 (mr_count (f s)) ∧ is_u64 (memory_used (f s))).

Lemma pok_with_g f h : pok h → harmless f → pok (with_g f h).
Proof.
  intros Hok [Hf Hc]. eapply pok_base; try done.
  destruct (pk_ok _ Hok) as [Hl Hm Hq Hr Hu]. destruct (Hc (hg h)) as (_ & _ & Hlf & Hw).
  destruct (Hw Hq Hr Hu) as (?&?&?). split; try done.
  - destruct Hl as [Ho ? ? ?]. split; try done. intros f'. cbn. unfold hg in Hlf. rw Hlf. apply Ho.
  - change (resource_mutex (f (hg h)) = false). by rw (proj1 (Hf _)).
Qed.

Lemma pkept_with_g f h : harmless f → pkept h (with_g f h).
Proof. intros [_ Hc]. destruct (Hc (hg h)) as (H1 & H2 & _ & _). by split. Qed.

Lemma quiet_harmless f h h' : harmless f → quiet h h' → quiet (with_g f h) (with_g f h').
Proof. intros [_ Hc]. apply quiet_with_g. intros s. apply Hc. Qed.

Lemma wp_count_local f h0 (Q : unit → hooks Srv D → Prop) h :
  pok h0 → harmless f → quiet h0 h → (∀ h', quiet (with_g f h0) h' → Q tt h') →
  wp (count_local f) Q h.
Proof.
  intros Hok Hf Hq HQ. eapply wp_eq; [apply locked_run; [|apply Hf]|].
  - eapply quiet_ok; [exact Hq|apply Hok].
  - apply HQ. by apply quiet_harmless.
Qed.

Lemma wp_call_attr v h0 (Q : _ → hooks Srv D → Prop) h :
  quiet h0 h →
  (∀ h', quiet (h0 <| drv := dstate (x_driver x v (drv h0)) |>) h' →
     Q (ret (x_driver x v (drv h0)), attr_back (x_driver x v (drv h0))) h') →
  wp (call_attr x v) Q h.
Proof.
  intros Hq HQ. destruct (call_attr_run x v h) as (h' & Hrun & Hq').
  rw (q_drv _ _ Hq) in Hrun Hq'. eapply wp_eq; [exact Hrun|]. apply HQ.
  eapply quiet_trans; [|exact Hq']. destruct Hq. by split.
Qed.

Lemma wp_call v h0 (Q : _ → hooks Srv D → Prop) h :
  quiet h0 h →
  (∀ h', quiet (h0 <| drv := dstate (x_driver x v (drv h0)) |>) h' →
     Q (ret (x_driver x v (drv h0))) h') →
  wp (call x v) Q h.
Proof.
  intros Hq HQ. unfold call. apply wp_bind. eapply wp_call_attr; [exact Hq|].
  intros h' Hq'. by apply wp_ret, HQ.
Qed.

Lemma wp_fail e r h0 (Q : _ → hooks Srv D → Prop) h :
  quiet h0 h → (∀ h', quiet h0 h' → errno (hproc h') = e → Q r h') → wp (fail_with e r) Q h.
Proof.
  intros Hq HQ. destruct (fail_with_run e r h) as (h' & Hrun & Hq' & He).
  eapply wp_eq; [exact Hrun|]. apply HQ; [by eapply quiet_trans|done].
Qed.

Lemma wp_hooked name v failure body (Q : Z → hooks Srv D → Prop) h :
  pok h → enabled h = true → real h name = true → wp body Q h →
  wp (hooked x name v failure body) Q h.
Proof.
  intros Hok He Hr (r & h' & Hrun & HQ). exists r, h'. split; [|done].
  unfold hooked, once. run. rw (pk_once _ Hok). cbn. by rw He Hr.
Qed.

(** Publishing the local counts. *)
Record published h h' : Prop := {
  pb_g : hg h' = hg h;
  pb_drv : drv h' = drv h;
  pb_kept : pkept h h';
  pb_table : Shm.table (Shm.shm (pshm h')) =
      <[pid h := local_usage h]> (Shm.table (Shm.shm (pshm h))) ∧
      (is_Some (Shm.table (Shm.shm (pshm h)) !! pid h) ∨
       Z.of_nat (size (Shm.table (Shm.shm (pshm h)))) < Shm.MAX_PROCESSES) ∨
    Shm.table (Shm.shm (pshm h')) = Shm.table (Shm.shm (pshm h)) ∧
    (Shm.shm_data_ptr (pshm h) = true →
     Shm.table (Shm.shm (pshm h)) !! pid h = None ∧
     Z.of_nat (size (Shm.table (Shm.shm (pshm h)))) = Shm.MAX_PROCESSES);
}.

Lemma wp_publish h0 (Q : unit → hooks Srv D → Prop) h :
  pok h0 → quiet h0 h → (∀ m h', published h0 m → pok m → quiet m h' → Q tt h') →
  wp publish_local Q h.
Proof.
  intros Hok Hq HQ. unfold publish_local. apply wp_get, wp_bind.
  pose proof (pok_quiet _ _ Hq Hok) as Hokh.
  destruct (publish_run h (local_usage h) (pk_shm _ Hokh) (pk_pid _ Hokh))
    as (r & h' & Hrun & Hh & Hu & Hp & Hg & Ht & Hr).
  set (s := pshm h') in Hh. assert (Hs : pshm h' = s) by done. clearbody s.
  set (m := h0 <| pshm := s |>).
  assert (Hqm : quiet m h') by (subst h' m; destruct Hq; by split).
  assert (Hokm : pok m).
  { destruct Hok as [[] H2 H3 H4]. split; try done. unfold shm_usable in *. by rw Hs in Hu. }
  assert (Hpm : published h0 m).
  { rw Hs in Hp Hg Ht. rw (q_shm _ _ Hq) (q_pid _ _ Hq) in Hp Hg Ht Hr.
    assert (Hl : local_usage h = local_usage h0) by (unfold local_usage; by rw (q_g _ _ Hq)).
    rw Hl in Ht. split; try done; cbn.
    destruct Hr as [[-> Hroom]|[-> Hfull]]; cbn in Ht; [by left|by right]. }
  eapply wp_eq; [exact Hrun|].
  apply wp_if; intros _; apply (wp_log m Hokm); try done; intros h2 Hq2; by apply (HQ m).
Qed.

(** [ibv_create_qp] asks the driver exactly when every test passes, and otherwise
    fails with [EPERM]; a QP made is counted locally and the local counts are
    published in the process's slot. *)
Lemma create_run h pd a :
  pok h → enabled h = true → real h "ibv_create_qp" = true → pd ≠ 0 →
  let ok := verdict h a in
  let o := x_driver x (CreateQp pd (Some a)) (drv h) in
  let made := ok && negb (ret o =? 0) in
  wp (ibv_create_qp x pd (Some a))
    (λ r h', r = (if ok then ret o else 0) ∧ pok h' ∧ pkept h h' ∧
       drv h' = (if ok then dstate o else drv h) ∧
       (ok = false → errno (hproc h') = EPERM) ∧
       if made
       then hg h' = (hg h) <| qp_count ::= λ n, u32 (n + 1) |> ∧
         (Shm.table (Shm.shm (pshm h')) = <[pid h := local_usage h']> (Shm.table (Shm.shm (pshm h))) ∧
          (is_Some (Shm.table (Shm.shm (pshm h)) !! pid h) ∨
           Z.of_nat (size (Shm.table (Shm.shm (pshm h)))) < Shm.MAX_PROCESSES) ∨
          Shm.table (Shm.shm (pshm h')) = Shm.table (Shm.shm (pshm h)) ∧
          (Shm.shm_data_ptr (pshm h) = true →
           Shm.table (Shm.shm (pshm h)) !! pid h = None ∧
           Z.of_nat (size (Shm.table (Shm.shm (pshm h)))) = Shm.MAX_PROCESSES))
       else hg h' = hg h ∧ pshm h' = pshm h) h.
Proof.
  intros Hok He Hreal Hpd ok o made. apply wp_hooked; [done..|].
  apply wp_bind, (wp_debug h Hok); [done|]. intros h1 Hq1.
  apply wp_bind, (wp_restrictions h Hok); [done|]. intros h2 Hq2. fold ok.
  subst made. destruct ok eqn:Eok; cbn [negb andb]; cycle 1.
  { apply (wp_fail _ _ h); [done|]. intros h3 Hq3 Herr.
    split_and!; try done; [by eapply pok_quiet|by apply pkept_quiet|apply (q_drv _ _ Hq3)
      |apply (q_g _ _ Hq3)|apply (q_shm _ _ Hq3)]. }
  apply wp_bind, (wp_call_attr _ h); [done|]. fold o. intros h3 Hq3. cbn [fst snd].
  set (b := h <| drv := dstate o |>) in *.
  assert (Hokb : pok b) by by apply pok_driver.
  assert (Hkb : pkept h b) by by split.
  destruct (ret o =? 0) eqn:Er; cbn [negb]; apply wp_bind.
  { apply (wp_log b Hokb); [done|]. intros h4 Hq4. apply wp_ret.
    split_and!; try done; [by eapply pok_quiet|by eapply pkept_trans; [|apply pkept_quiet]
      |apply (q_drv _ _ Hq4)|apply (q_g _ _ Hq4)|apply (q_shm _ _ Hq4)]. }
  apply wp_bind, (wp_qp_event b Hokb); [done..|]. intros h4 Hq4.
  assert (Hf : harmless (λ s, s <| qp_count ::= λ n, u32 (n + 1) |>)).
  { split; [by intros s|]. intros s. split_and!; try done. intros _ ? ?. split_and!; try done.
    apply u32_range. }
  apply wp_bind, (wp_count_local _ b); [done..|]. intros h5 Hq5.
  pose proof (pok_with_g _ _ Hokb Hf) as Hokc.
  pose proof (pkept_trans _ _ _ Hkb (pkept_with_g _ b Hf)) as Hkc.
  set (c := with_g _ b) in *.
  apply wp_bind, (wp_publish c); [done..|]. intros m h6 Hpm Hokm Hq6.
  apply (wp_info m Hokm); [done|]. intros h7 Hq7. apply wp_ret.
  pose proof (q_g _ _ Hq7) as Hg7. rw (pb_g _ _ Hpm) in Hg7.
  split_and!; try done.
  - by eapply pok_quiet.
  - eapply pkept_trans; [exact Hkc|]. eapply pkept_trans; [apply Hpm|by apply pkept_quiet].
  - by rw (q_drv _ _ Hq7) (pb_drv _ _ Hpm).
  - rw (q_shm _ _ Hq7). assert (Hl : local_usage h7 = local_usage c) by (unfold local_usage; by rw Hg7).
    rw Hl. apply (pb_table _ _ Hpm).
Qed.

Lemma wp_report msg figure h0 (Q : unit → hooks Srv D → Prop) h :
  pok h0 → quiet h0 h → (∀ h', quiet h0 h' → Q tt h') → wp (report x msg figure) Q h.
Proof.
  intros Hok Hq HQ. apply wp_get, wp_bind, (wp_process h0 Hok); [done|]. intros h1 Hq1.
  apply wp_if; intros _; [|by apply wp_ret, HQ]. apply wp_bind. unfold shown_usage. apply wp_get.
  apply wp_if; intros _; [apply wp_ret|apply wp_if; intros _; [apply wp_bind, wp_get, wp_ret|]; apply wp_ret].
  all: by apply (wp_log h0 Hok).
Qed.

(** [ibv_destroy_qp] asks the driver, and counts a QP destroyed; the process's
    slot is left as it was. *)
Definition drop_qp (s : intercept_state_t) : intercept_state_t :=
  s <| qp_count ::= λ n, if 0 <? n then n - 1 else n |>.

Lemma drop_qp_harmless : harmless drop_qp.
Proof.
  split; [by intros s|]. intros s. split_and!; try done. intros Hq ? ?. split_and!; try done.
  cbn. destruct (Z.ltb_spec 0 (qp_count s)); unfold is_u32 in *; lia.
Qed.

Lemma destroy_run h qp :
  pok h → enabled h = true → real h "ibv_destroy_qp" = true →
  let o := x_driver x (DestroyQp qp) (drv h) in
  wp (ibv_destroy_qp x qp)
    (λ r h', r = ret o ∧ pok h' ∧ pkept h h' ∧ drv h' = dstate o ∧ pshm h' = pshm h ∧
       hg h' = if ret o =? 0 then drop_qp (hg h) else hg h) h.
Proof.
  intros Hok He Hreal o. apply wp_hooked; [done..|].
  apply wp_bind, (wp_debug h Hok); [done|]. intros h1 Hq1.
  apply wp_bind, (wp_call _ h); [done|]. fold o. intros h2 Hq2.
  set (b := h <| drv := dstate o |>) in *.
  assert (Hokb : pok b) by by apply pok_driver.
  assert (Hkb : pkept h b) by by split.
  destruct (ret o =? 0) eqn:Er; apply wp_bind.
  - apply wp_bind, (wp_count_local drop_qp b); [done|apply drop_qp_harmless|done|]. intros h3 Hq3.
    pose proof (pok_with_g _ _ Hokb drop_qp_harmless) as Hokc.
    apply (wp_report _ _ (with_g drop_qp b)); [done..|]. intros h4 Hq4. apply wp_ret.
    split_and!; [done|by eapply pok_quiet| |apply (q_drv _ _ Hq4)|apply (q_shm _ _ Hq4)|apply (q_g _ _ Hq4)].
    eapply pkept_trans; [exact Hkb|]. eapply pkept_trans; [apply pkept_with_g, drop_qp_harmless|].
    by apply pkept_quiet.
  - apply (wp_log b Hokb); [done|]. intros h4 Hq4. apply wp_ret.
    split_and!; [done|by eapply pok_quiet|by eapply pkept_trans; [|apply pkept_quiet]
      |apply (q_drv _ _ Hq4)|apply (q_shm _ _ Hq4)|apply (q_g _ _ Hq4)].
Qed.

(** ** Memory regions *)

(** The figures a registration is judged by. *)
Definition mr_source h : Z * Z :=
  match process_usage h with
  | Some u => (u32 (Shm.mr_count u), Shm.memory_used u)
  | None =>
      match (if ebpf_initialized h
             then x_ebpf_get_process_resources x (pid h) (pshm h) else None) with
      | Some u => (u32 (Shm.mr_count u), Shm.memory_used u)
      | None => (mr_count (hg h), memory_used (hg h))
      end
  end.

Definition mr_verdict h (length : Z) : bool :=
  let c := hcfg h in
  negb (enable_mr_control c) ||
  ((fst (mr_source h) <? max_mr_per_process c)
     && (u64 (snd (mr_source h) + length) <=? max_memory_per_process c)).

Lemma wp_mr_usage n m length h0 (Q : bool → hooks Srv D → Prop) h :
  pok h0 → quiet h0 h →
  (∀ h', quiet h0 h' → Q ((n <? max_mr_per_process (hcfg h0))
     && (u64 (m + length) <=? max_memory_per_process (hcfg h0))) h') →
  wp (check_mr_usage n m length) Q h.
Proof.
  intros Hok Hq HQ. unfold check_mr_usage. apply wp_get. rw (quiet_cfg _ _ Hq).
  rw Z.ltb_antisym in HQ. rw (Z.ltb_antisym (u64 _)).
  destruct (_ <=? n); cbn [negb andb] in *; [by apply (wp_deny h0 Hok)|].
  destruct (_ <=? _); cbn [negb] in *; [by apply wp_ret, HQ|by apply (wp_deny h0 Hok)].
Qed.

Lemma wp_mr_restrictions length h0 (Q : bool → hooks Srv D → Prop) h :
  pok h0 → quiet h0 h → (∀ h', quiet h0 h' → Q (mr_verdict h0 length) h') →
  wp (check_mr_restrictions x length) Q h.
Proof.
  intros Hok Hq HQ. unfold check_mr_restrictions, mr_verdict, mr_source in *.
  apply wp_get, wp_bind, (wp_process h0 Hok); [done|]. intros h1 Hq1.
  rw (quiet_cfg _ _ Hq). destruct (enable_mr_control (hcfg h0)); cbn [negb orb] in *;
    [|by apply wp_ret, HQ].
  destruct (process_usage h0) as [u|]; cbn [reading fst snd] in *; [by apply (wp_mr_usage _ _ _ h0)|].
  cbn. rw (q_ebpf _ _ Hq) (q_pid _ _ Hq). destruct (ebpf_initialized h0).
  - apply wp_bind, wp_get, wp_ret. rw (q_shm _ _ Hq1).
    destruct (x_ebpf_get_process_resources _ _ _); [by apply (wp_mr_usage _ _ _ h0)|].
    apply wp_get. rw (q_g _ _ Hq1). by apply (wp_mr_usage _ _ _ h0).
  - apply wp_get. rw (q_g _ _ Hq1). by apply (wp_mr_usage _ _ _ h0).
Qed.

Lemma wp_collector n h0 (Q : bool → hooks Srv D → Prop) h :
  pok h0 → quiet h0 h → (∀ b h', quiet h0 h' → Q b h') →
  wp (zoom pol (zoom cl (collector_check_global_memory_limit (x_exchange x) n))) Q h.
Proof.
  intros Hok Hq HQ. pose proof (hk_log _ (pk_ok _ (pok_quiet _ _ Hq Hok))) as Hlog.
  destruct (memory_check_returns (x_exchange x) n (cl (pol h)) Hlog) as (b & c & Hrun & Hok' & Hg & Hs).
  unfold wp, zoom. rw Hrun. eexists _, _. split; [reflexivity|]. apply HQ.
  eapply quiet_trans; [exact Hq|]. by split.
Qed.

Definition add_mr (length : Z) (s : intercept_state_t) : intercept_state_t :=
  s <| mr_count ::= λ n, u32 (n + 1) |> <| memory_used ::= λ n, u64 (n + length) |>.

Lemma add_mr_harmless n : harmless (add_mr n).
Proof.
  split; [by intros s|]. intros s. split_and!; try done. intros ? _ _.
  split_and!; [done|apply u32_range|apply u64_range].
Qed.

(** [ibv_reg_mr] asks the driver when the process's figures and the collector
    allow it; the shared memory is left as it was. *)
Lemma reg_mr_wp h pd addr length access :
  pok h → enabled h = true → real h "ibv_reg_mr" = true →
  let o := x_driver x (RegMr pd addr length access) (drv h) in
  wp (ibv_reg_mr x pd addr length access)
    (λ r h', pok h' ∧ pkept h h' ∧ pshm h' = pshm h ∧ qp_count (hg h') = qp_count (hg h) ∧
       ∃ over : bool, let ok := mr_verdict h length && negb over in
         r = (if ok then ret o else 0) ∧ drv h' = (if ok then dstate o else drv h) ∧
         (ok = false → errno (hproc h') = EPERM) ∧
         hg h' = if ok && negb (ret o =? 0) then add_mr length (hg h) else hg h) h.
Proof.
  intros Hok He Hreal o. apply wp_hooked; [done..|].
  apply wp_bind, (wp_debug h Hok); [done|]. intros h1 Hq1.
  apply wp_bind, (wp_mr_restrictions _ h); [done..|]. intros h2 Hq2.
  assert (Hfail : ∀ h' over, quiet h h' → mr_verdict h length && negb over = false →
    wp (fail_with EPERM 0) (λ r h', pok h' ∧ pkept h h' ∧ pshm h' = pshm h ∧
      qp_count (hg h') = qp_count (hg h) ∧
      ∃ over : bool, let ok := mr_verdict h length && negb over in
         r = (if ok then ret o else 0) ∧ drv h' = (if ok then dstate o else drv h) ∧
         (ok = false → errno (hproc h') = EPERM) ∧
         hg h' = if ok && negb (ret o =? 0) then add_mr length (hg h) else hg h) h').
  { intros h' over Hq' Hv. apply (wp_fail _ _ h); [done|]. intros h3 Hq3 Herr.
    split_and!; [by eapply pok_quiet|by apply pkept_quiet|apply (q_shm _ _ Hq3)|by rw (q_g _ _ Hq3)|].
    exists over. rw Hv. split_and!; [done|apply (q_drv _ _ Hq3)|done|apply (q_g _ _ Hq3)]. }
  destruct (mr_verdict h length) eqn:Hv; cbn [negb]; [|by apply (Hfail h2 true)].
  apply wp_bind, (wp_collector _ h); [done..|]. intros over h3 Hq3.
  destruct over.
  { apply wp_bind, (wp_log h Hok); [done|]. intros h4 Hq4. by apply (Hfail h4 true). }
  apply wp_bind, (wp_call _ h); [done|]. fold o. intros h4 Hq4.
  set (b := h <| drv := dstate o |>) in *.
  assert (Hokb : pok b) by by apply pok_driver.
  assert (Hkb : pkept h b) by by split.
  destruct (ret o =? 0) eqn:Er; cbn [negb]; apply wp_bind.
  { apply (wp_log b Hokb); [done|]. intros h5 Hq5. apply wp_ret.
    split_and!; [by eapply pok_quiet|by eapply pkept_trans; [|apply pkept_quiet]
      |apply (q_shm _ _ Hq5)|by rw (q_g _ _ Hq5)|]. exists false. cbn.
    split_and!; [done|apply (q_drv _ _ Hq5)|done|apply (q_g _ _ Hq5)]. }
  apply wp_bind. eapply wp_eq; [apply set_g_run|].
  apply wp_bind. eapply wp_eq; [apply set_g_run|].
  pose proof (quiet_harmless _ _ _ (add_mr_harmless length) Hq4) as Hq5.
  pose proof (pok_with_g _ _ Hokb (add_mr_harmless length)) as Hokc.
  apply (wp_report _ _ (with_g (add_mr length) b)); [done|exact Hq5|]. intros h6 Hq6. apply wp_ret.
  split_and!; [by eapply pok_quiet| |apply (q_shm _ _ Hq6)|by rw (q_g _ _ Hq6)|].
  - eapply pkept_trans; [exact Hkb|]. eapply pkept_trans; [apply pkept_with_g, add_mr_harmless|].
    by apply pkept_quiet.
  - exists false. cbn. split_and!; [done|apply (q_drv _ _ Hq6)|done|apply (q_g _ _ Hq6)].
Qed.

Definition drop_mr (length : Z) (s : intercept_state_t) : intercept_state_t :=
  s <| mr_count ::= λ n, if 0 <? n then n - 1 else n |>
    <| memory_used ::= λ m, if length <=? m then m - length else m |>.

Lemma drop_mr_harmless n : 0 ≤ n → harmless (drop_mr n).
Proof.
  intros H0. split; [by intros s|]. intros s. split_and!; try done. intros ? Hm Hu.
  split_and!; [done|..]; cbn.
  - destruct (Z.ltb_spec 0 (mr_count s)); unfold is_u32 in *; lia.
  - destruct (Z.leb_spec n (memory_used s)); unfold is_u64 in *; lia.
Qed.

Lemma dereg_mr_wp h mr :
  pok h → enabled h = true → real h "ibv_dereg_mr" = true →
  let o := x_driver x (DeregMr mr) (drv h) in
  let n := if mr =? 0 then 0 else u64 (x_mr_length x mr (drv h)) in
  wp (ibv_dereg_mr x mr)
    (λ r h', r = ret o ∧ pok h' ∧ pkept h h' ∧ drv h' = dstate o ∧ pshm h' = pshm h ∧
       hg h' = if ret o =? 0 then drop_mr n (hg h) else hg h) h.
Proof.
  intros Hok He Hreal o n. apply wp_hooked; [done..|].
  assert (Hn : harmless (drop_mr n)).
  { apply drop_mr_harmless. unfold n. destruct (mr =? 0); [done|apply u64_range]. }
  apply wp_bind, (wp_debug h Hok); [done|]. intros h1 Hq1.
  apply wp_get, wp_bind, (wp_call _ h); [done|]. fold o. intros h2 Hq2. rw (q_drv _ _ Hq1). fold n.
  set (b := h <| drv := dstate o |>) in *.
  assert (Hokb : pok b) by by apply pok_driver.
  assert (Hkb : pkept h b) by by split.
  destruct (ret o =? 0) eqn:Er; apply wp_bind.
  - apply wp_bind. eapply wp_eq; [apply set_g_run|].
    apply wp_bind. eapply wp_eq; [apply set_g_run|].
    pose proof (quiet_harmless _ _ _ Hn Hq2) as Hq3.
    pose proof (pok_with_g _ _ Hokb Hn) as Hokc.
    apply (wp_report _ _ (with_g (drop_mr n) b)); [done|exact Hq3|]. intros h4 Hq4. apply wp_ret.
    split_and!; [done|by eapply pok_quiet| |apply (q_drv _ _ Hq4)|apply (q_shm _ _ Hq4)|apply (q_g _ _ Hq4)].
    eapply pkept_trans; [exact Hkb|]. eapply pkept_trans; [by apply pkept_with_g|].
    by apply pkept_quiet.
  - apply (wp_log b Hokb); [done|]. intros h4 Hq4. apply wp_ret.
    split_and!; [done|by eapply pok_quiet|by eapply pkept_trans; [|apply pkept_quiet]
      |apply (q_drv _ _ Hq4)|apply (q_shm _ _ Hq4)|apply (q_g _ _ Hq4)].
Qed.

(** The hooks that only forward and log. *)
Lemma object_run h name v :
  pok h → enabled h = true → real h name = true →
  wp (object_hook x name v)
    (λ r h', r = ret (x_driver x v (drv h)) ∧ quiet (h <| drv := dstate (x_driver x v (drv h)) |>) h') h.
Proof.
  intros Hok He Hreal. apply wp_hooked; [done..|].
  apply wp_bind, (wp_debug h Hok); [done|]. intros h1 Hq1.
  apply wp_bind, (wp_call _ h); [done|]. intros h2 Hq2.
  pose proof (pok_driver _ (dstate (x_driver x v (drv h))) Hok) as Hokb.
  apply wp_bind, wp_if; intros _; [eapply (wp_info _ Hokb)|eapply (wp_log _ Hokb)]; try done;
    intros h3 Hq3; by apply wp_ret.
Qed.

Lemma status_run h name v :
  pok h → enabled h = true → real h name = true →
  wp (status_hook x name v)
    (λ r h', r = ret (x_driver x v (drv h)) ∧ quiet (h <| drv := dstate (x_driver x v (drv h)) |>) h') h.
Proof.
  intros Hok He Hreal. apply wp_hooked; [done..|].
  apply wp_bind, (wp_debug h Hok); [done|]. intros h1 Hq1.
  apply wp_bind, (wp_call _ h); [done|]. intros h2 Hq2.
  pose proof (pok_driver _ (dstate (x_driver x v (drv h))) Hok) as Hokb.
  apply wp_bind, wp_if; intros _; [eapply (wp_info _ Hokb)|eapply (wp_log _ Hokb)]; try done;
    intros h3 Hq3; by apply wp_ret.
Qed.
End Props.
End HooksProps.
