(* ===== verification/HooksLimits.v ===== *)
(** * The limits of the per-process hooks over sequences of calls

    The limit on the QPs of a process holds over any sequence of its calls; the
    slot of the process is only written when a QP is created, so destroyed QPs keep
    counting and registered MRs never do; with the process table full there is no
    limit; and a disabled library forwards every verb. *)

From S2P Require Import Prelude CString Intercept Core CollectorServer CollectorClient LocalPolicy.
From S2P Require Import SlotTable ShmProcess HookBase Hooks HooksProps.

Module HooksLimits.
Import Intercept Core CollectorClient LocalPolicy HookBase Hooks HooksProps.
#[local] Existing Instances Shm.expand_usage Shm.expand_data Shm.expand_state.

Section Ops.
Context {Srv D : Type} (x : externals Srv D).
Implicit Types h : hooks Srv D.

(** ** Hook calls *)

(** The hook that stands for each verb. *)
Definition hook (v : verb) : M (hooks Srv D) Z :=
  match v with
  | CreateQp pd attr => ibv_create_qp x pd attr
  | DestroyQp qp => ibv_destroy_qp x qp
  | CreateCq c n cc ch cv => ibv_create_cq x c n cc ch cv
  | DestroyCq cq => ibv_destroy_cq x cq
  | AllocPd c => ibv_alloc_pd x c
  | DeallocPd pd => ibv_dealloc_pd x pd
  | RegMr pd addr length access => ibv_reg_mr x pd addr length access
  | DeregMr mr => ibv_dereg_mr x mr
  | DestroyMr mr => ibv_destroy_mr x mr
  | CreateSrq pd a => ibv_create_srq x pd a
  | ModifySrq srq a m => ibv_modify_srq x srq a m
  | QuerySrq srq a => ibv_query_srq x srq a
  | DestroySrq srq => ibv_destroy_srq x srq
  | CreateAh pd a => ibv_create_ah x pd a
  | ModifyAh ah a => ibv_modify_ah x ah a
  | DestroyAh ah => ibv_destroy_ah x ah
  end.

Definition symbol (v : verb) : string :=
  match v with
  | CreateQp _ _ => "ibv_create_qp" | DestroyQp _ => "ibv_destroy_qp"
  | CreateCq _ _ _ _ _ => "ibv_create_cq" | DestroyCq _ => "ibv_destroy_cq"
  | AllocPd _ => "ibv_alloc_pd" | DeallocPd _ => "ibv_dealloc_pd"
  | RegMr _ _ _ _ => "ibv_reg_mr" | DeregMr _ => "ibv_dereg_mr" | DestroyMr _ => "ibv_destroy_mr"
  | CreateSrq _ _ => "ibv_create_srq" | ModifySrq _ _ _ => "ibv_modify_srq"
  | QuerySrq _ _ => "ibv_query_srq" | DestroySrq _ => "ibv_destroy_srq"
  | CreateAh _ _ => "ibv_create_ah" | ModifyAh _ _ => "ibv_modify_ah"
  | DestroyAh _ => "ibv_destroy_ah"
  end.

(** The result that stands for failure: NULL, or -1. *)
Definition failure (v : verb) : Z :=
  match v with
  | CreateQp _ _ | CreateCq _ _ _ _ _ | AllocPd _ | RegMr _ _ _ _ | CreateSrq _ _ | CreateAh _ _ => 0
  | _ => -1
  end.

Fixpoint run_hooks (vs : list verb) : M (hooks Srv D) (list Z) :=
  match vs with
  | [] => mret []
  | v :: vs' => r ← hook v; rs ← run_hooks vs'; mret (r :: rs)
  end.

(** Pointers a program passes: a protection domain and attributes. *)
Definition valid (v : verb) : Prop :=
  match v with CreateQp pd attr => pd ≠ 0 ∧ is_Some attr | _ => True end.

(** The library is enabled and found every verb. *)
Record live h : Prop := {
  lv_enabled : enabled h = true;
  lv_real v : real h (symbol v) = true;
}.

Lemma live_pkept h h' : pkept h h' → live h → live h'.
Proof.
  intros Hk [He Hr]. split; [by rw (pkept_enabled _ _ Hk)|]. intros v. by rw (pk_real _ _ Hk).
Qed.

(** ** One call *)

(** What a call other than [ibv_create_qp] leaves alone. *)
Lemma other_run h v :
  pok h → live h → (∀ pd attr, v ≠ CreateQp pd attr) →
  wp (hook v)
    (λ r h', pok h' ∧ pkept h h' ∧ pshm h' = pshm h ∧
       (drv h' = drv h ∨ drv h' = dstate (x_driver x v (drv h))) ∧
       match v with
       | DestroyQp _ =>
           drv h' = dstate (x_driver x v (drv h)) ∧
           qp_count (hg h') = if ret (x_driver x v (drv h)) =? 0
                              then qp_count (drop_qp (hg h)) else qp_count (hg h)
       | _ => qp_count (hg h') = qp_count (hg h)
       end) h.
Proof.
  intros Hok [He Hreal] Hv. specialize (Hreal v). destruct v.
  1: by destruct (Hv pd attr).
  1: { eapply wp_mono; [|by apply destroy_run]. cbv beta. intros r h' (-> & H1 & H2 & H3 & H4 & H5).
    split_and!; try done; [by right|]. rw H5. by destruct (_ =? 0). }
  5: { eapply wp_mono; [|by apply reg_mr_wp]. cbv beta.
    intros r h' (H1 & H2 & H3 & H4 & over & _ & Hd & _ & _).
    split_and!; try done. rw Hd. destruct (_ && _); [by right|by left]. }
  5: { eapply wp_mono; [|by apply dereg_mr_wp]. cbv beta. intros r h' (-> & H1 & H2 & H3 & H4 & H5).
    split_and!; try done; [by right|]. rw H5. by destruct (_ =? 0). }
  all: eapply wp_mono; [|solve [by apply object_run|by apply status_run]]; cbv beta; intros r h' (_ & Hq).
  all: split_and!; [eapply pok_quiet; [exact Hq|by apply pok_driver]
    |eapply pkept_trans; [|by apply pkept_quiet]; by split
    |apply (q_shm _ _ Hq)|right; apply (q_drv _ _ Hq)|by rw (q_g _ _ Hq)].
Qed.

Lemma hook_pok h v :
  pok h → live h → valid v → wp (hook v) (λ _ h', pok h' ∧ pkept h h') h.
Proof.
  intros Hok Hlive Hv. destruct v as [pd [a|]| | | | | | | | | | | | | | |].
  1: { destruct Hv as [Hpd _], Hlive as [He Hr]. eapply wp_mono; [|apply create_run; try done; apply (Hr (CreateQp pd None))].
    cbv beta. by intros r h' (_ & ? & ? & _). }
  1: by destruct Hv as [_ []].
  all: eapply wp_mono; [|by apply other_run]; cbv beta; by intros r h' (? & ? & _).
Qed.

(** Sequences of calls: they return, and keep what every call keeps. *)
Lemma hooks_run (P : hooks Srv D → Prop) (A : verb → Prop) vs h :
  pok h → live h → P h → Forall (λ v, valid v ∧ A v) vs →
  (∀ h v, pok h → live h → P h → valid v → A v → wp (hook v) (λ _, P) h) →
  ∃ rs h', run_hooks vs h = Ret rs h' ∧ length rs = length vs ∧ pok h' ∧ pkept h h' ∧ P h'.
Proof.
  intros Hok Hlive HP Hvs Hstep. revert h Hok Hlive HP.
  induction Hvs as [|v vs [Hv Ha] _ IH]; intros h Hok Hlive HP.
  { exists [], h. by split_and!; [| | | |done]. }
  destruct (wp_and _ _ _ _ (hook_pok h v Hok Hlive Hv) (Hstep h v Hok Hlive HP Hv Ha))
    as (r & h1 & Hrun & (Hok1 & Hk1) & HP1).
  destruct (IH h1 Hok1 (live_pkept _ _ Hk1 Hlive) HP1) as (rs & h2 & Hrun2 & Hl & Hok2 & Hk2 & HP2).
  exists (r :: rs), h2. cbn [run_hooks]. rw (bind_Ret _ _ _ _ _ Hrun) (bind_Ret _ _ _ _ _ Hrun2).
  split_and!; [done|by cbn; rw Hl|done|by eapply pkept_trans|done].
Qed.

(** ** The limit on the QPs of a process *)

Section Limit.
Context (qps : D → Z) (Hq : counts_qps x qps).

(** The local count is the number of QPs the process holds, within the limit; the
    slot, if the process has one, is at least as high; otherwise the process
    holds none and there is room for its slot. *)
Record limited h : Prop := {
  lm_control : enable_qp_control (hcfg h) = true;
  lm_ptr : Shm.shm_data_ptr (pshm h) = true;
  lm_max : 0 ≤ max_qp_per_process (hcfg h) < UINT32_MAX;
  lm_count : qp_count (hg h) = qps (drv h);
  lm_le : qps (drv h) ≤ max_qp_per_process (hcfg h);
  lm_slot :
    match Shm.table (Shm.shm (pshm h)) !! pid h with
    | Some u => qps (drv h) ≤ u32 (Shm.qp_count u) ≤ max_qp_per_process (hcfg h)
    | None => qps (drv h) = 0 ∧ Z.of_nat (size (Shm.table (Shm.shm (pshm h)))) < Shm.MAX_PROCESSES
    end;
}.

Lemma limited_source h :
  limited h → qps (drv h) ≤ count_source x h ≤ max_qp_per_process (hcfg h).
Proof using.
  intros [_ Hp Hm _ Hle Hs]. unfold count_source, process_usage. rw Hp.
  destruct (_ !! pid h); cbn in *; [lia|]. destruct Hs. change (u32 0) with 0. lia.
Qed.

Lemma limited_create h pd a :
  pok h → live h → limited h → pd ≠ 0 → wp (ibv_create_qp x pd (Some a)) (λ _, limited) h.
Proof using Hq.
  intros Hok [He Hr] Hl Hpd.
  eapply wp_mono; [|apply create_run; try done; apply (Hr (CreateQp pd None))]. cbv beta zeta.
  intros r h' (_ & Hok' & Hk & Hd & _ & Hmade).
  pose proof (qps_create _ _ Hq pd (Some a) (drv h)) as Hc. cbv zeta in Hc.
  pose proof (limited_source _ Hl) as Hsrc. destruct Hl as [Hctl Hp Hm Hcnt Hle Hs].
  pose proof (pk_cfg _ _ Hk) as Hcfg. pose proof (pk_ptr _ _ Hk) as Hptr.
  pose proof (pk_pid_same _ _ Hk) as Hpid.
  destruct (verdict x h a) eqn:Hv; cbn [andb] in *; cycle 1.
  { destruct Hmade as [Hg Hsh]. split; rw ?Hcfg ?Hptr ?Hg ?Hd ?Hsh ?Hpid //. }
  destruct (ret _ =? 0) eqn:Er; cbn [negb] in *.
  { destruct Hmade as [Hg Hsh]. rw -Hd in Hc. rw Z.add_0_r in Hc.
    split; rw ?Hcfg ?Hptr ?Hg ?Hc ?Hsh ?Hpid //. }
  destruct Hmade as [Hg Ht]. rw -Hd in Hc.
  assert (Hroom : count_source x h + 1 ≤ max_qp_per_process (hcfg h)).
  { unfold verdict in Hv. rw Hctl in Hv. cbn in Hv.
    do 3 (apply andb_true_iff in Hv as [Hv _]). apply andb_true_iff in Hv as [_ Hroom].
    unfold qp_room in Hroom. apply Z.leb_le in Hroom. unfold UINT32_MAX in *.
    rw u32_small in Hroom; [unfold is_u32; pose proof (qps_nonneg _ _ Hq (drv h)); lia|done]. }
  pose proof (qps_nonneg _ _ Hq (drv h)) as Hnn.
  assert (Hsmall : u32 (qps (drv h) + 1) = qps (drv h) + 1).
  { apply u32_small. unfold is_u32, UINT32_MAX in *. lia. }
  assert (Hcount : qp_count (hg h') = qps (drv h')) by (rw Hg; cbn; rw Hcnt Hsmall; lia).
  split; rw ?Hcfg ?Hptr //; [rw Hc; lia|]. rw Hpid.
  destruct Ht as [[-> _]|[-> Hfull]].
  - rw lookup_insert_eq. unfold local_usage. cbn. rw u32_i32 Hcount Hc Hsmall. lia.
  - destruct (Hfull Hp) as [Hnone Hsize]. rw Hnone in Hs. lia.
Qed.

Lemma limited_other h v :
  pok h → live h → limited h → (∀ pd attr, v ≠ CreateQp pd attr) → wp (hook v) (λ _, limited) h.
Proof using Hq.
  intros Hok Hlive Hl Hv. eapply wp_mono; [|by apply other_run]. cbv beta.
  intros r h' (_ & Hk & Hsh & Hd & Hcase). destruct Hl as [Hctl Hp Hm Hcnt Hle Hs].
  pose proof (pk_cfg _ _ Hk) as Hcfg. pose proof (pk_pid_same _ _ Hk) as Hpid.
  assert (Hkeep : qp_count (hg h') = qp_count (hg h) → qps (drv h') = qps (drv h) → limited h').
  { intros Hg Hdq. split; rw ?Hcfg ?Hsh ?Hpid ?Hg ?Hdq //. }
  assert (Hno : no_qp v → qps (drv h') = qps (drv h)).
  { intros Hnq. destruct Hd as [->| ->]; [done|]. by apply (qps_other _ _ Hq). }
  destruct v; try (by apply Hkeep, Hno); [by destruct (Hv pd attr)|].
  destruct Hcase as [Hd' Hg]. pose proof (qps_destroy _ _ Hq qp (drv h)) as Hc. cbv zeta in Hc.
  rw -Hd' in Hc. destruct (ret _ =? 0); [|apply Hkeep; [done|lia]].
  pose proof (qps_nonneg _ _ Hq (drv h')) as Hnn.
  assert (Hcount : qp_count (hg h') = qps (drv h')).
  { rw Hg. cbn. rw Hcnt (proj2 (Z.ltb_lt _ _)); lia. }
  split; rw ?Hcfg ?Hsh ?Hpid //; [lia|].
  destruct (_ !! pid h); [lia|]. destruct Hs. lia.
Qed.

(** C4: under QP control and with its slot available, a process never holds more
    QPs than [max_qp_per_process], whatever verbs it calls in whatever order: the
    local count is the number of QPs it holds, and the slot of the process in the
    shared memory stays between that number and the limit (a process that has no
    slot holds no QP). *)
Theorem process_qp_limit_holds h vs :
  pok h → live h → limited h → Forall valid vs →
  ∃ rs h', run_hooks vs h = Ret rs h' ∧ length rs = length vs ∧
    qp_count (hg h') = qps (drv h') ∧ qps (drv h') ≤ max_qp_per_process (hcfg h) ∧
    match Shm.table (Shm.shm (pshm h')) !! pid h with
    | Some u => qps (drv h') ≤ u32 (Shm.qp_count u) ≤ max_qp_per_process (hcfg h)
    | None => qps (drv h') = 0
    end.
Proof using Hq.
  intros Hok Hlive Hl Hvs.
  destruct (hooks_run limited (λ _, True) vs h Hok Hlive Hl) as (rs & h' & Hrun & Hlen & _ & Hk & Hl').
  { eapply Forall_impl; [exact Hvs|]. by intros v. }
  { intros g v Hokg Hlg Hg Hv _. destruct v as [pd [a|]| | | | | | | | | | | | | | |];
      try by apply limited_other. all: destruct Hv as [? [? [=]]]; by apply limited_create. }
  destruct Hl' as [_ _ _ Hcnt Hle Hs]. rewrite (pk_cfg _ _ Hk) in Hle, Hs. rewrite (pk_pid_same _ _ Hk) in Hs.
  exists rs, h'. split_and!; try done. by destruct (_ !! pid h); [|destruct Hs].
Qed.
End Limit.

(** ** What the slot does not follow *)

(** Destroying QPs does not lower the slot of the process: once the recorded
    count has reached the limit, new QPs are refused (NULL, [EPERM], driver not
    asked) after any sequence of calls that creates none, even when the process
    holds none any more. *)
Theorem destroyed_qps_still_count h u vs pd a :
  pok h → live h → enable_qp_control (hcfg h) = true → Shm.shm_data_ptr (pshm h) = true →
  Shm.table (Shm.shm (pshm h)) !! pid h = Some u →
  max_qp_per_process (hcfg h) ≤ u32 (Shm.qp_count u) < UINT32_MAX →
  Forall (λ v, ∀ pd attr, v ≠ CreateQp pd attr) vs → pd ≠ 0 →
  ∃ rs h' h'', run_hooks vs h = Ret rs h' ∧
    ibv_create_qp x pd (Some a) h' = Ret 0 h'' ∧ errno (hproc h'') = EPERM ∧ drv h'' = drv h'.
Proof.
  intros Hok Hlive Hctl Hp Hu Hmax Hvs Hpd.
  destruct (hooks_run (λ h', pshm h' = pshm h) (λ v, ∀ pd attr, v ≠ CreateQp pd attr) vs h Hok Hlive eq_refl)
    as (rs & h' & Hrun & _ & Hok' & Hk & Hsh).
  { eapply Forall_impl; [exact Hvs|]. intros v Hv. split; [|done]. destruct v; try done. by destruct (Hv pd0 attr). }
  { intros g v Hokg Hlg Hg _ Hv. eapply wp_mono; [|by apply other_run]. cbv beta.
    intros r g' (_ & _ & -> & _). done. }
  destruct (live_pkept _ _ Hk Hlive) as [He Hr].
  destruct (create_run x h' pd a Hok' He (Hr (CreateQp pd None)) Hpd)
    as (r & h'' & Hrun' & Hres & _ & _ & Hd & Herr & _).
  assert (Hv : verdict x h' a = false).
  { unfold verdict, count_source, process_usage.
    rw (pk_cfg _ _ Hk) Hctl Hsh Hp (pk_pid_same _ _ Hk) Hu. cbn [negb orb default].
    assert (Hroom : qp_room (hcfg h) (u32 (Shm.qp_count u)) = false).
    { unfold qp_room. apply Z.leb_gt. pose proof (u32_range (Shm.qp_count u)).
      unfold UINT32_MAX in Hmax. rw u32_small; unfold is_u32 in *; lia. }
    cbn. rw Hroom. by rw andb_false_r. }
  rw Hv in Hres Hd Herr. subst r. exists rs, h', h''. by split_and!; [| |apply Herr|].
Qed.

(** The MR limits are judged by the slot too, and no MR call writes it: while
    the process creates no QP, the verdict on a registration never changes,
    however many regions it has registered. *)
Theorem mr_limit_never_advances h vs length :
  pok h → live h → Shm.shm_data_ptr (pshm h) = true →
  Forall (λ v, ∀ pd attr, v ≠ CreateQp pd attr) vs →
  ∃ rs h', run_hooks vs h = Ret rs h' ∧ mr_verdict x h' length = mr_verdict x h length.
Proof.
  intros Hok Hlive Hp Hvs.
  destruct (hooks_run (λ h', pshm h' = pshm h) (λ v, ∀ pd attr, v ≠ CreateQp pd attr) vs h Hok Hlive eq_refl)
    as (rs & h' & Hrun & _ & Hok' & Hk & Hsh).
  { eapply Forall_impl; [exact Hvs|]. intros v Hv. split; [|done]. destruct v; try done. by destruct (Hv pd attr). }
  { intros g v Hokg Hlg Hg _ Hv. eapply wp_mono; [|by apply other_run]. cbv beta.
    intros r g' (_ & _ & -> & _). done. }
  exists rs, h'. split; [done|]. unfold mr_verdict, mr_source, process_usage.
  by rw (pk_cfg _ _ Hk) Hsh Hp (pk_pid_same _ _ Hk).
Qed.

(** A process that comes when the process table is full is not limited: its
    slot is never written, its count reads zero, and however many QPs it creates
    the test of [max_qp_per_process] passes. *)
Theorem full_table_lifts_limit h vs :
  pok h → live h → Shm.shm_data_ptr (pshm h) = true →
  Shm.table (Shm.shm (pshm h)) !! pid h = None →
  Z.of_nat (size (Shm.table (Shm.shm (pshm h)))) = Shm.MAX_PROCESSES →
  0 < max_qp_per_process (hcfg h) → Forall valid vs →
  ∃ rs h', run_hooks vs h = Ret rs h' ∧ count_source x h' = 0 ∧
    qp_room (hcfg h') (count_source x h') = true.
Proof.
  intros Hok Hlive Hp Hnone Hsize Hmax Hvs.
  destruct (hooks_run (λ h', Shm.table (Shm.shm (pshm h')) = Shm.table (Shm.shm (pshm h)) ∧ pid h' = pid h ∧
      Shm.shm_data_ptr (pshm h') = true) (λ _, True) vs h Hok Hlive)
    as (rs & h' & Hrun & _ & Hok' & Hk & Ht & Hpid & Hp'); [done| | |].
  { eapply Forall_impl; [exact Hvs|]. by intros v. }
  { intros g v Hokg Hlg (Htg & Hpg & Hptr) Hv _.
    destruct v as [pd [a|]| | | | | | | | | | | | | | |]; [|by destruct Hv as [_ []]|..].
    2-16: (eapply wp_mono; [|by apply other_run]; cbv beta;
      intros r g' (_ & Hkg & -> & _); by rw (pk_pid_same _ _ Hkg)).
    destruct Hv as [Hpd _], Hlg as [He Hr]. eapply wp_mono; [|apply create_run; try done; apply (Hr (CreateQp pd None))].
    cbv beta zeta. intros r g' (_ & _ & Hkg & _ & _ & Hmade).
    rw (pk_pid_same _ _ Hkg) (pk_ptr _ _ Hkg). split_and!; [|done..].
    destruct (_ && _); [|by destruct Hmade as [_ ->]].
    destruct Hmade as [_ [[_ Hroom]|[Hw _]]]; [|by rw Hw].
    rw Htg Hpg Hnone in Hroom. destruct Hroom as [[? [=]]|]; lia. }
  exists rs, h'. split; [done|].
  assert (Hc : count_source x h' = 0).
  { unfold count_source, process_usage. rw Hp' Ht Hpid Hnone. done. }
  rw Hc. split; [done|]. rw (pk_cfg _ _ Hk). unfold qp_room. apply Z.leb_le. change (u32 (0 + 1)) with 1. lia.
Qed.

(** ** What one creation depends on, and the switch *)

(** [ibv_create_qp] asks the driver exactly when the QP's type is allowed, the
    process has room by its slot in the shared memory (by the eBPF monitor, or the
    local count where that reads more, when it is not mapped; by the local count
    when neither answers), the recorded global count is below the global limit,
    and the work requests are within bounds; otherwise it returns NULL with
    [EPERM] and nothing is counted. *)
Theorem create_qp_follows_limits h pd a :
  pok h → live h → pd ≠ 0 →
  let o := x_driver x (CreateQp pd (Some a)) (drv h) in
  ∃ h', ibv_create_qp x pd (Some a) h = Ret (if verdict x h a then ret o else 0) h' ∧
    drv h' = (if verdict x h a then dstate o else drv h) ∧
    (verdict x h a = false →
       errno (hproc h') = EPERM ∧ hg h' = hg h ∧ pshm h' = pshm h) ∧
    (verdict x h a = true → ret o ≠ 0 → qp_count (hg h') = u32 (qp_count (hg h) + 1)).
Proof.
  intros Hok [He Hr] Hpd o.
  destruct (create_run x h pd a Hok He (Hr (CreateQp pd None)) Hpd)
    as (r & h' & Hrun & -> & _ & _ & Hd & Herr & Hmade). fold o in Hrun, Hd, Hmade.
  exists h'. split_and!; [done|done|..].
  - intros Hv. rw Hv in Hmade. destruct Hmade. auto.
  - intros Hv Hne. rw Hv (proj2 (Z.eqb_neq _ 0) Hne) in Hmade. destruct Hmade as [-> _]. done.
Qed.

(** With the library disabled every hook is the original verb: it returns what
    the driver returns and nothing else of the state moves; and a verb that
    libibverbs does not have fails with [ENOSYS] whether or not the library is
    enabled. *)
Theorem disabled_hooks_pass_through h v :
  pok h →
  (enabled h = false → real h (symbol v) = true → hook v h = call x v h) ∧
  (real h (symbol v) = false →
   ∃ h', hook v h = Ret (failure v) h' ∧ quiet h h' ∧ errno (hproc h') = ENOSYS).
Proof.
  intros Hok.
  assert (Hh : ∀ body, (enabled h = false → real h (symbol v) = true →
      hooked x (symbol v) v (failure v) body h = call x v h) ∧
    (real h (symbol v) = false → ∃ h', hooked x (symbol v) v (failure v) body h = Ret (failure v) h' ∧
      quiet h h' ∧ errno (hproc h') = ENOSYS)).
  { intros body. unfold hooked, once. run. rw (pk_once _ Hok). cbn. split.
    - intros -> ->. done.
    - intros Hr. rw Hr orb_true_r. apply fail_with_run. }
  destruct v; apply Hh.
Qed.
End Ops.

(** ** Examples *)

Lemma example_pok n : 0 < n → pok (example_hooks n).
Proof.
  intros Hn. split; [apply example_hooks_ok|intros _; apply Shm.shm_fresh_ready|done|done].
Qed.

Lemma example_plive n : live (example_hooks n).
Proof. by split. Qed.

Lemma example_remapped n m : hooks_ok ((example_hooks n) <| pshm := m |>).
Proof. by destruct (example_hooks_ok n); split. Qed.

Definition example_attr : ibv_qp_init_attr := mk_attr IBV_QPT_RC 16 16.

Lemma example_empty n : Shm.table (Shm.shm (pshm (example_hooks n))) = ∅.
Proof. apply Shm.table_data_zero. Qed.

Lemma process_qp_limit_holds_witness :
  ∃ rs h', run_hooks toy [CreateQp 1 (Some example_attr); RegMr 1 0 64 7; DestroyQp 1000]
      (example_hooks 100) = Ret rs h' ∧
    Z.of_nat (drv h') ≤ 100.
Proof.
  destruct (process_qp_limit_holds toy Z.of_nat toy_counts (example_hooks 100)
    [CreateQp 1 (Some example_attr); RegMr 1 0 64 7; DestroyQp 1000]) as (rs & h' & H & _ & _ & Hl & _).
  - by apply example_pok.
  - apply example_plive.
  - by split.
  - repeat constructor; try done.
  - exists rs, h'. exact (conj H Hl).
Defined.

(** A process whose slot says 100 QPs, the limit. *)
Lemma example_at_limit :
  ∃ m, pok ((example_hooks 100) <| pshm := m |>) ∧ Shm.shm_data_ptr m = true ∧
    Shm.table (Shm.shm m) !! 100 = Some (Shm.mk_usage 100 0 0).
Proof.
  pose proof (Shm.shm_fresh_ready (λ _, (0, 0))) as Hr.
  destruct (Shm.update_insert _ 100 (Shm.mk_usage 100 0 0) Hr) as (m & _ & Hr' & Ht & _);
    [done|right; by rw Shm.table_data_zero|].
  exists m. split_and!; [|apply (Shm.ready_ptr _ Hr')|by rw Ht lookup_insert_eq].
  split; [apply example_remapped|by intros _|done|done].
Qed.

Lemma destroyed_qps_still_count_witness :
  ∃ h rs h' h'', run_hooks toy [DestroyQp 1000; DestroyQp 1001] h = Ret rs h' ∧
    ibv_create_qp toy 1 (Some example_attr) h' = Ret 0 h''.
Proof.
  destruct example_at_limit as (m & Hok & Hp & Ht).
  destruct (destroyed_qps_still_count toy ((example_hooks 100) <| pshm := m |>)
    (Shm.mk_usage 100 0 0) [DestroyQp 1000; DestroyQp 1001] 1 example_attr Hok)
    as (rs & h' & h'' & H1 & H2 & _); [by split|reflexivity|exact Hp|exact Ht|done|by repeat constructor|done|].
  exists ((example_hooks 100) <| pshm := m |>), rs, h', h''. exact (conj H1 H2).
Defined.

Lemma mr_limit_never_advances_witness :
  ∃ rs h', run_hooks toy [RegMr 1 0 64 7; RegMr 1 0 64 7] (example_hooks 100) = Ret rs h' ∧
    mr_verdict toy h' 64 = mr_verdict toy (example_hooks 100) 64.
Proof.
  apply (mr_limit_never_advances toy (example_hooks 100) [RegMr 1 0 64 7; RegMr 1 0 64 7] 64).
  - by apply example_pok.
  - apply example_plive.
  - reflexivity.
  - by repeat constructor.
Defined.

Lemma create_qp_follows_limits_witness :
  ∃ h', ibv_create_qp toy 1 (Some example_attr) (example_hooks 100) =
      Ret (if verdict toy (example_hooks 100) example_attr then 1000 else 0) h'.
Proof.
  destruct (create_qp_follows_limits toy (example_hooks 100) 1 example_attr) as (h' & H & _);
    [by apply example_pok|apply example_plive|done|]. exists h'. exact H.
Defined.

Lemma disabled_hooks_pass_through_witness :
  hook toy (AllocPd 9) ((example_hooks 100) <| pol := policy_start (client_start (start example_system) tt) (λ _, 0) |>) =
    call toy (AllocPd 9) ((example_hooks 100) <| pol := policy_start (client_start (start example_system) tt) (λ _, 0) |>).
Proof.
  apply (disabled_hooks_pass_through toy
    ((example_hooks 100) <| pol := policy_start (client_start (start example_system) tt) (λ _, 0) |>) (AllocPd 9));
    [|reflexivity|reflexivity].
  split; [|intros _; apply Shm.shm_fresh_ready|done|done]. split; try done. apply start_ok.
Defined.

(** The process table is full of other processes. *)
Lemma full_table_lifts_limit_witness :
  ∃ h rs h', run_hooks toy [CreateQp 1 (Some example_attr); CreateQp 1 (Some example_attr)] h = Ret rs h' ∧
    count_source toy h' = 0.
Proof.
  destruct (full_table_lifts_limit toy ((example_hooks 5000)
    <| pshm := Shm.mk_state 3 true Shm.full_data (Shm.mk_os 3 0 true 0) (λ _, (0, 0)) |>)
    [CreateQp 1 (Some example_attr); CreateQp 1 (Some example_attr)]) as (rs & h' & H & Hc & _).
  - split; [apply example_remapped| |done|done]. intros _. split; [done|done|apply Shm.full_data_ok].
  - by split.
  - reflexivity.
  - apply (Shm.full_data_table 5000). done.
  - apply (Shm.full_data_table 5000).
  - reflexivity.
  - repeat constructor; try done; by eexists.
  - eexists _, rs, h'. exact (conj H Hc).
Defined.
End HooksLimits.
